(** * Order book matching engine: model of the order / trade records, the
      in-memory book, the matcher and the HTTP command handlers.

    Sources embedded here:
      - shared/models/order.py          (Order, mark_as_filled,
                                         mark_as_cancelled, update_trade)
      - shared/models/trade.py          (Trade, mark_as_settled)
      - services/order_management/order_book.py   (OrderBook)
      - services/order_management/views.py        (OrderViewSet)
      - shared/serializers/order_serializers.py   (PlaceOrderSerializer,
                                                   ModifyOrderSerializer)
      - shared/utils/validators.py                (validate_order_data)
      - services/trade_service/views.py (TradeSettlementView,
                                         OrderBookSnapshotView)

    Encoding conventions:
      - a price is a [Decimal] with exactly two decimal places (the model
        field is [DecimalField(decimal_places=2)] and the serializers only
        let multiples of 0.01 through); it is held as the integer number of
        hundredths, a [Z]; the price of a request, which the serializers
        check as it is written, is held with its coefficient and
        exponent;
      - [average_traded_price] is the result of [Decimal] arithmetic under
        the default context; it is held by its numeric value, a [Q], and
        every arithmetic operation rounds to 28 significant digits,
        half-even, as the default context does;
      - a UUID is a [Z];
      - Python objects that sit in the book are held by value inside the
        price-level lists. *)

From Stdlib Require Import ZArith QArith Qround Qabs Qfield Qpower Lia String
  List.
From stdpp Require Import base option list sorting gmap strings.

Local Open Scope Z_scope.

(* ===================================================================== *)
(** ** Decimal arithmetic (Python's [decimal], default context) *)
(* ===================================================================== *)

Module PyDecimal.

(** Number of decimal digits of a positive integer. *)
Fixpoint digits_fuel (fuel : nat) (n : Z) : Z :=
  match fuel with
  | O => 1
  | S f => if n <? 10 then 1 else 1 + digits_fuel f (n / 10)
  end.

Definition ndigits (n : Z) : Z := digits_fuel (Z.to_nat (Z.log2 n)) n.

(** Round a non-negative rational to the nearest integer, ties to even
    ([ROUND_HALF_EVEN]). *)
Definition round_half_even (x : Q) : Z :=
  let f := Qfloor x in
  match Qcompare (x - inject_Z f) (1 # 2) with
  | Lt => f
  | Gt => f + 1
  | Eq => if Z.even f then f else f + 1
  end.

(** [round_sig prec x]: the decimal with at most [prec] significant digits
    nearest to [x], ties to even.  This is what the context does to the
    exact result of [+], [*] and [/].  The fraction is taken in lowest
    terms, so the result depends on the value of [x] only. *)
Definition round_sig (prec : Z) (x : Q) : Q :=
  let x := Qred x in
  if Qeq_bool x 0 then 0%Q
  else
    let a := Qabs x in
    let k := ndigits (Qnum a) - ndigits (Zpos (Qden a)) in
    let adj := if Qle_bool (10 ^ k) a then k else k - 1 in
    let e := adj - prec + 1 in
    let c := round_half_even (a / 10 ^ e) in
    Qred ((if Qle_bool 0 x then 1 else -1) * inject_Z c * 10 ^ e).

(** [getcontext().prec] *)
Definition prec : Z := 28.

Definition mul (a b : Q) : Q := round_sig prec (a * b).
Definition add (a b : Q) : Q := round_sig prec (a + b).
Definition div (a b : Q) : Q := round_sig prec (a / b).

(** [Decimal.quantize(Decimal('0.01'))]: the value a
    [DecimalField(decimal_places=2)] column holds. *)
Definition quantize_2dp (x : Q) : Q :=
  Qred ((if Qle_bool 0 x then 1 else -1)
        * inject_Z (round_half_even (Qabs x * 100)) / 100).

(** A price held in hundredths, as a decimal value. *)
Definition of_cents (c : Z) : Q := Qred (inject_Z c / 100).

(** A [Decimal] as it is written: the coefficient, with the sign, and the
    exponent of [as_tuple()].  [Decimal('101.5')] is [mkDecimal 1015 (-1)],
    [Decimal('1.000')] is [mkDecimal 1000 (-3)], [Decimal('1E+2')] is
    [mkDecimal 1 2]. *)
Record Decimal := mkDecimal {
  coefficient : Z;
  exponent : Z
}.

(** [len(digittuple)]: the zero coefficient has the one digit 0. *)
Definition digit_count (d : Decimal) : Z := ndigits (Z.abs (coefficient d)).

End PyDecimal.


(* ===================================================================== *)
(** ** shared/models/order.py, shared/models/trade.py *)
(* ===================================================================== *)

(** [Order.STATUS_CHOICES] *)
Inductive Status :=
| PENDING | ACTIVE | PARTIALLY_FILLED | FILLED | CANCELLED | REJECTED.

Definition status_eqb (a b : Status) : bool :=
  match a, b with
  | PENDING, PENDING | ACTIVE, ACTIVE | PARTIALLY_FILLED, PARTIALLY_FILLED
  | FILLED, FILLED | CANCELLED, CANCELLED | REJECTED, REJECTED => true
  | _, _ => false
  end.

(** The status as the API spells it. *)
Definition status_str (s : Status) : string :=
  match s with
  | PENDING => "PENDING" | ACTIVE => "ACTIVE"
  | PARTIALLY_FILLED => "PARTIALLY_FILLED" | FILLED => "FILLED"
  | CANCELLED => "CANCELLED" | REJECTED => "REJECTED"
  end.

(** The fields of [class Order(models.Model)].  [side] is [1] for a buy and
    [-1] for a sell. *)
Record Order := mkOrder {
  order_id : Z;
  side : Z;
  quantity : Z;
  price : Z;
  remaining_quantity : Z;
  traded_quantity : Z;
  average_traded_price : Q;
  status : Status;
  is_active : bool;
  created_at : Z;
  updated_at : Z;
  user_id : option Z
}.

Definition set_price (v : Z) (o : Order) : Order :=
  mkOrder (order_id o) (side o) (quantity o) v (remaining_quantity o)
    (traded_quantity o) (average_traded_price o) (status o) (is_active o)
    (created_at o) (updated_at o) (user_id o).

Definition set_remaining_quantity (v : Z) (o : Order) : Order :=
  mkOrder (order_id o) (side o) (quantity o) (price o) v
    (traded_quantity o) (average_traded_price o) (status o) (is_active o)
    (created_at o) (updated_at o) (user_id o).

Definition set_traded_quantity (v : Z) (o : Order) : Order :=
  mkOrder (order_id o) (side o) (quantity o) (price o) (remaining_quantity o)
    v (average_traded_price o) (status o) (is_active o)
    (created_at o) (updated_at o) (user_id o).

Definition set_average_traded_price (v : Q) (o : Order) : Order :=
  mkOrder (order_id o) (side o) (quantity o) (price o) (remaining_quantity o)
    (traded_quantity o) v (status o) (is_active o)
    (created_at o) (updated_at o) (user_id o).

Definition set_status (v : Status) (o : Order) : Order :=
  mkOrder (order_id o) (side o) (quantity o) (price o) (remaining_quantity o)
    (traded_quantity o) (average_traded_price o) v (is_active o)
    (created_at o) (updated_at o) (user_id o).

Definition set_is_active (v : bool) (o : Order) : Order :=
  mkOrder (order_id o) (side o) (quantity o) (price o) (remaining_quantity o)
    (traded_quantity o) (average_traded_price o) (status o) v
    (created_at o) (updated_at o) (user_id o).

Definition set_updated_at (v : Z) (o : Order) : Order :=
  mkOrder (order_id o) (side o) (quantity o) (price o) (remaining_quantity o)
    (traded_quantity o) (average_traded_price o) (status o) (is_active o)
    (created_at o) v (user_id o).

(** The fields of [class Trade(models.Model)]; the two foreign keys are the
    primary keys of the orders. *)
Record Trade := mkTrade {
  trade_id : Z;
  trade_price : Z;
  trade_quantity : Z;
  bid_order : Z;
  ask_order : Z;
  execution_timestamp : Z;
  trade_created_at : Z;
  is_settled : bool;
  settlement_timestamp : option Z
}.

(** A [Trade] instance in memory: the model fields plus whatever other
    attribute was assigned on the instance.  Only [settled_at] is ever
    assigned (by the settlement view); it is no model field, so [save]
    does not write it. *)
Record TradeObj := mkTradeObj {
  fields : Trade;
  attr_settled_at : option Z
}.

(** The relational store behind the two models, the clock behind
    [timezone.now()] and the supply behind [uuid.uuid4()]. *)
Record Store := mkStore {
  orders_tbl : list Order;
  trades_tbl : list Trade;
  clock : Z;
  uuid_supply : Z
}.

Definition set_orders_tbl (v : list Order) (st : Store) : Store :=
  mkStore v (trades_tbl st) (clock st) (uuid_supply st).

Definition set_trades_tbl (v : list Trade) (st : Store) : Store :=
  mkStore (orders_tbl st) v (clock st) (uuid_supply st).

Definition set_uuid_supply (v : Z) (st : Store) : Store :=
  mkStore (orders_tbl st) (trades_tbl st) (clock st) v.

(** Time passing between two commands. *)
Definition tick (st : Store) : Store :=
  mkStore (orders_tbl st) (trades_tbl st) (clock st + 1) (uuid_supply st).

Inductive Exn :=
| ValueError (msg : string)
| KeyError (key : Z).

Inductive outcome (A : Type) :=
| Ok (a : A)
| Raise (e : Exn).
Arguments Ok {A} a.
Arguments Raise {A} e.

(** Write a row by primary key: replace the row with this key, or append. *)
Fixpoint upsert (o : Order) (rows : list Order) : list Order :=
  match rows with
  | [] => [o]
  | r :: rs => if order_id r =? order_id o then o :: rs else r :: upsert o rs
  end.

(** What the [orders] table keeps of an instance: the average goes into a
    two-decimal column. *)
Definition to_row (o : Order) : Order :=
  set_average_traded_price (PyDecimal.quantize_2dp (average_traded_price o)) o.

(** [Order.save]: [updated_at] is [auto_now]; the row is written.

    Two things the database does are not part of this function, and the
    statements that depend on them say so in their hypotheses: an instance
    that has no row yet is inserted with [created_at] set anew
    ([auto_now_add]; [Order_objects_create] below builds the instance with
    the time of its insertion), and a negative [quantity],
    [remaining_quantity] or [traded_quantity] is refused by the check
    constraint of a [PositiveIntegerField]. *)
Definition Order_save (self : Order) (st : Store) : Order * Store :=
  let self := set_updated_at (clock st) self in
  (self, set_orders_tbl (upsert (to_row self) (orders_tbl st)) st).

(** [Order.mark_as_filled] *)
Definition mark_as_filled (self : Order) (st : Store) : Order * Store :=
  let self := set_status FILLED self in
  let self := set_is_active false self in
  let self := set_remaining_quantity 0 self in
  let self := set_updated_at (clock st) self in
  Order_save self st.

(** [Order.mark_as_cancelled] *)
Definition mark_as_cancelled (self : Order) (st : Store) : Order * Store :=
  let self := set_status CANCELLED self in
  let self := set_is_active false self in
  let self := set_remaining_quantity 0 self in
  let self := set_updated_at (clock st) self in
  Order_save self st.

(** [Order.update_trade].  The result carries the instance and the store as
    they are when the call returns or raises. *)
Definition update_trade (trade_quantity : Z) (trade_price : Z)
    (self : Order) (st : Store) : outcome unit * Order * Store :=
  if trade_quantity >? remaining_quantity self then
    (Raise (ValueError "Trade quantity exceeds remaining quantity"), self, st)
  else
    (* Update quantities *)
    let self := set_remaining_quantity
                  (remaining_quantity self - trade_quantity) self in
    let self := set_traded_quantity
                  (traded_quantity self + trade_quantity) self in
    (* Calculate new average price *)
    let self :=
      if traded_quantity self >? 0 then
        let total_value :=
          PyDecimal.add
            (PyDecimal.mul (average_traded_price self)
               (inject_Z (traded_quantity self - trade_quantity)))
            (PyDecimal.mul (PyDecimal.of_cents trade_price)
               (inject_Z trade_quantity)) in
        set_average_traded_price
          (PyDecimal.div total_value (inject_Z (traded_quantity self))) self
      else self in
    (* Update status *)
    let '(self, st) :=
      if remaining_quantity self =? 0 then mark_as_filled self st
      else if traded_quantity self >? 0 then
        (set_status PARTIALLY_FILLED self, st)
      else (self, st) in
    let self := set_updated_at (clock st) self in
    let '(self, st) := Order_save self st in
    (Ok tt, self, st).

(** [Trade.objects.create(price=..., quantity=..., bid_order=...,
    ask_order=...)].

    The two foreign keys are taken to name rows of the orders table, as
    they do for every order that came in through [create]; the database
    refuses the insert otherwise, and the statements about the trades that
    are recorded ask for these rows ([rows_present]).  The clock is one
    value for the whole of a command. *)
Definition Trade_objects_create (p q : Z) (bid ask : Order) (st : Store)
    : Trade * Store :=
  let t := mkTrade (uuid_supply st) p q (order_id bid) (order_id ask)
             (clock st) (clock st) false None in
  (t, set_uuid_supply (uuid_supply st + 1)
        (set_trades_tbl (trades_tbl st ++ [t]) st)).

(** Write a trade row by primary key. *)
Fixpoint upsert_trade (t : Trade) (rows : list Trade) : list Trade :=
  match rows with
  | [] => [t]
  | r :: rs =>
      if trade_id r =? trade_id t then t :: rs else r :: upsert_trade t rs
  end.

(** [Trade.save] *)
Definition Trade_save (self : TradeObj) (st : Store) : TradeObj * Store :=
  (self, set_trades_tbl (upsert_trade (fields self) (trades_tbl st)) st).

Definition set_is_settled (v : bool) (self : TradeObj) : TradeObj :=
  let f := fields self in
  mkTradeObj
    (mkTrade (trade_id f) (trade_price f) (trade_quantity f) (bid_order f)
       (ask_order f) (execution_timestamp f) (trade_created_at f)
       v (settlement_timestamp f))
    (attr_settled_at self).

Definition set_settlement_timestamp (v : option Z) (self : TradeObj)
    : TradeObj :=
  let f := fields self in
  mkTradeObj
    (mkTrade (trade_id f) (trade_price f) (trade_quantity f) (bid_order f)
       (ask_order f) (execution_timestamp f) (trade_created_at f)
       (is_settled f) v)
    (attr_settled_at self).

Definition set_attr_settled_at (v : option Z) (self : TradeObj) : TradeObj :=
  mkTradeObj (fields self) v.

(** [Trade.mark_as_settled] *)
Definition mark_as_settled (self : TradeObj) (st : Store)
    : TradeObj * Store :=
  let self := set_is_settled true self in
  let self := set_settlement_timestamp (Some (clock st)) self in
  Trade_save self st.

(* ===================================================================== *)
(** ** services/order_management/order_book.py *)
(* ===================================================================== *)

(** [class OrderBook].  [order_lookup] maps an order id to
    [(price, side, order)]; the third component is the very object that
    sits in the price-level list (both are set by [_add_buy_order] /
    [_add_sell_order] and nowhere else), so the model keeps the object in
    the list only and finds it there by primary key. *)
Record OrderBook := mkBook {
  bids : gmap Z (list Order);
  asks : gmap Z (list Order);
  order_lookup : gmap Z (Z * Z);
  best_bid : option Z;
  best_ask : option Z;
  bid_prices : gset Z;
  ask_prices : gset Z;
  orders_processed : Z;
  trades_created : Z
}.

(** [OrderBook.__init__] *)
Definition empty_book : OrderBook :=
  mkBook ∅ ∅ ∅ None None ∅ ∅ 0 0.

Definition set_bids (v : gmap Z (list Order)) (b : OrderBook) : OrderBook :=
  mkBook v (asks b) (order_lookup b) (best_bid b) (best_ask b)
    (bid_prices b) (ask_prices b) (orders_processed b) (trades_created b).

Definition set_asks (v : gmap Z (list Order)) (b : OrderBook) : OrderBook :=
  mkBook (bids b) v (order_lookup b) (best_bid b) (best_ask b)
    (bid_prices b) (ask_prices b) (orders_processed b) (trades_created b).

Definition set_order_lookup (v : gmap Z (Z * Z)) (b : OrderBook)
    : OrderBook :=
  mkBook (bids b) (asks b) v (best_bid b) (best_ask b)
    (bid_prices b) (ask_prices b) (orders_processed b) (trades_created b).

Definition set_best_bid (v : option Z) (b : OrderBook) : OrderBook :=
  mkBook (bids b) (asks b) (order_lookup b) v (best_ask b)
    (bid_prices b) (ask_prices b) (orders_processed b) (trades_created b).

Definition set_best_ask (v : option Z) (b : OrderBook) : OrderBook :=
  mkBook (bids b) (asks b) (order_lookup b) (best_bid b) v
    (bid_prices b) (ask_prices b) (orders_processed b) (trades_created b).

Definition set_bid_prices (v : gset Z) (b : OrderBook) : OrderBook :=
  mkBook (bids b) (asks b) (order_lookup b) (best_bid b) (best_ask b)
    v (ask_prices b) (orders_processed b) (trades_created b).

Definition set_ask_prices (v : gset Z) (b : OrderBook) : OrderBook :=
  mkBook (bids b) (asks b) (order_lookup b) (best_bid b) (best_ask b)
    (bid_prices b) v (orders_processed b) (trades_created b).

Definition set_metrics (n m : Z) (b : OrderBook) : OrderBook :=
  mkBook (bids b) (asks b) (order_lookup b) (best_bid b) (best_ask b)
    (bid_prices b) (ask_prices b) n m.

(** [max(s) if s else None], [min(s) if s else None] *)
Definition set_max (s : gset Z) : option Z :=
  match elements s with
  | [] => None
  | x :: xs => Some (foldr Z.max x xs)
  end.

Definition set_min (s : gset Z) : option Z :=
  match elements s with
  | [] => None
  | x :: xs => Some (foldr Z.min x xs)
  end.

(** [_update_best_bid], [_update_best_ask] *)
Definition _update_best_bid (b : OrderBook) : OrderBook :=
  set_best_bid (set_max (bid_prices b)) b.

Definition _update_best_ask (b : OrderBook) : OrderBook :=
  set_best_ask (set_min (ask_prices b)) b.

(** [_add_buy_order] *)
Definition _add_buy_order (order : Order) (b : OrderBook) : OrderBook :=
  let price := price order in
  let b :=
    match bids b !! price with
    | None => set_bid_prices ({[price]} ∪ bid_prices b)
                (set_bids (<[price := []]> (bids b)) b)
    | Some _ => b
    end in
  let b := set_bids
             (<[price := default [] (bids b !! price) ++ [order]]> (bids b))
             b in
  let b := set_order_lookup
             (<[order_id order := (price, 1)]> (order_lookup b)) b in
  match best_bid b with
  | None => set_best_bid (Some price) b
  | Some bb => if price >? bb then set_best_bid (Some price) b else b
  end.

(** [_add_sell_order] *)
Definition _add_sell_order (order : Order) (b : OrderBook) : OrderBook :=
  let price := price order in
  let b :=
    match asks b !! price with
    | None => set_ask_prices ({[price]} ∪ ask_prices b)
                (set_asks (<[price := []]> (asks b)) b)
    | Some _ => b
    end in
  let b := set_asks
             (<[price := default [] (asks b !! price) ++ [order]]> (asks b))
             b in
  let b := set_order_lookup
             (<[order_id order := (price, -1)]> (order_lookup b)) b in
  match best_ask b with
  | None => set_best_ask (Some price) b
  | Some ba => if price <? ba then set_best_ask (Some price) b else b
  end.

(** [queryset.order_by(...)]: a stable insertion sort; rows that agree on
    the sort key keep their table order. *)
Fixpoint insert_by (le : Order → Order → bool) (x : Order) (l : list Order)
    : list Order :=
  match l with
  | [] => [x]
  | y :: ys => if le x y then x :: y :: ys else y :: insert_by le x ys
  end.

Definition order_by (le : Order → Order → bool) (l : list Order)
    : list Order :=
  foldr (insert_by le) [] l.

(** [order_by('price', 'created_at')] and [order_by('-price', 'created_at')] *)
Definition price_asc_created (a b : Order) : bool :=
  (price a <? price b)
  || ((price a =? price b) && (created_at a <=? created_at b)).

Definition price_desc_created (a b : Order) : bool :=
  (price b <? price a)
  || ((price a =? price b) && (created_at a <=? created_at b)).

Definition status_in (s : Status) (l : list Status) : bool :=
  existsb (status_eqb s) l.

(** The query of [_load_matching_orders]. *)
Definition matching_rows (new_order : Order) (st : Store) : list Order :=
  if side new_order =? 1 then
    order_by price_asc_created
      (List.filter
         (λ r, (side r =? -1) && is_active r
               && status_in (status r) [ACTIVE; PARTIALLY_FILLED]
               && (price r <=? price new_order)
               && negb (order_id r =? order_id new_order))
         (orders_tbl st))
  else
    order_by price_desc_created
      (List.filter
         (λ r, (side r =? 1) && is_active r
               && status_in (status r) [ACTIVE; PARTIALLY_FILLED]
               && (price new_order <=? price r)
               && negb (order_id r =? order_id new_order))
         (orders_tbl st)).

(** The body of the loop of [_load_matching_orders]. *)
Definition load_one (b : OrderBook) (order : Order) : OrderBook :=
  match order_lookup b !! order_id order with
  | Some _ => b
  | None =>
      if side order =? 1 then _add_buy_order order b
      else _add_sell_order order b
  end.

(** [_load_matching_orders] *)
Definition _load_matching_orders (new_order : Order) (b : OrderBook)
    (st : Store) : OrderBook :=
  foldl load_one b (matching_rows new_order st).

(** What one pass through the body of a matching loop does. *)
Inductive step_result :=
| StepExit
| StepSkip (b : OrderBook)
| StepTrade (t : Trade) (o : Order) (b : OrderBook) (st : Store)
| StepRaise (e : Exn) (o : Order) (b : OrderBook) (st : Store).

(** One iteration of the [while] loop of [_match_buy_order]: the loop
    condition, then the body. *)
Definition _match_buy_step (buy_order : Order) (b : OrderBook) (st : Store)
    : step_result :=
  match best_ask b with
  | None => StepExit
  | Some pa =>
    if (remaining_quantity buy_order >? 0) && negb (pa =? 0)
       && (price buy_order >=? pa)
    then
      match default [] (asks b !! pa) with
      | [] => StepSkip (_update_best_ask b)
      | sell_order :: rest =>
        let trade_quantity :=
          Z.min (remaining_quantity buy_order)
                (remaining_quantity sell_order) in
        let '(trade, st) :=
          Trade_objects_create pa trade_quantity buy_order sell_order st in
        match update_trade trade_quantity pa buy_order st with
        | (Raise e, buy_order, st) => StepRaise e buy_order b st
        | (Ok _, buy_order, st) =>
          match update_trade trade_quantity pa sell_order st with
          | (Raise e, sell_order, st) =>
              StepRaise e buy_order
                (set_asks (<[pa := sell_order :: rest]> (asks b)) b) st
          | (Ok _, sell_order, st) =>
            if remaining_quantity sell_order =? 0 then
              (* ask_orders.pop(0) *)
              let b := set_asks (<[pa := rest]> (asks b)) b in
              match order_lookup b !! order_id sell_order with
              | None => StepRaise (KeyError (order_id sell_order))
                          buy_order b st
              | Some _ =>
                let b := set_order_lookup
                           (delete (order_id sell_order) (order_lookup b))
                           b in
                match rest with
                | [] =>
                  let b := set_asks (delete pa (asks b)) b in
                  let b := set_ask_prices (ask_prices b ∖ {[pa]}) b in
                  StepTrade trade buy_order (_update_best_ask b) st
                | _ :: _ => StepTrade trade buy_order b st
                end
              end
            else
              StepTrade trade buy_order
                (set_asks (<[pa := sell_order :: rest]> (asks b)) b) st
          end
        end
      end
    else StepExit
  end.

(** One iteration of the [while] loop of [_match_sell_order]. *)
Definition _match_sell_step (sell_order : Order) (b : OrderBook) (st : Store)
    : step_result :=
  match best_bid b with
  | None => StepExit
  | Some pb =>
    if (remaining_quantity sell_order >? 0) && negb (pb =? 0)
       && (price sell_order <=? pb)
    then
      match default [] (bids b !! pb) with
      | [] => StepSkip (_update_best_bid b)
      | buy_order :: rest =>
        let trade_quantity :=
          Z.min (remaining_quantity sell_order)
                (remaining_quantity buy_order) in
        let '(trade, st) :=
          Trade_objects_create pb trade_quantity buy_order sell_order st in
        match update_trade trade_quantity pb sell_order st with
        | (Raise e, sell_order, st) => StepRaise e sell_order b st
        | (Ok _, sell_order, st) =>
          match update_trade trade_quantity pb buy_order st with
          | (Raise e, buy_order, st) =>
              StepRaise e sell_order
                (set_bids (<[pb := buy_order :: rest]> (bids b)) b) st
          | (Ok _, buy_order, st) =>
            if remaining_quantity buy_order =? 0 then
              (* bid_orders.pop(0) *)
              let b := set_bids (<[pb := rest]> (bids b)) b in
              match order_lookup b !! order_id buy_order with
              | None => StepRaise (KeyError (order_id buy_order))
                          sell_order b st
              | Some _ =>
                let b := set_order_lookup
                           (delete (order_id buy_order) (order_lookup b))
                           b in
                match rest with
                | [] =>
                  let b := set_bids (delete pb (bids b)) b in
                  let b := set_bid_prices (bid_prices b ∖ {[pb]}) b in
                  StepTrade trade sell_order (_update_best_bid b) st
                | _ :: _ => StepTrade trade sell_order b st
                end
              end
            else
              StepTrade trade sell_order
                (set_bids (<[pb := buy_order :: rest]> (bids b)) b) st
          end
        end
      end
    else StepExit
  end.

(** The [while] loop around a step.  [None] stands for a loop that does not
    come to an end within [fuel] iterations. *)
Fixpoint match_loop (step : Order → OrderBook → Store → step_result)
    (fuel : nat) (order : Order) (b : OrderBook) (st : Store)
    (trades : list Trade)
    : option (outcome (list Trade) * Order * OrderBook * Store) :=
  match fuel with
  | O => None
  | S fuel =>
    match step order b st with
    | StepExit => Some (Ok trades, order, b, st)
    | StepSkip b => match_loop step fuel order b st trades
    | StepTrade t order b st =>
        match_loop step fuel order b st (trades ++ [t])
    | StepRaise e order b st => Some (Raise e, order, b, st)
    end
  end.

(** A bound on the iterations of a matching loop that comes to an end: every
    trade either takes at least one unit off the incoming order or pops a
    resting order, and an empty level is skipped at most once in a row. *)
Definition level_weight (l : list Order) : nat :=
  foldr (λ o n, (1 + Z.abs_nat (remaining_quantity o) + n)%nat) O l.

Definition side_weight (levels : gmap Z (list Order)) : nat :=
  map_fold (λ _ l n, (level_weight l + n)%nat) O levels.

Definition match_fuel (order : Order) (levels : gmap Z (list Order)) : nat :=
  (2 + 2 * (Z.to_nat (remaining_quantity order) + side_weight levels))%nat.

(** [_match_buy_order], [_match_sell_order] *)
Definition _match_buy_order (buy_order : Order) (b : OrderBook) (st : Store)
    : option (outcome (list Trade) * Order * OrderBook * Store) :=
  match_loop _match_buy_step (match_fuel buy_order (asks b))
    buy_order b st [].

Definition _match_sell_order (sell_order : Order) (b : OrderBook)
    (st : Store)
    : option (outcome (list Trade) * Order * OrderBook * Store) :=
  match_loop _match_sell_step (match_fuel sell_order (bids b))
    sell_order b st [].

(** [add_order].  An exception out of the matcher is caught and the initial,
    empty [trades] list is returned. *)
Definition add_order (order : Order) (b : OrderBook) (st : Store)
    : option (list Trade * Order * OrderBook * Store) :=
  let b := _load_matching_orders order b st in
  if side order =? 1 then
    match _match_buy_order order b st with
    | None => None
    | Some (Raise _, order, b, st) => Some ([], order, b, st)
    | Some (Ok trades, order, b, st) =>
      let b := if remaining_quantity order >? 0
               then _add_buy_order order b else b in
      let b := set_metrics (orders_processed b + 1)
                 (trades_created b + Z.of_nat (length trades)) b in
      Some (trades, order, b, st)
    end
  else
    match _match_sell_order order b st with
    | None => None
    | Some (Raise _, order, b, st) => Some ([], order, b, st)
    | Some (Ok trades, order, b, st) =>
      let b := if remaining_quantity order >? 0
               then _add_sell_order order b else b in
      let b := set_metrics (orders_processed b + 1)
                 (trades_created b + Z.of_nat (length trades)) b in
      Some (trades, order, b, st)
    end.

(** [OrderBook._update_order_status]: the status an order gets from its
    remaining quantity alone. *)
Definition _update_order_status (order : Order) : Order :=
  if remaining_quantity order =? 0 then
    set_is_active false (set_status FILLED order)
  else
    set_is_active true (set_status PARTIALLY_FILLED order).

(** [order_list.remove(order)]: model instances compare by primary key; the
    first instance with that key is taken out ([None]: [ValueError]). *)
Fixpoint list_remove_pk (oid : Z) (l : list Order)
    : option (Order * list Order) :=
  match l with
  | [] => None
  | o :: l' =>
    if order_id o =? oid then Some (o, l')
    else match list_remove_pk oid l' with
         | None => None
         | Some (x, r) => Some (x, o :: r)
         end
  end.

(** [cancel_order].  The instance that is marked and saved is the one
    [order_lookup] holds; in a level that holds one instance per id
    ([book_wf]) that is the instance [remove] takes out of the list, and
    this is how it is found here.  The statements about [cancel_order] are
    about such books. *)
Definition cancel_order (oid : Z) (b : OrderBook) (st : Store)
    : outcome bool * OrderBook * Store :=
  match order_lookup b !! oid with
  | None => (Ok false, b, st)
  | Some (price, side) =>
    if side =? 1 then
      match bids b !! price with
      | None => (Raise (KeyError price), b, st)
      | Some order_list =>
        match list_remove_pk oid order_list with
        | None =>
            (Raise (ValueError "list.remove(x): x not in list"), b, st)
        | Some (order, order_list) =>
          let b := set_bids (<[price := order_list]> (bids b)) b in
          let b :=
            match order_list with
            | [] =>
              let b := set_bids (delete price (bids b)) b in
              let b := set_bid_prices (bid_prices b ∖ {[price]}) b in
              if decide (best_bid b = Some price) then _update_best_bid b
              else b
            | _ :: _ => b
            end in
          let b := set_order_lookup (delete oid (order_lookup b)) b in
          let order := set_status CANCELLED order in
          let order := set_is_active false order in
          let '(_, st) := Order_save order st in
          (Ok true, b, st)
        end
      end
    else
      match asks b !! price with
      | None => (Raise (KeyError price), b, st)
      | Some order_list =>
        match list_remove_pk oid order_list with
        | None =>
            (Raise (ValueError "list.remove(x): x not in list"), b, st)
        | Some (order, order_list) =>
          let b := set_asks (<[price := order_list]> (asks b)) b in
          let b :=
            match order_list with
            | [] =>
              let b := set_asks (delete price (asks b)) b in
              let b := set_ask_prices (ask_prices b ∖ {[price]}) b in
              if decide (best_ask b = Some price) then _update_best_ask b
              else b
            | _ :: _ => b
            end in
          let b := set_order_lookup (delete oid (order_lookup b)) b in
          let order := set_status CANCELLED order in
          let order := set_is_active false order in
          let '(_, st) := Order_save order st in
          (Ok true, b, st)
        end
      end
  end.

(* ===================================================================== *)
(** ** services/order_management/views.py, services/trade_service/views.py *)
(* ===================================================================== *)

(** Values in a response body.  [JFloat q] is [float(d)] for the decimal
    [d] of value [q]; [JDecimal c] is a two-place decimal rendered by a
    serializer's [DecimalField]. *)
#[local] Set Warnings "-register-all".

Inductive JVal :=
| JNull
| JBool (b : bool)
| JInt (z : Z)
| JFloat (q : Q)
| JDecimal (hundredths : Z)
| JStr (s : string)
| JList (l : list JVal)
| JDict (d : list (string * JVal)).

Record Response := mkResponse {
  http_status : Z;
  body : list (string * JVal)
}.

(** [d.get(key)] on a response body. *)
Fixpoint body_get (key : string) (d : list (string * JVal)) : option JVal :=
  match d with
  | [] => None
  | (k, v) :: d' => if String.eqb k key then Some v else body_get key d'
  end.

(** What a detached worker thread was started with. *)
Inductive Job :=
| ProcessOrder (order : Order)
| ProcessModified (order : Order).

(** The process: the global [order_book], the store and the worker threads
    that were started and have not run yet. *)
Record World := mkWorld {
  book : OrderBook;
  store : Store;
  pending : list Job
}.

(** The data of a place request; [None] is a missing field or data of
    which the field makes no value (for the price: text that is no number
    or is longer than 1000 characters, a NaN, an infinity).  The price is
    the finite [Decimal(str(data))] that the serializer's [DecimalField]
    builds from the data, as written: the JSON number [101.5] gives
    [Decimal('101.5')], the string ["1.000"] gives [Decimal('1.000')]. *)
Record PlaceRequest := mkPlaceRequest {
  req_side : option string;
  req_quantity : option Z;
  req_price : option PyDecimal.Decimal
}.

(** The data of a modify request. *)
Record ModifyRequest := mkModifyRequest {
  mod_order_id : option Z;
  mod_price : option PyDecimal.Decimal
}.

(** [rest_framework.fields.DecimalField.validate_precision] with
    [max_digits=10] and [decimal_places=2], hence [max_whole_digits=8]. *)
Definition validate_precision (value : PyDecimal.Decimal) : bool :=
  let len := PyDecimal.digit_count value in
  let exponent := PyDecimal.exponent value in
  let '(total_digits, whole_digits, decimal_places) :=
    if exponent >=? 0 then
      (* 1234500.0 *)
      (len + exponent, len + exponent, 0)
    else if len >? Z.abs exponent then
      (* 123.45 *)
      (len, len - Z.abs exponent, Z.abs exponent)
    else
      (* 0.001234 *)
      (Z.abs exponent, 0, Z.abs exponent) in
  (total_digits <=? 10) && (decimal_places <=? 2) && (whole_digits <=? 8).

(** The float [0.01] that the price fields are given as [min_value]: the
    double next to one hundredth, [5764607523034235 / 2^59], a little above
    it. *)
Definition float_0_01 : Q := 5764607523034235 # 576460752303423488.

(** [DecimalField(max_digits=10, decimal_places=2, min_value=0.01)] followed
    by the serializer's [validate_price]: the price in hundredths.  The
    field checks the precision of the number as written and quantizes it to
    two places (nothing is rounded, there are at most two); the
    [MinValueValidator] refuses a value below the float [0.01];
    [validate_price] refuses a value that is not positive (a two-place
    value is a multiple of 0.01). *)
Definition serializer_price (data : PyDecimal.Decimal) : option Z :=
  if validate_precision data then
    let c := PyDecimal.coefficient data * 10 ^ (PyDecimal.exponent data + 2) in
    if Qle_bool float_0_01 (inject_Z c / 100) && (0 <? c)
    then Some c else None
  else None.

(** [PlaceOrderSerializer.validate_side] behind the [ChoiceField] *)
Definition serializer_side (s : string) : option Z :=
  if String.eqb s "buy" then Some 1
  else if String.eqb s "sell" then Some (-1)
  else None.

(** [IntegerField(min_value=1)] and [validate_quantity] *)
Definition serializer_quantity (q : Z) : option Z :=
  if (1 <=? q) && (q <=? 1000000) then Some q else None.

(** [PlaceOrderSerializer(data=...).is_valid()]: the validated data, or the
    names of the fields in error. *)
Definition PlaceOrderSerializer (req : PlaceRequest)
    : (Z * Z * Z) + list string :=
  match req_side req ≫= serializer_side,
        req_quantity req ≫= serializer_quantity,
        req_price req ≫= serializer_price with
  | Some s, Some q, Some p => inl (s, q, p)
  | s, q, p =>
      inr ((if s is None then ["side"] else [])
           ++ (if q is None then ["quantity"] else [])
           ++ (if p is None then ["price"] else []))
  end.

(** shared/utils/validators.py, [validate_order_data] on validated data. *)
Definition validate_order_data (data : Z * Z * Z) : bool * string :=
  let '(s, q, p) := data in
  if negb ((s =? 1) || (s =? -1)) then
    (false, "Invalid side: must be 1 (buy) or -1 (sell)")
  else if negb ((0 <? q) && (q <=? 1000000)) then
    (false, "Invalid quantity: must be positive integer")
  else if negb ((0 <? p) && (p <=? 99999999)) then
    (false, "Invalid price: must be positive and multiple of 0.01")
  else (true, "").

(** [Order.objects.create] on the validated data *)
Definition Order_objects_create (s q p : Z) (st : Store) : Order * Store :=
  let o := mkOrder (uuid_supply st) s q p q 0 0 ACTIVE true
             (clock st) (clock st) None in
  let st := set_uuid_supply (uuid_supply st + 1) st in
  Order_save o st.

(** [OrderViewSet.create].  Starting the worker thread is modelled as
    queueing its job: the handler does not join it. *)
Definition create (req : PlaceRequest) (w : World) : Response * World :=
  match PlaceOrderSerializer req with
  | inr errs =>
      (mkResponse 400 (map (λ f, (f, JList [JStr "invalid"])) errs), w)
  | inl (s, q, p) =>
    match validate_order_data (s, q, p) with
    | (false, error_msg) => (mkResponse 400 [("error", JStr error_msg)], w)
    | (true, _) =>
      let '(order, st) := Order_objects_create s q p (store w) in
      let w := mkWorld (book w) st (pending w ++ [ProcessOrder order]) in
      (mkResponse 201
         [("order_id", JInt (order_id order));
          ("message",
           JStr "Order placed successfully and is being processed");
          ("status", JStr (status_str (status order)));
          ("side", JStr (if side order =? 1 then "buy" else "sell"));
          ("quantity", JInt (quantity order));
          ("remaining_quantity", JInt (remaining_quantity order));
          ("traded_quantity", JInt (traded_quantity order));
          ("price", JFloat (PyDecimal.of_cents (price order)))],
       w)
    end
  end.

(** [Order.objects.get(order_id=pk)]; [None] is [Order.DoesNotExist].  The
    key is a well-formed id: for one that is not, the query raises and the
    views answer 500. *)
Definition Order_objects_get (pk : Z) (st : Store) : option Order :=
  List.find (λ r, order_id r =? pk) (orders_tbl st).

(** [ModifyOrderSerializer(data=...).is_valid()] *)
Definition ModifyOrderSerializer (req : ModifyRequest)
    : Z + list string :=
  match mod_order_id req, mod_price req ≫= serializer_price with
  | Some _, Some p => inl p
  | i, p =>
      inr ((if i is None then ["order_id"] else [])
           ++ (if p is None then ["price"] else []))
  end.

(** [OrderViewSet.update] *)
Definition update (pk : Z) (req : ModifyRequest) (w : World)
    : Response * World :=
  match Order_objects_get pk (store w) with
  | None => (mkResponse 404 [("error", JStr "Order not found")], w)
  | Some order =>
    if negb (is_active order) || status_in (status order) [FILLED; CANCELLED]
    then (mkResponse 400 [("error", JStr "Order cannot be modified")], w)
    else
      match ModifyOrderSerializer req with
      | inr errs =>
          (mkResponse 400 (map (λ f, (f, JList [JStr "invalid"])) errs), w)
      | inl new_price =>
        let order := set_price new_price order in
        let order := set_status ACTIVE order in
        let order := set_is_active true order in
        let '(order, st) := Order_save order (store w) in
        let w := mkWorld (book w) st (pending w ++ [ProcessModified order]) in
        (mkResponse 200
           [("message",
             JStr "Order modified successfully and is being processed");
            ("order_id", JInt (order_id order));
            ("new_price", JFloat (PyDecimal.of_cents new_price));
            ("status", JStr (status_str (status order)))],
         w)
      end
  end.

(** [OrderViewSet.destroy] *)
Definition destroy (pk : Z) (w : World) : Response * World :=
  match Order_objects_get pk (store w) with
  | None => (mkResponse 404 [("error", JStr "Order not found")], w)
  | Some order =>
    if negb (is_active order) || status_in (status order) [FILLED; CANCELLED]
    then (mkResponse 400 [("error", JStr "Order cannot be cancelled")], w)
    else
      match cancel_order (order_id order) (book w) (store w) with
      | (Raise _, b, st) =>
          (mkResponse 500 [("error", JStr "Failed to cancel order")],
           mkWorld b st (pending w))
      | (Ok true, b, st) =>
          (mkResponse 200
             [("message", JStr "Order cancelled successfully");
              ("order_id", JInt (order_id order))],
           mkWorld b st (pending w))
      | (Ok false, b, st) =>
          (* Order not in book, just update database *)
          let order := set_status CANCELLED order in
          let order := set_is_active false order in
          let '(order, st) := Order_save order st in
          (mkResponse 200
             [("message", JStr "Order cancelled successfully");
              ("order_id", JInt (order_id order))],
           mkWorld b st (pending w))
      end
  end.

(** The worker threads: [_process_order_in_background] and
    [_process_modified_order_in_background].  Exceptions are logged and
    dropped. *)
Definition run_job (j : Job) (b : OrderBook) (st : Store)
    : option (list Trade * OrderBook * Store) :=
  match j with
  | ProcessOrder order =>
      '(trades, _, b, st) ← add_order order b st; Some (trades, b, st)
  | ProcessModified order =>
      match cancel_order (order_id order) b st with
      | (Raise _, b, st) => Some ([], b, st)
      | (Ok _, b, st) =>
          '(trades, _, b, st) ← add_order order b st; Some (trades, b, st)
      end
  end.

(** The oldest started worker runs to its end. *)
Definition run_worker (w : World) : option World :=
  match pending w with
  | [] => Some w
  | j :: js =>
      '(_, b, st) ← run_job j (book w) (store w); Some (mkWorld b st js)
  end.

(** [Trade.objects.get(trade_id=...)] *)
Definition Trade_objects_get (tid : Z) (st : Store) : option TradeObj :=
  (λ t, mkTradeObj t None) <$> List.find (λ r, trade_id r =? tid) (trades_tbl st).

Definition opt_time (t : option Z) : JVal :=
  match t with None => JNull | Some z => JInt z end.

(** [TradeSerializer(trade).data] *)
Definition TradeSerializer (t : TradeObj) : list (string * JVal) :=
  let f := fields t in
  [("trade_id", JInt (trade_id f));
   ("price", JDecimal (trade_price f));
   ("quantity", JInt (trade_quantity f));
   ("bid_order", JInt (bid_order f));
   ("ask_order", JInt (ask_order f));
   ("execution_timestamp", JInt (execution_timestamp f));
   ("is_settled", JBool (is_settled f));
   ("settlement_timestamp", opt_time (settlement_timestamp f))].

(** [TradeSettlementView.post] *)
Definition settle (tid : Z) (st : Store) : Response * Store :=
  match Trade_objects_get tid st with
  | None => (mkResponse 404 [("error", JStr "Trade not found")], st)
  | Some trade =>
    (* Check if trade is already settled *)
    if is_settled (fields trade) then
      (mkResponse 400 [("error", JStr "Trade already settled")], st)
    else
      (* Settle the trade *)
      let trade := set_is_settled true trade in
      let trade := set_attr_settled_at (Some (clock st)) trade in
      let '(trade, st) := Trade_save trade st in
      (mkResponse 200
         [("message", JStr "Trade settled successfully");
          ("trade", JDict (TradeSerializer trade))],
       st)
  end.

(** One entry of the snapshot. *)
Definition snapshot_entry (order : Order) : JVal :=
  JDict
    [("order_id", JInt (order_id order));
     ("price", JFloat (PyDecimal.of_cents (price order)));
     ("quantity", JInt (remaining_quantity order));
     ("total_quantity", JInt (quantity order));
     ("traded_quantity", JInt (traded_quantity order));
     ("status", JStr (status_str (status order)));
     ("created_at", JInt (created_at order));
     ("user_id", match user_id order with
                 | Some u => JInt u | None => JNull end)].

(** The two querysets of [OrderBookSnapshotView.get]. *)
Definition snapshot_buy_orders (depth : Z) (st : Store) : list Order :=
  take (Z.to_nat depth)
    (order_by price_desc_created
       (List.filter
          (λ r, (side r =? 1)
                && status_in (status r) [ACTIVE; PARTIALLY_FILLED]
                && (remaining_quantity r >? 0))
          (orders_tbl st))).

Definition snapshot_sell_orders (depth : Z) (st : Store) : list Order :=
  take (Z.to_nat depth)
    (order_by price_asc_created
       (List.filter
          (λ r, (side r =? -1)
                && status_in (status r) [ACTIVE; PARTIALLY_FILLED]
                && (remaining_quantity r >? 0))
          (orders_tbl st))).

(** [OrderBookSnapshotView.get]; [None] is a request without [depth]. *)
Definition snapshot (depth_param : option Z) (st : Store) : Response :=
  let depth := default 5 depth_param in
  if (depth <? 1) || (depth >? 20) then
    mkResponse 400 [("error", JStr "Depth must be between 1 and 20")]
  else
    let buy_orders := snapshot_buy_orders depth st in
    let sell_orders := snapshot_sell_orders depth st in
    mkResponse 200
      [("buy_orders", JList (map snapshot_entry buy_orders));
       ("sell_orders", JList (map snapshot_entry sell_orders));
       ("timestamp", JInt (clock st));
       ("depth", JInt depth);
       ("total_buy_orders", JInt (Z.of_nat (length buy_orders)));
       ("total_sell_orders", JInt (Z.of_nat (length sell_orders)))].

(* ===================================================================== *)
(** ** services/trade_service/views.py, [TradeListView] *)
(* ===================================================================== *)

(** [Trade.objects.all().order_by('-created_at')]: a stable insertion sort,
    newest first; trades created at the same time keep their table
    order. *)
Fixpoint insert_trade (x : Trade) (l : list Trade) : list Trade :=
  match l with
  | [] => [x]
  | y :: ys =>
      if trade_created_at y <=? trade_created_at x then x :: y :: ys
      else y :: insert_trade x ys
  end.

Definition trades_newest_first (l : list Trade) : list Trade :=
  foldr insert_trade [] l.

(** [Paginator(object_list, per_page).num_pages], with the defaults
    [orphans=0] and [allow_empty_first_page=True]:
    [ceil(max(1, count) / per_page)]. *)
Definition num_pages (count per_page : Z) : Z :=
  (Z.max 1 count + per_page - 1) / per_page.

(** [Paginator(object_list, per_page).page(number).object_list]; [None] is
    [EmptyPage]. *)
Definition Paginator_page {A : Type} (object_list : list A)
    (per_page number : Z) : option (list A) :=
  let count := Z.of_nat (length object_list) in
  if (number <? 1) || (number >? num_pages count per_page) then None
  else
    let bottom := (number - 1) * per_page in
    let top := bottom + per_page in
    let top := if top >=? count then count else top in
    Some (take (Z.to_nat (top - bottom))
            (drop (Z.to_nat bottom) object_list)).

(** [TradeListView.get]; [None] is a request without the parameter. *)
Definition TradeListView_get (page page_size : option Z) (st : Store)
    : Response :=
  let page := default 1 page in
  let page_size := default 20 page_size in
  let page := if page <? 1 then 1 else page in
  let page_size :=
    if (page_size <? 1) || (page_size >? 100) then 20 else page_size in
  (* Get trades with pagination *)
  let trades := trades_newest_first (trades_tbl st) in
  let count := Z.of_nat (length trades) in
  let page_obj :=
    match Paginator_page trades page_size page with
    | Some l => Some (page, l)
    | None => (λ l, (1, l)) <$> Paginator_page trades page_size 1
    end in
  match page_obj with
  | None => mkResponse 500 [("error", JStr "Failed to get trades")]
  | Some (number, object_list) =>
    mkResponse 200
      [("trades",
        JList (map (λ t, JDict (TradeSerializer (mkTradeObj t None)))
                 object_list));
       ("pagination",
        JDict
          [("page", JInt page);
           ("page_size", JInt page_size);
           ("total_pages", JInt (num_pages count page_size));
           ("total_count", JInt count);
           ("has_next", JBool (number <? num_pages count page_size));
           ("has_previous", JBool (number >? 1))])]
  end.

(** The page that [TradeListView.get] lists: the page asked for if there
    is one, the first page otherwise. *)
Definition listed_page (page count page_size : Z) : Z :=
  if page <=? num_pages count page_size then page else 1.

(* ===================================================================== *)
(** ** Specification-level notions *)
(* ===================================================================== *)

(** The fields of an order after a successful [update_trade] that ran at
    time [now]. *)
Definition fill_fields (q p now : Z) (o : Order) : Order :=
  let r := remaining_quantity o - q in
  let t := traded_quantity o + q in
  let avg :=
    if t >? 0 then
      PyDecimal.div
        (PyDecimal.add
           (PyDecimal.mul (average_traded_price o) (inject_Z (t - q)))
           (PyDecimal.mul (PyDecimal.of_cents p) (inject_Z q)))
        (inject_Z t)
    else average_traded_price o in
  mkOrder (order_id o) (side o) (quantity o) (price o) r t avg
    (if r =? 0 then FILLED
     else if t >? 0 then PARTIALLY_FILLED else status o)
    (if r =? 0 then false else is_active o)
    (created_at o) now (user_id o).

(** A sequence of fills [(quantity, price)] applied to one instance, as the
    matcher does to the incoming order. *)
Fixpoint apply_fills (fills : list (Z * Z)) (self : Order) (st : Store)
    : outcome unit * Order * Store :=
  match fills with
  | [] => (Ok tt, self, st)
  | (q, p) :: rest =>
    match update_trade q p self st with
    | (Ok _, self, st) => apply_fills rest self st
    | r => r
    end
  end.

Definition fills_quantity (fills : list (Z * Z)) : Z :=
  foldr (λ f n, fst f + n) 0 fills.

Definition fills_value (fills : list (Z * Z)) : Q :=
  foldr (λ f v, (inject_Z (fst f) * (inject_Z (snd f) / 100) + v)%Q) 0%Q fills.

(** The exact quotient [Σ qᵢ·pᵢ / Σ qᵢ]. *)
Definition exact_vwap (fills : list (Z * Z)) : Q :=
  (fills_value fills / inject_Z (fills_quantity fills))%Q.

(** The four decimal operations of one [update_trade] all return their exact
    result: the context has nothing to round. *)
Definition fill_unrounded (q p : Z) (o : Order) : bool :=
  let t_old := inject_Z (traded_quantity o) in
  let t_new := inject_Z (traded_quantity o + q) in
  let m1 := PyDecimal.mul (average_traded_price o) t_old in
  let m2 := PyDecimal.mul (PyDecimal.of_cents p) (inject_Z q) in
  let s := PyDecimal.add m1 m2 in
  let d := PyDecimal.div s t_new in
  Qeq_bool m1 (average_traded_price o * t_old)
  && Qeq_bool m2 (PyDecimal.of_cents p * inject_Z q)
  && Qeq_bool s (m1 + m2)
  && Qeq_bool d (s / t_new).

Fixpoint fills_unrounded (fills : list (Z * Z)) (o : Order) (st : Store)
    : bool :=
  match fills with
  | [] => true
  | (q, p) :: rest =>
    fill_unrounded q p o
    && match update_trade q p o st with
       | (Ok _, o, st) => fills_unrounded rest o st
       | _ => false
       end
  end.

(** [Q = R + T] *)
Definition qty_inv (o : Order) : Prop :=
  quantity o = remaining_quantity o + traded_quantity o.

(** The total resting quantity of a price level: the sum of
    [remaining_quantity] over the persisted active orders of that side and
    price. *)
Definition level_quantity (s p : Z) (st : Store) : Z :=
  foldr (λ r n, remaining_quantity r + n) 0
    (List.filter (λ r, (side r =? s) && (price r =? p) && is_active r)
       (orders_tbl st)).

(** The order of the two snapshot lists: bids by price descending, asks by
    price ascending, equal prices by [created_at] ascending. *)
Definition bids_before (a b : Order) : Prop :=
  price b < price a ∨ (price a = price b ∧ created_at a <= created_at b).

Definition asks_before (a b : Order) : Prop :=
  price a < price b ∨ (price a = price b ∧ created_at a <= created_at b).

(** A row the snapshot query of side [s] selects. *)
Definition snapshot_row (s : Z) (st : Store) (o : Order) : Prop :=
  In o (orders_tbl st) ∧ side o = s
  ∧ (status o = ACTIVE ∨ status o = PARTIALLY_FILLED)
  ∧ 0 < remaining_quantity o.

(** The loop conditions of the two matchers, given the cached best price. *)
Definition buy_crosses (buy_order : Order) (pa : Z) : Prop :=
  0 < remaining_quantity buy_order ∧ pa ≠ 0 ∧ pa <= price buy_order.

Definition sell_crosses (sell_order : Order) (pb : Z) : Prop :=
  0 < remaining_quantity sell_order ∧ pb ≠ 0 ∧ price sell_order <= pb.

(** The trade row an iteration creates. *)
Definition step_trade (p q : Z) (bid ask : Order) (st : Store) : Trade :=
  mkTrade (uuid_supply st) p q (order_id bid) (order_id ask)
    (clock st) (clock st) false None.

(** The store after an iteration: the trade row appended, the rows of the
    two orders written (the incoming order's first in a buy match, the
    resting order's last). *)
Definition step_store (t : Trade) (first second : Order) (st : Store)
    : Store :=
  mkStore
    (upsert (to_row second) (upsert (to_row first) (orders_tbl st)))
    (trades_tbl st ++ [t]) (clock st) (uuid_supply st + 1).

(** The book after the filled head [y] of the best ask level [pa] was
    popped ([rest] is what the level keeps), and the same for a bid. *)
Definition pop_ask (pa : Z) (y : Order) (rest : list Order) (b : OrderBook)
    : OrderBook :=
  let b := set_asks (<[pa := rest]> (asks b)) b in
  let b := set_order_lookup (delete (order_id y) (order_lookup b)) b in
  match rest with
  | [] =>
    _update_best_ask
      (set_ask_prices (ask_prices b ∖ {[pa]})
         (set_asks (delete pa (asks b)) b))
  | _ :: _ => b
  end.

Definition pop_bid (pb : Z) (y : Order) (rest : list Order) (b : OrderBook)
    : OrderBook :=
  let b := set_bids (<[pb := rest]> (bids b)) b in
  let b := set_order_lookup (delete (order_id y) (order_lookup b)) b in
  match rest with
  | [] =>
    _update_best_bid
      (set_bid_prices (bid_prices b ∖ {[pb]})
         (set_bids (delete pb (bids b)) b))
  | _ :: _ => b
  end.

(** What an iteration does once the incoming order [x] crosses and faces
    the head [y] of the best level ([rest] behind it). *)
Definition buy_trade_result (x : Order) (b : OrderBook) (st : Store)
    (pa : Z) (y : Order) (rest : list Order) : step_result :=
  let q := Z.min (remaining_quantity x) (remaining_quantity y) in
  let t := step_trade pa q x y st in
  let x' := fill_fields q pa (clock st) x in
  let y' := fill_fields q pa (clock st) y in
  let st' := step_store t x' y' st in
  if remaining_quantity y - q =? 0 then
    match order_lookup b !! order_id y with
    | None => StepRaise (KeyError (order_id y)) x'
                (set_asks (<[pa := rest]> (asks b)) b) st'
    | Some _ => StepTrade t x' (pop_ask pa y rest b) st'
    end
  else StepTrade t x' (set_asks (<[pa := y' :: rest]> (asks b)) b) st'.

Definition sell_trade_result (x : Order) (b : OrderBook) (st : Store)
    (pb : Z) (y : Order) (rest : list Order) : step_result :=
  let q := Z.min (remaining_quantity x) (remaining_quantity y) in
  let t := step_trade pb q y x st in
  let x' := fill_fields q pb (clock st) x in
  let y' := fill_fields q pb (clock st) y in
  let st' := step_store t x' y' st in
  if remaining_quantity y - q =? 0 then
    match order_lookup b !! order_id y with
    | None => StepRaise (KeyError (order_id y)) x'
                (set_bids (<[pb := rest]> (bids b)) b) st'
    | Some _ => StepTrade t x' (pop_bid pb y rest b) st'
    end
  else StepTrade t x' (set_bids (<[pb := y' :: rest]> (bids b)) b) st'.

(** The trade, the incoming order, the book and the store after an
    iteration in which the incoming order [x] trades against the head [y]
    of the best level. *)
Definition after_buy_trade (x : Order) (b : OrderBook) (st : Store)
    (pa : Z) (y : Order) (rest : list Order)
    : Trade * Order * OrderBook * Store :=
  let q := Z.min (remaining_quantity x) (remaining_quantity y) in
  let t := step_trade pa q x y st in
  let x' := fill_fields q pa (clock st) x in
  let y' := fill_fields q pa (clock st) y in
  (t, x',
   (if remaining_quantity y - q =? 0 then pop_ask pa y rest b
    else set_asks (<[pa := y' :: rest]> (asks b)) b),
   step_store t x' y' st).

Definition after_sell_trade (x : Order) (b : OrderBook) (st : Store)
    (pb : Z) (y : Order) (rest : list Order)
    : Trade * Order * OrderBook * Store :=
  let q := Z.min (remaining_quantity x) (remaining_quantity y) in
  let t := step_trade pb q y x st in
  let x' := fill_fields q pb (clock st) x in
  let y' := fill_fields q pb (clock st) y in
  (t, x',
   (if remaining_quantity y - q =? 0 then pop_bid pb y rest b
    else set_bids (<[pb := y' :: rest]> (bids b)) b),
   step_store t x' y' st).

(** A property [P level_price order] of every order resting on one side. *)
Definition levels_sat (P : Z → Order → Prop) (levels : gmap Z (list Order))
    : Prop :=
  ∀ p l, levels !! p = Some l → Forall (P p) l.

(** A property of every order resting in the book, by level price. *)
Definition book_sat (PB : Z → Order → Prop) (b : OrderBook) : Prop :=
  levels_sat PB (bids b) ∧ levels_sat PB (asks b).

(** What the invariants about orders are stated on while a command runs: the
    order in hand, the book and the rows. *)
Definition match_inv (PX : Order → Prop) (PB : Z → Order → Prop)
    (X : Order) (b : OrderBook) (st : Store) : Prop :=
  PX X ∧ book_sat PB b ∧ Forall PX (orders_tbl st).

(** A property of every order in the book, and of every order the process
    holds (rows, book, started workers). *)
Definition book_all (P : Order → Prop) (b : OrderBook) : Prop :=
  book_sat (λ _, P) b.

Definition job_order (j : Job) : Order :=
  match j with ProcessOrder o | ProcessModified o => o end.

Definition world_all (P : Order → Prop) (w : World) : Prop :=
  Forall P (orders_tbl (store w))
  ∧ book_all P (book w)
  ∧ Forall P (job_order <$> pending w).

(** Every order of a level has the level's price. *)
Definition levels_keyed (levels : gmap Z (list Order)) : Prop :=
  levels_sat (λ p o, price o = p) levels.

Definition book_keyed (b : OrderBook) : Prop :=
  book_sat (λ p o, price o = p) b.

(** An order with this id and price rests on this side. *)
Definition rests_in (levels : gmap Z (list Order)) (oid p : Z) : Prop :=
  ∃ l o, levels !! p = Some l ∧ o ∈ l ∧ order_id o = oid ∧ price o = p.

(** The book after [cancel_order] took an order out of the level at [p],
    of which [l'] is left. *)
Definition remove_bid (p oid : Z) (l' : list Order) (b : OrderBook)
    : OrderBook :=
  let b := set_bids (<[p := l']> (bids b)) b in
  let b :=
    match l' with
    | [] =>
      let b := set_bids (delete p (bids b)) b in
      let b := set_bid_prices (bid_prices b ∖ {[p]}) b in
      if decide (best_bid b = Some p) then _update_best_bid b else b
    | _ :: _ => b
    end in
  set_order_lookup (delete oid (order_lookup b)) b.

Definition remove_ask (p oid : Z) (l' : list Order) (b : OrderBook)
    : OrderBook :=
  let b := set_asks (<[p := l']> (asks b)) b in
  let b :=
    match l' with
    | [] =>
      let b := set_asks (delete p (asks b)) b in
      let b := set_ask_prices (ask_prices b ∖ {[p]}) b in
      if decide (best_ask b = Some p) then _update_best_ask b else b
    | _ :: _ => b
    end in
  set_order_lookup (delete oid (order_lookup b)) b.

(** The order as [cancel_order] leaves it. *)
Definition cancelled (o : Order) : Order :=
  set_is_active false (set_status CANCELLED o).

(** A well-formed price level of side [s] ([1] bids, [-1] asks) at price
    [p]: not empty, at a non-zero price, without two orders of one id, and
    every order has the level's price, a positive remaining quantity and
    its entry in [order_lookup]. *)
Definition level_wf (lk : gmap Z (Z * Z)) (s p : Z) (l : list Order)
    : Prop :=
  l ≠ [] ∧ p ≠ 0 ∧ NoDup (order_id <$> l)
  ∧ Forall (λ o, price o = p ∧ 0 < remaining_quantity o
                 ∧ lk !! order_id o = Some (p, s)) l.

Definition levels_wf (lk : gmap Z (Z * Z)) (s : Z)
    (levels : gmap Z (list Order)) : Prop :=
  ∀ p l, levels !! p = Some l → level_wf lk s p l.

(** Every entry of [order_lookup] names an order that rests where the
    entry says. *)
Definition lookup_wf (b : OrderBook) : Prop :=
  ∀ oid p s, order_lookup b !! oid = Some (p, s) →
    (s = 1 ∧ rests_in (bids b) oid p) ∨ (s = -1 ∧ rests_in (asks b) oid p).

(** The well-formed book: well-formed levels on both sides, the price sets
    are the keys of the levels, the cached best prices are the maximum bid
    and the minimum ask, and [order_lookup] is sound. *)
Definition book_wf (b : OrderBook) : Prop :=
  levels_wf (order_lookup b) 1 (bids b)
  ∧ levels_wf (order_lookup b) (-1) (asks b)
  ∧ bid_prices b = dom (bids b)
  ∧ ask_prices b = dom (asks b)
  ∧ best_bid b = set_max (bid_prices b)
  ∧ best_ask b = set_min (ask_prices b)
  ∧ lookup_wf b.

(** A row that [_load_matching_orders] may put into the book has a non-zero
    price and something remaining. *)
Definition loadable (o : Order) : Prop :=
  is_active o = true →
  (status o = ACTIVE ∨ status o = PARTIALLY_FILLED) →
  price o ≠ 0 ∧ 0 < remaining_quantity o.

(** No order with this id rests in the book. *)
Definition not_in_book (oid : Z) (b : OrderBook) : Prop :=
  order_lookup b !! oid = None
  ∧ book_sat (λ _ o, order_id o ≠ oid) b.

(** The status invariant as the specification words it, and the part of it
    that every command keeps. *)
Definition full_status_inv (o : Order) : Prop :=
  (status o = PARTIALLY_FILLED
   ↔ 0 < traded_quantity o < quantity o)
  ∧ (status o = ACTIVE ↔ traded_quantity o = 0 ∧ is_active o = true).

Definition weak_status_inv (o : Order) : Prop :=
  (status o = PARTIALLY_FILLED → 0 < traded_quantity o < quantity o)
  ∧ (status o = ACTIVE → is_active o = true)
  ∧ (traded_quantity o = 0 → is_active o = true → status o = ACTIVE).

(** Quantities in range, [Q = R + T], and the kept part of the status
    invariant. *)
Definition order_inv (o : Order) : Prop :=
  0 <= remaining_quantity o ∧ 0 <= traded_quantity o ∧ qty_inv o
  ∧ weak_status_inv o.

(** The commands of the process: the three mutating requests, a started
    worker running to its end, and time passing. *)
Inductive Command :=
| Place (req : PlaceRequest)
| Modify (pk : Z) (req : ModifyRequest)
| Cancel (pk : Z)
| RunWorker
| Tick.

Definition exec (c : Command) (w : World) : option World :=
  match c with
  | Place req => Some (snd (create req w))
  | Modify pk req => Some (snd (update pk req w))
  | Cancel pk => Some (snd (destroy pk w))
  | RunWorker => run_worker w
  | Tick => Some (mkWorld (book w) (tick (store w)) (pending w))
  end.

Fixpoint exec_all (cs : list Command) (w : World) : option World :=
  match cs with
  | [] => Some w
  | c :: cs => w ← exec c w; exec_all cs w
  end.

(** A price written with at most two decimal places whose value is [c]
    hundredths. *)
Definition two_place_price (d : PyDecimal.Decimal) (c : Z) : Prop :=
  -2 <= PyDecimal.exponent d
  ∧ c = PyDecimal.coefficient d * 10 ^ (PyDecimal.exponent d + 2).

(** A place request that [create] accepts: a side, a quantity from 1 to
    1000000 and a price written with at most two decimal places, from 0.02
    to 999999.99. *)
Definition valid_place (req : PlaceRequest) : Prop :=
  ∃ s q p c,
    req_side req = Some s ∧ (s = "buy"%string ∨ s = "sell"%string)
    ∧ req_quantity req = Some q ∧ 1 <= q <= 1000000
    ∧ req_price req = Some p ∧ two_place_price p c
    ∧ 2 <= c <= 99999999.

(** A modify request that [update] accepts: an [order_id] and a price
    written with at most two decimal places, from 0.02 to 99999999.99. *)
Definition valid_modify (req : ModifyRequest) : Prop :=
  ∃ i p c,
    mod_order_id req = Some i ∧ mod_price req = Some p
    ∧ two_place_price p c ∧ 2 <= c < 10 ^ 10.

(** The orders [update] and [destroy] go on with. *)
Definition modifiable (o : Order) : Prop :=
  is_active o = true ∧ status o ≠ FILLED ∧ status o ≠ CANCELLED.

(** The quantity traded in a list of trades. *)
Definition trades_quantity (ts : list Trade) : Z :=
  foldr (λ t n, trade_quantity t + n) 0 ts.

(** The book [add_order] leaves once the match of the incoming order has
    come to its end with the order [x'], the book [b1] and these trades. *)
Definition book_after_match (x' : Order) (b1 : OrderBook)
    (trades : list Trade) : OrderBook :=
  let b2 := if remaining_quantity x' >? 0
            then (if side x' =? 1 then _add_buy_order x' b1
                  else _add_sell_order x' b1)
            else b1 in
  set_metrics (orders_processed b2 + 1)
    (trades_created b2 + Z.of_nat (length trades)) b2.

(** No bid at or above an ask: the best bid is below the best ask. *)
Definition uncrossed (b : OrderBook) : Prop :=
  ∀ pb pa, best_bid b = Some pb → best_ask b = Some pa → pb < pa.

(** What a match of the incoming order [x], begun with the book [b] and the
    store [st], has done when it stands at [x1], [b1], [st1] with the
    trades [ts]. *)
Definition match_account (x : Order) (b : OrderBook) (st : Store)
    (x1 : Order) (b1 : OrderBook) (st1 : Store) (ts : list Trade) : Prop :=
  order_id x1 = order_id x ∧ side x1 = side x ∧ price x1 = price x
  ∧ quantity x1 = quantity x
  ∧ remaining_quantity x1 = remaining_quantity x - trades_quantity ts
  ∧ traded_quantity x1 = traded_quantity x + trades_quantity ts
  ∧ (0 <= remaining_quantity x → 0 <= remaining_quantity x1)
  ∧ Forall (λ t, 0 < trade_quantity t
                 ∧ is_settled t = false ∧ settlement_timestamp t = None
                 ∧ execution_timestamp t = clock st
                 ∧ (if side x =? 1 then bid_order t = order_id x
                    else ask_order t = order_id x)) ts
  ∧ trades_tbl st1 = trades_tbl st ++ ts
  ∧ trade_id <$> ts
    = (λ i, uuid_supply st + Z.of_nat i) <$> seq 0 (length ts)
  ∧ uuid_supply st1 = uuid_supply st + Z.of_nat (length ts)
  ∧ clock st1 = clock st
  ∧ orders_processed b1 = orders_processed b
  ∧ trades_created b1 = trades_created b
  ∧ (ts = [] → st1 = st ∧ x1 = x).

(** Every live row of the store, the incoming order's apart, is an order of
    the book: [_load_matching_orders] finds nothing to load. *)
Definition live_rows_in_book (x : Order) (b : OrderBook) (st : Store)
    : Prop :=
  ∀ r, r ∈ orders_tbl st → is_active r = true →
       status r = ACTIVE ∨ status r = PARTIALLY_FILLED →
       order_id r ≠ order_id x →
       is_Some (order_lookup b !! order_id r).

(** Every level of [l1] is a level of [l2], with the same orders in front. *)
Definition levels_extend (l1 l2 : gmap Z (list Order)) : Prop :=
  ∀ p l, l1 !! p = Some l → ∃ l', l2 !! p = Some (l ++ l').

(** A row that the query of [_load_matching_orders] can return. *)
Definition live (o : Order) : Prop :=
  is_active o = true ∧ (status o = ACTIVE ∨ status o = PARTIALLY_FILLED).

(** The rows the handlers and the matcher write: a price that is not zero,
    and something remaining as long as the order is active. *)
Definition row_ok (o : Order) : Prop :=
  price o ≠ 0 ∧ (is_active o = true → 0 < remaining_quantity o).

(** The orders table: one row per id, every row as above, every id taken
    from the supply. *)
Definition store_ok (st : Store) : Prop :=
  NoDup (order_id <$> orders_tbl st)
  ∧ Forall row_ok (orders_tbl st)
  ∧ Forall (λ r, order_id r < uuid_supply st) (orders_tbl st).

(** What holds of the store and of [order_lookup] while the incoming order
    [x] is matched ([x1] is the order as the match has left it so far). *)
Definition sync_match_inv (x x1 : Order) (b1 : OrderBook) (st1 : Store)
    : Prop :=
  store_ok st1
  ∧ (∀ oid, is_Some (order_lookup b1 !! oid) → oid < uuid_supply st1)
  ∧ (∀ r, r ∈ orders_tbl st1 → live r → order_id r ≠ order_id x →
          is_Some (order_lookup b1 !! order_id r))
  ∧ (∀ r, r ∈ orders_tbl st1 → order_id r = order_id x → live r →
          0 < remaining_quantity x1)
  ∧ order_id x1 = order_id x ∧ side x1 = side x ∧ price x1 ≠ 0
  ∧ 0 <= remaining_quantity x1
  ∧ order_lookup b1 !! order_id x = None
  ∧ order_id x < uuid_supply st1.

(** The process between two requests when every worker has run to its end
    before the next request is handled. *)
Definition sync_inv (w : World) : Prop :=
  pending w = []
  ∧ book_wf (book w) ∧ uncrossed (book w)
  ∧ store_ok (store w)
  ∧ (∀ oid, is_Some (order_lookup (book w) !! oid) →
            oid < uuid_supply (store w))
  ∧ (∀ r, r ∈ orders_tbl (store w) → live r →
          is_Some (order_lookup (book w) !! order_id r)).

(** Requests handled one at a time, each with its worker run to the end
    before the next. *)
Inductive SyncCommand :=
| SyncPlace (req : PlaceRequest)
| SyncModify (pk : Z) (req : ModifyRequest)
| SyncCancel (pk : Z)
| SyncTick.

Definition sync_commands (c : SyncCommand) : list Command :=
  match c with
  | SyncPlace req => [Place req; RunWorker]
  | SyncModify pk req => [Modify pk req; RunWorker]
  | SyncCancel pk => [Cancel pk]
  | SyncTick => [Tick]
  end.

(** An instance whose fields are values its columns hold, and still are
    after any fill within the remaining quantity: the three
    [PositiveIntegerField]s are within 0 and 2147483647, what is traded
    and what remains together as well, and the two
    [DecimalField(max_digits=10, decimal_places=2)] are within their ten
    digits. *)
Definition storable (o : Order) : Prop :=
  0 <= quantity o <= 2147483647
  ∧ 0 <= remaining_quantity o ∧ 0 <= traded_quantity o
  ∧ remaining_quantity o + traded_quantity o <= 2147483647
  ∧ 0 <= price o < 10 ^ 10
  ∧ (0 <= average_traded_price o)%Q
  ∧ (average_traded_price o <= PyDecimal.of_cents 9999999999)%Q.

(** The order has its row: a trade may refer to it, and [save] updates the
    row. *)
Definition has_row (o : Order) (st : Store) : Prop :=
  is_Some (Order_objects_get (order_id o) st).

(** The orders of the book are persisted orders: each has its row and
    holds values its columns accept.  This is so for every order that came
    in through [create]. *)
Definition book_persisted (b : OrderBook) (st : Store) : Prop :=
  book_all (λ o, has_row o st ∧ storable o) b.

(** The incoming order [x], the orders of the book and the rows are
    persisted orders. *)
Definition rows_present (x : Order) (b : OrderBook) (st : Store) : Prop :=
  has_row x st ∧ storable x
  ∧ book_persisted b st
  ∧ Forall storable (orders_tbl st).

(** The two products and the sum of one [update_trade] return their exact
    result; the division may round. *)
Definition numerator_unrounded (q p : Z) (o : Order) : bool :=
  let t_old := inject_Z (traded_quantity o) in
  let m1 := PyDecimal.mul (average_traded_price o) t_old in
  let m2 := PyDecimal.mul (PyDecimal.of_cents p) (inject_Z q) in
  let s := PyDecimal.add m1 m2 in
  Qeq_bool m1 (average_traded_price o * t_old)
  && Qeq_bool m2 (PyDecimal.of_cents p * inject_Z q)
  && Qeq_bool s (m1 + m2).

(** Every decimal operation of a sequence of fills but the last division
    returns its exact result: every average before the last was computed
    without rounding. *)
Fixpoint numerators_unrounded (fills : list (Z * Z)) (o : Order) (st : Store)
    : bool :=
  match fills with
  | [] => true
  | [(q, p)] => numerator_unrounded q p o
  | (q, p) :: rest =>
    fill_unrounded q p o
    && match update_trade q p o st with
       | (Ok _, o, st) => numerators_unrounded rest o st
       | _ => false
       end
  end.

(** The fills of an order as the trades table records them:
    [(quantity, price)] of the trades that name it, oldest first. *)
Definition fills_of (oid : Z) (st : Store) : list (Z * Z) :=
  (λ t, (trade_quantity t, trade_price t))
    <$> filter (λ t, bid_order t = oid ∨ ask_order t = oid) (trades_tbl st).

(* ===================================================================== *)
(** ** Worked examples *)
(* ===================================================================== *)

(** Two persisted active buy orders at 100.00, of 10 and of 5. *)
Definition ex_bid_10 : Order :=
  mkOrder 1 1 10 10000 10 0 0 ACTIVE true 0 0 None.

Definition ex_bid_5 : Order :=
  mkOrder 2 1 5 10000 5 0 0 ACTIVE true 1 1 None.

Definition ex_store_two_bids : Store :=
  mkStore [ex_bid_10; ex_bid_5] [] 2 100.

(** A fresh process. *)
Definition ex_world0 : World :=
  mkWorld empty_book (mkStore [] [] 0 100) [].

Definition place_request (s : string) (q : Z) (p : PyDecimal.Decimal)
    : PlaceRequest :=
  mkPlaceRequest (Some s) (Some q) (Some p).

(** A place command whose worker runs to its end before the next command,
    and the clock moves on. *)
Definition place_and_match (req : PlaceRequest) (w : World)
    : option (Response * World) :=
  let '(r, w) := create req w in
  w ← run_worker w;
  Some (r, mkWorld (book w) (tick (store w)) (pending w)).

(** The process after SELL 5 @ 101.00 was placed and rests. *)
Definition ex_world_resting_sell : option World :=
  snd <$> place_and_match
            (place_request "sell" 5 (PyDecimal.mkDecimal 101 0)) ex_world0.

(** The process after a valid SELL 5 @ 101.00 was accepted: its row is
    written and its worker started. *)
Definition ex_world_placed : World :=
  snd (create (place_request "sell" 5 (PyDecimal.mkDecimal 101 0)) ex_world0).

(** SELL 3 @ 100.00 rests, BUY 5 @ 100.00 takes it and rests partially
    filled (scenario S3). *)
Definition ex_world_partial : option World :=
  exec_all
    [Place (place_request "sell" 3 (PyDecimal.mkDecimal 100 0));
     RunWorker; Tick;
     Place (place_request "buy" 5 (PyDecimal.mkDecimal 100 0));
     RunWorker; Tick]
    ex_world0.

(** An untouched order of 10 at 100.00. *)
Definition ex_order_10 : Order :=
  mkOrder 1 1 10 10000 10 0 0 ACTIVE true 0 0 None.

(** SELL 5 @ 101.00 resting alone, with its row; the process is in this
    state (up to the two counters) once that order was placed and its
    worker ran. *)
Definition ex_ask : Order :=
  mkOrder 100 (-1) 5 10100 5 0 0 ACTIVE true 0 0 None.

Definition ex_world_one_ask : World :=
  mkWorld (_add_sell_order ex_ask empty_book)
    (mkStore [ex_ask] [] 1 101) [].

(** BUY 5 @ 101.50, as created by the place command that follows. *)
Definition ex_buy : Order :=
  mkOrder 101 1 5 10150 5 0 0 ACTIVE true 1 1 None.

(** A modify request for order 100: a new price of 102.00. *)
Definition ex_modify : ModifyRequest :=
  mkModifyRequest (Some 100) (Some (PyDecimal.mkDecimal 102 0)).

(** The process once BUY 5 @ 101.50 was accepted while SELL 5 @ 101.00
    rests: the row of the buy order is written and its worker started with
    [ex_buy]. *)
Definition ex_world_buy_placed : World :=
  snd (create (place_request "buy" 5 (PyDecimal.mkDecimal 1015 (-1)))
         ex_world_one_ask).


(** SELL 1 @ 1.00 (order 100) and SELL 2 @ 1.01 (order 101) rest; BUY 5 @
    1.01 (order 102) takes both and rests with 2 remaining; SELL 2 @ 1.05
    (order 105) rests; order 102 is modified to 1.05 and takes it.  Every
    worker runs to its end before the next request. *)
Definition ex_modify_after_fills : list Command :=
  [Place (place_request "sell" 1 (PyDecimal.mkDecimal 100 (-2))); RunWorker;
   Place (place_request "sell" 2 (PyDecimal.mkDecimal 101 (-2))); RunWorker;
   Place (place_request "buy" 5 (PyDecimal.mkDecimal 101 (-2))); RunWorker;
   Place (place_request "sell" 2 (PyDecimal.mkDecimal 105 (-2))); RunWorker;
   Modify 102 (mkModifyRequest (Some 102)
                 (Some (PyDecimal.mkDecimal 105 (-2))));
   RunWorker].

#[global] Opaque PyDecimal.round_sig PyDecimal.quantize_2dp PyDecimal.of_cents.

(* ===================================================================== *)
(** ** Proof support *)
(* ===================================================================== *)

#[local] Set Warnings "-clear-no-such-hyp".

Ltac order_simpl :=
  cbv beta iota zeta delta
    [mark_as_filled mark_as_cancelled Order_save to_row
     set_price set_remaining_quantity set_traded_quantity
     set_average_traded_price set_status set_is_active set_updated_at
     set_orders_tbl set_trades_tbl set_uuid_supply
     order_id side quantity price remaining_quantity traded_quantity
     average_traded_price status is_active created_at updated_at user_id
     orders_tbl trades_tbl clock uuid_supply fst snd] in *.

(* ===================================================================== *)
(** ** Order.save and Order.update_trade *)
(* ===================================================================== *)

Lemma upsert_idem r rows : upsert r (upsert r rows) = upsert r rows.
Proof.
  induction rows as [|x rows IH]; simpl.
  - by rewrite Z.eqb_refl.
  - destruct (order_id x =? order_id r) eqn:E; simpl.
    + by rewrite Z.eqb_refl.
    + by rewrite E, IH.
Qed.

Lemma upsert_Forall (P : Order → Prop) r rows :
  P r → Forall P rows → Forall P (upsert r rows).
Proof.
  intros Hr. induction 1 as [|x rows Hx Hrows IH]; simpl.
  - by constructor.
  - destruct (order_id x =? order_id r); constructor; auto.
Qed.

Lemma find_upsert r rows :
  List.find (λ x, order_id x =? order_id r) (upsert r rows) = Some r.
Proof.
  induction rows as [|x rows IH]; simpl.
  - by rewrite Z.eqb_refl.
  - destruct (order_id x =? order_id r) eqn:E; simpl.
    + by rewrite Z.eqb_refl.
    + by rewrite E.
Qed.

Lemma find_upsert_ne r rows pk :
  order_id r ≠ pk →
  List.find (λ x, order_id x =? pk) (upsert r rows)
  = List.find (λ x, order_id x =? pk) rows.
Proof.
  intros Hne. induction rows as [|x rows IH]; simpl.
  - destruct (order_id r =? pk) eqn:E; [lia|done].
  - destruct (order_id x =? order_id r) eqn:E; simpl.
    + apply Z.eqb_eq in E. rewrite E.
      destruct (order_id r =? pk) eqn:E'; [lia|done].
    + destruct (order_id x =? pk); [done|apply IH].
Qed.

(** A call within the remaining quantity succeeds; the instance then has
    the fields [fill_fields] describes and its row is written. *)
Lemma update_trade_success q p o st :
  q <= remaining_quantity o →
  update_trade q p o st =
    (Ok tt, fill_fields q p (clock st) o,
     set_orders_tbl
       (upsert (to_row (fill_fields q p (clock st) o)) (orders_tbl st)) st).
Proof.
  intros Hq. unfold update_trade, fill_fields.
  destruct (q >? remaining_quantity o) eqn:E; [lia|].
  destruct o as [oid sd qty pr R T avg s a ca ua uid], st as [rows trs now sup].
  order_simpl.
  destruct (T + q >? 0) eqn:Et; destruct (R - q =? 0) eqn:Er;
    rewrite ?Et, ?Er; order_simpl; rewrite ?Et, ?Er; order_simpl;
    rewrite ?upsert_idem; try (apply Z.eqb_eq in Er; rewrite Er); reflexivity.
Qed.

(** C10.  A call to [update_trade] with a quantity strictly above the
    remaining quantity raises [ValueError] and leaves the instance (every
    field) and the store as they were. *)
Theorem update_trade_overfill_raises q p o st :
  q > remaining_quantity o →
  update_trade q p o st =
    (Raise (ValueError "Trade quantity exceeds remaining quantity"), o, st).
Proof.
  intros Hq. unfold update_trade.
  destruct (q >? remaining_quantity o) eqn:E; [reflexivity|lia].
Qed.

Lemma update_trade_overfill_raises_witness :
  update_trade 4 10000 (mkOrder 1 1 3 10100 3 0 0 ACTIVE true 0 0 None)
    (mkStore [] [] 0 100)
  = (Raise (ValueError "Trade quantity exceeds remaining quantity"),
     mkOrder 1 1 3 10100 3 0 0 ACTIVE true 0 0 None, mkStore [] [] 0 100).
Proof.
  apply (update_trade_overfill_raises 4 10000
           (mkOrder 1 1 3 10100 3 0 0 ACTIVE true 0 0 None)
           (mkStore [] [] 0 100)).
  simpl. lia.
Defined.

Lemma of_cents_value c : (PyDecimal.of_cents c == inject_Z c / 100)%Q.
Proof.
  with_strategy transparent [PyDecimal.of_cents] unfold PyDecimal.of_cents.
  apply Qred_correct.
Qed.

(** The number of digits of a positive integer. *)
Lemma digits_fuel_spec fuel : ∀ n,
  0 < n → Z.log2 n <= Z.of_nat fuel →
  10 ^ (PyDecimal.digits_fuel fuel n - 1) <= n
  < 10 ^ PyDecimal.digits_fuel fuel n
  ∧ 1 <= PyDecimal.digits_fuel fuel n.
Proof.
  induction fuel as [|f IH]; intros n Hn Hl.
  - assert (n = 1) as ->.
    { destruct (Z.eq_dec n 1) as [|Hne]; [done|].
      assert (1 <= Z.log2 n); [|lia].
      apply Z.log2_le_pow2; lia. }
    cbn. lia.
  - cbn [PyDecimal.digits_fuel]. destruct (n <? 10) eqn:E.
    + apply Z.ltb_lt in E. cbn. lia.
    + apply Z.ltb_ge in E.
      assert (0 < n / 10) as Hd by (apply Z.div_str_pos; lia).
      assert (Z.log2 (n / 10) <= Z.of_nat f) as Hl'.
      { assert (Z.log2 (n / 10) <= Z.log2 (n / 2)) as H1.
        { apply Z.log2_le_mono.
          pose proof (Z.div_mod n 10 ltac:(lia)).
          pose proof (Z.mod_pos_bound n 10 ltac:(lia)).
          pose proof (Z.div_mod n 2 ltac:(lia)).
          pose proof (Z.mod_pos_bound n 2 ltac:(lia)). lia. }
        assert (Z.log2 (n / 2) = Z.log2 n - 1) as H2.
        { rewrite <- Z.div2_div, Z.div2_spec, Z.log2_shiftr by lia.
          assert (1 <= Z.log2 n) by (apply Z.log2_le_pow2; lia). lia. }
        lia. }
      destruct (IH (n / 10) Hd Hl') as ((H1 & H2) & H3).
      set (d := PyDecimal.digits_fuel f (n / 10)) in *.
      replace (1 + d - 1) with (Z.succ (d - 1)) by lia.
      replace (1 + d) with (Z.succ d) by lia.
      rewrite !Z.pow_succ_r by lia.
      pose proof (Z.div_mod n 10 ltac:(lia)).
      pose proof (Z.mod_pos_bound n 10 ltac:(lia)). lia.
Qed.

Lemma ndigits_spec n :
  0 < n →
  10 ^ (PyDecimal.ndigits n - 1) <= n < 10 ^ PyDecimal.ndigits n
  ∧ 1 <= PyDecimal.ndigits n.
Proof.
  intros Hn. unfold PyDecimal.ndigits. apply digits_fuel_spec; [done|].
  rewrite Z2Nat.id; [lia|apply Z.log2_nonneg].
Qed.

(** An order as [create] makes it holds values its columns accept. *)
Lemma storable_untraded oid s q p st a ca ua uid :
  0 <= q <= 2147483647 → 0 <= p < 10 ^ 10 →
  storable (mkOrder oid s q p q 0 0 st a ca ua uid).
Proof.
  intros Hq Hp. unfold storable. cbn.
  split; [done|]. split; [lia|]. split; [done|]. split; [lia|].
  split; [done|]. split; [done|].
  apply Qle_bool_iff. vm_compute. reflexivity.
Qed.

(** A concrete order holds values its columns accept, by computation. *)
Ltac storable_by_compute :=
  vm_compute; repeat split; (reflexivity || (intros H; discriminate H)).

Lemma inject_Z_nonzero z : z ≠ 0 → ¬ (inject_Z z == 0)%Q.
Proof. intros Hz H. apply Hz. unfold Qeq in H. simpl in H. lia. Qed.

Lemma fill_fields_traded q p now o :
  traded_quantity (fill_fields q p now o) = traded_quantity o + q.
Proof. reflexivity. Qed.

Lemma fill_fields_remaining q p now o :
  remaining_quantity (fill_fields q p now o) = remaining_quantity o - q.
Proof. reflexivity. Qed.

Lemma fill_average_exact q p now o :
  0 < traded_quantity o + q →
  fill_unrounded q p o = true →
  (average_traded_price (fill_fields q p now o)
     * inject_Z (traded_quantity o + q)
   == average_traded_price o * inject_Z (traded_quantity o)
      + inject_Z q * (inject_Z p / 100))%Q.
Proof.
  intros Ht Hu. unfold fill_unrounded in Hu.
  apply andb_prop in Hu as [Hu Hd]. apply andb_prop in Hu as [Hu Hs].
  apply andb_prop in Hu as [Hm1 Hm2].
  apply Qeq_bool_eq in Hd, Hs, Hm1, Hm2.
  unfold fill_fields. cbn [average_traded_price].
  destruct (traded_quantity o + q >? 0) eqn:E; [|lia].
  replace (traded_quantity o + q - q) with (traded_quantity o) by lia.
  pose proof (inject_Z_nonzero (traded_quantity o + q) ltac:(lia)) as Hnz.
  setoid_rewrite Hd. setoid_rewrite Hs. setoid_rewrite Hm1.
  setoid_rewrite Hm2. setoid_rewrite of_cents_value. field. exact Hnz.
Qed.

Lemma fills_quantity_nonneg fills :
  Forall (λ f : Z * Z, 0 < fst f) fills → 0 <= fills_quantity fills.
Proof. induction 1; simpl; lia. Qed.

Lemma fill_fields_order_id q p now o :
  order_id (fill_fields q p now o) = order_id o.
Proof. reflexivity. Qed.

Lemma Order_objects_get_upsert r st :
  Order_objects_get (order_id r) (set_orders_tbl (upsert r (orders_tbl st)) st)
  = Some r.
Proof. unfold Order_objects_get. simpl. apply find_upsert. Qed.

(** The running mean over a sequence of fills none of which makes the
    context round: the instance ends with [avg * T] equal to the exact sum
    of the fill values, and its row holds the average quantized to two
    places. *)
Lemma apply_fills_exact fills : ∀ o st,
  0 <= traded_quantity o →
  Forall (λ f : Z * Z, 0 < fst f) fills →
  fills_quantity fills <= remaining_quantity o →
  fills_unrounded fills o st = true →
  ∃ o' st',
    apply_fills fills o st = (Ok tt, o', st')
    ∧ order_id o' = order_id o
    ∧ traded_quantity o' = traded_quantity o + fills_quantity fills
    ∧ remaining_quantity o' = remaining_quantity o - fills_quantity fills
    ∧ (average_traded_price o' * inject_Z (traded_quantity o')
       == average_traded_price o * inject_Z (traded_quantity o)
          + fills_value fills)%Q
    ∧ (fills ≠ [] → Order_objects_get (order_id o) st' = Some (to_row o')).
Proof.
  induction fills as [|[q p] rest IH]; intros o st HT Hpos Hle Hun.
  - exists o, st. simpl. repeat split; try lia.
    + ring.
    + congruence.
  - apply Forall_cons in Hpos as [Hq Hpos]. simpl in Hq.
    pose proof (fills_quantity_nonneg rest Hpos) as Hrest.
    simpl in Hle. simpl in Hun. apply andb_prop in Hun as [Hu Hun].
    rewrite update_trade_success in Hun by lia.
    simpl. rewrite update_trade_success by lia.
    set (o1 := fill_fields q p (clock st) o) in *.
    set (st1 := set_orders_tbl (upsert (to_row o1) (orders_tbl st)) st) in *.
    destruct (IH o1 st1) as (o' & st' & Happ & Hid & HT' & HR' & Havg & Hrow);
      try assumption.
    + unfold o1. rewrite fill_fields_traded. lia.
    + unfold o1. rewrite fill_fields_remaining. lia.
    + exists o', st'. split; [exact Happ|].
      unfold o1 in HT', HR', Hid.
      rewrite fill_fields_traded in HT'. rewrite fill_fields_remaining in HR'.
      rewrite fill_fields_order_id in Hid.
      repeat split; try lia; try assumption.
      * etransitivity; [exact Havg|]. unfold o1.
        rewrite fill_fields_traded.
        etransitivity;
          [apply Qplus_comp;
             [exact (fill_average_exact q p (clock st) o ltac:(lia) Hu)
             |reflexivity]|].
        simpl. ring.
      * intros _. destruct rest as [|f rest'].
        -- simpl in Happ. injection Happ as <- <-.
           unfold st1. rewrite <- (fill_fields_order_id q p (clock st) o).
           fold o1. change (order_id o1) with (order_id (to_row o1)).
           apply Order_objects_get_upsert.
        -- rewrite <- (fill_fields_order_id q p (clock st) o). fold o1.
           apply Hrow. discriminate.
Qed.

(** Rounding depends on the value only. *)
Lemma round_sig_proper prec x y :
  (x == y)%Q → PyDecimal.round_sig prec x = PyDecimal.round_sig prec y.
Proof.
  intros H.
  with_strategy transparent [PyDecimal.round_sig] unfold PyDecimal.round_sig.
  by rewrite (Qred_complete x y H).
Qed.

Lemma fill_average_rounded_once q p now o :
  0 < traded_quantity o + q →
  numerator_unrounded q p o = true →
  average_traded_price (fill_fields q p now o)
  = PyDecimal.round_sig PyDecimal.prec
      ((average_traded_price o * inject_Z (traded_quantity o)
        + inject_Z q * (inject_Z p / 100))
       / inject_Z (traded_quantity o + q)).
Proof.
  intros Ht Hu. unfold numerator_unrounded in Hu.
  apply andb_prop in Hu as [Hu Hs]. apply andb_prop in Hu as [Hm1 Hm2].
  apply Qeq_bool_eq in Hs, Hm1, Hm2.
  unfold fill_fields. cbn [average_traded_price].
  destruct (traded_quantity o + q >? 0) eqn:E; [|lia].
  replace (traded_quantity o + q - q) with (traded_quantity o) by lia.
  unfold PyDecimal.div. apply round_sig_proper.
  pose proof (inject_Z_nonzero (traded_quantity o + q) ltac:(lia)) as Hnz.
  setoid_rewrite Hs. setoid_rewrite Hm1. setoid_rewrite Hm2.
  setoid_rewrite of_cents_value. field. exact Hnz.
Qed.

(** The running mean over a sequence of fills in which nothing but the last
    division makes the context round: the instance ends with the exact
    quotient rounded once. *)
Lemma apply_fills_rounded_once fills : ∀ o st,
  0 <= traded_quantity o →
  fills ≠ [] →
  Forall (λ f : Z * Z, 0 < fst f) fills →
  fills_quantity fills <= remaining_quantity o →
  numerators_unrounded fills o st = true →
  ∃ o' st',
    apply_fills fills o st = (Ok tt, o', st')
    ∧ traded_quantity o' = traded_quantity o + fills_quantity fills
    ∧ average_traded_price o'
      = PyDecimal.round_sig PyDecimal.prec
          ((average_traded_price o * inject_Z (traded_quantity o)
            + fills_value fills)
           / inject_Z (traded_quantity o + fills_quantity fills))
    ∧ Order_objects_get (order_id o) st' = Some (to_row o').
Proof.
  induction fills as [|[q p] rest IH]; intros o st HT Hne Hpos Hle Hun;
    [done|].
  apply Forall_cons in Hpos as [Hq Hpos]. simpl in Hq.
  pose proof (fills_quantity_nonneg rest Hpos) as Hrest.
  simpl in Hle.
  destruct rest as [|f rest'].
  - cbn [numerators_unrounded] in Hun.
    cbn [apply_fills]. rewrite update_trade_success by (simpl in Hle; lia).
    eexists _, _. split; [reflexivity|].
    split; [cbn; lia|]. split.
    + rewrite (fill_average_rounded_once q p (clock st) o ltac:(lia) Hun).
      apply round_sig_proper.
      cbn [fills_value fills_quantity foldr fst snd].
      replace (traded_quantity o + (q + 0)) with (traded_quantity o + q)
        by lia.
      pose proof (inject_Z_nonzero (traded_quantity o + q) ltac:(lia)) as Hnz.
      field. exact Hnz.
    + rewrite <- (fill_fields_order_id q p (clock st) o).
      apply (Order_objects_get_upsert
               (to_row (fill_fields q p (clock st) o))).
  - assert (numerators_unrounded ((q, p) :: f :: rest') o st
            = fill_unrounded q p o
              && match update_trade q p o st with
                 | (Ok _, o, st) => numerators_unrounded (f :: rest') o st
                 | _ => false
                 end) as Heq by (by destruct f).
    rewrite Heq in Hun. clear Heq.
    apply andb_prop in Hun as [Hu Hun].
    assert (q <= remaining_quantity o) as Hqle.
    { change (fills_quantity ((q, p) :: f :: rest'))
        with (q + fills_quantity (f :: rest')) in Hle. lia. }
    rewrite update_trade_success in Hun by done.
    cbn [apply_fills]. rewrite update_trade_success by done.
    set (o1 := fill_fields q p (clock st) o) in *.
    set (st1 := set_orders_tbl (upsert (to_row o1) (orders_tbl st)) st) in *.
    change (fills_quantity ((q, p) :: f :: rest'))
      with (q + fills_quantity (f :: rest')) in *.
    destruct (IH o1 st1) as (o' & st' & Happ & HT' & Havg & Hrow);
      try assumption.
    + unfold o1. rewrite fill_fields_traded. lia.
    + discriminate.
    + unfold o1. rewrite fill_fields_remaining. lia.
    + exists o', st'. split; [exact Happ|].
      unfold o1 in HT'. rewrite fill_fields_traded in HT'.
      split; [lia|]. split.
      * rewrite Havg. apply round_sig_proper.
        pose proof (fill_average_exact q p (clock st) o ltac:(lia) Hu)
          as Hex.
        fold o1 in Hex.
        replace (traded_quantity o1) with (traded_quantity o + q)
          by (unfold o1; by rewrite fill_fields_traded).
        replace (traded_quantity o + q + fills_quantity (f :: rest'))
          with (traded_quantity o + (q + fills_quantity (f :: rest')))
          by lia.
        apply Qmult_comp; [|reflexivity].
        setoid_rewrite Hex.
        change (fills_value ((q, p) :: f :: rest'))
          with (inject_Z q * (inject_Z p / 100)
                + fills_value (f :: rest'))%Q.
        ring.
      * rewrite <- (fill_fields_order_id q p (clock st) o). fold o1.
        exact Hrow.
Qed.

(** *** Decimals that the context does not round *)

Section decimal_rounding.
Local Open Scope Q_scope.

Lemma Q10_pos (k : Z) : 0 < 10 ^ k.
Proof. apply Qpower_0_lt. reflexivity. Qed.

Lemma Q10_nonzero : ¬ (10 == 0).
Proof. discriminate. Qed.

Lemma Q10_inject (k : Z) : (0 <= k)%Z → inject_Z (10 ^ k) == 10 ^ k.
Proof. intros H. apply (Zpower_Qpower 10 k H). Qed.

(** [round_half_even] of an integer is that integer. *)
Lemma round_half_even_int (x : Q) (N : Z) :
  x == inject_Z N → PyDecimal.round_half_even x = N.
Proof.
  intros H. unfold PyDecimal.round_half_even.
  assert (Qfloor x = N) as -> by (rewrite H; apply Qfloor_Z).
  assert (x - inject_Z N < 1 # 2) as Hlt.
  { setoid_replace (x - inject_Z N) with 0 using relation Qeq
      by (rewrite H; ring). reflexivity. }
  apply Qlt_alt in Hlt. unfold Qcompare in *. by rewrite Hlt.
Qed.

(** The digit counts place a positive rational between two powers of
    ten. *)
Lemma adjusted_exponent_spec (a : Q) :
  0 < a →
  let k := (PyDecimal.ndigits (Qnum a)
            - PyDecimal.ndigits (Zpos (Qden a)))%Z in
  let adj := if Qle_bool (10 ^ k) a then k else (k - 1)%Z in
  10 ^ adj <= a ∧ a < 10 ^ (adj + 1).
Proof.
  intros Ha. destruct a as [n d]. cbn [Qnum Qden].
  assert (0 < n)%Z as Hn by (unfold Qlt in Ha; simpl in Ha; lia).
  destruct (ndigits_spec n Hn) as ((Hn1 & Hn2) & Hn3).
  destruct (ndigits_spec (Zpos d) ltac:(lia)) as ((Hd1 & Hd2) & Hd3).
  set (nn := PyDecimal.ndigits n) in *.
  set (nd := PyDecimal.ndigits (Zpos d)) in *.
  assert (n # d == inject_Z n / inject_Z (Zpos d)) as Hnd
    by (rewrite Qmake_Qdiv; reflexivity).
  assert (0 < inject_Z (Z.pos d)) as Hdpos by (unfold Qlt; simpl; lia).
  assert (n # d < 10 ^ (nn - nd + 1)) as Hup.
  { replace (nn - nd + 1)%Z with (nn - (nd - 1))%Z by lia.
    rewrite Qpower_minus by apply Q10_nonzero.
    rewrite <- !Q10_inject by lia. rewrite Hnd.
    apply Qlt_shift_div_l.
    { rewrite <- (Zlt_Qlt 0). apply Z.pow_pos_nonneg; lia. }
    unfold Qdiv. rewrite <- Qmult_assoc, (Qmult_comm (/ _)), Qmult_assoc.
    apply Qlt_shift_div_r; [done|].
    rewrite <- !inject_Z_mult, <- Zlt_Qlt.
    assert (0 < 10 ^ (nd - 1))%Z by (apply Z.pow_pos_nonneg; lia). nia. }
  assert (10 ^ (nn - nd - 1) <= n # d) as Hlow.
  { replace (nn - nd - 1)%Z with ((nn - 1) - nd)%Z by lia.
    rewrite Qpower_minus by apply Q10_nonzero.
    rewrite <- !Q10_inject by lia. rewrite Hnd.
    apply Qle_shift_div_r.
    { rewrite <- (Zlt_Qlt 0). apply Z.pow_pos_nonneg; lia. }
    unfold Qdiv. rewrite <- Qmult_assoc, (Qmult_comm (/ _)), Qmult_assoc.
    apply Qle_shift_div_l; [done|].
    rewrite <- !inject_Z_mult, <- Zle_Qle.
    assert (0 < 10 ^ (nn - 1))%Z by (apply Z.pow_pos_nonneg; lia). nia. }
  destruct (Qle_bool (10 ^ (nn - nd)) (n # d)) eqn:E.
  - apply Qle_bool_iff in E. done.
  - split.
    + exact Hlow.
    + replace (nn - nd - 1 + 1)%Z with (nn - nd)%Z by lia.
      apply Qnot_le_lt. intros H. apply Qle_bool_iff in H. congruence.
Qed.

(** A decimal of at most [prec] digits is not rounded. *)
Lemma round_sig_short_decimal (m j : Z) (x : Q) :
  (0 <= j)%Z → (Z.abs m < 10 ^ PyDecimal.prec)%Z →
  x == inject_Z m / 10 ^ j →
  PyDecimal.round_sig PyDecimal.prec x == x.
Proof.
  intros Hj Hm Hx.
  with_strategy transparent [PyDecimal.round_sig] unfold PyDecimal.round_sig.
  cbv zeta.
  pose proof (Qred_correct x) as Hy. set (y := Qred x) in *.
  destruct (Qeq_bool y 0) eqn:E0.
  { apply Qeq_bool_eq in E0. rewrite <- Hy, E0. reflexivity. }
  apply Qeq_bool_neq in E0.
  clearbody y.
  assert (0 < Qabs y) as Ha.
  { destruct y as [n d]. unfold Qeq in E0. unfold Qlt, Qabs.
    simpl in *. lia. }
  destruct (adjusted_exponent_spec (Qabs y) Ha) as [Hlo Hhi].
  set (k := (PyDecimal.ndigits (Qnum (Qabs y))
             - PyDecimal.ndigits (Zpos (Qden (Qabs y))))%Z) in *.
  set (adj := if Qle_bool (10 ^ k) (Qabs y) then k else (k - 1)%Z) in *.
  cbv zeta in Hlo, Hhi.
  set (e := (adj - PyDecimal.prec + 1)%Z).
  assert (Qabs y == inject_Z (Z.abs m) / 10 ^ j) as Habs.
  { rewrite Hy, Hx. unfold Qdiv. rewrite Qabs_Qmult.
    rewrite (Qabs_pos (/ 10 ^ j)).
    - apply Qmult_comp; [|reflexivity].
      unfold Qabs, inject_Z. reflexivity.
    - apply Qinv_le_0_compat, Qlt_le_weak, Q10_pos. }
  assert (adj < PyDecimal.prec - j)%Z as Hadj.
  { apply (Qpower_lt_compat_l_inv 10); [|reflexivity].
    eapply Qle_lt_trans; [exact Hlo|]. rewrite Habs.
    rewrite Qpower_minus by apply Q10_nonzero.
    unfold Qdiv. apply Qmult_lt_compat_r.
    - apply Qinv_lt_0_compat, Q10_pos.
    - rewrite <- Q10_inject by (unfold PyDecimal.prec; lia).
      by rewrite <- Zlt_Qlt. }
  assert (Qabs y / 10 ^ e
          == inject_Z (Z.abs m * 10 ^ (- j - e))) as HN.
  { rewrite Habs, inject_Z_mult, Q10_inject by (unfold e; lia).
    rewrite Qpower_minus by apply Q10_nonzero.
    rewrite Qpower_opp. field.
    split; apply Qpower_not_0, Q10_nonzero. }
  rewrite (round_half_even_int _ _ HN), Qred_correct.
  rewrite <- HN.
  setoid_replace ((if Qle_bool 0 y then 1 else -1) * (Qabs y / 10 ^ e)
                  * 10 ^ e)
    with ((if Qle_bool 0 y then 1 else -1) * Qabs y) using relation Qeq
    by (field; apply Qpower_not_0, Q10_nonzero).
  rewrite <- Hy.
  destruct (Qle_bool 0 y) eqn:Es.
  - apply Qle_bool_iff in Es. rewrite Qabs_pos by done. ring.
  - assert (y <= 0) as Hneg.
    { apply Qlt_le_weak, Qnot_le_lt. intros H.
      apply Qle_bool_iff in H. congruence. }
    rewrite Qabs_neg by done. ring.
Qed.

Lemma Q100 : 100 == 10 ^ 2.
Proof. reflexivity. Qed.

(** The products and the sum of one [update_trade] are decimals of about
    twenty digits when the running value [avg·T] is one: nothing is
    rounded. *)
Lemma numerator_unrounded_short q p o M :
  average_traded_price o * inject_Z (traded_quantity o) == inject_Z M / 100 →
  (Z.abs M < 10 ^ 21)%Z →
  (0 < q <= 2147483647)%Z → (0 < p < 10 ^ 10)%Z →
  numerator_unrounded q p o = true
  ∧ PyDecimal.add
      (PyDecimal.mul (average_traded_price o)
         (inject_Z (traded_quantity o)))
      (PyDecimal.mul (PyDecimal.of_cents p) (inject_Z q))
    == inject_Z (M + p * q) / 100.
Proof.
  intros HM HMb Hq Hp.
  assert (Z.abs (p * q) < 10 ^ 21)%Z as Hpq.
  { rewrite Z.abs_eq by nia.
    assert (p * q < 10 ^ 10 * 2147483648)%Z by nia.
    assert (10 ^ 10 * 2147483648 < 10 ^ 21)%Z by reflexivity. lia. }
  assert (PyDecimal.mul (average_traded_price o)
            (inject_Z (traded_quantity o))
          == inject_Z M / 100) as H1.
  { unfold PyDecimal.mul. rewrite <- HM.
    apply (round_sig_short_decimal M 2); [lia| |by rewrite HM, Q100].
    eapply Z.lt_trans; [exact HMb|reflexivity]. }
  assert (PyDecimal.of_cents p * inject_Z q == inject_Z (p * q) / 100)
    as H2v.
  { rewrite of_cents_value, inject_Z_mult. field. }
  assert (PyDecimal.mul (PyDecimal.of_cents p) (inject_Z q)
          == inject_Z (p * q) / 100) as H2.
  { unfold PyDecimal.mul. rewrite <- H2v.
    apply (round_sig_short_decimal (p * q) 2); [lia| |by rewrite H2v, Q100].
    eapply Z.lt_trans; [exact Hpq|reflexivity]. }
  assert (inject_Z M / 100 + inject_Z (p * q) / 100
          == inject_Z (M + p * q) / 100) as H3v.
  { rewrite inject_Z_plus. field. }
  assert (PyDecimal.add
            (PyDecimal.mul (average_traded_price o)
               (inject_Z (traded_quantity o)))
            (PyDecimal.mul (PyDecimal.of_cents p) (inject_Z q))
          == inject_Z (M + p * q) / 100) as H3.
  { unfold PyDecimal.add.
    rewrite (round_sig_proper _ _ (inject_Z (M + p * q) / 100))
      by (rewrite H1, H2; exact H3v).
    apply (round_sig_short_decimal (M + p * q) 2);
      [lia| |by rewrite Q100].
    assert (Z.abs (M + p * q) < 2 * 10 ^ 21)%Z by lia.
    eapply Z.lt_trans; [eassumption|reflexivity]. }
  split; [|exact H3].
  unfold numerator_unrounded. cbv zeta.
  apply andb_true_intro. split; [apply andb_true_intro; split|].
  - apply Qeq_eq_bool. rewrite H1, HM. reflexivity.
  - apply Qeq_eq_bool. rewrite H2, H2v. reflexivity.
  - apply Qeq_eq_bool. rewrite H3, H1, H2. symmetry. exact H3v.
Qed.

(** The first fill of an untraded order rounds nowhere: the average is the
    fill price. *)
Lemma first_fill_unrounded q p o :
  traded_quantity o = 0%Z →
  (0 < q <= 2147483647)%Z → (0 < p < 10 ^ 10)%Z →
  fill_unrounded q p o = true.
Proof.
  intros HT Hq Hp.
  destruct (numerator_unrounded_short q p o 0) as [Hn Hs];
    [rewrite HT; unfold Qdiv; ring|reflexivity|done|done|].
  unfold numerator_unrounded in Hn. cbv zeta in Hn.
  unfold fill_unrounded. cbv zeta.
  rewrite Hn. cbn [andb]. apply Qeq_eq_bool.
  set (s := PyDecimal.add _ _) in *.
  rewrite HT, Z.add_0_l in *.
  pose proof (inject_Z_nonzero q ltac:(lia)) as Hnz.
  assert (s / inject_Z q == inject_Z p / 100) as Hv.
  { rewrite Hs, inject_Z_mult. field. exact Hnz. }
  unfold PyDecimal.div. rewrite Hv at 2. rewrite <- Hv.
  apply (round_sig_short_decimal p 2); [lia| |by rewrite Hv, Q100].
  rewrite Z.abs_eq by lia.
  eapply Z.lt_trans; [apply Hp|reflexivity].
Qed.

(** One fill or two of an untraded order: only the last division can
    round. *)
Lemma numerators_unrounded_two fills o st :
  traded_quantity o = 0%Z →
  (length fills <= 2)%nat →
  Forall (λ f : Z * Z, (0 < fst f <= 2147483647)%Z) fills →
  Forall (λ f : Z * Z, (0 < snd f < 10 ^ 10)%Z) fills →
  (fills_quantity fills <= remaining_quantity o)%Z →
  numerators_unrounded fills o st = true.
Proof.
  intros HT Hlen Hqs Hps Hle.
  destruct fills as [|[q1 p1] [|[q2 p2] [|f rest]]];
    [reflexivity| | |simpl in Hlen; lia].
  - apply Forall_cons in Hqs as [Hq1 _]. apply Forall_cons in Hps as [Hp1 _].
    cbn [numerators_unrounded].
    apply (numerator_unrounded_short q1 p1 o 0);
      [rewrite HT; unfold Qdiv; ring|reflexivity|done|done].
  - apply Forall_cons in Hqs as [Hq1 Hqs]. apply Forall_cons in Hqs as [Hq2 _].
    apply Forall_cons in Hps as [Hp1 Hps]. apply Forall_cons in Hps as [Hp2 _].
    cbn [fst snd] in *.
    cbn [numerators_unrounded].
    pose proof (first_fill_unrounded q1 p1 o HT Hq1 Hp1) as H1.
    rewrite H1. cbn [andb].
    assert (q1 <= remaining_quantity o)%Z as Hq1R.
    { cbn [fills_quantity foldr fst] in Hle. lia. }
    rewrite update_trade_success by done.
    pose proof (fill_average_exact q1 p1 (clock st) o ltac:(lia) H1) as Hex.
    apply (numerator_unrounded_short q2 p2 _ (q1 * p1)); [| |done|done].
    + rewrite fill_fields_traded, Hex, HT, inject_Z_mult. field.
    + rewrite Z.abs_eq by nia.
      assert (q1 * p1 < 2147483648 * 10 ^ 10)%Z by nia.
      assert (2147483648 * 10 ^ 10 < 10 ^ 21)%Z by reflexivity. lia.
Qed.

End decimal_rounding.

Lemma fills_quantity_bound fills B :
  Forall (λ f : Z * Z, 0 < fst f) fills → fills_quantity fills <= B →
  Forall (λ f : Z * Z, 0 < fst f <= B) fills.
Proof.
  intros Hpos. revert B. induction Hpos as [|[q p] rest Hq Hrest IH];
    intros B Hle; [constructor|].
  cbn [fills_quantity foldr fst] in *.
  pose proof (fills_quantity_nonneg rest Hrest) as H0.
  constructor; [cbn; unfold fills_quantity in H0; lia|].
  eapply Forall_impl; [apply (IH (B - q)); unfold fills_quantity in *; lia|].
  intros f Hf. cbn in *. lia.
Qed.

(** C7, as amended.  [update_trade] keeps a running mean
    [(avg·T_old + p·q) / T_new] in decimal arithmetic of 28 significant
    digits, and the row keeps it quantized to two decimal places.  For a
    sequence of fills, at prices the price column holds, applied to one
    instance of a so far untraded order: after one fill or two, and after
    more as long as no decimal operation before the last division had to
    round, the average is the exact quotient [Σ qᵢ·pᵢ / Σ qᵢ] rounded once
    to 28 significant digits; it is the exact quotient itself if the last
    division does not round either. *)
Theorem vwap_rounded_once fills o st :
  storable o →
  traded_quantity o = 0 →
  fills ≠ [] →
  Forall (λ f : Z * Z, 0 < fst f) fills →
  Forall (λ f : Z * Z, 0 < snd f < 10 ^ 10) fills →
  fills_quantity fills <= remaining_quantity o →
  (length fills <= 2)%nat ∨ numerators_unrounded fills o st = true →
  ∃ o' st',
    apply_fills fills o st = (Ok tt, o', st')
    ∧ traded_quantity o' = fills_quantity fills
    ∧ average_traded_price o'
      = PyDecimal.round_sig PyDecimal.prec (exact_vwap fills)
    ∧ (fills_unrounded fills o st = true →
       (average_traded_price o' == exact_vwap fills)%Q)
    ∧ (average_traded_price <$> Order_objects_get (order_id o) st')
      = Some (PyDecimal.quantize_2dp (average_traded_price o')).
Proof.
  intros Hst HT Hne Hpos Hprice Hle Hcase.
  assert (numerators_unrounded fills o st = true) as Hun.
  { destruct Hcase as [Hlen|H]; [|exact H].
    apply numerators_unrounded_two; [done|done| |done|done].
    apply fills_quantity_bound; [done|].
    destruct Hst as (_ & _ & HT0 & HRT & _). lia. }
  destruct (apply_fills_rounded_once fills o st) as
    (o' & st' & Happ & HT' & Havg & Hrow); try assumption; [lia|].
  exists o', st'. rewrite HT in *. rewrite Z.add_0_l in HT'.
  assert (0 < fills_quantity fills) as Hq.
  { destruct fills as [|[q p] rest]; [done|].
    apply Forall_cons in Hpos as [Hq Hpos]. simpl in *.
    pose proof (fills_quantity_nonneg rest Hpos). lia. }
  pose proof (inject_Z_nonzero (fills_quantity fills) ltac:(lia)) as Hnz.
  split; [done|]. split; [done|]. split; [|split].
  - rewrite Havg. apply round_sig_proper. unfold exact_vwap.
    rewrite Z.add_0_l. field. exact Hnz.
  - intros Hex.
    destruct (apply_fills_exact fills o st) as
      (o2 & st2 & Happ2 & _ & HT2 & _ & Havg2 & _); try assumption; [lia|].
    rewrite Happ in Happ2. injection Happ2 as <- <-.
    unfold exact_vwap. rewrite HT, Z.add_0_l in HT2. rewrite HT2 in Havg2.
    assert (fills_value fills
            == average_traded_price o' * inject_Z (fills_quantity fills))%Q
      as ->.
    { setoid_rewrite Havg2. rewrite HT. ring. }
    field. exact Hnz.
  - rewrite Hrow. reflexivity.
Qed.

(** Three fills, 1 @ 1.00, 1 @ 1.01 and 1 @ 1.01: the second average,
    1.005, is exact, and the last division, 3.02 / 3, is the one operation
    that rounds. *)
Lemma vwap_rounded_once_witness :
  ∃ o' st',
    apply_fills [(1, 100); (1, 101); (1, 101)]
      (mkOrder 1 1 3 101 3 0 0 ACTIVE true 0 0 None)
      (mkStore [mkOrder 1 1 3 101 3 0 0 ACTIVE true 0 0 None] [] 0 100)
    = (Ok tt, o', st')
    ∧ traded_quantity o' = fills_quantity [(1, 100); (1, 101); (1, 101)]
    ∧ average_traded_price o'
      = PyDecimal.round_sig PyDecimal.prec
          (exact_vwap [(1, 100); (1, 101); (1, 101)])
    ∧ (fills_unrounded [(1, 100); (1, 101); (1, 101)]
         (mkOrder 1 1 3 101 3 0 0 ACTIVE true 0 0 None)
         (mkStore [mkOrder 1 1 3 101 3 0 0 ACTIVE true 0 0 None] [] 0 100)
       = true →
       Qeq (average_traded_price o')
         (exact_vwap [(1, 100); (1, 101); (1, 101)]))
    ∧ (average_traded_price
         <$> Order_objects_get
               (order_id (mkOrder 1 1 3 101 3 0 0 ACTIVE true 0 0 None)) st')
      = Some (PyDecimal.quantize_2dp (average_traded_price o')).
Proof.
  apply (vwap_rounded_once [(1, 100); (1, 101); (1, 101)]
           (mkOrder 1 1 3 101 3 0 0 ACTIVE true 0 0 None)
           (mkStore [mkOrder 1 1 3 101 3 0 0 ACTIVE true 0 0 None] [] 0 100)).
  - storable_by_compute.
  - reflexivity.
  - discriminate.
  - repeat constructor.
  - repeat constructor.
  - vm_compute. discriminate.
  - right. vm_compute. reflexivity.
Defined.

(** Two fills, 1 @ 1.00 and 2 @ 1.01: 1.006666666666666666666666667 in
    memory, which is 3.02 / 3 rounded once, and 1.01 in the row. *)
Lemma rounded_once_values_example :
  let o := mkOrder 1 1 3 101 3 0 0 ACTIVE true 0 0 None in
  let st := mkStore [o] [] 0 100 in
  let r := apply_fills [(1, 100); (2, 101)] o st in
  average_traded_price r.1.2
  = (1006666666666666666666666667 # 1000000000000000000000000000)%Q
  ∧ (average_traded_price <$> Order_objects_get 1 r.2) = Some (101 # 100)%Q.
Proof. split; vm_compute; reflexivity. Qed.

(** C7, counterexample.  The commands of [ex_modify_after_fills]: order
    102, BUY 5, is filled 1 @ 1.00 and 2 @ 1.01, which leaves
    1.006666666666666666666666667 in memory and 1.01 in its row; modify
    reads the row, and the fill of 2 @ 1.05 that follows gives
    (1.01·3 + 1.05·2) / 5 = 1.026, stored as 1.03.  The exact quotient of
    the three fills is 5.12 / 5 = 1.024, which no rounding takes to 1.03:
    to 28 digits it is 1.024, to two decimal places 1.02.  No value on the
    way lies halfway between two neighbours, so the rounding mode plays no
    part. *)
Lemma vwap_drift_counterexample :
  ∃ w w' row row',
    exec_all (take 8 ex_modify_after_fills) ex_world0 = Some w
    ∧ Order_objects_get 102 (store w) = Some row
    ∧ fills_of 102 (store w) = [(1, 100); (2, 101)]
    ∧ traded_quantity row = 3
    ∧ average_traded_price row = (101 # 100)%Q
    ∧ exec_all (drop 8 ex_modify_after_fills) w = Some w'
    ∧ exec_all ex_modify_after_fills ex_world0 = Some w'
    ∧ Order_objects_get 102 (store w') = Some row'
    ∧ fills_of 102 (store w') = [(1, 100); (2, 101); (2, 105)]
    ∧ traded_quantity row' = 5
    ∧ average_traded_price row' = (103 # 100)%Q
    ∧ (exact_vwap (fills_of 102 (store w')) == 128 # 125)%Q
    ∧ PyDecimal.round_sig PyDecimal.prec (exact_vwap (fills_of 102 (store w')))
      = (128 # 125)%Q
    ∧ PyDecimal.quantize_2dp (exact_vwap (fills_of 102 (store w')))
      = (51 # 50)%Q.
Proof.
  eexists _, _, _, _. split; [vm_compute; reflexivity|].
  split; [vm_compute; reflexivity|].
  split; [vm_compute; reflexivity|].
  split; [reflexivity|]. split; [reflexivity|].
  split; [vm_compute; reflexivity|].
  split; [vm_compute; reflexivity|].
  split; [vm_compute; reflexivity|].
  split; [vm_compute; reflexivity|].
  split; [reflexivity|]. split; [reflexivity|].
  split; [apply Qeq_bool_eq; vm_compute; reflexivity|].
  split; vm_compute; reflexivity.
Qed.

(** The running mean drifts on one instance too, in the last of its 28
    digits: after 1 @ 1.00, 2 @ 1.01 and 3 @ 1.00 the instance holds
    1.003333333333333333333333334, one unit above the exact quotient
    6.02 / 6 rounded to 28 digits, because the second average went into
    the third already rounded. *)
Lemma running_mean_drift_example :
  let o := mkOrder 1 1 6 101 6 0 0 ACTIVE true 0 0 None in
  let st := mkStore [o] [] 0 100 in
  let fills := [(1, 100); (2, 101); (3, 100)] in
  ∃ o' st',
    apply_fills fills o st = (Ok tt, o', st')
    ∧ (average_traded_price o'
       == 1003333333333333333333333334 # 1000000000000000000000000000)%Q
    ∧ (PyDecimal.round_sig PyDecimal.prec (exact_vwap fills)
       == 1003333333333333333333333333 # 1000000000000000000000000000)%Q.
Proof.
  eexists _, _. split; [vm_compute; reflexivity|].
  split; apply Qeq_bool_eq; vm_compute; reflexivity.
Qed.

(* ===================================================================== *)
(** ** TradeSettlementView.post and Trade.mark_as_settled *)
(* ===================================================================== *)

Lemma find_upsert_trade t rows :
  List.find (λ x, trade_id x =? trade_id t) (upsert_trade t rows) = Some t.
Proof.
  induction rows as [|x rows IH]; simpl.
  - by rewrite Z.eqb_refl.
  - destruct (trade_id x =? trade_id t) eqn:E; simpl.
    + by rewrite Z.eqb_refl.
    + by rewrite E.
Qed.

Lemma find_trade_id tid rows t :
  List.find (λ x, trade_id x =? tid) rows = Some t → trade_id t = tid.
Proof. intros H. apply find_some in H as [_ H]. lia. Qed.

(** What the settlement view does to an unsettled trade: the flag is set and
    written, the [settlement_timestamp] column keeps its value. *)
Lemma settle_unsettled tid st t :
  List.find (λ x, trade_id x =? tid) (trades_tbl st) = Some t →
  is_settled t = false →
  ∃ resp st' t',
    settle tid st = (resp, st')
    ∧ http_status resp = 200
    ∧ List.find (λ x, trade_id x =? tid) (trades_tbl st') = Some t'
    ∧ is_settled t' = true
    ∧ settlement_timestamp t' = settlement_timestamp t
    ∧ body_get "trade" (body resp)
      = Some (JDict (TradeSerializer (mkTradeObj t' (Some (clock st))))).
Proof.
  intros Hfind Hs. unfold settle, Trade_objects_get. rewrite Hfind. simpl.
  rewrite Hs.
  pose proof (find_upsert_trade
           (mkTrade (trade_id t) (trade_price t) (trade_quantity t)
              (bid_order t) (ask_order t) (execution_timestamp t)
              (trade_created_at t) true (settlement_timestamp t))
           (trades_tbl st)) as Hf.
  cbn [trade_id] in Hf. rewrite <- (find_trade_id _ _ _ Hfind).
  eexists _, _, _. split; [reflexivity|]. simpl.
  split; [reflexivity|]. split; [exact Hf|]. repeat split.
Qed.

(** Settling a settled trade: 400, nothing written. *)
Lemma settle_settled tid st t :
  List.find (λ x, trade_id x =? tid) (trades_tbl st) = Some t →
  is_settled t = true →
  settle tid st
  = (mkResponse 400 [("error", JStr "Trade already settled")], st).
Proof.
  intros Hfind Hs. unfold settle, Trade_objects_get. rewrite Hfind. simpl.
  by rewrite Hs.
Qed.

(** C9, the code at the failing input.  The view settles a fresh trade at
    time 9: the row gets [is_settled = True] and its
    [settlement_timestamp] stays null (the view assigns [settled_at], which
    is no field), where [Trade.mark_as_settled] stores the time; a second
    call answers 400 and writes nothing. *)
Theorem settle_view_leaves_timestamp_null :
  let t := mkTrade 7 10100 5 2 1 3 3 false None in
  let st := mkStore [] [t] 9 100 in
  let t' := mkTrade 7 10100 5 2 1 3 3 true None in
  let st' := mkStore [] [t'] 9 100 in
  settle 7 st
  = (mkResponse 200
       [("message", JStr "Trade settled successfully");
        ("trade", JDict (TradeSerializer (mkTradeObj t' (Some 9))))], st')
  ∧ settlement_timestamp t' = None
  ∧ trades_tbl (snd (mark_as_settled (mkTradeObj t None) st))
    = [mkTrade 7 10100 5 2 1 3 3 true (Some 9)]
  ∧ settle 7 st'
    = (mkResponse 400 [("error", JStr "Trade already settled")], st').
Proof. repeat split. Qed.

(* ===================================================================== *)
(** ** order_by and the snapshot view *)
(* ===================================================================== *)

Section insertion_sort.
Variable le : Order → Order → bool.
Variable R : Order → Order → Prop.
Hypothesis le_spec : ∀ a b, le a b = true ↔ R a b.
Hypothesis R_total : ∀ a b, R a b ∨ R b a.
Hypothesis R_trans : ∀ a b c, R a b → R b c → R a c.

Lemma insert_by_perm x l : insert_by le x l ≡ₚ x :: l.
Proof.
  induction l as [|y l IH]; simpl; [done|].
  destruct (le x y); [done|]. rewrite IH. apply Permutation_swap.
Qed.

Lemma order_by_perm l : order_by le l ≡ₚ l.
Proof.
  induction l as [|y l IH]; simpl; [done|].
  fold (order_by le l). by rewrite insert_by_perm, IH.
Qed.

Lemma insert_by_sorted x l :
  StronglySorted R l → StronglySorted R (insert_by le x l).
Proof.
  induction 1 as [|y l Hl IH Hy]; simpl.
  - repeat constructor.
  - destruct (le x y) eqn:E.
    + apply le_spec in E. constructor; [by constructor|].
      constructor; [done|]. eapply Forall_impl; [exact Hy|].
      intros z Hz. by eapply R_trans.
    + assert (R y x) as Hyx.
      { destruct (R_total x y) as [H|H]; [|done].
        apply le_spec in H. congruence. }
      constructor; [done|]. rewrite insert_by_perm. by constructor.
Qed.

Lemma order_by_sorted l : StronglySorted R (order_by le l).
Proof.
  induction l as [|y l IH]; simpl; [constructor|].
  by apply insert_by_sorted.
Qed.

Lemma take_sorted n l : StronglySorted R l → StronglySorted R (take n l).
Proof.
  intros H. revert n. induction H as [|y l Hl IH Hy]; intros [|n]; simpl;
    try constructor; auto. by apply Forall_take.
Qed.

(** Whatever the query selects and the slice leaves out comes after every
    row of the slice. *)
Lemma take_order_by_top n l r :
  r ∈ l → r ∈ take n (order_by le l) ∨ Forall (λ o, R o r) (take n (order_by le l)).
Proof.
  intros Hr. rewrite <- (order_by_perm l) in Hr.
  rewrite <- (take_drop n (order_by le l)) in Hr.
  apply elem_of_app in Hr as [Hr|Hr]; [by left|right].
  pose proof (order_by_sorted l) as Hs.
  rewrite <- (take_drop n (order_by le l)) in Hs.
  apply Forall_forall. intros o Ho.
  by eapply (StronglySorted_app_1_elem_of R).
Qed.

End insertion_sort.

Lemma price_desc_created_spec a b :
  price_desc_created a b = true ↔ bids_before a b.
Proof. unfold price_desc_created, bids_before. lia. Qed.

Lemma price_asc_created_spec a b :
  price_asc_created a b = true ↔ asks_before a b.
Proof. unfold price_asc_created, asks_before. lia. Qed.

Lemma bids_before_total a b : bids_before a b ∨ bids_before b a.
Proof. unfold bids_before. lia. Qed.

Lemma asks_before_total a b : asks_before a b ∨ asks_before b a.
Proof. unfold asks_before. lia. Qed.

Lemma bids_before_trans a b c :
  bids_before a b → bids_before b c → bids_before a c.
Proof. unfold bids_before. lia. Qed.

Lemma asks_before_trans a b c :
  asks_before a b → asks_before b c → asks_before a c.
Proof. unfold asks_before. lia. Qed.

Lemma status_in_live s :
  status_in s [ACTIVE; PARTIALLY_FILLED] = true
  ↔ s = ACTIVE ∨ s = PARTIALLY_FILLED.
Proof.
  destruct s; simpl;
    (split; [intros Hx; try discriminate Hx; auto
            |intros [Hx|Hx]; try discriminate Hx; reflexivity]).
Qed.

Lemma snapshot_filter_spec s st r :
  In r (List.filter
          (λ r, (side r =? s)
                && status_in (status r) [ACTIVE; PARTIALLY_FILLED]
                && (remaining_quantity r >? 0)) (orders_tbl st))
  ↔ snapshot_row s st r.
Proof.
  rewrite filter_In. unfold snapshot_row.
  rewrite !andb_true_iff, status_in_live, Z.eqb_eq, Z.gtb_lt. tauto.
Qed.

(** C6, as amended.  For every depth in [1,20] the snapshot answers 200 with
    two lists of individual orders (not price levels): per side, the first
    [depth] persisted orders with status ACTIVE or PARTIALLY_FILLED and a
    positive remaining quantity, bids by price descending and asks by price
    ascending (equal prices by creation time); every selected order left
    out comes after all the listed ones; each entry carries its own order's
    id, price and remaining quantity. *)
Theorem snapshot_lists_individual_orders depth st :
  1 <= depth <= 20 →
  let bs := snapshot_buy_orders depth st in
  let ss := snapshot_sell_orders depth st in
  snapshot (Some depth) st
  = mkResponse 200
      [("buy_orders", JList (map snapshot_entry bs));
       ("sell_orders", JList (map snapshot_entry ss));
       ("timestamp", JInt (clock st));
       ("depth", JInt depth);
       ("total_buy_orders", JInt (Z.of_nat (length bs)));
       ("total_sell_orders", JInt (Z.of_nat (length ss)))]
  ∧ (length bs <= Z.to_nat depth)%nat
  ∧ (length ss <= Z.to_nat depth)%nat
  ∧ Forall (snapshot_row 1 st) bs
  ∧ Forall (snapshot_row (-1) st) ss
  ∧ StronglySorted bids_before bs
  ∧ StronglySorted asks_before ss
  ∧ (∀ r, snapshot_row 1 st r → r ∈ bs ∨ Forall (λ o, bids_before o r) bs)
  ∧ (∀ r, snapshot_row (-1) st r →
          r ∈ ss ∨ Forall (λ o, asks_before o r) ss)
  ∧ (∀ o, ∃ d, snapshot_entry o = JDict d
          ∧ body_get "order_id" d = Some (JInt (order_id o))
          ∧ body_get "price" d = Some (JFloat (PyDecimal.of_cents (price o)))
          ∧ body_get "quantity" d = Some (JInt (remaining_quantity o))).
Proof.
  intros Hd bs ss.
  split.
  { unfold snapshot. simpl.
    destruct (depth <? 1) eqn:E1; [lia|].
    destruct (depth >? 20) eqn:E2; [lia|]. reflexivity. }
  split; [unfold bs, snapshot_buy_orders; rewrite length_take; lia|].
  split; [unfold ss, snapshot_sell_orders; rewrite length_take; lia|].
  split.
  { apply Forall_take. apply Forall_forall. intros o Ho.
    rewrite (order_by_perm price_desc_created) in Ho.
    apply list_elem_of_In, snapshot_filter_spec in Ho. exact Ho. }
  split.
  { apply Forall_take. apply Forall_forall. intros o Ho.
    rewrite (order_by_perm price_asc_created) in Ho.
    apply list_elem_of_In, snapshot_filter_spec in Ho. exact Ho. }
  split.
  { apply take_sorted.
    apply (order_by_sorted price_desc_created bids_before
             price_desc_created_spec bids_before_total bids_before_trans). }
  split.
  { apply take_sorted.
    apply (order_by_sorted price_asc_created asks_before
             price_asc_created_spec asks_before_total asks_before_trans). }
  split.
  { intros r Hr.
    apply (take_order_by_top price_desc_created bids_before
             price_desc_created_spec bids_before_total bids_before_trans).
    by apply list_elem_of_In, snapshot_filter_spec. }
  split.
  { intros r Hr.
    apply (take_order_by_top price_asc_created asks_before
             price_asc_created_spec asks_before_total asks_before_trans).
    by apply list_elem_of_In, snapshot_filter_spec. }
  intros o. eexists. split; [reflexivity|]. repeat split.
Qed.

Lemma snapshot_lists_individual_orders_witness :
  1 <= 2 <= 20
  ∧ StronglySorted bids_before (snapshot_buy_orders 2 ex_store_two_bids).
Proof.
  split; [lia|].
  exact (proj1 (proj2 (proj2 (proj2 (proj2 (proj2
           (snapshot_lists_individual_orders 2 ex_store_two_bids
              ltac:(lia)))))))).
Defined.

(** C6, counterexample.  Two persisted active buy orders at 100.00, of 10
    and of 5.  At depth 1 the snapshot emits the single entry of the first
    order with quantity 10, while the level holds 15; at depth 2 it emits
    two entries at the same price. *)
Lemma snapshot_not_aggregated_counterexample :
  body_get "buy_orders" (body (snapshot (Some 1) ex_store_two_bids))
  = Some (JList [snapshot_entry ex_bid_10])
  ∧ remaining_quantity ex_bid_10 = 10
  ∧ level_quantity 1 10000 ex_store_two_bids = 15
  ∧ body_get "buy_orders" (body (snapshot (Some 2) ex_store_two_bids))
    = Some (JList [snapshot_entry ex_bid_10; snapshot_entry ex_bid_5])
  ∧ price ex_bid_10 = price ex_bid_5.
Proof. repeat split. Qed.

(* ===================================================================== *)
(** ** OrderViewSet.create *)
(* ===================================================================== *)

Lemma quantize_2dp_zero : PyDecimal.quantize_2dp 0 = 0%Q.
Proof. vm_compute. reflexivity. Qed.

Lemma serializer_side_range s v :
  serializer_side s = Some v → v = 1 ∨ v = -1.
Proof.
  unfold serializer_side. intros H.
  destruct (String.eqb s "buy"); [left; congruence|].
  destruct (String.eqb s "sell"); [right; congruence|discriminate].
Qed.

Lemma serializer_quantity_range q v :
  serializer_quantity q = Some v → v = q ∧ 1 <= q <= 1000000.
Proof.
  unfold serializer_quantity. intros H.
  destruct ((1 <=? q) && (q <=? 1000000)) eqn:E; [|discriminate].
  apply andb_prop in E. split; [congruence|lia].
Qed.

Lemma pow10_lt_inv a b : 0 <= a → 0 <= b → 10 ^ a < 10 ^ b → a < b.
Proof. intros Ha Hb H. apply (Z.pow_lt_mono_r_iff 10); lia. Qed.

Lemma float_0_01_le c :
  Qle_bool float_0_01 (inject_Z c / 100) = true ↔ 2 <= c.
Proof.
  rewrite Qle_bool_iff. unfold float_0_01, Qle, Qdiv, Qmult, Qinv, inject_Z.
  simpl. lia.
Qed.

Lemma serializer_price_spec d c :
  serializer_price d = Some c ↔ two_place_price d c ∧ 2 <= c < 10 ^ 10.
Proof.
  unfold serializer_price, validate_precision, two_place_price,
    PyDecimal.digit_count.
  destruct d as [co e]. cbn [PyDecimal.coefficient PyDecimal.exponent].
  split.
  - intros H.
    destruct (e >=? 0) eqn:Ee.
    + destruct (_ && _ && _) eqn:Ev; [|discriminate].
      destruct (Qle_bool _ _ && _) eqn:Em; [|discriminate].
      injection H as <-.
      apply andb_prop in Em as [Em _]. apply float_0_01_le in Em.
      apply andb_prop in Ev as [_ Ev].
      assert (0 <= e) by lia.
      assert (0 < co).
      { assert (0 < 10 ^ (e + 2)) by (apply Z.pow_pos_nonneg; lia). nia. }
      destruct (ndigits_spec (Z.abs co) ltac:(lia)) as ((_ & Hd) & Hn).
      split; [split; [lia|done]|]. split; [done|].
      set (n := PyDecimal.ndigits (Z.abs co)) in *.
      rewrite Z.abs_eq in Hd by lia.
      assert (10 ^ n * 10 ^ (e + 2) <= 10 ^ 10).
      { rewrite <- Z.pow_add_r by lia. apply Z.pow_le_mono_r; lia. }
      assert (0 < 10 ^ (e + 2)) by (apply Z.pow_pos_nonneg; lia).
      assert (co * 10 ^ (e + 2) < 10 ^ n * 10 ^ (e + 2))
        by (apply Z.mul_lt_mono_pos_r; lia).
      lia.
    + destruct (PyDecimal.ndigits (Z.abs co) >? Z.abs e) eqn:El.
      * destruct (_ && _ && _) eqn:Ev; [|discriminate].
        destruct (Qle_bool _ _ && _) eqn:Em; [|discriminate].
        injection H as <-.
        apply andb_prop in Em as [Em _]. apply float_0_01_le in Em.
        apply andb_prop in Ev as [Ev Ev3]. apply andb_prop in Ev as [_ Ev2].
        assert (e = -1 ∨ e = -2) as He by lia.
        assert (0 < co).
        { assert (0 < 10 ^ (e + 2)) by (apply Z.pow_pos_nonneg; lia). nia. }
        destruct (ndigits_spec (Z.abs co) ltac:(lia)) as ((_ & Hd) & Hn).
        set (n := PyDecimal.ndigits (Z.abs co)) in *.
        rewrite Z.abs_eq in Hd by lia.
        split; [split; [lia|done]|]. split; [done|].
        destruct He as [-> | ->].
        -- assert (10 ^ n <= 10 ^ 9) by (apply Z.pow_le_mono_r; lia).
           change (10 ^ (-1 + 2)) with 10. lia.
        -- assert (10 ^ n <= 10 ^ 10) by (apply Z.pow_le_mono_r; lia).
           change (10 ^ (-2 + 2)) with 1. lia.
      * destruct (_ && _ && _) eqn:Ev; [|discriminate].
        destruct (Qle_bool _ _ && _) eqn:Em; [|discriminate].
        injection H as <-.
        apply andb_prop in Em as [Em _]. apply float_0_01_le in Em.
        apply andb_prop in Ev as [Ev Ev3]. apply andb_prop in Ev as [_ Ev2].
        assert (e = -1 ∨ e = -2) as He by lia.
        assert (0 < co).
        { assert (0 < 10 ^ (e + 2)) by (apply Z.pow_pos_nonneg; lia). nia. }
        destruct (ndigits_spec (Z.abs co) ltac:(lia)) as ((_ & Hd) & Hn).
        set (n := PyDecimal.ndigits (Z.abs co)) in *.
        rewrite Z.abs_eq in Hd by lia.
        split; [split; [lia|done]|]. split; [done|].
        assert (10 ^ n <= 10 ^ 2) by (apply Z.pow_le_mono_r; lia).
        destruct He as [-> | ->].
        -- change (10 ^ (-1 + 2)) with 10. lia.
        -- change (10 ^ (-2 + 2)) with 1. lia.
  - intros ((He & ->) & Hc1 & Hc2).
    assert (0 < 10 ^ (e + 2)) as Hp by (apply Z.pow_pos_nonneg; lia).
    assert (0 < co) as Hco by nia.
    destruct (ndigits_spec (Z.abs co) ltac:(lia)) as ((Hd & _) & Hn).
    set (n := PyDecimal.ndigits (Z.abs co)) in *.
    rewrite Z.abs_eq in Hd by lia.
    assert (Qle_bool float_0_01 (inject_Z (co * 10 ^ (e + 2)) / 100)
            && (0 <? co * 10 ^ (e + 2)) = true) as Hm.
    { apply andb_true_intro. split; [by apply float_0_01_le|lia]. }
    assert (n + e <= 8) as Hw.
    { assert (10 ^ (n - 1) * 10 ^ (e + 2) < 10 ^ 10) as H1 by nia.
      rewrite <- Z.pow_add_r in H1 by lia.
      apply pow10_lt_inv in H1; lia. }
    destruct (e >=? 0) eqn:Ee.
    + assert ((n + e <=? 10) && (0 <=? 2) && (n + e <=? 8) = true) as ->.
      { repeat (apply andb_true_intro; split); lia. }
      by rewrite Hm.
    + destruct (n >? Z.abs e) eqn:El.
      * assert ((n <=? 10) && (Z.abs e <=? 2) && (n - Z.abs e <=? 8) = true)
          as ->.
        { repeat (apply andb_true_intro; split); lia. }
        by rewrite Hm.
      * assert ((Z.abs e <=? 10) && (Z.abs e <=? 2) && (0 <=? 8) = true)
          as ->.
        { repeat (apply andb_true_intro; split); lia. }
        by rewrite Hm.
Qed.

Lemma serializer_price_range p c :
  serializer_price p = Some c →
  2 <= c < 10 ^ 10 ∧ two_place_price p c.
Proof. intros H. apply serializer_price_spec in H. tauto. Qed.

Lemma PlaceOrderSerializer_valid req s q p :
  PlaceOrderSerializer req = inl (s, q, p) →
  (s = 1 ∨ s = -1) ∧ 1 <= q <= 1000000 ∧ 1 <= p < 10 ^ 10
  ∧ req_quantity req = Some q.
Proof.
  unfold PlaceOrderSerializer. intros H.
  destruct (req_side req ≫= serializer_side) as [s'|] eqn:Es;
  destruct (req_quantity req ≫= serializer_quantity) as [q'|] eqn:Eq;
  destruct (req_price req ≫= serializer_price) as [p'|] eqn:Ep;
    try discriminate.
  injection H as -> -> ->.
  destruct (req_side req) as [sd|]; [|discriminate].
  destruct (req_quantity req) as [qq|]; [|discriminate].
  destruct (req_price req) as [pp|]; [|discriminate].
  simpl in *.
  apply serializer_side_range in Es.
  apply serializer_quantity_range in Eq as [-> Hq].
  apply serializer_price_range in Ep as [Hp _].
  split; [done|]. split; [done|]. split; [lia|done].
Qed.

Lemma Order_objects_create_spec s q p st :
  Order_objects_create s q p st
  = (mkOrder (uuid_supply st) s q p q 0 0 ACTIVE true (clock st) (clock st)
       None,
     mkStore
       (upsert (mkOrder (uuid_supply st) s q p q 0 0 ACTIVE true (clock st)
                  (clock st) None) (orders_tbl st))
       (trades_tbl st) (clock st) (uuid_supply st + 1)).
Proof.
  unfold Order_objects_create. destruct st as [rows trs now sup].
  order_simpl. rewrite quantize_2dp_zero. reflexivity.
Qed.

(** C4, as amended.  A valid place command creates the order with
    [R = Q], [T = 0] and status ACTIVE, writes its row, starts a worker for
    it and answers at once: 201 with status "ACTIVE", the full quantity
    remaining, nothing traded and no trade list.  The book and the trades
    table are as before the command; matching is left to the worker
    ([add_order] in [run_worker]). *)
Theorem create_answers_before_matching req w s q p :
  PlaceOrderSerializer req = inl (s, q, p) →
  p <= 99999999 →
  ∃ resp w' order,
    create req w = (resp, w')
    ∧ order = mkOrder (uuid_supply (store w)) s q p q 0 0 ACTIVE true
                (clock (store w)) (clock (store w)) None
    ∧ http_status resp = 201
    ∧ body_get "status" (body resp) = Some (JStr "ACTIVE")
    ∧ body_get "quantity" (body resp) = Some (JInt q)
    ∧ body_get "remaining_quantity" (body resp) = Some (JInt q)
    ∧ body_get "traded_quantity" (body resp) = Some (JInt 0)
    ∧ body_get "trades" (body resp) = None
    ∧ book w' = book w
    ∧ trades_tbl (store w') = trades_tbl (store w)
    ∧ Order_objects_get (order_id order) (store w') = Some order
    ∧ pending w' = pending w ++ [ProcessOrder order].
Proof.
  intros Hser Hp.
  destruct (PlaceOrderSerializer_valid _ _ _ _ Hser) as (Hs & Hq & Hp' & _).
  unfold create. rewrite Hser.
  assert (validate_order_data (s, q, p) = (true, ""%string)) as ->.
  { unfold validate_order_data.
    destruct (negb ((s =? 1) || (s =? -1))) eqn:E1; [lia|].
    destruct (negb ((0 <? q) && (q <=? 1000000))) eqn:E2; [lia|].
    destruct (negb ((0 <? p) && (p <=? 99999999))) eqn:E3; [lia|].
    reflexivity. }
  rewrite Order_objects_create_spec.
  eexists _, _, _. split; [reflexivity|]. split; [reflexivity|].
  cbn [http_status body book store pending trades_tbl order_id status
       quantity remaining_quantity traded_quantity status_str].
  repeat split.
  apply (find_upsert
           (mkOrder (uuid_supply (store w)) s q p q 0 0 ACTIVE true
              (clock (store w)) (clock (store w)) None)).
Qed.

Lemma create_answers_before_matching_witness :
  ∃ resp w' order,
    create (place_request "buy" 5 (PyDecimal.mkDecimal 1015 (-1))) ex_world0 = (resp, w')
    ∧ order = mkOrder (uuid_supply (store ex_world0)) 1 5 10150 5 0 0 ACTIVE
                true (clock (store ex_world0)) (clock (store ex_world0)) None
    ∧ http_status resp = 201
    ∧ body_get "status" (body resp) = Some (JStr "ACTIVE")
    ∧ body_get "quantity" (body resp) = Some (JInt 5)
    ∧ body_get "remaining_quantity" (body resp) = Some (JInt 5)
    ∧ body_get "traded_quantity" (body resp) = Some (JInt 0)
    ∧ body_get "trades" (body resp) = None
    ∧ book w' = book ex_world0
    ∧ trades_tbl (store w') = trades_tbl (store ex_world0)
    ∧ Order_objects_get (order_id order) (store w') = Some order
    ∧ pending w' = pending ex_world0 ++ [ProcessOrder order].
Proof.
  apply (create_answers_before_matching
           (place_request "buy" 5 (PyDecimal.mkDecimal 1015 (-1))) ex_world0 1 5 10150).
  - vm_compute. reflexivity.
  - lia.
Defined.

(** C4, counterexample (scenario S2).  SELL 5 @ 101.00 rests; BUY 5 @ 101.50
    is placed.  The answer says ACTIVE with 5 remaining and has no trade
    list, and when the handler returns no trade is stored; the order is
    FILLED and its trade stored only once the worker has run. *)
Lemma create_not_synchronous_counterexample :
  ∃ w1 resp w2 w3,
    ex_world_resting_sell = Some w1
    ∧ create (place_request "buy" 5 (PyDecimal.mkDecimal 1015 (-1))) w1 = (resp, w2)
    ∧ body_get "status" (body resp) = Some (JStr "ACTIVE")
    ∧ body_get "status" (body resp) ≠ Some (JStr "FILLED")
    ∧ body_get "trades" (body resp) = None
    ∧ trades_tbl (store w2) = []
    ∧ (status <$> Order_objects_get 101 (store w2)) = Some ACTIVE
    ∧ run_worker w2 = Some w3
    ∧ (status <$> Order_objects_get 101 (store w3)) = Some FILLED
    ∧ ((λ t, (trade_price t, trade_quantity t, bid_order t, ask_order t))
         <$> trades_tbl (store w3)) = [(10100, 5, 101, 100)].
Proof.
  eexists _, _, _, _.
  split; [vm_compute; reflexivity|].
  split; [vm_compute; reflexivity|].
  split; [reflexivity|]. split; [discriminate|]. split; [reflexivity|].
  split; [reflexivity|]. split; [reflexivity|].
  split; [vm_compute; reflexivity|].
  split; reflexivity.
Qed.

(* ===================================================================== *)
(** ** The matching loops *)
(* ===================================================================== *)

Lemma Trade_objects_create_spec p q bid ask st :
  Trade_objects_create p q bid ask st
  = (step_trade p q bid ask st,
     mkStore (orders_tbl st) (trades_tbl st ++ [step_trade p q bid ask st])
       (clock st) (uuid_supply st + 1)).
Proof. reflexivity. Qed.

Lemma buy_crosses_true X pa :
  buy_crosses X pa →
  (remaining_quantity X >? 0) && negb (pa =? 0) && (price X >=? pa) = true.
Proof. unfold buy_crosses. lia. Qed.

Lemma buy_crosses_false X pa :
  ¬ buy_crosses X pa →
  (remaining_quantity X >? 0) && negb (pa =? 0) && (price X >=? pa) = false.
Proof. unfold buy_crosses. lia. Qed.

Lemma sell_crosses_true X pb :
  sell_crosses X pb →
  (remaining_quantity X >? 0) && negb (pb =? 0) && (price X <=? pb) = true.
Proof. unfold sell_crosses. lia. Qed.

Lemma sell_crosses_false X pb :
  ¬ sell_crosses X pb →
  (remaining_quantity X >? 0) && negb (pb =? 0) && (price X <=? pb) = false.
Proof. unfold sell_crosses. lia. Qed.

Lemma buy_crosses_dec X pa : buy_crosses X pa ∨ ¬ buy_crosses X pa.
Proof. unfold buy_crosses. lia. Qed.

Lemma sell_crosses_dec X pb : sell_crosses X pb ∨ ¬ sell_crosses X pb.
Proof. unfold sell_crosses. lia. Qed.

(** The loop is left when there is no best ask or the order does not cross
    it. *)
Lemma match_buy_step_exit X b st :
  (∀ pa, best_ask b = Some pa → ¬ buy_crosses X pa) →
  _match_buy_step X b st = StepExit.
Proof.
  intros H. unfold _match_buy_step.
  destruct (best_ask b) as [pa|]; [|done].
  by rewrite (buy_crosses_false X pa (H pa eq_refl)).
Qed.

(** A crossing order facing an empty best level: the best ask is recomputed
    and nothing else happens. *)
Lemma match_buy_step_skip X b st pa :
  best_ask b = Some pa → buy_crosses X pa →
  default [] (asks b !! pa) = [] →
  _match_buy_step X b st = StepSkip (_update_best_ask b).
Proof.
  intros Hb Hc He. unfold _match_buy_step.
  by rewrite Hb, (buy_crosses_true X pa Hc), He.
Qed.

(** A crossing order facing the head [Y] of the best level. *)
Lemma match_buy_step_trade X b st pa Y rest :
  best_ask b = Some pa → buy_crosses X pa →
  asks b !! pa = Some (Y :: rest) →
  _match_buy_step X b st = buy_trade_result X b st pa Y rest.
Proof.
  intros Hb Hc Ha. unfold _match_buy_step, buy_trade_result.
  rewrite Hb, (buy_crosses_true X pa Hc), Ha. cbn [from_option id].
  rewrite Trade_objects_create_spec.
  set (q := Z.min (remaining_quantity X) (remaining_quantity Y)).
  set (t := step_trade pa q X Y st).
  rewrite update_trade_success by (cbn [remaining_quantity]; lia).
  cbn [clock]. set (X' := fill_fields q pa (clock st) X).
  rewrite update_trade_success by (cbn [remaining_quantity]; lia).
  cbn [clock orders_tbl set_orders_tbl trades_tbl uuid_supply].
  set (Y' := fill_fields q pa (clock st) Y).
  change (remaining_quantity Y') with (remaining_quantity Y - q).
  change (order_id Y') with (order_id Y).
  destruct (remaining_quantity Y - q =? 0); [|reflexivity].
  cbn [order_lookup set_asks].
  destruct (order_lookup b !! order_id Y); [|reflexivity].
  unfold pop_ask. destruct rest; reflexivity.
Qed.

Lemma match_sell_step_exit X b st :
  (∀ pb, best_bid b = Some pb → ¬ sell_crosses X pb) →
  _match_sell_step X b st = StepExit.
Proof.
  intros H. unfold _match_sell_step.
  destruct (best_bid b) as [pb|]; [|done].
  by rewrite (sell_crosses_false X pb (H pb eq_refl)).
Qed.

Lemma match_sell_step_skip X b st pb :
  best_bid b = Some pb → sell_crosses X pb →
  default [] (bids b !! pb) = [] →
  _match_sell_step X b st = StepSkip (_update_best_bid b).
Proof.
  intros Hb Hc He. unfold _match_sell_step.
  by rewrite Hb, (sell_crosses_true X pb Hc), He.
Qed.

Lemma match_sell_step_trade X b st pb Y rest :
  best_bid b = Some pb → sell_crosses X pb →
  bids b !! pb = Some (Y :: rest) →
  _match_sell_step X b st = sell_trade_result X b st pb Y rest.
Proof.
  intros Hb Hc Ha. unfold _match_sell_step, sell_trade_result.
  rewrite Hb, (sell_crosses_true X pb Hc), Ha. cbn [from_option id].
  rewrite Trade_objects_create_spec.
  set (q := Z.min (remaining_quantity X) (remaining_quantity Y)).
  set (t := step_trade pb q Y X st).
  rewrite update_trade_success by (cbn [remaining_quantity]; lia).
  cbn [clock]. set (X' := fill_fields q pb (clock st) X).
  rewrite update_trade_success by (cbn [remaining_quantity]; lia).
  cbn [clock orders_tbl set_orders_tbl trades_tbl uuid_supply].
  set (Y' := fill_fields q pb (clock st) Y).
  change (remaining_quantity Y') with (remaining_quantity Y - q).
  change (order_id Y') with (order_id Y).
  destruct (remaining_quantity Y - q =? 0); [|reflexivity].
  cbn [order_lookup set_bids].
  destruct (order_lookup b !! order_id Y); [|reflexivity].
  unfold pop_bid. destruct rest; reflexivity.
Qed.

(** The three ways through an iteration. *)
Lemma match_buy_step_cases X b st :
  (_match_buy_step X b st = StepExit
   ∧ ∀ pa, best_ask b = Some pa → ¬ buy_crosses X pa)
  ∨ (∃ pa, best_ask b = Some pa ∧ buy_crosses X pa
           ∧ default [] (asks b !! pa) = []
           ∧ _match_buy_step X b st = StepSkip (_update_best_ask b))
  ∨ (∃ pa Y rest, best_ask b = Some pa ∧ buy_crosses X pa
           ∧ asks b !! pa = Some (Y :: rest)
           ∧ _match_buy_step X b st = buy_trade_result X b st pa Y rest).
Proof.
  destruct (best_ask b) as [pa|] eqn:Hb.
  - destruct (buy_crosses_dec X pa) as [Hc|Hc].
    + destruct (asks b !! pa) as [[|Y rest]|] eqn:Ha.
      * right; left. exists pa. rewrite Ha.
        do 3 (split; [done|]). apply (match_buy_step_skip _ _ _ pa); by rewrite ?Ha.
      * right; right. exists pa, Y, rest.
        do 3 (split; [done|]). by apply match_buy_step_trade.
      * right; left. exists pa. rewrite Ha.
        do 3 (split; [done|]). apply (match_buy_step_skip _ _ _ pa); by rewrite ?Ha.
    + left. assert (∀ pa', Some pa = Some pa' → ¬ buy_crosses X pa') as H
        by (intros ? [= <-]; done).
      split; [|done]. apply match_buy_step_exit. by rewrite Hb.
  - left. split; [|done]. apply match_buy_step_exit. by rewrite Hb.
Qed.

Lemma match_sell_step_cases X b st :
  (_match_sell_step X b st = StepExit
   ∧ ∀ pb, best_bid b = Some pb → ¬ sell_crosses X pb)
  ∨ (∃ pb, best_bid b = Some pb ∧ sell_crosses X pb
           ∧ default [] (bids b !! pb) = []
           ∧ _match_sell_step X b st = StepSkip (_update_best_bid b))
  ∨ (∃ pb Y rest, best_bid b = Some pb ∧ sell_crosses X pb
           ∧ bids b !! pb = Some (Y :: rest)
           ∧ _match_sell_step X b st = sell_trade_result X b st pb Y rest).
Proof.
  destruct (best_bid b) as [pb|] eqn:Hb.
  - destruct (sell_crosses_dec X pb) as [Hc|Hc].
    + destruct (bids b !! pb) as [[|Y rest]|] eqn:Ha.
      * right; left. exists pb. rewrite Ha.
        do 3 (split; [done|]). apply (match_sell_step_skip _ _ _ pb); by rewrite ?Ha.
      * right; right. exists pb, Y, rest.
        do 3 (split; [done|]). by apply match_sell_step_trade.
      * right; left. exists pb. rewrite Ha.
        do 3 (split; [done|]). apply (match_sell_step_skip _ _ _ pb); by rewrite ?Ha.
    + left. assert (∀ pb', Some pb = Some pb' → ¬ sell_crosses X pb') as H
        by (intros ? [= <-]; done).
      split; [|done]. apply match_sell_step_exit. by rewrite Hb.
  - left. split; [|done]. apply match_sell_step_exit. by rewrite Hb.
Qed.

(** Invariants go through a matching loop one iteration at a time. *)
Lemma match_loop_inv step
    (I : Order → OrderBook → Store → list Trade → Prop) :
  (∀ X b st ts, I X b st ts →
     match step X b st with
     | StepExit => True
     | StepSkip b' => I X b' st ts
     | StepTrade t X' b' st' => I X' b' st' (ts ++ [t])
     | StepRaise e X' b' st' => ∃ ts', I X' b' st' ts'
     end) →
  ∀ fuel X b st ts r X' b' st',
    I X b st ts →
    match_loop step fuel X b st ts = Some (r, X', b', st') →
    match r with
    | Ok ts' => I X' b' st' ts'
    | Raise _ => ∃ ts', I X' b' st' ts'
    end.
Proof.
  intros Hstep. induction fuel as [|fuel IH]; intros X b st ts r X' b' st' HI;
    simpl; [discriminate|].
  specialize (Hstep X b st ts HI).
  destruct (step X b st) as [|b1|t X1 b1 st1|e X1 b1 st1].
  - intros [= <- <- <- <-]. exact HI.
  - intros H. eapply IH; [exact Hstep|exact H].
  - intros H. eapply IH; [exact Hstep|exact H].
  - intros [= <- <- <- <-]. exact Hstep.
Qed.

(** A loop whose iterations always trade and make the incoming order's
    remaining quantity go down ends within that many iterations. *)
Lemma match_loop_ends step (I : Order → OrderBook → Prop) :
  (∀ X b st, I X b →
     match step X b st with
     | StepExit => True
     | StepSkip b' => False
     | StepTrade t X' b' st' =>
         I X' b' ∧ 0 <= remaining_quantity X' < remaining_quantity X
     | StepRaise e X' b' st' => True
     end) →
  ∀ fuel X b st ts,
    I X b →
    (Z.to_nat (remaining_quantity X) < fuel)%nat →
    is_Some (match_loop step fuel X b st ts).
Proof.
  intros Hstep. induction fuel as [|fuel IH]; intros X b st ts HI Hf;
    [lia|]. simpl.
  specialize (Hstep X b st HI).
  destruct (step X b st) as [|b1|t X1 b1 st1|e X1 b1 st1]; try done.
  destruct Hstep as [HI1 HR]. apply IH; [done|lia].
Qed.

(** The fields of the book after a pop. *)
Lemma asks_pop_ask pa Y rest b :
  asks (pop_ask pa Y rest b)
  = match rest with
    | [] => delete pa (asks b)
    | _ :: _ => <[pa := rest]> (asks b)
    end.
Proof.
  unfold pop_ask. destruct rest; [|reflexivity].
  cbn. by rewrite delete_insert_eq.
Qed.

Lemma bids_pop_ask pa Y rest b : bids (pop_ask pa Y rest b) = bids b.
Proof. unfold pop_ask. by destruct rest. Qed.

Lemma order_lookup_pop_ask pa Y rest b :
  order_lookup (pop_ask pa Y rest b) = delete (order_id Y) (order_lookup b).
Proof. unfold pop_ask. by destruct rest. Qed.

Lemma bids_pop_bid pb Y rest b :
  bids (pop_bid pb Y rest b)
  = match rest with
    | [] => delete pb (bids b)
    | _ :: _ => <[pb := rest]> (bids b)
    end.
Proof.
  unfold pop_bid. destruct rest; [|reflexivity].
  cbn. by rewrite delete_insert_eq.
Qed.

Lemma asks_pop_bid pb Y rest b : asks (pop_bid pb Y rest b) = asks b.
Proof. unfold pop_bid. by destruct rest. Qed.

Lemma order_lookup_pop_bid pb Y rest b :
  order_lookup (pop_bid pb Y rest b) = delete (order_id Y) (order_lookup b).
Proof. unfold pop_bid. by destruct rest. Qed.

(** A level of the side after a pop is a level of the side before it, or
    the tail of the popped level. *)
Lemma lookup_levels_pop (levels : gmap Z (list Order)) pa
    (rest : list Order) p l :
  match rest with
  | [] => delete pa levels
  | _ :: _ => <[pa := rest]> levels
  end !! p = Some l →
  (p = pa ∧ l = rest ∧ rest ≠ []) ∨ (p ≠ pa ∧ levels !! p = Some l).
Proof.
  destruct rest as [|y rest].
  - rewrite lookup_delete. case_decide; [done|]. intros Hl. by right.
  - rewrite lookup_insert. case_decide; [|by right].
    intros [= <-]. by left.
Qed.

Lemma lookup_levels_replace (levels : gmap Z (list Order)) pa
    (new : list Order) p l :
  <[pa := new]> levels !! p = Some l →
  (p = pa ∧ l = new) ∨ (p ≠ pa ∧ levels !! p = Some l).
Proof.
  rewrite lookup_insert. case_decide; [|by right].
  intros [= <-]. by left.
Qed.

(** Every way through an iteration of the buy loop, with the book it leaves
    behind. *)
Lemma match_buy_step_outcomes X b st (G : step_result → Prop) :
  ((∀ pa, best_ask b = Some pa → ¬ buy_crosses X pa) → G StepExit) →
  (∀ pa, best_ask b = Some pa → buy_crosses X pa →
     default [] (asks b !! pa) = [] → G (StepSkip (_update_best_ask b))) →
  (∀ pa Y rest, best_ask b = Some pa → buy_crosses X pa →
     asks b !! pa = Some (Y :: rest) →
     let q := Z.min (remaining_quantity X) (remaining_quantity Y) in
     let t := step_trade pa q X Y st in
     let X' := fill_fields q pa (clock st) X in
     let Y' := fill_fields q pa (clock st) Y in
     let st' := step_store t X' Y' st in
     (remaining_quantity Y - q = 0 → order_lookup b !! order_id Y = None →
        G (StepRaise (KeyError (order_id Y)) X'
             (set_asks (<[pa := rest]> (asks b)) b) st'))
     ∧ (remaining_quantity Y - q = 0 →
        is_Some (order_lookup b !! order_id Y) →
        G (StepTrade t X' (pop_ask pa Y rest b) st'))
     ∧ (remaining_quantity Y - q ≠ 0 →
        G (StepTrade t X'
             (set_asks (<[pa := Y' :: rest]> (asks b)) b) st'))) →
  G (_match_buy_step X b st).
Proof.
  intros Hexit Hskip Htrade.
  destruct (match_buy_step_cases X b st) as
    [[-> H]|[(pa & Hb & Hc & He & ->)|(pa & Y & rest & Hb & Hc & Ha & ->)]].
  - by apply Hexit.
  - by eapply Hskip.
  - destruct (Htrade pa Y rest Hb Hc Ha) as (H1 & H2 & H3).
    unfold buy_trade_result.
    destruct (remaining_quantity Y
              - Z.min (remaining_quantity X) (remaining_quantity Y) =? 0)
      eqn:E.
    + apply Z.eqb_eq in E.
      destruct (order_lookup b !! order_id Y) eqn:El.
      * apply H2; [done|]. rewrite ?El. eauto.
      * by apply H1.
    + apply Z.eqb_neq in E. by apply H3.
Qed.

Lemma match_sell_step_outcomes X b st (G : step_result → Prop) :
  ((∀ pb, best_bid b = Some pb → ¬ sell_crosses X pb) → G StepExit) →
  (∀ pb, best_bid b = Some pb → sell_crosses X pb →
     default [] (bids b !! pb) = [] → G (StepSkip (_update_best_bid b))) →
  (∀ pb Y rest, best_bid b = Some pb → sell_crosses X pb →
     bids b !! pb = Some (Y :: rest) →
     let q := Z.min (remaining_quantity X) (remaining_quantity Y) in
     let t := step_trade pb q Y X st in
     let X' := fill_fields q pb (clock st) X in
     let Y' := fill_fields q pb (clock st) Y in
     let st' := step_store t X' Y' st in
     (remaining_quantity Y - q = 0 → order_lookup b !! order_id Y = None →
        G (StepRaise (KeyError (order_id Y)) X'
             (set_bids (<[pb := rest]> (bids b)) b) st'))
     ∧ (remaining_quantity Y - q = 0 →
        is_Some (order_lookup b !! order_id Y) →
        G (StepTrade t X' (pop_bid pb Y rest b) st'))
     ∧ (remaining_quantity Y - q ≠ 0 →
        G (StepTrade t X'
             (set_bids (<[pb := Y' :: rest]> (bids b)) b) st'))) →
  G (_match_sell_step X b st).
Proof.
  intros Hexit Hskip Htrade.
  destruct (match_sell_step_cases X b st) as
    [[-> H]|[(pb & Hb & Hc & He & ->)|(pb & Y & rest & Hb & Hc & Ha & ->)]].
  - by apply Hexit.
  - by eapply Hskip.
  - destruct (Htrade pb Y rest Hb Hc Ha) as (H1 & H2 & H3).
    unfold sell_trade_result.
    destruct (remaining_quantity Y
              - Z.min (remaining_quantity X) (remaining_quantity Y) =? 0)
      eqn:E.
    + apply Z.eqb_eq in E.
      destruct (order_lookup b !! order_id Y) eqn:El.
      * apply H2; [done|]. rewrite ?El. eauto.
      * by apply H1.
    + apply Z.eqb_neq in E. by apply H3.
Qed.

(* ===================================================================== *)
(** ** Trade price *)
(* ===================================================================== *)

Lemma levels_keyed_rests levels p l o :
  levels_keyed levels → levels !! p = Some l → o ∈ l →
  rests_in levels (order_id o) p.
Proof.
  intros Hk Hl Ho. exists l, o. repeat split; try done.
  specialize (Hk p l Hl). rewrite Forall_forall in Hk. by apply Hk.
Qed.

(** Through a buy match every trade is made against an order that rested
    on the ask side when the match began, at that order's price, and the
    trades returned are the rows appended. *)
Lemma match_buy_loop_trades X0 b0 st0 fuel :
  ∀ X b st ts r X' b' st',
    let I := λ (X : Order) (b : OrderBook) (st : Store) (ts : list Trade),
      order_id X = order_id X0
      ∧ (∀ p l o, asks b !! p = Some l → o ∈ l →
                  rests_in (asks b0) (order_id o) p)
      ∧ Forall (λ t, bid_order t = order_id X0
                     ∧ rests_in (asks b0) (ask_order t) (trade_price t)) ts
      ∧ trades_tbl st = trades_tbl st0 ++ ts in
    I X b st ts →
    match_loop _match_buy_step fuel X b st ts = Some (r, X', b', st') →
    match r with
    | Ok ts' => I X' b' st' ts'
    | Raise _ => ∃ ts', I X' b' st' ts'
    end.
Proof.
  intros X b st ts r X' b' st' I. apply match_loop_inv.
  clear. intros X b st ts (Hid & Hlv & Hts & Htbl).
  apply match_buy_step_outcomes.
  - done.
  - intros pa _ _ _. done.
  - intros pa Y rest Hb Hc Ha q t X' Y' st'.
    assert (rests_in (asks b0) (order_id Y) pa) as HY.
    { eapply Hlv; [exact Ha|]. by left. }
    assert (Forall (λ t, bid_order t = order_id X0
                     ∧ rests_in (asks b0) (ask_order t) (trade_price t))
              (ts ++ [t])) as Hts'.
    { apply Forall_app. split; [done|]. constructor; [|done].
      split; [exact Hid|exact HY]. }
    assert (trades_tbl st' = trades_tbl st0 ++ ts ++ [t]) as Htbl'.
    { unfold st', step_store. cbn [trades_tbl]. rewrite Htbl.
      by rewrite app_assoc. }
    assert (∀ p l o, <[pa := rest]> (asks b) !! p = Some l → o ∈ l →
                     rests_in (asks b0) (order_id o) p) as Hrest.
    { intros p l o Hl Ho.
      apply lookup_levels_replace in Hl as [[-> ->]|[_ Hl]].
      - eapply Hlv; [exact Ha|]. by right.
      - by eapply Hlv. }
    split; [|split].
    + intros _ _. exists (ts ++ [t]). done.
    + intros _ _. repeat split; try done.
      intros p l o. rewrite asks_pop_ask. intros Hl Ho.
      apply lookup_levels_pop in Hl as [(-> & -> & _)|[_ Hl]].
      * eapply Hlv; [exact Ha|]. by right.
      * by eapply Hlv.
    + intros _. repeat split; try done.
      intros p l o Hl Ho. cbn [asks set_asks] in Hl.
      apply lookup_levels_replace in Hl as [[-> ->]|[_ Hl]].
      * apply elem_of_cons in Ho as [->|Ho]; [exact HY|].
        eapply Hlv; [exact Ha|]. by right.
      * by eapply Hlv.
Qed.

Lemma match_sell_loop_trades X0 b0 st0 fuel :
  ∀ X b st ts r X' b' st',
    let I := λ (X : Order) (b : OrderBook) (st : Store) (ts : list Trade),
      order_id X = order_id X0
      ∧ (∀ p l o, bids b !! p = Some l → o ∈ l →
                  rests_in (bids b0) (order_id o) p)
      ∧ Forall (λ t, ask_order t = order_id X0
                     ∧ rests_in (bids b0) (bid_order t) (trade_price t)) ts
      ∧ trades_tbl st = trades_tbl st0 ++ ts in
    I X b st ts →
    match_loop _match_sell_step fuel X b st ts = Some (r, X', b', st') →
    match r with
    | Ok ts' => I X' b' st' ts'
    | Raise _ => ∃ ts', I X' b' st' ts'
    end.
Proof.
  intros X b st ts r X' b' st' I. apply match_loop_inv.
  clear. intros X b st ts (Hid & Hlv & Hts & Htbl).
  apply match_sell_step_outcomes.
  - done.
  - intros pb _ _ _. done.
  - intros pb Y rest Hb Hc Ha q t X' Y' st'.
    assert (rests_in (bids b0) (order_id Y) pb) as HY.
    { eapply Hlv; [exact Ha|]. by left. }
    assert (Forall (λ t, ask_order t = order_id X0
                     ∧ rests_in (bids b0) (bid_order t) (trade_price t))
              (ts ++ [t])) as Hts'.
    { apply Forall_app. split; [done|]. constructor; [|done].
      split; [exact Hid|exact HY]. }
    assert (trades_tbl st' = trades_tbl st0 ++ ts ++ [t]) as Htbl'.
    { unfold st', step_store. cbn [trades_tbl]. rewrite Htbl.
      by rewrite app_assoc. }
    assert (∀ p l o, <[pb := rest]> (bids b) !! p = Some l → o ∈ l →
                     rests_in (bids b0) (order_id o) p) as Hrest.
    { intros p l o Hl Ho.
      apply lookup_levels_replace in Hl as [[-> ->]|[_ Hl]].
      - eapply Hlv; [exact Ha|]. by right.
      - by eapply Hlv. }
    split; [|split].
    + intros _ _. exists (ts ++ [t]). done.
    + intros _ _. repeat split; try done.
      intros p l o. rewrite bids_pop_bid. intros Hl Ho.
      apply lookup_levels_pop in Hl as [(-> & -> & _)|[_ Hl]].
      * eapply Hlv; [exact Ha|]. by right.
      * by eapply Hlv.
    + intros _. repeat split; try done.
      intros p l o Hl Ho. cbn [bids set_bids] in Hl.
      apply lookup_levels_replace in Hl as [[-> ->]|[_ Hl]].
      * apply elem_of_cons in Ho as [->|Ho]; [exact HY|].
        eapply Hlv; [exact Ha|]. by right.
      * by eapply Hlv.
Qed.

(** C1.  In a book whose levels hold orders of the level's price, every
    trade a buy match returns is priced at the price of the resting ask it
    was made against, and every trade a sell match returns at the price of
    the resting bid: the order named by the trade's [ask_order]
    (resp. [bid_order]) rests on that side of the book the match started
    from, at a level and with a price equal to the trade's price; the
    other side of the trade is the incoming order. *)
Theorem trade_price_is_resting_price X b st :
  book_keyed b →
  (∀ trades X' b' st',
     _match_buy_order X b st = Some (Ok trades, X', b', st') →
     Forall (λ t, bid_order t = order_id X
                  ∧ rests_in (asks b) (ask_order t) (trade_price t)) trades)
  ∧ (∀ trades X' b' st',
     _match_sell_order X b st = Some (Ok trades, X', b', st') →
     Forall (λ t, ask_order t = order_id X
                  ∧ rests_in (bids b) (bid_order t) (trade_price t)) trades).
Proof.
  intros [Hkb Hka]. split; intros trades X' b' st' Hm.
  - pose proof (match_buy_loop_trades X b st (match_fuel X (asks b))
                  X b st [] (Ok trades) X' b' st') as H.
    cbv zeta in H. specialize (H ltac:(repeat split; try done;
      [intros p l o; by apply levels_keyed_rests|by rewrite app_nil_r]) Hm).
    simpl in H. tauto.
  - pose proof (match_sell_loop_trades X b st (match_fuel X (bids b))
                  X b st [] (Ok trades) X' b' st') as H.
    cbv zeta in H. specialize (H ltac:(repeat split; try done;
      [intros p l o; by apply levels_keyed_rests|by rewrite app_nil_r]) Hm).
    simpl in H. tauto.
Qed.

(* ===================================================================== *)
(** ** Properties of all resting orders *)
(* ===================================================================== *)

Lemma bids_add_buy_order o b :
  bids (_add_buy_order o b)
  = <[price o := default [] (bids b !! price o) ++ [o]]> (bids b).
Proof.
  unfold _add_buy_order.
  destruct (bids b !! price o) as [l|] eqn:E.
  - cbn. rewrite E. by destruct (best_bid b) as [bb|]; [destruct (_ >? _)|].
  - cbn. rewrite lookup_insert_eq, insert_insert_eq. cbn.
    by destruct (best_bid b) as [bb|]; [destruct (_ >? _)|].
Qed.

Lemma asks_add_buy_order o b : asks (_add_buy_order o b) = asks b.
Proof.
  unfold _add_buy_order.
  destruct (bids b !! price o); cbn;
    by destruct (best_bid b) as [bb|]; [destruct (_ >? _)|].
Qed.

Lemma order_lookup_add_buy_order o b :
  order_lookup (_add_buy_order o b)
  = <[order_id o := (price o, 1)]> (order_lookup b).
Proof.
  unfold _add_buy_order.
  destruct (bids b !! price o); cbn;
    by destruct (best_bid b) as [bb|]; [destruct (_ >? _)|].
Qed.

Lemma asks_add_sell_order o b :
  asks (_add_sell_order o b)
  = <[price o := default [] (asks b !! price o) ++ [o]]> (asks b).
Proof.
  unfold _add_sell_order.
  destruct (asks b !! price o) as [l|] eqn:E.
  - cbn. rewrite E. by destruct (best_ask b) as [ba|]; [destruct (_ <? _)|].
  - cbn. rewrite lookup_insert_eq, insert_insert_eq. cbn.
    by destruct (best_ask b) as [ba|]; [destruct (_ <? _)|].
Qed.

Lemma bids_add_sell_order o b : bids (_add_sell_order o b) = bids b.
Proof.
  unfold _add_sell_order.
  destruct (asks b !! price o); cbn;
    by destruct (best_ask b) as [ba|]; [destruct (_ <? _)|].
Qed.

Lemma order_lookup_add_sell_order o b :
  order_lookup (_add_sell_order o b)
  = <[order_id o := (price o, -1)]> (order_lookup b).
Proof.
  unfold _add_sell_order.
  destruct (asks b !! price o); cbn;
    by destruct (best_ask b) as [ba|]; [destruct (_ <? _)|].
Qed.

Section levels_sat.
Context (P : Z → Order → Prop).

Lemma levels_sat_empty : levels_sat P ∅.
Proof. intros p l H. by rewrite lookup_empty in H. Qed.

Lemma levels_sat_replace levels pa new :
  levels_sat P levels → Forall (P pa) new →
  levels_sat P (<[pa := new]> levels).
Proof.
  intros H Hn p l Hl.
  apply lookup_levels_replace in Hl as [[-> ->]|[_ Hl]]; [done|].
  by eapply H.
Qed.

Lemma levels_sat_delete levels pa :
  levels_sat P levels → levels_sat P (delete pa levels).
Proof.
  intros H p l Hl. rewrite lookup_delete in Hl. case_decide; [done|].
  by eapply H.
Qed.

Lemma levels_sat_append levels o :
  levels_sat P levels → P (price o) o →
  levels_sat P
    (<[price o := default [] (levels !! price o) ++ [o]]> levels).
Proof.
  intros H Ho. apply levels_sat_replace; [done|].
  apply Forall_app. split; [|by constructor].
  destruct (levels !! price o) as [l|] eqn:E; [|constructor].
  by eapply H.
Qed.

Lemma levels_sat_pop levels pa Y rest :
  levels_sat P levels → levels !! pa = Some (Y :: rest) →
  levels_sat P match rest with
               | [] => delete pa levels
               | _ :: _ => <[pa := rest]> levels
               end.
Proof.
  intros H Ha. specialize (H pa _ Ha) as HY.
  apply Forall_cons in HY as [_ Hrest].
  destruct rest; [by apply levels_sat_delete|by apply levels_sat_replace].
Qed.

End levels_sat.

Lemma list_remove_pk_spec oid l o l' :
  list_remove_pk oid l = Some (o, l') →
  order_id o = oid ∧ o ∈ l ∧ l' ⊆ l
  ∧ ∃ l1 l2, l = l1 ++ o :: l2 ∧ l' = l1 ++ l2
             ∧ Forall (λ x, order_id x ≠ oid) l1.
Proof.
  revert o l'. induction l as [|x l IH]; intros o l'; simpl; [done|].
  destruct (order_id x =? oid) eqn:E.
  - intros [= <- <-]. split; [lia|]. split; [by left|].
    split; [intros z Hz; by right|]. exists [], l. by repeat split.
  - destruct (list_remove_pk oid l) as [[y r]|]; [|done].
    intros [= <- <-].
    destruct (IH y r eq_refl) as (Hid & Hin & Hsub & l1 & l2 & -> & -> & Hl1).
    split; [done|]. split; [by right|].
    split; [intros z Hz; apply elem_of_cons in Hz as [->|Hz];
            [by left|right; by apply Hsub]|].
    exists (x :: l1), l2. repeat split; try done.
    constructor; [lia|done].
Qed.

Lemma list_remove_pk_None oid l :
  list_remove_pk oid l = None → Forall (λ x, order_id x ≠ oid) l.
Proof.
  induction l as [|x l IH]; simpl; [constructor|].
  destruct (order_id x =? oid) eqn:E; [done|].
  destruct (list_remove_pk oid l) as [[y r]|]; [done|].
  intros _. constructor; [lia|by apply IH].
Qed.

Lemma matching_rows_spec X st r :
  r ∈ matching_rows X st →
  r ∈ orders_tbl st
  ∧ is_active r = true
  ∧ (status r = ACTIVE ∨ status r = PARTIALLY_FILLED)
  ∧ order_id r ≠ order_id X
  ∧ (if side X =? 1 then side r = -1 ∧ price r <= price X
     else side r = 1 ∧ price X <= price r).
Proof.
  unfold matching_rows. destruct (side X =? 1); intros Hr.
  - rewrite (order_by_perm price_asc_created) in Hr.
    apply list_elem_of_In, filter_In in Hr as [Hin Hf].
    rewrite !andb_true_iff, status_in_live in Hf.
    apply list_elem_of_In in Hin.
    destruct Hf as ((((? & ?) & ?) & ?) & ?).
    repeat split; try done; lia.
  - rewrite (order_by_perm price_desc_created) in Hr.
    apply list_elem_of_In, filter_In in Hr as [Hin Hf].
    rewrite !andb_true_iff, status_in_live in Hf.
    apply list_elem_of_In in Hin.
    destruct Hf as ((((? & ?) & ?) & ?) & ?).
    repeat split; try done; lia.
Qed.

Section book_invariant.
Context (PX : Order → Prop) (PB : Z → Order → Prop).
Hypothesis PX_rests : ∀ o, PX o → PB (price o) o.
Hypothesis PB_order : ∀ p o, PB p o → PX o.
Hypothesis PX_row : ∀ o, PX o → PX (to_row o).
Hypothesis PX_fill : ∀ X Y pr now,
  PX X → PX Y → 0 < remaining_quantity X →
  PX (fill_fields (Z.min (remaining_quantity X) (remaining_quantity Y))
        pr now X).
Hypothesis PB_fill : ∀ p X Y pr now,
  PX X → PB p Y → 0 < remaining_quantity X →
  PB p (fill_fields (Z.min (remaining_quantity X) (remaining_quantity Y))
          pr now Y).
Hypothesis PX_cancel : ∀ o now,
  PX o → PX (set_updated_at now (set_is_active false (set_status CANCELLED o))).

Local Abbreviation book_sat := (book_sat PB).
Local Abbreviation match_inv := (match_inv PX PB).

Lemma book_sat_empty : book_sat empty_book.
Proof. split; apply levels_sat_empty. Qed.

Lemma book_sat_add_buy o b :
  PX o → book_sat b → book_sat (_add_buy_order o b).
Proof.
  intros Ho [Hb Ha]. split.
  - rewrite bids_add_buy_order. by apply levels_sat_append, PX_rests.
  - by rewrite asks_add_buy_order.
Qed.

Lemma book_sat_add_sell o b :
  PX o → book_sat b → book_sat (_add_sell_order o b).
Proof.
  intros Ho [Hb Ha]. split.
  - by rewrite bids_add_sell_order.
  - rewrite asks_add_sell_order. by apply levels_sat_append, PX_rests.
Qed.

Lemma book_sat_load_one b r : PX r → book_sat b → book_sat (load_one b r).
Proof.
  intros Hr Hb. unfold load_one.
  destruct (order_lookup b !! order_id r); [done|].
  destruct (side r =? 1); [by apply book_sat_add_buy|by apply book_sat_add_sell].
Qed.

Lemma book_sat_load X b st :
  Forall PX (orders_tbl st) → book_sat b →
  book_sat (_load_matching_orders X b st).
Proof.
  intros Hrows. unfold _load_matching_orders.
  assert (Forall PX (matching_rows X st)) as Hm.
  { apply Forall_forall. intros r Hr.
    apply matching_rows_spec in Hr as [Hr _].
    rewrite Forall_forall in Hrows. by apply Hrows. }
  revert b. induction Hm as [|r rs Hr Hrs IH]; intros b Hb; simpl; [done|].
  apply IH. by apply book_sat_load_one.
Qed.

Lemma step_store_rows t X' Y' st :
  PX X' → PX Y' → Forall PX (orders_tbl st) →
  Forall PX (orders_tbl (step_store t X' Y' st)).
Proof.
  intros HX HY Hrows. unfold step_store. cbn [orders_tbl].
  apply upsert_Forall; [by apply PX_row|].
  apply upsert_Forall; [by apply PX_row|done].
Qed.

Lemma match_buy_step_sat X b st :
  match_inv X b st →
  match _match_buy_step X b st with
  | StepExit => True
  | StepSkip b' => match_inv X b' st
  | StepTrade t X' b' st' => match_inv X' b' st'
  | StepRaise e X' b' st' => match_inv X' b' st'
  end.
Proof.
  intros (HX & [Hb Ha] & Hrows). apply match_buy_step_outcomes.
  - done.
  - intros pa _ _ _. done.
  - intros pa Y rest Hbest Hc Has q t X' Y' st'.
    pose proof (Ha pa _ Has) as HY. apply Forall_cons in HY as [HY Hrest].
    assert (PX X') as HX' by (apply PX_fill; [done|by eapply PB_order|apply Hc]).
    assert (PB pa Y') as HY' by (apply PB_fill; [done|done|apply Hc]).
    assert (Forall PX (orders_tbl st')) as Hrows'
      by (apply step_store_rows; [done|by eapply PB_order|done]).
    split; [|split]; intros; (split; [done|]); (split; [|done]); split;
      cbn [bids asks set_asks]; rewrite ?bids_pop_ask, ?asks_pop_ask; try done.
    + by apply levels_sat_replace.
    + by eapply levels_sat_pop.
    + apply levels_sat_replace; [done|]. by constructor.
Qed.

Lemma match_sell_step_sat X b st :
  match_inv X b st →
  match _match_sell_step X b st with
  | StepExit => True
  | StepSkip b' => match_inv X b' st
  | StepTrade t X' b' st' => match_inv X' b' st'
  | StepRaise e X' b' st' => match_inv X' b' st'
  end.
Proof.
  intros (HX & [Hb Ha] & Hrows). apply match_sell_step_outcomes.
  - done.
  - intros pb _ _ _. done.
  - intros pb Y rest Hbest Hc Has q t X' Y' st'.
    pose proof (Hb pb _ Has) as HY. apply Forall_cons in HY as [HY Hrest].
    assert (PX X') as HX' by (apply PX_fill; [done|by eapply PB_order|apply Hc]).
    assert (PB pb Y') as HY' by (apply PB_fill; [done|done|apply Hc]).
    assert (Forall PX (orders_tbl st')) as Hrows'
      by (apply step_store_rows; [done|by eapply PB_order|done]).
    split; [|split]; intros; (split; [done|]); (split; [|done]); split;
      cbn [bids asks set_bids]; rewrite ?bids_pop_bid, ?asks_pop_bid; try done.
    + by apply levels_sat_replace.
    + by eapply levels_sat_pop.
    + apply levels_sat_replace; [done|]. by constructor.
Qed.

Lemma match_loop_sat step :
  (∀ X b st, match_inv X b st →
     match step X b st with
     | StepExit => True
     | StepSkip b' => match_inv X b' st
     | StepTrade t X' b' st' => match_inv X' b' st'
     | StepRaise e X' b' st' => match_inv X' b' st'
     end) →
  ∀ fuel X b st ts r X' b' st',
    match_inv X b st →
    match_loop step fuel X b st ts = Some (r, X', b', st') →
    match_inv X' b' st'.
Proof.
  intros Hstep fuel X b st ts r X' b' st' HI Hm.
  pose proof (match_loop_inv step (λ X b st _, match_inv X b st)) as H.
  specialize (H ltac:(intros X1 b1 st1 ts1 H1; specialize (Hstep X1 b1 st1 H1);
                      destruct (step X1 b1 st1); eauto)
                fuel X b st ts r X' b' st' HI Hm).
  destruct r; [done|]. by destruct H.
Qed.

(** [add_order] keeps the property on the incoming order, on the book and
    on the rows. *)
Lemma add_order_sat X b st trades X' b' st' :
  match_inv X b st →
  add_order X b st = Some (trades, X', b', st') →
  match_inv X' b' st'.
Proof.
  intros (HX & Hb & Hrows). unfold add_order.
  pose proof (book_sat_load X b st Hrows Hb) as Hb1.
  set (b1 := _load_matching_orders X b st) in *.
  destruct (side X =? 1).
  - destruct (_match_buy_order X b1 st) as [[[[r X2] b2] st2]|] eqn:Hm;
      [|discriminate].
    assert (match_inv X2 b2 st2) as (HX2 & Hb2 & Hrows2).
    { eapply (match_loop_sat _ match_buy_step_sat); [|exact Hm]. done. }
    destruct r as [ts|e]; intros [= <- <- <- <-]; [|done].
    split; [done|]. split; [|done].
    destruct (remaining_quantity X2 >? 0); [|done].
    by apply book_sat_add_buy.
  - destruct (_match_sell_order X b1 st) as [[[[r X2] b2] st2]|] eqn:Hm;
      [|discriminate].
    assert (match_inv X2 b2 st2) as (HX2 & Hb2 & Hrows2).
    { eapply (match_loop_sat _ match_sell_step_sat); [|exact Hm]. done. }
    destruct r as [ts|e]; intros [= <- <- <- <-]; [|done].
    split; [done|]. split; [|done].
    destruct (remaining_quantity X2 >? 0); [|done].
    by apply book_sat_add_sell.
Qed.

(** [cancel_order] keeps the property on the book and on the rows. *)
Lemma cancel_order_sat oid b st r b' st' :
  book_sat b → Forall PX (orders_tbl st) →
  cancel_order oid b st = (r, b', st') →
  book_sat b' ∧ Forall PX (orders_tbl st').
Proof.
  intros [Hb Ha] Hrows. unfold cancel_order.
  destruct (order_lookup b !! oid) as [[p s]|]; [|by intros [= <- <- <-]].
  destruct (s =? 1).
  - destruct (bids b !! p) as [l|] eqn:Hl; [|by intros [= <- <- <-]].
    destruct (list_remove_pk oid l) as [[o l']|] eqn:Hr;
      [|by intros [= <- <- <-]].
    apply list_remove_pk_spec in Hr as (_ & Ho & Hsub & _).
    pose proof (Hb p l Hl) as HPl. rewrite Forall_forall in HPl.
    assert (Forall (PB p) l') as Hl'
      by (apply Forall_forall; intros x Hx; apply HPl, Hsub, Hx).
    intros [= <- <- <-]. split.
    + destruct l' as [|x l']; split; cbn.
      * rewrite delete_insert_eq.
        destruct (decide _); cbn; by apply levels_sat_delete.
      * by destruct (decide _).
      * by apply levels_sat_replace.
      * done.
    + cbn. apply upsert_Forall; [|done].
      apply PX_row. apply (PX_cancel o (clock st)). eapply PB_order. by apply HPl.
  - destruct (asks b !! p) as [l|] eqn:Hl; [|by intros [= <- <- <-]].
    destruct (list_remove_pk oid l) as [[o l']|] eqn:Hr;
      [|by intros [= <- <- <-]].
    apply list_remove_pk_spec in Hr as (_ & Ho & Hsub & _).
    pose proof (Ha p l Hl) as HPl. rewrite Forall_forall in HPl.
    assert (Forall (PB p) l') as Hl'
      by (apply Forall_forall; intros x Hx; apply HPl, Hsub, Hx).
    intros [= <- <- <-]. split.
    + destruct l' as [|x l']; split; cbn.
      * by destruct (decide _).
      * rewrite delete_insert_eq.
        destruct (decide _); cbn; by apply levels_sat_delete.
      * done.
      * by apply levels_sat_replace.
    + cbn. apply upsert_Forall; [|done].
      apply PX_row. apply (PX_cancel o (clock st)). eapply PB_order. by apply HPl.
Qed.

End book_invariant.

(* ===================================================================== *)
(** ** Invariants of every order across the commands *)
(* ===================================================================== *)

Section world_invariant.
Context (P : Order → Prop).
Hypothesis P_row : ∀ o, P o → P (to_row o).
Hypothesis P_fill : ∀ X Y pr now,
  P X → P Y → 0 < remaining_quantity X →
  P (fill_fields (Z.min (remaining_quantity X) (remaining_quantity Y))
       pr now X)
  ∧ P (fill_fields (Z.min (remaining_quantity X) (remaining_quantity Y))
         pr now Y).
Hypothesis P_cancel : ∀ o now,
  P o → P (set_updated_at now (set_is_active false (set_status CANCELLED o))).
Hypothesis P_create : ∀ oid s q p now,
  1 <= q → P (mkOrder oid s q p q 0 0 ACTIVE true now now None).
Hypothesis P_modify : ∀ o p now,
  P o → is_active o = true →
  P (set_updated_at now
       (set_is_active true (set_status ACTIVE (set_price p o)))).

Lemma world_add_order X b st trades X' b' st' :
  P X → book_all P b → Forall P (orders_tbl st) →
  add_order X b st = Some (trades, X', b', st') →
  P X' ∧ book_all P b' ∧ Forall P (orders_tbl st').
Proof.
  intros HX Hb Hrows Ha.
  eapply (add_order_sat P (λ _, P)); try exact Ha; try done.
  - intros X0 Y pr now H1 H2 H3. by apply P_fill.
  - intros _ X0 Y pr now H1 H2 H3. by apply P_fill.
Qed.

Lemma world_cancel_order oid b st r b' st' :
  book_all P b → Forall P (orders_tbl st) →
  cancel_order oid b st = (r, b', st') →
  book_all P b' ∧ Forall P (orders_tbl st').
Proof.
  intros Hb Hrows Hc.
  eapply (cancel_order_sat P (λ _, P)); try exact Hc; done.
Qed.

Lemma Order_objects_get_In pk st o :
  Order_objects_get pk st = Some o → o ∈ orders_tbl st ∧ order_id o = pk.
Proof.
  unfold Order_objects_get. intros H. apply find_some in H as [H1 H2].
  split; [by apply list_elem_of_In|lia].
Qed.

(** Every command keeps a property of all orders that fills, cancellation,
    creation and modification keep. *)
Lemma exec_world_all c w w' :
  world_all P w → exec c w = Some w' → world_all P w'.
Proof.
  intros Hw. pose proof Hw as (Hrows & Hb & Hp).
  destruct c as [req|pk req|pk| |]; simpl.
  - (* create *)
    intros [= <-]. unfold create.
    destruct (PlaceOrderSerializer req) as [[[s q] p]|errs] eqn:Hser;
      [|exact Hw].
    destruct (validate_order_data (s, q, p)) as [[|] msg]; [|exact Hw].
    apply PlaceOrderSerializer_valid in Hser as (_ & Hq & _).
    rewrite Order_objects_create_spec.
    unfold world_all. cbn [snd store book pending orders_tbl].
    assert (P (mkOrder (uuid_supply (store w)) s q p q 0 0 ACTIVE true
                 (clock (store w)) (clock (store w)) None)) as Ho
      by (apply P_create; lia).
    repeat split; try apply Hb.
    + by apply upsert_Forall.
    + rewrite fmap_app. apply Forall_app. split; [done|]. by constructor.
  - (* update *)
    intros [= <-]. unfold update.
    destruct (Order_objects_get pk (store w)) as [o|] eqn:Hget;
      [|exact Hw].
    apply Order_objects_get_In in Hget as [Hin _].
    rewrite Forall_forall in Hrows. pose proof (Hrows o Hin) as Ho.
    rewrite <- Forall_forall in Hrows.
    destruct (negb (is_active o) || _) eqn:Hact; [exact Hw|].
    destruct (ModifyOrderSerializer req) as [new_price|errs];
      [|exact Hw].
    assert (is_active o = true) as Ha
      by (destruct (is_active o); [done|discriminate]).
    pose proof (P_modify o new_price (clock (store w)) Ho Ha) as Hm.
    unfold world_all, Order_save.
    cbn [snd fst store book pending orders_tbl set_orders_tbl].
    repeat split; try apply Hb.
    + apply upsert_Forall; [by apply P_row|done].
    + rewrite fmap_app. apply Forall_app. split; [done|]. by constructor.
  - (* destroy *)
    intros [= <-]. unfold destroy.
    destruct (Order_objects_get pk (store w)) as [o|] eqn:Hget;
      [|exact Hw].
    apply Order_objects_get_In in Hget as [Hin _].
    rewrite Forall_forall in Hrows. pose proof (Hrows o Hin) as Ho.
    rewrite <- Forall_forall in Hrows.
    destruct (negb (is_active o) || _) eqn:Hact; [exact Hw|].
    destruct (cancel_order (order_id o) (book w) (store w))
      as [[r b'] st'] eqn:Hc.
    destruct (world_cancel_order _ _ _ _ _ _ Hb Hrows Hc) as [Hb' Hrows'].
    destruct r as [[|]|e]; cbn; repeat split; try done; try apply Hb'.
    apply upsert_Forall; [|done]. apply P_row.
    apply (P_cancel o (clock st')). exact Ho.
  - (* a worker *)
    unfold run_worker. destruct (pending w) as [|j js] eqn:Hpend.
    { intros [= <-]. repeat split; try done; try apply Hb.
      by rewrite Hpend. }
    simpl in Hp. apply Forall_cons in Hp as [Hj Hjs].
    destruct (run_job j (book w) (store w)) as [[[ts b'] st']|] eqn:Hrun;
      [|discriminate].
    intros [= <-]. cbn. unfold run_job in Hrun.
    destruct j as [o|o]; simpl in Hj.
    + destruct (add_order o (book w) (store w)) as [[[[ts' o'] b1] st1]|]
        eqn:Ha; [|discriminate].
      injection Hrun as <- <- <-.
      destruct (world_add_order _ _ _ _ _ _ _ Hj Hb Hrows Ha)
        as (_ & Hb1 & Hrows1).
      repeat split; try done; apply Hb1.
    + destruct (cancel_order (order_id o) (book w) (store w))
        as [[r b0] st0] eqn:Hc.
      destruct (world_cancel_order _ _ _ _ _ _ Hb Hrows Hc) as [Hb0 Hrows0].
      destruct r as [ok|e].
      * destruct (add_order o b0 st0) as [[[[ts' o'] b1] st1]|]
          eqn:Ha; [|discriminate].
        injection Hrun as <- <- <-.
        destruct (world_add_order _ _ _ _ _ _ _ Hj Hb0 Hrows0 Ha)
          as (_ & Hb1 & Hrows1).
        repeat split; try done; apply Hb1.
      * injection Hrun as <- <- <-. repeat split; try done; apply Hb0.
  - intros [= <-]. repeat split; try done; apply Hb.
Qed.

Lemma exec_all_world_all cs : ∀ w w',
  world_all P w → exec_all cs w = Some w' → world_all P w'.
Proof.
  induction cs as [|c cs IH]; intros w w' Hw; simpl.
  - by intros [= <-].
  - destruct (exec c w) as [w1|] eqn:He; [|discriminate]. simpl.
    apply IH. by eapply exec_world_all.
Qed.

End world_invariant.

(* ===================================================================== *)
(** ** Q = R + T *)
(* ===================================================================== *)

Lemma qty_inv_fill q p now o : qty_inv o → qty_inv (fill_fields q p now o).
Proof. unfold qty_inv, fill_fields. cbn. lia. Qed.

Lemma world_all_empty P : world_all P ex_world0.
Proof.
  split; [constructor|]. split; [|constructor].
  split; apply levels_sat_empty.
Qed.

(** C3.  [quantity = remaining_quantity + traded_quantity] holds of every
    order (rows, resting orders, orders handed to workers) after every
    command once it holds before it: place, modify, cancel through the
    book ([cancel_order] and the fallback of [destroy], which leave the
    remaining quantity alone), and the workers that match and fill; every
    [update_trade] keeps it, whether it succeeds or raises.
    [mark_as_cancelled], which no command calls and which sets the
    remaining quantity to 0, keeps it exactly when nothing remained. *)
Theorem quantity_identity_kept :
  (∀ c w w', world_all qty_inv w → exec c w = Some w' → world_all qty_inv w')
  ∧ (∀ q p o st r o' st',
       qty_inv o → update_trade q p o st = (r, o', st') → qty_inv o')
  ∧ (∀ o st,
       qty_inv o →
       (qty_inv (fst (mark_as_cancelled o st)) ↔ remaining_quantity o = 0)).
Proof.
  split; [|split].
  - intros c w w'. apply exec_world_all.
    + intros o Ho. exact Ho.
    + intros X Y pr now HX HY _. split; by apply qty_inv_fill.
    + intros o now Ho. exact Ho.
    + intros oid s q p now _. unfold qty_inv. cbn. lia.
    + intros o p now Ho _. exact Ho.
  - intros q p o st r o' st' Ho.
    destruct (Z_le_gt_dec q (remaining_quantity o)) as [Hq|Hq].
    + rewrite update_trade_success by done. intros [= <- <- <-].
      by apply qty_inv_fill.
    + rewrite update_trade_overfill_raises by done. by intros [= <- <- <-].
  - intros o st Ho. unfold qty_inv in *. cbn. lia.
Qed.

Lemma quantity_identity_kept_witness :
  world_all qty_inv ex_world_placed
  ∧ exec RunWorker ex_world_placed
    = Some (mkWorld (_add_sell_order
                       (mkOrder 100 (-1) 5 10100 5 0 0 ACTIVE true 0 0 None)
                       (set_metrics 1 0 empty_book))
              (store ex_world_placed) [])
  ∧ world_all qty_inv
      (mkWorld (_add_sell_order
                  (mkOrder 100 (-1) 5 10100 5 0 0 ACTIVE true 0 0 None)
                  (set_metrics 1 0 empty_book))
         (store ex_world_placed) []).
Proof.
  assert (world_all qty_inv ex_world_placed) as Hw.
  { split; [|split]; [repeat constructor|split; apply levels_sat_empty
                     |repeat constructor]. }
  assert (exec RunWorker ex_world_placed
    = Some (mkWorld (_add_sell_order
                       (mkOrder 100 (-1) 5 10100 5 0 0 ACTIVE true 0 0 None)
                       (set_metrics 1 0 empty_book))
              (store ex_world_placed) [])) as He by (vm_compute; reflexivity).
  split; [exact Hw|]. split; [exact He|].
  exact (proj1 quantity_identity_kept RunWorker ex_world_placed _ Hw He).
Defined.

(* ===================================================================== *)
(** ** The status invariant *)
(* ===================================================================== *)

Lemma order_inv_fill q p now o :
  order_inv o → 0 <= q <= remaining_quantity o →
  order_inv (fill_fields q p now o).
Proof.
  intros (HR & HT & HQ & HPF & HA & HT0) Hq.
  unfold order_inv, qty_inv, weak_status_inv, fill_fields in *.
  cbn [remaining_quantity traded_quantity quantity status is_active].
  destruct (remaining_quantity o - q =? 0) eqn:Er;
  destruct (traded_quantity o + q >? 0) eqn:Et;
    repeat split; try lia; try discriminate; intros; try done;
    try (apply HPF; assumption); try (apply HA; assumption);
    try (exfalso; assert (0 < traded_quantity o) by (by apply HPF); lia);
    try (apply HT0; [lia|assumption]).
Qed.

Lemma full_status_inv_fill q p now o :
  order_inv o → 0 < q <= remaining_quantity o →
  full_status_inv (fill_fields q p now o).
Proof.
  intros (HR & HT & HQ & _) Hq.
  unfold full_status_inv, qty_inv, fill_fields in *.
  cbn [remaining_quantity traded_quantity quantity status is_active].
  destruct (remaining_quantity o - q =? 0) eqn:Er;
  destruct (traded_quantity o + q >? 0) eqn:Et; try lia;
    (split; split; intros; try discriminate; try lia; try done).
Qed.

(** C8, as amended.  After every command every order has its quantities in
    range with Q = R + T and satisfies the one-way status facts: status
    PARTIALLY_FILLED implies 0 < T < Q; status ACTIVE implies the order is
    active; an active order with T = 0 has status ACTIVE.  Both
    equivalences of the specification hold for an order as placed and for
    an order right after a fill of a positive quantity.  A modify sets the
    status to ACTIVE whatever T is. *)
Theorem status_invariant_kept :
  (∀ c w w', world_all order_inv w → exec c w = Some w' →
             world_all order_inv w')
  ∧ (∀ q p o st,
       order_inv o → 0 < q <= remaining_quantity o →
       ∃ o' st', update_trade q p o st = (Ok tt, o', st')
                 ∧ order_inv o' ∧ full_status_inv o')
  ∧ (∀ oid s q p now,
       1 <= q →
       full_status_inv (mkOrder oid s q p q 0 0 ACTIVE true now now None)).
Proof.
  split; [|split].
  - intros c w w'. apply exec_world_all.
    + intros o Ho. exact Ho.
    + intros X Y pr now HX HY HRX.
      pose proof HX as (? & _). pose proof HY as (? & _).
      split; apply order_inv_fill; try done; lia.
    + intros o now (HR & HT & HQ & _).
      repeat split; try done; cbn; discriminate.
    + intros oid s q p now Hq. unfold order_inv, qty_inv, weak_status_inv.
      cbn. repeat split; try lia; try done.
    + intros o p now (HR & HT & HQ & _) _.
      repeat split; try done; cbn; discriminate.
  - intros q p o st Ho Hq. rewrite update_trade_success by lia.
    eexists _, _. split; [reflexivity|].
    split; [apply order_inv_fill; [done|lia]|by apply full_status_inv_fill].
  - intros oid s q p now Hq. unfold full_status_inv. cbn.
    repeat split; try lia; try done.
Qed.

Lemma status_invariant_kept_witness :
  world_all order_inv ex_world_placed
  ∧ exec RunWorker ex_world_placed
    = Some (mkWorld (_add_sell_order
                       (mkOrder 100 (-1) 5 10100 5 0 0 ACTIVE true 0 0 None)
                       (set_metrics 1 0 empty_book))
              (store ex_world_placed) [])
  ∧ world_all order_inv
      (mkWorld (_add_sell_order
                  (mkOrder 100 (-1) 5 10100 5 0 0 ACTIVE true 0 0 None)
                  (set_metrics 1 0 empty_book))
         (store ex_world_placed) []).
Proof.
  assert (order_inv (mkOrder 100 (-1) 5 10100 5 0 0 ACTIVE true 0 0 None))
    as Ho.
  { unfold order_inv, qty_inv, weak_status_inv. cbn.
    repeat split; try lia; try done. }
  assert (world_all order_inv ex_world_placed) as Hw.
  { split; [|split]; [by repeat constructor|split; apply levels_sat_empty
                     |by repeat constructor]. }
  assert (exec RunWorker ex_world_placed
    = Some (mkWorld (_add_sell_order
                       (mkOrder 100 (-1) 5 10100 5 0 0 ACTIVE true 0 0 None)
                       (set_metrics 1 0 empty_book))
              (store ex_world_placed) [])) as He by (vm_compute; reflexivity).
  split; [exact Hw|]. split; [exact He|].
  exact (proj1 status_invariant_kept RunWorker ex_world_placed _ Hw He).
Defined.

(** C8, counterexample.  A buy order of 5 that traded 3 and rests partially
    filled is modified to 99.00: the row written by the command, and the
    answer, say ACTIVE while T = 3 and Q = 5. *)
Lemma modify_resets_status_counterexample :
  ∃ w1 resp w2 o,
    ex_world_partial = Some w1
    ∧ (status <$> Order_objects_get 101 (store w1)) = Some PARTIALLY_FILLED
    ∧ update 101 (mkModifyRequest (Some 101) (Some (PyDecimal.mkDecimal 99 0))) w1
      = (resp, w2)
    ∧ body_get "status" (body resp) = Some (JStr "ACTIVE")
    ∧ Order_objects_get 101 (store w2) = Some o
    ∧ status o = ACTIVE ∧ traded_quantity o = 3 ∧ quantity o = 5
    ∧ is_active o = true
    ∧ ¬ full_status_inv o.
Proof.
  eexists _, _, _, _.
  split; [vm_compute; reflexivity|]. split; [reflexivity|].
  split; [vm_compute; reflexivity|]. split; [reflexivity|].
  split; [reflexivity|]. do 4 (split; [reflexivity|]).
  intros [[_ H] _]. cbn in H. discriminate H. lia.
Qed.

(* ===================================================================== *)
(** ** min and max of a set of prices *)
(* ===================================================================== *)

Lemma foldr_min_spec x xs :
  (foldr Z.min x xs = x ∨ foldr Z.min x xs ∈ xs)
  ∧ foldr Z.min x xs <= x ∧ Forall (λ y, foldr Z.min x xs <= y) xs.
Proof.
  induction xs as [|y ys (Hin & Hx & Hys)]; simpl.
  - split; [by left|]. split; [lia|constructor].
  - split; [|split].
    + destruct (Z.min_spec y (foldr Z.min x ys)) as [[_ ->]|[_ ->]].
      * right. by left.
      * destruct Hin as [->|Hin]; [by left|right; by right].
    + lia.
    + constructor; [lia|]. eapply Forall_impl; [exact Hys|].
      intros z Hz. simpl in Hz. lia.
Qed.

Lemma foldr_max_spec x xs :
  (foldr Z.max x xs = x ∨ foldr Z.max x xs ∈ xs)
  ∧ x <= foldr Z.max x xs ∧ Forall (λ y, y <= foldr Z.max x xs) xs.
Proof.
  induction xs as [|y ys (Hin & Hx & Hys)]; simpl.
  - split; [by left|]. split; [lia|constructor].
  - split; [|split].
    + destruct (Z.max_spec y (foldr Z.max x ys)) as [[_ ->]|[_ ->]].
      * destruct Hin as [->|Hin]; [by left|right; by right].
      * right. by left.
    + lia.
    + constructor; [lia|]. eapply Forall_impl; [exact Hys|].
      intros z Hz. simpl in Hz. lia.
Qed.

(** [min(s)] is the least element of [s]. *)
Lemma set_min_Some (s : gset Z) m :
  set_min s = Some m ↔ m ∈ s ∧ ∀ x, x ∈ s → m <= x.
Proof.
  unfold set_min.
  assert (∀ m', match elements s with
                | [] => None
                | x :: xs => Some (foldr Z.min x xs)
                end = Some m' → m' ∈ s ∧ ∀ x, x ∈ s → m' <= x) as Hsound.
  { intros m'. destruct (elements s) as [|x xs] eqn:E; [done|].
    intros [= <-]. destruct (foldr_min_spec x xs) as (Hin & Hx & Hxs).
    split.
    - apply elem_of_elements. rewrite E.
      destruct Hin as [->|Hin]; [by left|by right].
    - intros y Hy. apply elem_of_elements in Hy. rewrite E in Hy.
      apply elem_of_cons in Hy as [->|Hy]; [done|].
      rewrite Forall_forall in Hxs. by apply Hxs. }
  split; [apply Hsound|].
  intros [Hm Hle]. destruct (elements s) as [|x xs] eqn:E.
  - apply elem_of_elements in Hm. rewrite E in Hm. by apply elem_of_nil in Hm.
  - destruct (Hsound _ eq_refl) as [Hm' Hle'].
    f_equal. specialize (Hle _ Hm'). specialize (Hle' _ Hm). lia.
Qed.

Lemma set_min_None (s : gset Z) : set_min s = None ↔ s = ∅.
Proof.
  unfold set_min. split.
  - destruct (elements s) eqn:E; [|done]. intros _.
    by apply elements_empty_inv in E; apply leibniz_equiv in E.
  - intros ->. by rewrite elements_empty.
Qed.

(** [max(s)] is the greatest element of [s]. *)
Lemma set_max_Some (s : gset Z) m :
  set_max s = Some m ↔ m ∈ s ∧ ∀ x, x ∈ s → x <= m.
Proof.
  unfold set_max.
  assert (∀ m', match elements s with
                | [] => None
                | x :: xs => Some (foldr Z.max x xs)
                end = Some m' → m' ∈ s ∧ ∀ x, x ∈ s → x <= m') as Hsound.
  { intros m'. destruct (elements s) as [|x xs] eqn:E; [done|].
    intros [= <-]. destruct (foldr_max_spec x xs) as (Hin & Hx & Hxs).
    split.
    - apply elem_of_elements. rewrite E.
      destruct Hin as [->|Hin]; [by left|by right].
    - intros y Hy. apply elem_of_elements in Hy. rewrite E in Hy.
      apply elem_of_cons in Hy as [->|Hy]; [done|].
      rewrite Forall_forall in Hxs. by apply Hxs. }
  split; [apply Hsound|].
  intros [Hm Hle]. destruct (elements s) as [|x xs] eqn:E.
  - apply elem_of_elements in Hm. rewrite E in Hm. by apply elem_of_nil in Hm.
  - destruct (Hsound _ eq_refl) as [Hm' Hle'].
    f_equal. specialize (Hle _ Hm'). specialize (Hle' _ Hm). lia.
Qed.

Lemma set_max_None (s : gset Z) : set_max s = None ↔ s = ∅.
Proof.
  unfold set_max. split.
  - destruct (elements s) eqn:E; [|done]. intros _.
    by apply elements_empty_inv in E; apply leibniz_equiv in E.
  - intros ->. by rewrite elements_empty.
Qed.

(* ===================================================================== *)
(** ** The well-formed book *)
(* ===================================================================== *)

Lemma level_wf_member lk s p l o :
  level_wf lk s p l → o ∈ l →
  price o = p ∧ 0 < remaining_quantity o ∧ lk !! order_id o = Some (p, s).
Proof.
  intros (_ & _ & _ & H) Ho. rewrite Forall_forall in H. by apply H.
Qed.

(** Two resting orders with one id are one order at one place. *)
Lemma levels_wf_lookup_agree lk s levels p l o :
  levels_wf lk s levels → levels !! p = Some l → o ∈ l →
  lk !! order_id o = Some (p, s).
Proof. intros H Hl Ho. by apply (level_wf_member lk s p l o (H p l Hl)). Qed.

(** [L1] an order is appended to its own side. *)
Lemma levels_wf_append lk s levels o :
  levels_wf lk s levels → lk !! order_id o = None →
  price o ≠ 0 → 0 < remaining_quantity o →
  levels_wf (<[order_id o := (price o, s)]> lk) s
    (<[price o := default [] (levels !! price o) ++ [o]]> levels).
Proof.
  intros H Hfresh Hp HR p l Hl.
  assert (∀ p' l', levels !! p' = Some l' →
            Forall (λ x, price x = p' ∧ 0 < remaining_quantity x
                         ∧ <[order_id o := (price o, s)]> lk !! order_id x
                           = Some (p', s)) l'
            ∧ order_id o ∉ order_id <$> l') as Hold.
  { intros p' l' Hl'. destruct (H p' l' Hl') as (_ & _ & _ & HF). split.
    - eapply Forall_impl; [exact HF|]. intros x (? & ? & Hx).
      repeat split; try done. rewrite lookup_insert_ne; [done|].
      intros E. rewrite E in Hfresh. congruence.
    - intros Hin. apply list_elem_of_fmap in Hin as (x & E & Hx).
      rewrite Forall_forall in HF. destruct (HF x Hx) as (_ & _ & Hlk).
      rewrite <- E in Hlk. congruence. }
  apply lookup_levels_replace in Hl as [[-> ->]|[Hne Hl]].
  - destruct (levels !! price o) as [l0|] eqn:E; cbn [from_option id].
    + destruct (H _ _ E) as (Hne & _ & Hnd & _).
      destruct (Hold _ _ E) as [HF Hnotin].
      split; [by destruct l0|]. split; [done|]. split.
      * rewrite fmap_app. apply NoDup_app. split; [done|].
        split; [|apply NoDup_singleton].
        intros x Hx Hx'. apply list_elem_of_singleton in Hx'. by subst.
      * apply Forall_app. split; [done|]. constructor; [|constructor].
        repeat split; try done. by rewrite lookup_insert_eq.
    + split; [done|]. split; [done|]. split; [apply NoDup_singleton|].
      constructor; [|constructor].
      repeat split; try done. by rewrite lookup_insert_eq.
  - destruct (H _ _ Hl) as (? & ? & ? & _). destruct (Hold _ _ Hl) as [HF _].
    by repeat split.
Qed.

(** [L2] an order is appended to the other side. *)
Lemma levels_wf_lookup_insert lk s levels oid v :
  levels_wf lk s levels → lk !! oid = None →
  levels_wf (<[oid := v]> lk) s levels.
Proof.
  intros H Hfresh p l Hl. destruct (H p l Hl) as (? & ? & ? & HF).
  repeat split; try done. eapply Forall_impl; [exact HF|].
  intros x (? & ? & Hx). repeat split; try done.
  rewrite lookup_insert_ne; [done|]. intros E. rewrite E in Hfresh. congruence.
Qed.

(** [L3] an order is taken out of its level. *)
Lemma levels_wf_remove lk s levels p l1 o l2 :
  levels_wf lk s levels → levels !! p = Some (l1 ++ o :: l2) →
  levels_wf (delete (order_id o) lk) s
    match l1 ++ l2 with
    | [] => delete p levels
    | _ :: _ => <[p := l1 ++ l2]> levels
    end.
Proof.
  intros H Hl p' l' Hl'.
  destruct (H p _ Hl) as (_ & Hp & Hnd & HF).
  rewrite fmap_app, fmap_cons in Hnd.
  apply NoDup_app in Hnd as (Hnd1 & Hdisj & Hnd2).
  apply NoDup_cons in Hnd2 as [Hnotin2 Hnd2].
  apply Forall_app in HF as [HF1 HF2]. apply Forall_cons in HF2 as [Ho HF2].
  apply lookup_levels_pop in Hl' as [(-> & -> & Hne)|[Hne Hl']].
  - split; [done|]. split; [done|]. split.
    + rewrite fmap_app. apply NoDup_app. split; [done|]. split; [|done].
      intros x Hx Hx'. apply (Hdisj x Hx). by right.
    + apply Forall_app. split.
      * rewrite Forall_forall in HF1 |- *. intros x Hx.
        destruct (HF1 x Hx) as (? & ? & Hlk). repeat split; try done.
        rewrite lookup_delete_ne; [done|]. intros E.
        apply (Hdisj (order_id x)); [by apply list_elem_of_fmap_2|].
        rewrite E. by left.
      * rewrite Forall_forall in HF2 |- *. intros x Hx.
        destruct (HF2 x Hx) as (? & ? & Hlk). repeat split; try done.
        rewrite lookup_delete_ne; [done|]. intros E.
        apply Hnotin2. rewrite E. by apply list_elem_of_fmap_2.
  - destruct (H _ _ Hl') as (? & ? & ? & HF').
    repeat split; try done.
    rewrite Forall_forall in HF' |- *. intros x Hx.
    destruct (HF' x Hx) as (? & ? & Hlk). repeat split; try done.
    rewrite lookup_delete_ne; [done|]. intros E.
    destruct Ho as (_ & _ & Hlo). rewrite E in Hlo. congruence.
Qed.

(** [L4] an order is taken out of the other side. *)
Lemma levels_wf_lookup_delete lk s levels oid p' s' :
  levels_wf lk s levels → lk !! oid = Some (p', s') → s' ≠ s →
  levels_wf (delete oid lk) s levels.
Proof.
  intros H Hlk Hs p l Hl. destruct (H p l Hl) as (? & ? & ? & HF).
  repeat split; try done. eapply Forall_impl; [exact HF|].
  intros x (? & ? & Hx). repeat split; try done.
  rewrite lookup_delete_ne; [done|]. intros E. rewrite E in Hlk. congruence.
Qed.

(** [L5] the head of a level is replaced by itself after a partial fill. *)
Lemma levels_wf_replace_head lk s levels p Y Y' rest :
  levels_wf lk s levels → levels !! p = Some (Y :: rest) →
  order_id Y' = order_id Y → price Y' = price Y →
  0 < remaining_quantity Y' →
  levels_wf lk s (<[p := Y' :: rest]> levels).
Proof.
  intros H Hl Hid Hpr HR p' l' Hl'.
  apply lookup_levels_replace in Hl' as [[-> ->]|[_ Hl']]; [|by apply H].
  destruct (H _ _ Hl) as (_ & Hp & Hnd & HF).
  apply Forall_cons in HF as [(? & ? & ?) HF].
  split; [done|]. split; [done|]. split.
  - rewrite fmap_cons, Hid. exact Hnd.
  - constructor; [|done]. rewrite Hid, Hpr. by repeat split.
Qed.

Lemma rests_in_append levels oid p o :
  rests_in levels oid p →
  rests_in (<[price o := default [] (levels !! price o) ++ [o]]> levels) oid p.
Proof.
  intros (l & x & Hl & Hx & Hid & Hp).
  destruct (decide (p = price o)) as [->|Hne].
  - exists (l ++ [o]), x. rewrite lookup_insert_eq, Hl. cbn.
    repeat split; try done. apply elem_of_app. by left.
  - exists l, x. by rewrite lookup_insert_ne.
Qed.

Lemma rests_in_appended levels o :
  rests_in (<[price o := default [] (levels !! price o) ++ [o]]> levels)
    (order_id o) (price o).
Proof.
  exists (default [] (levels !! price o) ++ [o]), o.
  rewrite lookup_insert_eq. repeat split; try done.
  apply elem_of_app. right. by left.
Qed.

Lemma rests_in_remove levels oid p p0 l1 o l2 :
  rests_in levels oid p → oid ≠ order_id o →
  levels !! p0 = Some (l1 ++ o :: l2) →
  rests_in match l1 ++ l2 with
           | [] => delete p0 levels
           | _ :: _ => <[p0 := l1 ++ l2]> levels
           end oid p.
Proof.
  intros (l & x & Hl & Hx & Hid & Hp) Hne H0.
  destruct (decide (p = p0)) as [->|Hp0].
  - rewrite H0 in Hl. injection Hl as <-.
    assert (x ∈ l1 ++ l2) as Hx'.
    { apply elem_of_app in Hx as [Hx|Hx]; apply elem_of_app; [by left|].
      apply elem_of_cons in Hx as [->|Hx]; [done|by right]. }
    destruct (l1 ++ l2) as [|y ys] eqn:E; [by apply elem_of_nil in Hx'|].
    exists (y :: ys), x. by rewrite lookup_insert_eq.
  - exists l, x. destruct (l1 ++ l2).
    + by rewrite lookup_delete_ne.
    + by rewrite lookup_insert_ne.
Qed.

Lemma rests_in_replace_head levels oid p p0 Y Y' rest :
  rests_in levels oid p → levels !! p0 = Some (Y :: rest) →
  order_id Y' = order_id Y → price Y' = price Y →
  rests_in (<[p0 := Y' :: rest]> levels) oid p.
Proof.
  intros (l & x & Hl & Hx & Hid & Hp) H0 HidY HpY.
  destruct (decide (p = p0)) as [->|Hp0].
  - rewrite H0 in Hl. injection Hl as <-.
    apply elem_of_cons in Hx as [->|Hx].
    + exists (Y' :: rest), Y'. rewrite lookup_insert_eq.
      repeat split; try done; [by left|congruence|congruence].
    + exists (Y' :: rest), x. rewrite lookup_insert_eq.
      repeat split; try done. by right.
  - exists l, x. by rewrite lookup_insert_ne.
Qed.

(** The cached best price after an insertion. *)
Lemma set_min_insert (s : gset Z) p :
  match set_min s with
  | None => Some p
  | Some ba => if p <? ba then Some p else Some ba
  end = set_min ({[p]} ∪ s).
Proof.
  destruct (set_min s) as [ba|] eqn:E.
  - apply set_min_Some in E as [Hb Hle].
    destruct (p <? ba) eqn:Hlt; symmetry; apply set_min_Some.
    + split; [set_solver|]. intros x Hx.
      apply elem_of_union in Hx as [Hx|Hx].
      * apply elem_of_singleton in Hx. lia.
      * specialize (Hle x Hx). lia.
    + split; [set_solver|]. intros x Hx.
      apply elem_of_union in Hx as [Hx|Hx].
      * apply elem_of_singleton in Hx. lia.
      * by apply Hle.
  - apply set_min_None in E as ->. symmetry. apply set_min_Some.
    split; [set_solver|].
    intros x Hx. apply elem_of_union in Hx as [Hx|Hx].
    + apply elem_of_singleton in Hx. lia.
    + by apply elem_of_empty in Hx.
Qed.

Lemma set_max_insert (s : gset Z) p :
  match set_max s with
  | None => Some p
  | Some bb => if p >? bb then Some p else Some bb
  end = set_max ({[p]} ∪ s).
Proof.
  destruct (set_max s) as [bb|] eqn:E.
  - apply set_max_Some in E as [Hb Hle].
    destruct (p >? bb) eqn:Hlt; symmetry; apply set_max_Some.
    + split; [set_solver|]. intros x Hx.
      apply elem_of_union in Hx as [Hx|Hx].
      * apply elem_of_singleton in Hx. lia.
      * specialize (Hle x Hx). lia.
    + split; [set_solver|]. intros x Hx.
      apply elem_of_union in Hx as [Hx|Hx].
      * apply elem_of_singleton in Hx. lia.
      * by apply Hle.
  - apply set_max_None in E as ->. symmetry. apply set_max_Some.
    split; [set_solver|].
    intros x Hx. apply elem_of_union in Hx as [Hx|Hx].
    + apply elem_of_singleton in Hx. lia.
    + by apply elem_of_empty in Hx.
Qed.

(** The cached best price after another price left the set. *)
Lemma set_min_remove_other (s : gset Z) p m :
  set_min s = Some m → m ≠ p → set_min (s ∖ {[p]}) = Some m.
Proof.
  intros E Hne. apply set_min_Some in E as [Hm Hle]. apply set_min_Some.
  split; [set_solver|]. intros x Hx. apply Hle. set_solver.
Qed.

Lemma set_max_remove_other (s : gset Z) p m :
  set_max s = Some m → m ≠ p → set_max (s ∖ {[p]}) = Some m.
Proof.
  intros E Hne. apply set_max_Some in E as [Hm Hle]. apply set_max_Some.
  split; [set_solver|]. intros x Hx. apply Hle. set_solver.
Qed.

Lemma ask_prices_add_sell_order o b :
  ask_prices (_add_sell_order o b)
  = match asks b !! price o with
    | None => {[price o]} ∪ ask_prices b
    | Some _ => ask_prices b
    end.
Proof.
  unfold _add_sell_order.
  destruct (asks b !! price o); cbn;
    (destruct (best_ask b) as [ba|] eqn:Hb; [destruct (_ <? _)|]); try split;
    cbn; rewrite ?Hb; reflexivity.
Qed.

Lemma best_ask_add_sell_order o b :
  best_ask (_add_sell_order o b)
  = match best_ask b with
    | None => Some (price o)
    | Some ba => if price o <? ba then Some (price o) else Some ba
    end.
Proof.
  unfold _add_sell_order.
  destruct (asks b !! price o); cbn;
    (destruct (best_ask b) as [ba|] eqn:Hb; [destruct (_ <? _)|]); try split;
    cbn; rewrite ?Hb; reflexivity.
Qed.

Lemma bid_side_add_sell_order o b :
  bid_prices (_add_sell_order o b) = bid_prices b
  ∧ best_bid (_add_sell_order o b) = best_bid b.
Proof.
  unfold _add_sell_order.
  destruct (asks b !! price o); cbn;
    (destruct (best_ask b) as [ba|] eqn:Hb; [destruct (_ <? _)|]); try split;
    cbn; rewrite ?Hb; reflexivity.
Qed.

Lemma bid_prices_add_buy_order o b :
  bid_prices (_add_buy_order o b)
  = match bids b !! price o with
    | None => {[price o]} ∪ bid_prices b
    | Some _ => bid_prices b
    end.
Proof.
  unfold _add_buy_order.
  destruct (bids b !! price o); cbn;
    (destruct (best_bid b) as [bb|] eqn:Hb; [destruct (_ >? _)|]); try split;
    cbn; rewrite ?Hb; reflexivity.
Qed.

Lemma best_bid_add_buy_order o b :
  best_bid (_add_buy_order o b)
  = match best_bid b with
    | None => Some (price o)
    | Some bb => if price o >? bb then Some (price o) else Some bb
    end.
Proof.
  unfold _add_buy_order.
  destruct (bids b !! price o); cbn;
    (destruct (best_bid b) as [bb|] eqn:Hb; [destruct (_ >? _)|]); try split;
    cbn; rewrite ?Hb; reflexivity.
Qed.

Lemma ask_side_add_buy_order o b :
  ask_prices (_add_buy_order o b) = ask_prices b
  ∧ best_ask (_add_buy_order o b) = best_ask b.
Proof.
  unfold _add_buy_order.
  destruct (bids b !! price o); cbn;
    (destruct (best_bid b) as [bb|] eqn:Hb; [destruct (_ >? _)|]); try split;
    cbn; rewrite ?Hb; reflexivity.
Qed.

Lemma dom_insert_present (levels : gmap Z (list Order)) p l :
  is_Some (levels !! p) → dom (<[p := l]> levels) = dom levels.
Proof.
  intros H. rewrite dom_insert_L. apply elem_of_dom in H. set_solver.
Qed.

Lemma book_wf_empty : book_wf empty_book.
Proof.
  unfold book_wf, empty_book. cbn.
  split; [intros p l H; by rewrite lookup_empty in H|].
  split; [intros p l H; by rewrite lookup_empty in H|].
  split; [by rewrite dom_empty_L|]. split; [by rewrite dom_empty_L|].
  split; [done|]. split; [done|].
  intros oid p s H. cbn in H. by rewrite lookup_empty in H.
Qed.

(** [_add_sell_order] of an order that is not in the book, at a non-zero
    price and with something remaining, keeps the book well formed. *)
Lemma book_wf_add_sell o b :
  book_wf b → order_lookup b !! order_id o = None →
  price o ≠ 0 → 0 < remaining_quantity o →
  book_wf (_add_sell_order o b).
Proof.
  intros (Hb & Ha & Hbp & Hap & Hbb & Hba & Hlk) Hfresh Hp HR.
  unfold book_wf.
  rewrite bids_add_sell_order, asks_add_sell_order,
    order_lookup_add_sell_order, ask_prices_add_sell_order,
    best_ask_add_sell_order.
  destruct (bid_side_add_sell_order o b) as [-> ->].
  split; [by apply levels_wf_lookup_insert|].
  split; [by apply levels_wf_append|].
  split; [done|].
  assert (match asks b !! price o with
          | Some _ => ask_prices b
          | None => {[price o]} ∪ ask_prices b
          end = {[price o]} ∪ ask_prices b) as Hprices.
  { destruct (asks b !! price o) eqn:E; [|done].
    assert (price o ∈ ask_prices b) by (rewrite Hap; by apply elem_of_dom).
    set_solver. }
  split; [by rewrite Hprices, dom_insert_L, Hap|].
  split; [done|].
  split; [by rewrite Hprices, Hba, set_min_insert|].
  intros oid p s Hl. unfold lookup_wf in Hlk.
  rewrite bids_add_sell_order, asks_add_sell_order.
  rewrite order_lookup_add_sell_order in Hl.
  rewrite lookup_insert in Hl. case_decide as Hid.
  - injection Hl as <- <-. right. split; [done|]. subst oid.
    apply rests_in_appended.
  - destruct (Hlk oid p s Hl) as [[-> Hr]|[-> Hr]]; [by left|right].
    split; [done|]. by apply rests_in_append.
Qed.

Lemma prices_pop_ask pa Y rest b :
  ask_prices (pop_ask pa Y rest b)
  = match rest with
    | [] => ask_prices b ∖ {[pa]}
    | _ :: _ => ask_prices b
    end
  ∧ best_ask (pop_ask pa Y rest b)
    = match rest with
      | [] => set_min (ask_prices b ∖ {[pa]})
      | _ :: _ => best_ask b
      end
  ∧ bid_prices (pop_ask pa Y rest b) = bid_prices b
  ∧ best_bid (pop_ask pa Y rest b) = best_bid b.
Proof. unfold pop_ask. by destruct rest. Qed.

(** Popping the filled head of a level keeps the book well formed. *)
Lemma book_wf_pop_ask pa Y rest b :
  book_wf b → asks b !! pa = Some (Y :: rest) →
  book_wf (pop_ask pa Y rest b).
Proof.
  intros (Hb & Ha & Hbp & Hap & Hbb & Hba & Hlk) Has.
  pose proof (levels_wf_lookup_agree _ _ _ _ _ Y Ha Has ltac:(by left)) as HlY.
  assert (levels_wf (delete (order_id Y) (order_lookup b)) (-1)
            (asks (pop_ask pa Y rest b))) as Ha'.
  { rewrite asks_pop_ask.
    exact (levels_wf_remove _ _ _ pa [] Y rest Ha Has). }
  assert (lookup_wf (pop_ask pa Y rest b)) as Hlk'.
  { intros oid p s Hl. rewrite order_lookup_pop_ask in Hl.
    rewrite lookup_delete in Hl. case_decide as Hid; [done|].
    rewrite bids_pop_ask, asks_pop_ask.
    destruct (Hlk oid p s Hl) as [[-> Hr]|[-> Hr]]; [by left|right].
    split; [done|].
    apply (rests_in_remove _ oid p pa [] Y rest Hr); [congruence|done]. }
  destruct (prices_pop_ask pa Y rest b) as (Hp1 & Hp2 & Hp3 & Hp4).
  unfold book_wf. rewrite Hp1, Hp2, Hp3, Hp4.
  rewrite order_lookup_pop_ask, bids_pop_ask in *.
  split; [by eapply levels_wf_lookup_delete|].
  split; [done|]. split; [done|].
  rewrite asks_pop_ask. destruct rest as [|y rest].
  - split; [by rewrite dom_delete_L, Hap|]. done.
  - split; [|done]. rewrite dom_insert_present; [done|by rewrite Has].
Qed.

(** Writing the partially filled head back keeps the book well formed. *)
Lemma book_wf_refill_ask pa Y Y' rest b :
  book_wf b → asks b !! pa = Some (Y :: rest) →
  order_id Y' = order_id Y → price Y' = price Y →
  0 < remaining_quantity Y' →
  book_wf (set_asks (<[pa := Y' :: rest]> (asks b)) b).
Proof.
  intros (Hb & Ha & Hbp & Hap & Hbb & Hba & Hlk) Has Hid Hpr HR.
  unfold book_wf. cbn.
  split; [done|]. split; [by eapply levels_wf_replace_head|].
  split; [done|].
  split; [rewrite dom_insert_present; [done|by rewrite Has]|].
  split; [done|]. split; [done|].
  intros oid p s Hl. cbn in *.
  destruct (Hlk oid p s Hl) as [[-> Hr]|[-> Hr]]; [by left|right].
  split; [done|]. by eapply rests_in_replace_head.
Qed.

Lemma fields_remove_ask p oid l' b :
  asks (remove_ask p oid l' b)
  = match l' with
    | [] => delete p (asks b)
    | _ :: _ => <[p := l']> (asks b)
    end
  ∧ ask_prices (remove_ask p oid l' b)
    = match l' with
      | [] => ask_prices b ∖ {[p]}
      | _ :: _ => ask_prices b
      end
  ∧ best_ask (remove_ask p oid l' b)
    = match l' with
      | [] => if decide (best_ask b = Some p)
              then set_min (ask_prices b ∖ {[p]}) else best_ask b
      | _ :: _ => best_ask b
      end
  ∧ order_lookup (remove_ask p oid l' b) = delete oid (order_lookup b)
  ∧ bids (remove_ask p oid l' b) = bids b
  ∧ bid_prices (remove_ask p oid l' b) = bid_prices b
  ∧ best_bid (remove_ask p oid l' b) = best_bid b.
Proof.
  unfold remove_ask. destruct l'; cbn; [|done].
  rewrite delete_insert_eq. by destruct (decide (best_ask b = Some p)).
Qed.

(** Taking an order out of an ask level, as [cancel_order] does, keeps the
    book well formed. *)
Lemma book_wf_remove_ask p l1 o l2 b :
  book_wf b → asks b !! p = Some (l1 ++ o :: l2) →
  book_wf (remove_ask p (order_id o) (l1 ++ l2) b).
Proof.
  intros (Hb & Ha & Hbp & Hap & Hbb & Hba & Hlk) Has.
  assert (o ∈ l1 ++ o :: l2) as Ho by (apply elem_of_app; right; by left).
  pose proof (levels_wf_lookup_agree _ _ _ _ _ o Ha Has Ho) as Hlo.
  pose proof (levels_wf_remove _ _ _ p l1 o l2 Ha Has) as Ha'.
  destruct (fields_remove_ask p (order_id o) (l1 ++ l2) b)
    as (F1 & F2 & F3 & F4 & F5 & F6 & F7).
  unfold book_wf, lookup_wf. rewrite F1, F2, F3, F4, F5, F6, F7.
  split; [by eapply levels_wf_lookup_delete|].
  split; [done|]. split; [done|].
  assert (p ∈ ask_prices b) as Hin
    by (rewrite Hap; apply elem_of_dom; by rewrite Has).
  split; [|split; [done|split]].
  - destruct (l1 ++ l2); [by rewrite dom_delete_L, Hap|].
    rewrite dom_insert_present; [done|by rewrite Has].
  - destruct (l1 ++ l2); [|done].
    destruct (decide (best_ask b = Some p)) as [Hbest|Hbest]; [done|].
    rewrite Hba in Hbest |- *.
    destruct (set_min (ask_prices b)) as [m|] eqn:Em.
    + symmetry. apply set_min_remove_other; [done|congruence].
    + apply set_min_None in Em. rewrite Em in Hin.
      by apply elem_of_empty in Hin.
  - intros oid p' s Hl.
    rewrite lookup_delete in Hl. case_decide as Hid; [done|].
    destruct (Hlk oid p' s Hl) as [[-> Hr]|[-> Hr]]; [by left|right].
    split; [done|].
    apply (rests_in_remove _ oid p' p l1 o l2 Hr); [congruence|done].
Qed.

(** [_add_buy_order] of an order that is not in the book, at a non-zero
    price and with something remaining, keeps the book well formed. *)
Lemma book_wf_add_buy o b :
  book_wf b → order_lookup b !! order_id o = None →
  price o ≠ 0 → 0 < remaining_quantity o →
  book_wf (_add_buy_order o b).
Proof.
  intros (Hb & Ha & Hbp & Hap & Hbb & Hba & Hlk) Hfresh Hp HR.
  unfold book_wf.
  rewrite bids_add_buy_order, asks_add_buy_order,
    order_lookup_add_buy_order, bid_prices_add_buy_order,
    best_bid_add_buy_order.
  destruct (ask_side_add_buy_order o b) as [-> ->].
  split; [by apply levels_wf_append|].
  split; [by apply levels_wf_lookup_insert|].
  assert (match bids b !! price o with
          | Some _ => bid_prices b
          | None => {[price o]} ∪ bid_prices b
          end = {[price o]} ∪ bid_prices b) as Hprices.
  { destruct (bids b !! price o) eqn:E; [|done].
    assert (price o ∈ bid_prices b) by (rewrite Hbp; by apply elem_of_dom).
    set_solver. }
  split; [by rewrite Hprices, dom_insert_L, Hbp|].
  split; [done|].
  split; [by rewrite Hprices, Hbb, set_max_insert|].
  split; [done|].
  intros oid p s Hl. unfold lookup_wf in Hlk.
  rewrite bids_add_buy_order, asks_add_buy_order.
  rewrite order_lookup_add_buy_order in Hl.
  rewrite lookup_insert in Hl. case_decide as Hid.
  - injection Hl as <- <-. left. split; [done|]. subst oid.
    apply rests_in_appended.
  - destruct (Hlk oid p s Hl) as [[-> Hr]|[-> Hr]]; [left|by right].
    split; [done|]. by apply rests_in_append.
Qed.

Lemma prices_pop_bid pb Y rest b :
  bid_prices (pop_bid pb Y rest b)
  = match rest with
    | [] => bid_prices b ∖ {[pb]}
    | _ :: _ => bid_prices b
    end
  ∧ best_bid (pop_bid pb Y rest b)
    = match rest with
      | [] => set_max (bid_prices b ∖ {[pb]})
      | _ :: _ => best_bid b
      end
  ∧ ask_prices (pop_bid pb Y rest b) = ask_prices b
  ∧ best_ask (pop_bid pb Y rest b) = best_ask b.
Proof. unfold pop_bid. by destruct rest. Qed.

Lemma book_wf_pop_bid pb Y rest b :
  book_wf b → bids b !! pb = Some (Y :: rest) →
  book_wf (pop_bid pb Y rest b).
Proof.
  intros (Hb & Ha & Hbp & Hap & Hbb & Hba & Hlk) Hbs.
  pose proof (levels_wf_lookup_agree _ _ _ _ _ Y Hb Hbs ltac:(by left)) as HlY.
  assert (levels_wf (delete (order_id Y) (order_lookup b)) 1
            (bids (pop_bid pb Y rest b))) as Hb'.
  { rewrite bids_pop_bid.
    exact (levels_wf_remove _ _ _ pb [] Y rest Hb Hbs). }
  assert (lookup_wf (pop_bid pb Y rest b)) as Hlk'.
  { intros oid p s Hl. rewrite order_lookup_pop_bid in Hl.
    rewrite lookup_delete in Hl. case_decide as Hid; [done|].
    rewrite bids_pop_bid, asks_pop_bid.
    destruct (Hlk oid p s Hl) as [[-> Hr]|[-> Hr]]; [left|by right].
    split; [done|].
    apply (rests_in_remove _ oid p pb [] Y rest Hr); [congruence|done]. }
  destruct (prices_pop_bid pb Y rest b) as (Hp1 & Hp2 & Hp3 & Hp4).
  unfold book_wf. rewrite Hp1, Hp2, Hp3, Hp4.
  rewrite order_lookup_pop_bid, asks_pop_bid in *.
  split; [done|].
  split; [by eapply levels_wf_lookup_delete|].
  rewrite bids_pop_bid. destruct rest as [|y rest].
  - split; [by rewrite dom_delete_L, Hbp|]. done.
  - split; [|done]. rewrite dom_insert_present; [done|by rewrite Hbs].
Qed.

Lemma book_wf_refill_bid pb Y Y' rest b :
  book_wf b → bids b !! pb = Some (Y :: rest) →
  order_id Y' = order_id Y → price Y' = price Y →
  0 < remaining_quantity Y' →
  book_wf (set_bids (<[pb := Y' :: rest]> (bids b)) b).
Proof.
  intros (Hb & Ha & Hbp & Hap & Hbb & Hba & Hlk) Hbs Hid Hpr HR.
  unfold book_wf. cbn.
  split; [by eapply levels_wf_replace_head|]. split; [done|].
  split; [rewrite dom_insert_present; [done|by rewrite Hbs]|].
  split; [done|]. split; [done|]. split; [done|].
  intros oid p s Hl. cbn in *.
  destruct (Hlk oid p s Hl) as [[-> Hr]|[-> Hr]]; [left|by right].
  split; [done|]. by eapply rests_in_replace_head.
Qed.

Lemma fields_remove_bid p oid l' b :
  bids (remove_bid p oid l' b)
  = match l' with
    | [] => delete p (bids b)
    | _ :: _ => <[p := l']> (bids b)
    end
  ∧ bid_prices (remove_bid p oid l' b)
    = match l' with
      | [] => bid_prices b ∖ {[p]}
      | _ :: _ => bid_prices b
      end
  ∧ best_bid (remove_bid p oid l' b)
    = match l' with
      | [] => if decide (best_bid b = Some p)
              then set_max (bid_prices b ∖ {[p]}) else best_bid b
      | _ :: _ => best_bid b
      end
  ∧ order_lookup (remove_bid p oid l' b) = delete oid (order_lookup b)
  ∧ asks (remove_bid p oid l' b) = asks b
  ∧ ask_prices (remove_bid p oid l' b) = ask_prices b
  ∧ best_ask (remove_bid p oid l' b) = best_ask b.
Proof.
  unfold remove_bid. destruct l'; cbn; [|done].
  rewrite delete_insert_eq. by destruct (decide (best_bid b = Some p)).
Qed.

(** Taking an order out of a bid level, as [cancel_order] does, keeps the
    book well formed. *)
Lemma book_wf_remove_bid p l1 o l2 b :
  book_wf b → bids b !! p = Some (l1 ++ o :: l2) →
  book_wf (remove_bid p (order_id o) (l1 ++ l2) b).
Proof.
  intros (Hb & Ha & Hbp & Hap & Hbb & Hba & Hlk) Hbs.
  assert (o ∈ l1 ++ o :: l2) as Ho by (apply elem_of_app; right; by left).
  pose proof (levels_wf_lookup_agree _ _ _ _ _ o Hb Hbs Ho) as Hlo.
  pose proof (levels_wf_remove _ _ _ p l1 o l2 Hb Hbs) as Hb'.
  destruct (fields_remove_bid p (order_id o) (l1 ++ l2) b)
    as (F1 & F2 & F3 & F4 & F5 & F6 & F7).
  unfold book_wf, lookup_wf. rewrite F1, F2, F3, F4, F5, F6, F7.
  split; [done|].
  split; [by eapply levels_wf_lookup_delete|].
  assert (p ∈ bid_prices b) as Hin
    by (rewrite Hbp; apply elem_of_dom; by rewrite Hbs).
  split; [|split; [done|split; [|split; [done|]]]].
  - destruct (l1 ++ l2); [by rewrite dom_delete_L, Hbp|].
    rewrite dom_insert_present; [done|by rewrite Hbs].
  - destruct (l1 ++ l2); [|done].
    destruct (decide (best_bid b = Some p)) as [Hbest|Hbest]; [done|].
    rewrite Hbb in Hbest |- *.
    destruct (set_max (bid_prices b)) as [m|] eqn:Em.
    + symmetry. apply set_max_remove_other; [done|congruence].
    + apply set_max_None in Em. rewrite Em in Hin.
      by apply elem_of_empty in Hin.
  - intros oid p' s Hl.
    rewrite lookup_delete in Hl. case_decide as Hid; [done|].
    destruct (Hlk oid p' s Hl) as [[-> Hr]|[-> Hr]]; [left|by right].
    split; [done|].
    apply (rests_in_remove _ oid p' p l1 o l2 Hr); [congruence|done].
Qed.

(* ===================================================================== *)
(** ** cancel_order and OrderViewSet.destroy *)
(* ===================================================================== *)

Lemma list_remove_pk_Some oid l x :
  x ∈ l → order_id x = oid → is_Some (list_remove_pk oid l).
Proof.
  intros Hx Hid. destruct (list_remove_pk oid l) eqn:E; [eauto|].
  apply list_remove_pk_None in E. rewrite Forall_forall in E.
  by destruct (E x Hx).
Qed.

Lemma cancel_order_unknown oid b st :
  order_lookup b !! oid = None → cancel_order oid b st = (Ok false, b, st).
Proof. intros H. unfold cancel_order. by rewrite H. Qed.

Lemma cancel_order_bid oid b st p l o l' :
  order_lookup b !! oid = Some (p, 1) → bids b !! p = Some l →
  list_remove_pk oid l = Some (o, l') →
  cancel_order oid b st
  = (Ok true, remove_bid p oid l' b, snd (Order_save (cancelled o) st)).
Proof.
  intros Hlk Hl Hr. unfold cancel_order. rewrite Hlk. cbn. by rewrite Hl, Hr.
Qed.

Lemma cancel_order_ask oid b st p l o l' :
  order_lookup b !! oid = Some (p, -1) → asks b !! p = Some l →
  list_remove_pk oid l = Some (o, l') →
  cancel_order oid b st
  = (Ok true, remove_ask p oid l' b, snd (Order_save (cancelled o) st)).
Proof.
  intros Hlk Hl Hr. unfold cancel_order. rewrite Hlk. cbn. by rewrite Hl, Hr.
Qed.

(** In a well-formed book an id without an entry in [order_lookup] is the
    id of no resting order. *)
Lemma book_wf_not_in_book oid b :
  book_wf b → order_lookup b !! oid = None → not_in_book oid b.
Proof.
  intros (Hb & Ha & _) Hnone. split; [done|].
  split; intros p l Hl; apply Forall_forall; intros x Hx E.
  - pose proof (levels_wf_lookup_agree _ _ _ _ _ x Hb Hl Hx) as H.
    rewrite E in H. congruence.
  - pose proof (levels_wf_lookup_agree _ _ _ _ _ x Ha Hl Hx) as H.
    rewrite E in H. congruence.
Qed.

(** [cancel_order] on an order resting in a well-formed book: it succeeds,
    takes exactly that order out, writes it as cancelled with its remaining
    quantity as it was, and leaves a well-formed book. *)
Lemma cancel_order_resting oid b st p s :
  book_wf b → order_lookup b !! oid = Some (p, s) →
  ∃ o b',
    cancel_order oid b st = (Ok true, b', snd (Order_save (cancelled o) st))
    ∧ order_id o = oid ∧ price o = p ∧ 0 < remaining_quantity o
    ∧ (s = 1 ∧ rests_in (bids b) oid p ∨ s = -1 ∧ rests_in (asks b) oid p)
    ∧ book_wf b' ∧ not_in_book oid b'.
Proof.
  intros Hwf Hlk. pose proof Hwf as (Hb & Ha & _ & _ & _ & _ & Hlwf).
  destruct (Hlwf oid p s Hlk) as [[-> Hr]|[-> Hr]].
  - pose proof Hr as (l & x & Hl & Hx & Hid & Hp).
    destruct (list_remove_pk_Some oid l x Hx Hid) as [[o l'] Hrm].
    pose proof (list_remove_pk_spec _ _ _ _ Hrm)
      as (Hido & Ho & _ & l1 & l2 & -> & -> & _).
    destruct (level_wf_member _ _ _ _ o (Hb _ _ Hl) Ho) as (Hpo & HRo & _).
    exists o, (remove_bid p oid (l1 ++ l2) b).
    rewrite (cancel_order_bid oid b st p _ o _ Hlk Hl Hrm).
    assert (book_wf (remove_bid p oid (l1 ++ l2) b)) as Hwf'.
    { rewrite <- Hido. by apply book_wf_remove_bid. }
    split; [done|]. do 3 (split; [done|]). split; [by left|].
    split; [done|].
    apply book_wf_not_in_book; [done|].
    destruct (fields_remove_bid p oid (l1 ++ l2) b) as (_ & _ & _ & -> & _).
    apply lookup_delete_eq.
  - pose proof Hr as (l & x & Hl & Hx & Hid & Hp).
    destruct (list_remove_pk_Some oid l x Hx Hid) as [[o l'] Hrm].
    pose proof (list_remove_pk_spec _ _ _ _ Hrm)
      as (Hido & Ho & _ & l1 & l2 & -> & -> & _).
    destruct (level_wf_member _ _ _ _ o (Ha _ _ Hl) Ho) as (Hpo & HRo & _).
    exists o, (remove_ask p oid (l1 ++ l2) b).
    rewrite (cancel_order_ask oid b st p _ o _ Hlk Hl Hrm).
    assert (book_wf (remove_ask p oid (l1 ++ l2) b)) as Hwf'.
    { rewrite <- Hido. by apply book_wf_remove_ask. }
    split; [done|]. do 3 (split; [done|]). split; [by right|].
    split; [done|].
    apply book_wf_not_in_book; [done|].
    destruct (fields_remove_ask p oid (l1 ++ l2) b) as (_ & _ & _ & -> & _).
    apply lookup_delete_eq.
Qed.

(** [cancel_order] keeps a well-formed book well formed, whatever the id. *)
Lemma cancel_order_wf oid b st r b' st' :
  book_wf b → cancel_order oid b st = (r, b', st') → book_wf b'.
Proof.
  intros Hwf Hc. destruct (order_lookup b !! oid) as [[p s]|] eqn:Hlk.
  - destruct (cancel_order_resting oid b st p s Hwf Hlk)
      as (o & b1 & Hc1 & _ & _ & _ & _ & Hwf1 & _).
    rewrite Hc1 in Hc. by injection Hc as <- <- <-.
  - rewrite cancel_order_unknown in Hc by done. by injection Hc as <- <- <-.
Qed.

(** In a list without two orders of one id, an id names one order. *)
Lemma NoDup_order_id_eq (l : list Order) x y :
  NoDup (order_id <$> l) → x ∈ l → y ∈ l → order_id x = order_id y → x = y.
Proof.
  induction l as [|z l IH]; intros Hnd Hx Hy Hid; [by apply elem_of_nil in Hx|].
  rewrite fmap_cons in Hnd. apply NoDup_cons in Hnd as [Hz Hnd].
  apply elem_of_cons in Hx as [->|Hx]; apply elem_of_cons in Hy as [->|Hy].
  - done.
  - exfalso. apply Hz. rewrite Hid. apply list_elem_of_fmap. by exists y.
  - exfalso. apply Hz. rewrite <- Hid. apply list_elem_of_fmap. by exists x.
  - by apply IH.
Qed.

(** [cancel_order] on the instance [o] that rests in a well-formed book
    under this id: it is that instance which is written, as cancelled. *)
Lemma cancel_order_instance oid b st p s l o :
  book_wf b → order_lookup b !! oid = Some (p, s) →
  (if s =? 1 then bids b else asks b) !! p = Some l →
  o ∈ l → order_id o = oid →
  ∃ b',
    cancel_order oid b st = (Ok true, b', snd (Order_save (cancelled o) st))
    ∧ price o = p ∧ 0 < remaining_quantity o
    ∧ book_wf b' ∧ not_in_book oid b'.
Proof.
  intros Hwf Hlk Hl Ho Hid.
  destruct (cancel_order_resting oid b st p s Hwf Hlk)
    as (o0 & b' & Hc & Hid0 & Hp0 & HR0 & _ & Hwf' & Hnot).
  pose proof Hwf as (Hb & Ha & _).
  destruct (list_remove_pk_Some oid l o Ho Hid) as [[o1 l'] Hrm].
  pose proof (list_remove_pk_spec _ _ _ _ Hrm) as (Hid1 & Ho1 & _).
  assert (o1 = o ∧ ∃ b1, cancel_order oid b st
            = (Ok true, b1, snd (Order_save (cancelled o1) st)))
    as [-> [b1 Hc1]].
  { destruct (s =? 1) eqn:Es.
    - apply Z.eqb_eq in Es. subst s.
      destruct (Hb _ _ Hl) as (_ & _ & Hnd & _). split.
      + apply (NoDup_order_id_eq l); [done..|congruence].
      + eexists. exact (cancel_order_bid oid b st p l o1 l' Hlk Hl Hrm).
    - destruct (Ha _ _ Hl) as (_ & _ & Hnd & _). split.
      + apply (NoDup_order_id_eq l); [done..|congruence].
      + exists (remove_ask p oid l' b).
        unfold cancel_order. rewrite Hlk. cbn. by rewrite Es, Hl, Hrm. }
  assert ((Order_save (cancelled o0) st).2 = (Order_save (cancelled o) st).2)
    as Hst by congruence.
  exists b'. split.
  { rewrite Hc. f_equal. exact Hst. }
  assert (price o = p ∧ 0 < remaining_quantity o) as [Hp HR].
  { destruct (s =? 1).
    - destruct (level_wf_member _ _ _ _ o (Hb _ _ Hl) Ho) as (? & ? & _).
      done.
    - destruct (level_wf_member _ _ _ _ o (Ha _ _ Hl) Ho) as (? & ? & _).
      done. }
  done.
Qed.

(** C5, as amended.  Take a well-formed book of persisted orders, an order
    whose row is active with a status other than FILLED and CANCELLED, and
    the instance [o] of that order resting in the book, in the level that
    [order_lookup] names.  The cancel command answers 200; afterwards the order's row has
    status CANCELLED and [is_active] false, the order is in the book no
    more (neither in [order_lookup] nor in any level), the book is still
    well formed, and the row's remaining, traded and total quantity are
    those of the resting instance: the remaining quantity, which is
    positive, is left as it was and not set to 0. *)
Theorem cancel_command_on_resting_order pk w row p s l o :
  book_wf (book w) → book_persisted (book w) (store w) →
  Order_objects_get pk (store w) = Some row →
  is_active row = true → status row ≠ FILLED → status row ≠ CANCELLED →
  order_lookup (book w) !! pk = Some (p, s) →
  (if s =? 1 then bids (book w) else asks (book w)) !! p = Some l →
  o ∈ l → order_id o = pk →
  ∃ resp w' row',
    destroy pk w = (resp, w')
    ∧ http_status resp = 200
    ∧ Order_objects_get pk (store w') = Some row'
    ∧ status row' = CANCELLED
    ∧ is_active row' = false
    ∧ remaining_quantity row' = remaining_quantity o
    ∧ 0 < remaining_quantity o
    ∧ traded_quantity row' = traded_quantity o
    ∧ quantity row' = quantity o
    ∧ not_in_book pk (book w')
    ∧ book_wf (book w').
Proof.
  intros Hwf _ Hget Hact Hnf Hnc Hlk Hl Ho Hido.
  pose proof (Order_objects_get_In _ _ _ Hget) as [_ Hid].
  destruct (cancel_order_instance pk (book w) (store w) p s l o
              Hwf Hlk Hl Ho Hido)
    as (b' & Hc & Hpo & HRo & Hwf' & Hnot).
  unfold destroy. rewrite Hget, Hact.
  assert (status_in (status row) [FILLED; CANCELLED] = false) as ->
    by (by destruct (status row)).
  cbn [negb orb]. rewrite Hid, Hc.
  eexists _, _, _. split; [reflexivity|].
  cbn [http_status book store].
  split; [done|].
  split.
  { unfold Order_save. cbn [snd]. rewrite <- Hido.
    apply (Order_objects_get_upsert
             (to_row (set_updated_at (clock (store w)) (cancelled o)))). }
  do 6 (split; [done|]). split; [exact Hnot|exact Hwf'].
Qed.

Lemma ex_world_one_ask_wf : book_wf (book ex_world_one_ask).
Proof.
  apply book_wf_add_sell; [apply book_wf_empty|done|done|done].
Qed.

(** The resting order has its row. *)
Lemma ex_world_one_ask_persisted :
  book_persisted (book ex_world_one_ask) (store ex_world_one_ask).
Proof.
  unfold ex_world_one_ask. cbn [book store]. split.
  - rewrite bids_add_sell_order. apply levels_sat_empty.
  - rewrite asks_add_sell_order.
    apply levels_sat_append; [apply levels_sat_empty|].
    split; [by eexists|storable_by_compute].
Qed.

Lemma ex_world_one_ask_reached :
  (λ w, (bids (book w), asks (book w), order_lookup (book w),
         best_bid (book w), best_ask (book w), store w, pending w))
    <$> ex_world_resting_sell
  = Some (bids (book ex_world_one_ask), asks (book ex_world_one_ask),
          order_lookup (book ex_world_one_ask),
          best_bid (book ex_world_one_ask), best_ask (book ex_world_one_ask),
          store ex_world_one_ask, pending ex_world_one_ask).
Proof. vm_compute. reflexivity. Qed.

Lemma cancel_command_on_resting_order_witness :
  book_wf (book ex_world_one_ask)
  ∧ book_persisted (book ex_world_one_ask) (store ex_world_one_ask)
  ∧ ∃ resp w' row',
      destroy 100 ex_world_one_ask = (resp, w')
      ∧ http_status resp = 200
      ∧ Order_objects_get 100 (store w') = Some row'
      ∧ status row' = CANCELLED
      ∧ is_active row' = false
      ∧ remaining_quantity row' = remaining_quantity ex_ask
      ∧ 0 < remaining_quantity ex_ask
      ∧ traded_quantity row' = traded_quantity ex_ask
      ∧ quantity row' = quantity ex_ask
      ∧ not_in_book 100 (book w')
      ∧ book_wf (book w').
Proof.
  split; [exact ex_world_one_ask_wf|].
  split; [exact ex_world_one_ask_persisted|].
  apply (cancel_command_on_resting_order 100 ex_world_one_ask ex_ask
           10100 (-1) [ex_ask] ex_ask).
  - exact ex_world_one_ask_wf.
  - exact ex_world_one_ask_persisted.
  - reflexivity.
  - reflexivity.
  - discriminate.
  - discriminate.
  - vm_compute. reflexivity.
  - vm_compute. reflexivity.
  - by left.
  - reflexivity.
Defined.

(** C5, counterexample.  SELL 5 @ 101.00 rests, untouched, and is
    cancelled: the command answers 200, the row is CANCELLED and inactive,
    and its remaining quantity is still 5. *)
Lemma cancel_keeps_remaining_counterexample :
  http_status (fst (destroy 100 ex_world_one_ask)) = 200
  ∧ (status <$> Order_objects_get 100 (store (snd (destroy 100 ex_world_one_ask))))
    = Some CANCELLED
  ∧ (is_active
       <$> Order_objects_get 100 (store (snd (destroy 100 ex_world_one_ask))))
    = Some false
  ∧ (remaining_quantity
       <$> Order_objects_get 100 (store (snd (destroy 100 ex_world_one_ask))))
    = Some 5
  ∧ order_lookup (book (snd (destroy 100 ex_world_one_ask))) !! 100 = None.
Proof. repeat split; vm_compute; reflexivity. Qed.

Lemma trade_price_is_resting_price_witness :
  book_keyed (book ex_world_one_ask)
  ∧ _match_buy_order ex_buy (book ex_world_one_ask) (store ex_world_one_ask)
    = Some (Ok [mkTrade 101 10100 5 101 100 1 1 false None],
            fill_fields 5 10100 1 ex_buy,
            pop_ask 10100 ex_ask [] (book ex_world_one_ask),
            step_store (mkTrade 101 10100 5 101 100 1 1 false None)
              (fill_fields 5 10100 1 ex_buy) (fill_fields 5 10100 1 ex_ask)
              (store ex_world_one_ask))
  ∧ Forall (λ t, bid_order t = order_id ex_buy
                 ∧ rests_in (asks (book ex_world_one_ask)) (ask_order t)
                     (trade_price t))
      [mkTrade 101 10100 5 101 100 1 1 false None].
Proof.
  assert (book_keyed (book ex_world_one_ask)) as Hk.
  { destruct ex_world_one_ask_wf as (Hb & Ha & _).
    split; intros p l Hl; apply Forall_forall; intros x Hx.
    - by destruct (level_wf_member _ _ _ _ x (Hb p l Hl) Hx).
    - by destruct (level_wf_member _ _ _ _ x (Ha p l Hl) Hx). }
  assert (_match_buy_order ex_buy (book ex_world_one_ask)
            (store ex_world_one_ask)
    = Some (Ok [mkTrade 101 10100 5 101 100 1 1 false None],
            fill_fields 5 10100 1 ex_buy,
            pop_ask 10100 ex_ask [] (book ex_world_one_ask),
            step_store (mkTrade 101 10100 5 101 100 1 1 false None)
              (fill_fields 5 10100 1 ex_buy) (fill_fields 5 10100 1 ex_ask)
              (store ex_world_one_ask))) as Hm
    by (vm_compute; reflexivity).
  split; [exact Hk|]. split; [exact Hm|].
  exact (proj1 (trade_price_is_resting_price ex_buy (book ex_world_one_ask)
                  (store ex_world_one_ask) Hk) _ _ _ _ Hm).
Defined.

(* ===================================================================== *)
(** ** Matching in a well-formed book *)
(* ===================================================================== *)

(** The cached best ask of a well-formed book is the price of a level, and
    that level has a head. *)
Lemma book_wf_best_ask b pa :
  book_wf b → best_ask b = Some pa →
  ∃ Y rest, asks b !! pa = Some (Y :: rest)
            ∧ pa ≠ 0 ∧ price Y = pa ∧ 0 < remaining_quantity Y
            ∧ order_lookup b !! order_id Y = Some (pa, -1)
            ∧ ∀ p, p ∈ dom (asks b) → pa <= p.
Proof.
  intros (_ & Ha & _ & Hap & _ & Hba & _) Hbest.
  rewrite Hba in Hbest. apply set_min_Some in Hbest as [Hin Hle].
  rewrite Hap in Hin, Hle. apply elem_of_dom in Hin as [l Hl].
  destruct (Ha pa l Hl) as (Hne & Hp & _ & HF).
  destruct l as [|Y rest]; [done|].
  apply Forall_cons in HF as [(? & ? & ?) _].
  exists Y, rest. by repeat split.
Qed.

Lemma book_wf_best_bid b pb :
  book_wf b → best_bid b = Some pb →
  ∃ Y rest, bids b !! pb = Some (Y :: rest)
            ∧ pb ≠ 0 ∧ price Y = pb ∧ 0 < remaining_quantity Y
            ∧ order_lookup b !! order_id Y = Some (pb, 1)
            ∧ ∀ p, p ∈ dom (bids b) → p <= pb.
Proof.
  intros (Hb & _ & Hbp & _ & Hbb & _ & _) Hbest.
  rewrite Hbb in Hbest. apply set_max_Some in Hbest as [Hin Hle].
  rewrite Hbp in Hin, Hle. apply elem_of_dom in Hin as [l Hl].
  destruct (Hb pb l Hl) as (Hne & Hp & _ & HF).
  destruct l as [|Y rest]; [done|].
  apply Forall_cons in HF as [(? & ? & ?) _].
  exists Y, rest. by repeat split.
Qed.

(** The book after an iteration that trades. *)
Lemma buy_trade_result_wf X b st pa Y rest :
  book_wf b → best_ask b = Some pa → buy_crosses X pa →
  asks b !! pa = Some (Y :: rest) →
  let q := Z.min (remaining_quantity X) (remaining_quantity Y) in
  let X' := fill_fields q pa (clock st) X in
  let Y' := fill_fields q pa (clock st) Y in
  let b' := if remaining_quantity Y - q =? 0 then pop_ask pa Y rest b
            else set_asks (<[pa := Y' :: rest]> (asks b)) b in
  0 < q
  ∧ buy_trade_result X b st pa Y rest
    = StepTrade (step_trade pa q X Y st) X' b'
        (step_store (step_trade pa q X Y st) X' Y' st)
  ∧ book_wf b'.
Proof.
  intros Hwf Hbest Hc Has q X' Y' b'.
  destruct (book_wf_best_ask b pa Hwf Hbest)
    as (Y0 & rest0 & Has0 & _ & HpY & HRY & HlY & _).
  rewrite Has in Has0. injection Has0 as <- <-.
  destruct Hc as (HRX & _ & _).
  split; [unfold q; lia|].
  unfold buy_trade_result, b'. fold q. fold X'. fold Y'.
  destruct (remaining_quantity Y - q =? 0) eqn:E.
  - rewrite HlY. split; [done|]. by apply book_wf_pop_ask.
  - split; [done|]. apply (book_wf_refill_ask pa Y Y' rest b); try done.
    unfold Y', fill_fields. cbn. unfold q in *. lia.
Qed.

Lemma sell_trade_result_wf X b st pb Y rest :
  book_wf b → best_bid b = Some pb → sell_crosses X pb →
  bids b !! pb = Some (Y :: rest) →
  let q := Z.min (remaining_quantity X) (remaining_quantity Y) in
  let X' := fill_fields q pb (clock st) X in
  let Y' := fill_fields q pb (clock st) Y in
  let b' := if remaining_quantity Y - q =? 0 then pop_bid pb Y rest b
            else set_bids (<[pb := Y' :: rest]> (bids b)) b in
  0 < q
  ∧ sell_trade_result X b st pb Y rest
    = StepTrade (step_trade pb q Y X st) X' b'
        (step_store (step_trade pb q Y X st) X' Y' st)
  ∧ book_wf b'.
Proof.
  intros Hwf Hbest Hc Hbs q X' Y' b'.
  destruct (book_wf_best_bid b pb Hwf Hbest)
    as (Y0 & rest0 & Hbs0 & _ & HpY & HRY & HlY & _).
  rewrite Hbs in Hbs0. injection Hbs0 as <- <-.
  destruct Hc as (HRX & _ & _).
  split; [unfold q; lia|].
  unfold sell_trade_result, b'. fold q. fold X'. fold Y'.
  destruct (remaining_quantity Y - q =? 0) eqn:E.
  - rewrite HlY. split; [done|]. by apply book_wf_pop_bid.
  - split; [done|]. apply (book_wf_refill_bid pb Y Y' rest b); try done.
    unfold Y', fill_fields. cbn. unfold q in *. lia.
Qed.

(** In a well-formed book an iteration either leaves the loop or trades. *)
Lemma match_buy_step_wf X b st :
  book_wf b →
  (_match_buy_step X b st = StepExit
   ∧ ∀ pa, best_ask b = Some pa → ¬ buy_crosses X pa)
  ∨ ∃ pa Y rest,
      best_ask b = Some pa ∧ buy_crosses X pa
      ∧ asks b !! pa = Some (Y :: rest)
      ∧ _match_buy_step X b st = buy_trade_result X b st pa Y rest.
Proof.
  intros Hwf. destruct (match_buy_step_cases X b st)
    as [H|[(pa & Hb & Hc & He & _)|H]]; [by left| |by right].
  destruct (book_wf_best_ask b pa Hwf Hb) as (Y & rest & Has & _).
  by rewrite Has in He.
Qed.

Lemma match_sell_step_wf X b st :
  book_wf b →
  (_match_sell_step X b st = StepExit
   ∧ ∀ pb, best_bid b = Some pb → ¬ sell_crosses X pb)
  ∨ ∃ pb Y rest,
      best_bid b = Some pb ∧ sell_crosses X pb
      ∧ bids b !! pb = Some (Y :: rest)
      ∧ _match_sell_step X b st = sell_trade_result X b st pb Y rest.
Proof.
  intros Hwf. destruct (match_sell_step_cases X b st)
    as [H|[(pb & Hb & Hc & He & _)|H]]; [by left| |by right].
  destruct (book_wf_best_bid b pb Hwf Hb) as (Y & rest & Hbs & _).
  by rewrite Hbs in He.
Qed.

(** A loop whose iterations never raise under an invariant ends normally,
    with the invariant, on an iteration that leaves the loop. *)
Lemma match_loop_ok step
    (I : Order → OrderBook → Store → list Trade → Prop) :
  (∀ X b st ts, I X b st ts →
     match step X b st with
     | StepExit => True
     | StepSkip b' => I X b' st ts
     | StepTrade t X' b' st' => I X' b' st' (ts ++ [t])
     | StepRaise e X' b' st' => False
     end) →
  ∀ fuel X b st ts r X' b' st',
    I X b st ts →
    match_loop step fuel X b st ts = Some (r, X', b', st') →
    ∃ ts', r = Ok ts' ∧ I X' b' st' ts' ∧ step X' b' st' = StepExit.
Proof.
  intros Hstep. induction fuel as [|fuel IH]; intros X b st ts r X' b' st' HI;
    simpl; [discriminate|].
  specialize (Hstep X b st ts HI).
  destruct (step X b st) as [|b1|t X1 b1 st1|e X1 b1 st1] eqn:Es.
  - intros [= <- <- <- <-]. by exists ts.
  - intros H. eapply IH; [exact Hstep|exact H].
  - intros H. eapply IH; [exact Hstep|exact H].
  - done.
Qed.

Lemma book_wf_set_metrics n m b : book_wf b → book_wf (set_metrics n m b).
Proof. intros H. exact H. Qed.

(** What a buy match leaves alone, and what it keeps. *)
Lemma match_buy_step_keeps X X1 b b1 st1 :
  let I := λ (X1 : Order) (b1 : OrderBook),
    book_wf b1 ∧ order_id X1 = order_id X ∧ price X1 = price X
    ∧ remaining_quantity X1 <= remaining_quantity X
    ∧ bids b1 = bids b
    ∧ ∀ oid, order_lookup b !! oid = None → order_lookup b1 !! oid = None in
  I X1 b1 →
  match _match_buy_step X1 b1 st1 with
  | StepExit => True
  | StepSkip b' => I X1 b'
  | StepTrade t X' b' st' => I X' b'
  | StepRaise e X' b' st' => False
  end.
Proof.
  intros I (Hwf & Hid & Hp & HR & Hbids & Hlk).
  destruct (match_buy_step_wf X1 b1 st1 Hwf)
    as [[-> _]|(pa & Y & rest & Hb & Hc & Has & ->)]; [done|].
  destruct (buy_trade_result_wf X1 b1 st1 pa Y rest Hwf Hb Hc Has)
    as (Hq & -> & Hwf').
  split; [done|]. do 2 (split; [done|]).
  split; [unfold fill_fields; cbn; lia|].
  destruct (_ =? 0).
  - rewrite bids_pop_ask, order_lookup_pop_ask. split; [done|].
    intros oid Hoid. rewrite lookup_delete. case_decide; [done|by apply Hlk].
  - split; [exact Hbids|exact Hlk].
Qed.

Lemma match_buy_order_wf X b st :
  book_wf b →
  ∃ trades X' b' st',
    _match_buy_order X b st = Some (Ok trades, X', b', st')
    ∧ book_wf b'
    ∧ (∀ pa, best_ask b' = Some pa → ¬ buy_crosses X' pa)
    ∧ order_id X' = order_id X ∧ price X' = price X
    ∧ remaining_quantity X' <= remaining_quantity X
    ∧ bids b' = bids b
    ∧ (∀ oid, order_lookup b !! oid = None → order_lookup b' !! oid = None).
Proof.
  intros Hwf. unfold _match_buy_order.
  set (fuel := match_fuel X (asks b)).
  assert (is_Some (match_loop _match_buy_step fuel X b st [])) as [res Hres].
  { apply (match_loop_ends _ (λ _ b, book_wf b));
      [|done|unfold fuel, match_fuel; lia].
    clear. intros X b st Hwf.
    destruct (match_buy_step_wf X b st Hwf)
      as [[-> _]|(pa & Y & rest & Hb & Hc & Has & ->)]; [done|].
    destruct (buy_trade_result_wf X b st pa Y rest Hwf Hb Hc Has)
      as (Hq & -> & Hwf').
    split; [done|]. unfold fill_fields. cbn. destruct Hc. lia. }
  destruct res as [[[r X'] b'] st']. rewrite Hres.
  destruct (match_loop_ok _match_buy_step
    (λ X1 b1 _ _, book_wf b1 ∧ order_id X1 = order_id X
                  ∧ price X1 = price X
                  ∧ remaining_quantity X1 <= remaining_quantity X
                  ∧ bids b1 = bids b
                  ∧ ∀ oid, order_lookup b !! oid = None →
                           order_lookup b1 !! oid = None)
    (λ X1 b1 st1 _ H, match_buy_step_keeps X X1 b b1 st1 H)
    fuel X b st [] r X' b' st'
    (conj Hwf (conj eq_refl (conj eq_refl (conj (Z.le_refl _)
       (conj eq_refl (λ _ H, H)))))) Hres)
    as (ts' & -> & (Hwf' & Hid & Hp & HR & Hbids & Hlk) & Hexit).
  exists ts', X', b', st'. split; [done|]. split; [done|].
  split; [|by repeat split].
  destruct (match_buy_step_wf X' b' st' Hwf')
    as [[_ H]|(pa & Y & rest & Hb & Hc & Has & Heq)]; [done|].
  destruct (buy_trade_result_wf X' b' st' pa Y rest Hwf' Hb Hc Has)
    as (_ & Hr & _). congruence.
Qed.

(** What a sell match leaves alone, and what it keeps. *)
Lemma match_sell_step_keeps X X1 b b1 st1 :
  let I := λ (X1 : Order) (b1 : OrderBook),
    book_wf b1 ∧ order_id X1 = order_id X ∧ price X1 = price X
    ∧ remaining_quantity X1 <= remaining_quantity X
    ∧ asks b1 = asks b
    ∧ ∀ oid, order_lookup b !! oid = None → order_lookup b1 !! oid = None in
  I X1 b1 →
  match _match_sell_step X1 b1 st1 with
  | StepExit => True
  | StepSkip b' => I X1 b'
  | StepTrade t X' b' st' => I X' b'
  | StepRaise e X' b' st' => False
  end.
Proof.
  intros I (Hwf & Hid & Hp & HR & Hbids & Hlk).
  destruct (match_sell_step_wf X1 b1 st1 Hwf)
    as [[-> _]|(pa & Y & rest & Hb & Hc & Has & ->)]; [done|].
  destruct (sell_trade_result_wf X1 b1 st1 pa Y rest Hwf Hb Hc Has)
    as (Hq & -> & Hwf').
  split; [done|]. do 2 (split; [done|]).
  split; [unfold fill_fields; cbn; lia|].
  destruct (_ =? 0).
  - rewrite asks_pop_bid, order_lookup_pop_bid. split; [done|].
    intros oid Hoid. rewrite lookup_delete. case_decide; [done|by apply Hlk].
  - split; [exact Hbids|exact Hlk].
Qed.

Lemma match_sell_order_wf X b st :
  book_wf b →
  ∃ trades X' b' st',
    _match_sell_order X b st = Some (Ok trades, X', b', st')
    ∧ book_wf b'
    ∧ (∀ pb, best_bid b' = Some pb → ¬ sell_crosses X' pb)
    ∧ order_id X' = order_id X ∧ price X' = price X
    ∧ remaining_quantity X' <= remaining_quantity X
    ∧ asks b' = asks b
    ∧ (∀ oid, order_lookup b !! oid = None → order_lookup b' !! oid = None).
Proof.
  intros Hwf. unfold _match_sell_order.
  set (fuel := match_fuel X (bids b)).
  assert (is_Some (match_loop _match_sell_step fuel X b st [])) as [res Hres].
  { apply (match_loop_ends _ (λ _ b, book_wf b));
      [|done|unfold fuel, match_fuel; lia].
    clear. intros X b st Hwf.
    destruct (match_sell_step_wf X b st Hwf)
      as [[-> _]|(pa & Y & rest & Hb & Hc & Has & ->)]; [done|].
    destruct (sell_trade_result_wf X b st pa Y rest Hwf Hb Hc Has)
      as (Hq & -> & Hwf').
    split; [done|]. unfold fill_fields. cbn. destruct Hc. lia. }
  destruct res as [[[r X'] b'] st']. rewrite Hres.
  destruct (match_loop_ok _match_sell_step
    (λ X1 b1 _ _, book_wf b1 ∧ order_id X1 = order_id X
                  ∧ price X1 = price X
                  ∧ remaining_quantity X1 <= remaining_quantity X
                  ∧ asks b1 = asks b
                  ∧ ∀ oid, order_lookup b !! oid = None →
                           order_lookup b1 !! oid = None)
    (λ X1 b1 st1 _ H, match_sell_step_keeps X X1 b b1 st1 H)
    fuel X b st [] r X' b' st'
    (conj Hwf (conj eq_refl (conj eq_refl (conj (Z.le_refl _)
       (conj eq_refl (λ _ H, H)))))) Hres)
    as (ts' & -> & (Hwf' & Hid & Hp & HR & Hbids & Hlk) & Hexit).
  exists ts', X', b', st'. split; [done|]. split; [done|].
  split; [|by repeat split].
  destruct (match_sell_step_wf X' b' st' Hwf')
    as [[_ H]|(pa & Y & rest & Hb & Hc & Has & Heq)]; [done|].
  destruct (sell_trade_result_wf X' b' st' pa Y rest Hwf' Hb Hc Has)
    as (_ & Hr & _). congruence.
Qed.

(* ===================================================================== *)
(** ** _load_matching_orders and add_order in a well-formed book *)
(* ===================================================================== *)

Lemma load_one_wf b r :
  book_wf b → price r ≠ 0 → 0 < remaining_quantity r →
  book_wf (load_one b r).
Proof.
  intros Hwf Hp HR. unfold load_one.
  destruct (order_lookup b !! order_id r) eqn:E; [done|].
  destruct (side r =? 1);
    [by apply book_wf_add_buy|by apply book_wf_add_sell].
Qed.

Lemma load_one_lookup_other b r oid :
  oid ≠ order_id r →
  order_lookup (load_one b r) !! oid = order_lookup b !! oid.
Proof.
  intros Hne. unfold load_one.
  destruct (order_lookup b !! order_id r) eqn:E; [done|].
  destruct (side r =? 1).
  - rewrite order_lookup_add_buy_order. by rewrite lookup_insert_ne.
  - rewrite order_lookup_add_sell_order. by rewrite lookup_insert_ne.
Qed.

Lemma load_one_sell_side b r :
  side r ≠ 1 → bids (load_one b r) = bids b.
Proof.
  intros Hs. unfold load_one.
  destruct (order_lookup b !! order_id r); [done|].
  destruct (side r =? 1) eqn:E; [lia|]. apply bids_add_sell_order.
Qed.

Lemma load_one_buy_side b r :
  side r = 1 → asks (load_one b r) = asks b.
Proof.
  intros Hs. unfold load_one.
  destruct (order_lookup b !! order_id r); [done|].
  destruct (side r =? 1) eqn:E; [|lia]. apply asks_add_buy_order.
Qed.

(** Loading keeps the book well formed, does not bring in the incoming
    order, and leaves the incoming order's own side alone. *)
Lemma load_matching_orders_wf X b st :
  book_wf b → Forall loadable (orders_tbl st) →
  book_wf (_load_matching_orders X b st)
  ∧ order_lookup (_load_matching_orders X b st) !! order_id X
    = order_lookup b !! order_id X
  ∧ (if side X =? 1 then bids (_load_matching_orders X b st) = bids b
     else asks (_load_matching_orders X b st) = asks b).
Proof.
  intros Hwf Hrows. unfold _load_matching_orders.
  assert (Forall (λ r, price r ≠ 0 ∧ 0 < remaining_quantity r
                       ∧ order_id r ≠ order_id X
                       ∧ (if side X =? 1 then side r = -1 else side r = 1))
            (matching_rows X st)) as Hm.
  { apply Forall_forall. intros r Hr.
    apply matching_rows_spec in Hr as (Hin & Hact & Hlive & Hid & Hside).
    rewrite Forall_forall in Hrows.
    destruct (Hrows r Hin Hact Hlive). repeat split; try done.
    destruct (side X =? 1); by destruct Hside. }
  revert b Hwf. induction Hm as [|r rs (Hp & HR & Hid & Hs) Hrs IH];
    intros b Hwf; simpl.
  - split; [done|]. split; [done|]. by destruct (side X =? 1).
  - destruct (IH (load_one b r) (load_one_wf b r Hwf Hp HR))
      as (Hwf' & Hlk & Hside).
    split; [done|]. split.
    + rewrite Hlk. apply load_one_lookup_other. congruence.
    + destruct (side X =? 1).
      * rewrite Hside. apply load_one_sell_side. lia.
      * rewrite Hside. by apply load_one_buy_side.
Qed.

(** [add_order] for a buy order in a well-formed book. *)
Lemma add_order_buy_wf X b st :
  side X = 1 → book_wf b → Forall loadable (orders_tbl st) →
  price X ≠ 0 → order_lookup b !! order_id X = None →
  ∃ trades X' b' st',
    add_order X b st = Some (trades, X', b', st')
    ∧ book_wf b'
    ∧ (∀ pa, best_ask b' = Some pa → ¬ buy_crosses X' pa)
    ∧ order_id X' = order_id X ∧ price X' = price X
    ∧ (0 < remaining_quantity X' →
         bids b' !! price X = Some (default [] (bids b !! price X) ++ [X'])
         ∧ order_lookup b' !! order_id X = Some (price X, 1))
    ∧ (remaining_quantity X' <= 0 →
         not_in_book (order_id X) b' ∧ bids b' = bids b).
Proof.
  intros Hs Hwf Hrows Hp Hfresh. unfold add_order.
  destruct (load_matching_orders_wf X b st Hwf Hrows) as (Hwf1 & Hlk1 & Hb1).
  set (b1 := _load_matching_orders X b st) in *.
  rewrite Hs in *. cbn [Z.eqb Pos.eqb] in *.
  destruct (match_buy_order_wf X b1 st Hwf1)
    as (ts & X' & b2 & st2 & -> & Hwf2 & Hexit & Hid & Hpr & HR & Hb2 & Hlk2).
  assert (order_lookup b2 !! order_id X' = None) as Hfresh2
    by (rewrite Hid; apply Hlk2; by rewrite Hlk1).
  eexists ts, X', _, st2. split; [reflexivity|].
  destruct (remaining_quantity X' >? 0) eqn:E.
  - assert (book_wf (_add_buy_order X' b2)) as Hwf3
      by (apply book_wf_add_buy; [done|done|congruence|lia]).
    split; [by apply book_wf_set_metrics|].
    split.
    { intros pa. cbn [best_ask set_metrics].
      destruct (ask_side_add_buy_order X' b2) as [_ ->]. apply Hexit. }
    split; [done|]. split; [done|]. split; [|lia].
    intros _. cbn [bids order_lookup set_metrics].
    rewrite bids_add_buy_order, order_lookup_add_buy_order, Hpr, Hid, Hb2, Hb1.
    by rewrite !lookup_insert_eq.
  - split; [by apply book_wf_set_metrics|].
    split; [exact Hexit|]. split; [done|]. split; [done|].
    split; [lia|]. intros _. split.
    + rewrite <- Hid. by apply book_wf_not_in_book.
    + cbn [bids set_metrics]. by rewrite Hb2, Hb1.
Qed.

(** [add_order] for a sell order in a well-formed book. *)
Lemma add_order_sell_wf X b st :
  side X ≠ 1 → book_wf b → Forall loadable (orders_tbl st) →
  price X ≠ 0 → order_lookup b !! order_id X = None →
  ∃ trades X' b' st',
    add_order X b st = Some (trades, X', b', st')
    ∧ book_wf b'
    ∧ (∀ pb, best_bid b' = Some pb → ¬ sell_crosses X' pb)
    ∧ order_id X' = order_id X ∧ price X' = price X
    ∧ (0 < remaining_quantity X' →
         asks b' !! price X = Some (default [] (asks b !! price X) ++ [X'])
         ∧ order_lookup b' !! order_id X = Some (price X, -1))
    ∧ (remaining_quantity X' <= 0 →
         not_in_book (order_id X) b' ∧ asks b' = asks b).
Proof.
  intros Hs Hwf Hrows Hp Hfresh. unfold add_order.
  destruct (load_matching_orders_wf X b st Hwf Hrows) as (Hwf1 & Hlk1 & Hb1).
  set (b1 := _load_matching_orders X b st) in *.
  destruct (side X =? 1) eqn:Es; [lia|].
  destruct (match_sell_order_wf X b1 st Hwf1)
    as (ts & X' & b2 & st2 & -> & Hwf2 & Hexit & Hid & Hpr & HR & Hb2 & Hlk2).
  assert (order_lookup b2 !! order_id X' = None) as Hfresh2
    by (rewrite Hid; apply Hlk2; by rewrite Hlk1).
  eexists ts, X', _, st2. split; [reflexivity|].
  destruct (remaining_quantity X' >? 0) eqn:E.
  - assert (book_wf (_add_sell_order X' b2)) as Hwf3
      by (apply book_wf_add_sell; [done|done|congruence|lia]).
    split; [by apply book_wf_set_metrics|].
    split.
    { intros pb. cbn [best_bid set_metrics].
      destruct (bid_side_add_sell_order X' b2) as [_ ->]. apply Hexit. }
    split; [done|]. split; [done|]. split; [|lia].
    intros _. cbn [asks order_lookup set_metrics].
    rewrite asks_add_sell_order, order_lookup_add_sell_order, Hpr, Hid, Hb2, Hb1.
    by rewrite !lookup_insert_eq.
  - split; [by apply book_wf_set_metrics|].
    split; [exact Hexit|]. split; [done|]. split; [done|].
    split; [lia|]. intros _. split.
    + rewrite <- Hid. by apply book_wf_not_in_book.
    + cbn [asks set_metrics]. by rewrite Hb2, Hb1.
Qed.

(* ===================================================================== *)
(** ** The matching algorithm *)
(* ===================================================================== *)






(* ===================================================================== *)
(** ** The request handlers: what they accept and what they leave alone *)
(* ===================================================================== *)

Lemma serializer_side_Some s :
  s = "buy"%string ∨ s = "sell"%string →
  ∃ v, serializer_side s = Some v ∧ (v = 1 ∨ v = -1).
Proof. intros [-> | ->]; [exists 1|exists (-1)]; split; auto. Qed.

Lemma serializer_side_inv s v :
  serializer_side s = Some v → s = "buy"%string ∨ s = "sell"%string.
Proof.
  unfold serializer_side. destruct (String.eqb s "buy") eqn:E1.
  - apply String.eqb_eq in E1. auto.
  - destruct (String.eqb s "sell") eqn:E2; [|discriminate].
    apply String.eqb_eq in E2. auto.
Qed.

Lemma serializer_quantity_Some q :
  1 <= q <= 1000000 → serializer_quantity q = Some q.
Proof.
  intros Hq. unfold serializer_quantity.
  destruct ((1 <=? q) && (q <=? 1000000)) eqn:E; [done|lia].
Qed.

Lemma serializer_price_Some p c :
  two_place_price p c → 2 <= c < 10 ^ 10 → serializer_price p = Some c.
Proof. intros Hc Hr. by apply serializer_price_spec. Qed.

Lemma PlaceOrderSerializer_inv req s q p :
  PlaceOrderSerializer req = inl (s, q, p) →
  ∃ str pq,
    req_side req = Some str ∧ serializer_side str = Some s
    ∧ req_quantity req = Some q ∧ 1 <= q <= 1000000
    ∧ req_price req = Some pq ∧ serializer_price pq = Some p.
Proof.
  unfold PlaceOrderSerializer. intros H.
  destruct (req_side req) as [sd|], (req_quantity req) as [qq|],
    (req_price req) as [pp|]; cbn in H;
    repeat match type of H with
           | context [match ?x with _ => _ end] => destruct x eqn:?
           end; try discriminate.
  injection H as -> -> ->.
  match goal with
  | Hq : serializer_quantity _ = Some _ |- _ =>
      apply serializer_quantity_range in Hq as [-> Hq]
  end.
  by exists sd, pp.
Qed.

Lemma PlaceOrderSerializer_Some req str pq s q p :
  req_side req = Some str → serializer_side str = Some s →
  req_quantity req = Some q → serializer_quantity q = Some q →
  req_price req = Some pq → serializer_price pq = Some p →
  PlaceOrderSerializer req = inl (s, q, p).
Proof.
  intros H1 H2 H3 H4 H5 H6. unfold PlaceOrderSerializer.
  rewrite H1, H3, H5. cbn. by rewrite H2, H4, H6.
Qed.

Lemma validate_order_data_spec s q p :
  (s = 1 ∨ s = -1) → 1 <= q <= 1000000 → 1 <= p →
  (p <= 99999999 ∧ validate_order_data (s, q, p) = (true, ""%string))
  ∨ (99999999 < p ∧ ∃ msg, validate_order_data (s, q, p) = (false, msg)).
Proof.
  intros Hs Hq Hp. unfold validate_order_data.
  destruct (negb ((s =? 1) || (s =? -1))) eqn:E1; [lia|].
  destruct (negb ((0 <? q) && (q <=? 1000000))) eqn:E2; [lia|].
  destruct (negb ((0 <? p) && (p <=? 99999999))) eqn:E3.
  - right. split; [lia|eauto].
  - left. split; [lia|done].
Qed.

(** The three ways through [create]. *)
Lemma create_cases req w :
  (∃ errs, PlaceOrderSerializer req = inr errs
           ∧ http_status (create req w).1 = 400 ∧ (create req w).2 = w)
  ∨ (∃ s q p, PlaceOrderSerializer req = inl (s, q, p) ∧ 99999999 < p
              ∧ http_status (create req w).1 = 400 ∧ (create req w).2 = w)
  ∨ (∃ s q p, PlaceOrderSerializer req = inl (s, q, p) ∧ p <= 99999999
              ∧ http_status (create req w).1 = 201).
Proof.
  destruct (PlaceOrderSerializer req) as [[[s q] p]|errs] eqn:Hser.
  - destruct (PlaceOrderSerializer_valid _ _ _ _ Hser) as (Hs & Hq & Hp & _).
    destruct (validate_order_data_spec s q p Hs Hq ltac:(lia))
      as [[Hle Hv]|[Hgt [msg Hv]]].
    + right; right. exists s, q, p. split; [done|]. split; [done|].
      unfold create. rewrite Hser, Hv, Order_objects_create_spec.
      reflexivity.
    + right; left. exists s, q, p. split; [done|]. split; [done|].
      unfold create. by rewrite Hser, Hv.
  - left. exists errs. split; [done|]. unfold create. by rewrite Hser.
Qed.

(** X1.  [create] answers 201 exactly for a request with a side "buy" or
    "sell", a quantity from 1 to 1000000 and a price written with at most
    two decimal places, from 0.02 to 999999.99.  The lower bound is the
    float 0.01 of the serializer, which the decimal 0.01 is below; the
    upper bound is that of [validate_price], below the ten digits the
    serializer lets through; a price written with more places, as 1.000
    is, is refused whatever its value.  Every other request is answered
    with 400 and changes nothing: no row, no worker. *)
Theorem create_accepts_iff req w :
  (http_status (create req w).1 = 201 ↔ valid_place req)
  ∧ (http_status (create req w).1 = 201
     ∨ http_status (create req w).1 = 400 ∧ (create req w).2 = w).
Proof.
  split.
  - split.
    + intros H201.
      destruct (create_cases req w)
        as [(errs & _ & H & _)|[(s & q & p & _ & _ & H & _)
                               |(s & q & p & Hser & Hle & _)]];
        [congruence|congruence|].
      destruct (PlaceOrderSerializer_inv _ _ _ _ Hser)
        as (str & pq & H1 & H2 & H3 & H4 & H5 & H6).
      apply serializer_side_inv in H2.
      apply serializer_price_range in H6 as [H6 H7].
      exists str, q, pq, p.
      do 5 (split; [done|]). split; [done|lia].
    + intros (str & q & pq & c & H1 & H2 & H3 & H4 & H5 & H6 & H7).
      destruct (serializer_side_Some str H2) as (s & Hs & _).
      pose proof (PlaceOrderSerializer_Some req str pq s q c H1 Hs H3
                    (serializer_quantity_Some q H4) H5
                    (serializer_price_Some pq c H6 ltac:(lia))) as Hser.
      destruct (create_cases req w)
        as [(errs & Hser' & _)|[(s' & q' & p' & Hser' & Hgt & _)
                               |(s' & q' & p' & _ & _ & H)]];
        [congruence| |done].
      rewrite Hser in Hser'. injection Hser' as <- <- <-. lia.
  - destruct (create_cases req w)
      as [(errs & _ & H & H')|[(s & q & p & _ & _ & H & H')
                              |(s & q & p & _ & _ & H)]]; auto.
Qed.

(** Prices at the edges of what [create] accepts: the decimal 0.01 is below
    the float 0.01 and is refused, 0.02 is accepted; 1.000, written with
    three places, is refused, 1.5 and 1E+2 are accepted; 999999.99 is
    accepted and 1000000 is refused. *)
Lemma create_price_examples :
  let answer p := http_status (create (place_request "buy" 1 p) ex_world0).1 in
  answer (PyDecimal.mkDecimal 1 (-2)) = 400
  ∧ answer (PyDecimal.mkDecimal 2 (-2)) = 201
  ∧ answer (PyDecimal.mkDecimal 1000 (-3)) = 400
  ∧ answer (PyDecimal.mkDecimal 15 (-1)) = 201
  ∧ answer (PyDecimal.mkDecimal 1 2) = 201
  ∧ answer (PyDecimal.mkDecimal 99999999 (-2)) = 201
  ∧ answer (PyDecimal.mkDecimal 1000000 0) = 400.
Proof. repeat split; vm_compute; reflexivity. Qed.

Lemma modifiable_spec o :
  negb (is_active o) || status_in (status o) [FILLED; CANCELLED] = false
  ↔ modifiable o.
Proof.
  unfold modifiable. destruct (is_active o), (status o); cbn;
    split; try done; try (intros (? & ? & ?); done).
Qed.

Lemma modifiable_dec o : modifiable o ∨ ¬ modifiable o.
Proof.
  destruct (negb (is_active o) || status_in (status o) [FILLED; CANCELLED])
    eqn:E.
  - right. intros H. apply modifiable_spec in H. congruence.
  - left. by apply modifiable_spec.
Qed.

Lemma ModifyOrderSerializer_inv req c :
  ModifyOrderSerializer req = inl c ↔
  ∃ i p, mod_order_id req = Some i ∧ mod_price req = Some p
         ∧ serializer_price p = Some c.
Proof.
  unfold ModifyOrderSerializer. split.
  - intros H. destruct (mod_order_id req) as [i|];
      [|by destruct (_ ≫= _)].
    destruct (mod_price req) as [p|]; [|done]. cbn in H.
    destruct (serializer_price p) as [c'|] eqn:E; [|done].
    injection H as ->. by exists i, p.
  - intros (i & p & -> & -> & H). cbn. by rewrite H.
Qed.

Lemma valid_modify_spec req :
  valid_modify req ↔ ∃ c, ModifyOrderSerializer req = inl c.
Proof.
  split.
  - intros (i & p & c & H1 & H2 & H3 & H4). exists c.
    apply ModifyOrderSerializer_inv. exists i, p.
    do 2 (split; [done|]). by apply serializer_price_Some.
  - intros (c & H). apply ModifyOrderSerializer_inv in H
      as (i & p & H1 & H2 & H3).
    apply serializer_price_range in H3 as [H3 H4]. by exists i, p, c.
Qed.

(** The ways through [update]. *)
Lemma update_cases pk req w :
  (Order_objects_get pk (store w) = None
   ∧ http_status (update pk req w).1 = 404 ∧ (update pk req w).2 = w)
  ∨ (∃ row, Order_objects_get pk (store w) = Some row ∧ ¬ modifiable row
            ∧ http_status (update pk req w).1 = 400
            ∧ (update pk req w).2 = w)
  ∨ (∃ row errs, Order_objects_get pk (store w) = Some row ∧ modifiable row
            ∧ ModifyOrderSerializer req = inr errs
            ∧ http_status (update pk req w).1 = 400
            ∧ (update pk req w).2 = w)
  ∨ (∃ row c, Order_objects_get pk (store w) = Some row ∧ modifiable row
            ∧ ModifyOrderSerializer req = inl c
            ∧ http_status (update pk req w).1 = 200
            ∧ (update pk req w).2
              = let o := set_updated_at (clock (store w))
                           (set_is_active true
                              (set_status ACTIVE (set_price c row))) in
                mkWorld (book w)
                  (set_orders_tbl (upsert (to_row o) (orders_tbl (store w)))
                     (store w))
                  (pending w ++ [ProcessModified o])).
Proof.
  unfold update.
  destruct (Order_objects_get pk (store w)) as [row|] eqn:Hget; [|by left].
  right.
  destruct (negb (is_active row)
            || status_in (status row) [FILLED; CANCELLED]) eqn:E.
  - left. exists row. split; [done|]. split; [|done].
    intros H. apply modifiable_spec in H. congruence.
  - right. apply modifiable_spec in E.
    destruct (ModifyOrderSerializer req) as [c|errs] eqn:Hser.
    + right. exists row, c. do 3 (split; [done|]). split; reflexivity.
    + left. exists row, errs. do 3 (split; [done|]). split; reflexivity.
Qed.

(** X2.  For a key that is a well-formed id, [update] answers 404 exactly
    when there is no row with the key, and 200 exactly when the row is
    active, neither FILLED nor CANCELLED, and the body holds an [order_id]
    (whose value is not looked at) and a price written with at most two
    decimal places, from 0.02 to 99999999.99: the bound 999999.99 of
    [create] is not checked here.  Every such request that is not answered
    with 200 is answered with 400 or 404 and changes nothing. *)
Theorem update_accepts_iff pk req w :
  (http_status (update pk req w).1 = 200
   ↔ ∃ row, Order_objects_get pk (store w) = Some row
            ∧ modifiable row ∧ valid_modify req)
  ∧ (http_status (update pk req w).1 = 404
     ↔ Order_objects_get pk (store w) = None)
  ∧ (http_status (update pk req w).1 = 200
     ∨ (http_status (update pk req w).1 = 400
        ∨ http_status (update pk req w).1 = 404)
       ∧ (update pk req w).2 = w).
Proof.
  destruct (update_cases pk req w)
    as [(Hget & Hs & Hw)
       |[(row & Hget & Hm & Hs & Hw)
        |[(row & errs & Hget & Hm & Hser & Hs & Hw)
         |(row & c & Hget & Hm & Hser & Hs & Hw)]]];
    rewrite Hs; (split; [|split]).
  - split; [done|]. intros (row & H & _). congruence.
  - done.
  - right. auto.
  - split; [done|]. intros (row' & H & Hm' & _).
    rewrite Hget in H. injection H as <-. done.
  - split; [done|congruence].
  - right. auto.
  - split; [done|]. intros (row' & _ & _ & Hv).
    apply valid_modify_spec in Hv as [c Hc]. congruence.
  - split; [done|congruence].
  - right. auto.
  - split; [|done]. intros _. exists row. repeat split; try done;
      try apply Hm. apply valid_modify_spec. eauto.
  - split; [done|congruence].
  - by left.
Qed.

(** X3.  An accepted [update] writes the new price, status ACTIVE and
    [is_active] to the order's row and nothing else of it: side, quantity,
    remaining and traded quantity stay; the other rows, the trades and the
    book are as before, and one worker is started for the order. *)
Theorem update_effect pk req w row c :
  Order_objects_get pk (store w) = Some row → modifiable row →
  ModifyOrderSerializer req = inl c →
  ∃ row' o,
    Order_objects_get pk (store (update pk req w).2) = Some row'
    ∧ price row' = c ∧ status row' = ACTIVE ∧ is_active row' = true
    ∧ side row' = side row ∧ quantity row' = quantity row
    ∧ remaining_quantity row' = remaining_quantity row
    ∧ traded_quantity row' = traded_quantity row
    ∧ created_at row' = created_at row
    ∧ updated_at row' = clock (store w)
    ∧ (∀ pk', pk' ≠ pk →
         Order_objects_get pk' (store (update pk req w).2)
         = Order_objects_get pk' (store w))
    ∧ trades_tbl (store (update pk req w).2) = trades_tbl (store w)
    ∧ book (update pk req w).2 = book w
    ∧ pending (update pk req w).2 = pending w ++ [ProcessModified o]
    ∧ order_id o = pk ∧ price o = c
    ∧ remaining_quantity o = remaining_quantity row.
Proof.
  intros Hget Hm Hser.
  destruct (update_cases pk req w)
    as [(Hget' & _)
       |[(row1 & Hget' & Hm' & _)
        |[(row1 & errs & _ & _ & Hser' & _)
         |(row1 & c1 & Hget' & _ & Hser' & _ & Hw)]]];
    [congruence| |congruence|].
  { rewrite Hget in Hget'. injection Hget' as <-. done. }
  rewrite Hget in Hget'. injection Hget' as <-.
  rewrite Hser in Hser'. injection Hser' as <-.
  rewrite Hw. cbv zeta. cbn [store book pending].
  pose proof (Order_objects_get_In _ _ _ Hget) as [_ Hid].
  eexists _, _. split.
  { rewrite <- Hid.
    apply (Order_objects_get_upsert
             (to_row (set_updated_at (clock (store w))
                        (set_is_active true
                           (set_status ACTIVE (set_price c row)))))). }
  do 9 (split; [reflexivity|]).
  split.
  { intros pk' Hne. unfold Order_objects_get. cbn [orders_tbl set_orders_tbl].
    apply find_upsert_ne. cbn. lia. }
  split; [reflexivity|]. split; [reflexivity|]. split; [reflexivity|].
  split; [exact Hid|]. split; reflexivity.
Qed.

Lemma update_effect_witness :
  Order_objects_get 100 (store ex_world_one_ask) = Some ex_ask
  ∧ modifiable ex_ask
  ∧ ModifyOrderSerializer ex_modify = inl 10200
  ∧ ∃ row',
      Order_objects_get 100 (store (update 100 ex_modify ex_world_one_ask).2)
      = Some row'
      ∧ price row' = 10200 ∧ status row' = ACTIVE
      ∧ remaining_quantity row' = remaining_quantity ex_ask.
Proof.
  assert (Order_objects_get 100 (store ex_world_one_ask) = Some ex_ask)
    as H1 by reflexivity.
  assert (modifiable ex_ask) as H2 by (by repeat split).
  assert (ModifyOrderSerializer ex_modify = inl 10200) as H3
    by (vm_compute; reflexivity).
  do 3 (split; [done|]).
  destruct (update_effect 100 ex_modify ex_world_one_ask ex_ask 10200
              H1 H2 H3)
    as (row' & o & Hg & Hp & Hs & _ & _ & _ & Hr & _).
  exists row'. by repeat split.
Defined.

Lemma cancel_order_true_saved oid b st b' st' :
  cancel_order oid b st = (Ok true, b', st') →
  ∃ o, order_id o = oid ∧ st' = (Order_save (cancelled o) st).2.
Proof.
  unfold cancel_order.
  destruct (order_lookup b !! oid) as [[p s]|]; [|by intros [= <- <-]].
  destruct (s =? 1).
  - destruct (bids b !! p) as [l|]; [|by intros [= <- <-]].
    destruct (list_remove_pk oid l) as [[o l']|] eqn:Hr;
      [|by intros [= <- <-]].
    apply list_remove_pk_spec in Hr as (Hid & _).
    intros [= _ <-]. by exists o.
  - destruct (asks b !! p) as [l|]; [|by intros [= <- <-]].
    destruct (list_remove_pk oid l) as [[o l']|] eqn:Hr;
      [|by intros [= <- <-]].
    apply list_remove_pk_spec in Hr as (Hid & _).
    intros [= _ <-]. by exists o.
Qed.

Lemma cancel_order_false oid b st b' st' :
  cancel_order oid b st = (Ok false, b', st') → b' = b ∧ st' = st.
Proof.
  unfold cancel_order.
  destruct (order_lookup b !! oid) as [[p s]|]; [|by intros [= <- <-]].
  destruct (s =? 1).
  - destruct (bids b !! p) as [l|]; [|by intros [= <- <-]].
    by destruct (list_remove_pk oid l) as [[o l']|].
  - destruct (asks b !! p) as [l|]; [|by intros [= <- <-]].
    by destruct (list_remove_pk oid l) as [[o l']|].
Qed.

(** The ways through [destroy]. *)
Lemma destroy_cases pk w :
  (Order_objects_get pk (store w) = None
   ∧ http_status (destroy pk w).1 = 404 ∧ (destroy pk w).2 = w)
  ∨ (∃ row, Order_objects_get pk (store w) = Some row ∧ ¬ modifiable row
            ∧ http_status (destroy pk w).1 = 400 ∧ (destroy pk w).2 = w)
  ∨ (∃ row e b st, Order_objects_get pk (store w) = Some row
            ∧ modifiable row
            ∧ cancel_order pk (book w) (store w) = (Raise e, b, st)
            ∧ http_status (destroy pk w).1 = 500)
  ∨ (∃ row r b st o, Order_objects_get pk (store w) = Some row
            ∧ modifiable row
            ∧ cancel_order pk (book w) (store w) = (Ok r, b, st)
            ∧ http_status (destroy pk w).1 = 200
            ∧ order_id o = pk
            ∧ (destroy pk w).2
              = mkWorld b (Order_save (cancelled o) (store w)).2 (pending w)).
Proof.
  unfold destroy.
  destruct (Order_objects_get pk (store w)) as [row|] eqn:Hget; [|by left].
  right. pose proof (Order_objects_get_In _ _ _ Hget) as [_ Hid].
  destruct (negb (is_active row)
            || status_in (status row) [FILLED; CANCELLED]) eqn:E.
  - left. exists row. split; [done|]. split; [|done].
    intros H. apply modifiable_spec in H. congruence.
  - right. apply modifiable_spec in E. rewrite Hid.
    destruct (cancel_order pk (book w) (store w)) as [[[[]|e] b] st] eqn:Hc.
    + right.
      pose proof (cancel_order_true_saved _ _ _ _ _ Hc) as (o & Ho & Hst).
      exists row, true, b, st, o. rewrite <- Hst.
      do 3 (split; [done|]). split; [reflexivity|]. split; [done|].
      reflexivity.
    + right. apply cancel_order_false in Hc as [-> ->].
      exists row, false, (book w), (store w), row.
      do 3 (split; [done|]). split; [reflexivity|]. split; [done|].
      reflexivity.
    + left. exists row, e, b, st. do 3 (split; [done|]). reflexivity.
Qed.

(** X4.  After a [destroy] that answered 200 the order's row is CANCELLED
    and inactive, whether the order was in the book or not, and the handlers
    refuse the order from then on: a second [destroy] and any [update] are
    answered with 400 and change nothing. *)
Theorem destroy_is_final pk w :
  http_status (destroy pk w).1 = 200 →
  ∃ row',
    Order_objects_get pk (store (destroy pk w).2) = Some row'
    ∧ status row' = CANCELLED ∧ is_active row' = false
    ∧ http_status (destroy pk (destroy pk w).2).1 = 400
    ∧ (destroy pk (destroy pk w).2).2 = (destroy pk w).2
    ∧ ∀ req, http_status (update pk req (destroy pk w).2).1 = 400
             ∧ (update pk req (destroy pk w).2).2 = (destroy pk w).2.
Proof.
  intros H200.
  destruct (destroy_cases pk w)
    as [(_ & Hs & _)
       |[(row & _ & _ & Hs & _)
        |[(row & e & b & st & _ & _ & _ & Hs)
         |(row & r & b & st & o & _ & _ & _ & _ & Hid & Hw)]]];
    [congruence|congruence|congruence|].
  rewrite Hw.
  set (row' := to_row (set_updated_at (clock (store w)) (cancelled o))).
  assert (Order_objects_get pk
            (store (mkWorld b (Order_save (cancelled o) (store w)).2
                      (pending w))) = Some row') as Hget.
  { cbn [store Order_save snd]. rewrite <- Hid.
    apply (Order_objects_get_upsert row'). }
  assert (¬ modifiable row') as Hnm by (intros (H & _); done).
  exists row'. split; [done|]. split; [done|]. split; [done|].
  split; [|split; [|intros req]].
  - destruct (destroy_cases pk
                (mkWorld b (Order_save (cancelled o) (store w)).2
                   (pending w)))
      as [(Hg & _)
         |[(row1 & _ & _ & Hs & _)
          |[(row1 & e & b1 & st1 & Hg & Hm & _)
           |(row1 & r1 & b1 & st1 & o1 & Hg & Hm & _)]]];
      [congruence|done| |]; rewrite Hget in Hg; injection Hg as <-; done.
  - destruct (destroy_cases pk
                (mkWorld b (Order_save (cancelled o) (store w)).2
                   (pending w)))
      as [(Hg & _)
         |[(row1 & _ & _ & _ & Hs)
          |[(row1 & e & b1 & st1 & Hg & Hm & _)
           |(row1 & r1 & b1 & st1 & o1 & Hg & Hm & _)]]];
      [congruence|done| |]; rewrite Hget in Hg; injection Hg as <-; done.
  - destruct (update_cases pk req
                (mkWorld b (Order_save (cancelled o) (store w)).2
                   (pending w)))
      as [(Hg & _)
         |[(row1 & _ & _ & Hs & Hw')
          |[(row1 & errs & Hg & Hm & _)
           |(row1 & c & Hg & Hm & _)]]];
      [congruence|done| |]; rewrite Hget in Hg; injection Hg as <-; done.
Qed.

Lemma destroy_is_final_witness :
  http_status (destroy 100 ex_world_one_ask).1 = 200
  ∧ ∃ row',
      Order_objects_get 100 (store (destroy 100 ex_world_one_ask).2)
      = Some row'
      ∧ status row' = CANCELLED
      ∧ http_status
          (destroy 100 (destroy 100 ex_world_one_ask).2).1 = 400.
Proof.
  assert (http_status (destroy 100 ex_world_one_ask).1 = 200) as H
    by reflexivity.
  split; [exact H|].
  destruct (destroy_is_final 100 ex_world_one_ask H)
    as (row' & Hg & Hs & _ & H4 & _).
  exists row'. by repeat split.
Defined.

(** X5.  On a well-formed book [destroy] never fails: it answers 404 when
    there is no row, 200 when the row is active and neither FILLED nor
    CANCELLED, and 400 otherwise (never 500).  Unless it answers 200 nothing
    changes; in every case the book stays well formed, the order is in the
    book no more after a 200, the other rows, the trades and the started
    workers are as before. *)
Theorem destroy_outcomes pk w :
  book_wf (book w) →
  (http_status (destroy pk w).1 = 404
   ↔ Order_objects_get pk (store w) = None)
  ∧ (http_status (destroy pk w).1 = 200
     ↔ ∃ row, Order_objects_get pk (store w) = Some row ∧ modifiable row)
  ∧ (http_status (destroy pk w).1 = 200
     ∧ not_in_book pk (book (destroy pk w).2)
     ∨ (http_status (destroy pk w).1 = 400
        ∨ http_status (destroy pk w).1 = 404)
       ∧ (destroy pk w).2 = w)
  ∧ book_wf (book (destroy pk w).2)
  ∧ (∀ pk', pk' ≠ pk →
       Order_objects_get pk' (store (destroy pk w).2)
       = Order_objects_get pk' (store w))
  ∧ trades_tbl (store (destroy pk w).2) = trades_tbl (store w)
  ∧ pending (destroy pk w).2 = pending w.
Proof.
  intros Hwf.
  destruct (destroy_cases pk w)
    as [(Hg & Hs & Hw)
       |[(row & Hg & Hm & Hs & Hw)
        |[(row & e & b & st & Hg & Hm & Hc & Hs)
         |(row & r & b & st & o & Hg & Hm & Hc & Hs & Hid & Hw)]]].
  - rewrite Hs, Hw. split; [done|]. split.
    { split; [done|]. intros (row & H & _). congruence. }
    split; [right; auto|]. done.
  - rewrite Hs, Hw. split; [split; [done|congruence]|]. split.
    { split; [done|]. intros (row' & H & Hm'). rewrite Hg in H.
      injection H as <-. done. }
    split; [right; auto|]. done.
  - exfalso. destruct (order_lookup (book w) !! pk) as [[p s]|] eqn:Hlk.
    + destruct (cancel_order_resting pk (book w) (store w) p s Hwf Hlk)
        as (o & b1 & Hc1 & _). congruence.
    + rewrite cancel_order_unknown in Hc by done. congruence.
  - rewrite Hs, Hw. cbn [book store pending].
    split; [split; [done|congruence]|].
    split; [split; [eauto|done]|].
    assert (book_wf b ∧ not_in_book pk b) as [Hwf' Hnot].
    { destruct (order_lookup (book w) !! pk) as [[p s]|] eqn:Hlk.
      - destruct (cancel_order_resting pk (book w) (store w) p s Hwf Hlk)
          as (o1 & b1 & Hc1 & _ & _ & _ & _ & Hwf1 & Hn1).
        rewrite Hc1 in Hc. by injection Hc as _ <- _.
      - rewrite cancel_order_unknown in Hc by done. injection Hc as _ <- _.
        split; [done|]. by apply book_wf_not_in_book. }
    split; [by left|]. split; [done|]. split; [|done].
    intros pk' Hne. unfold Order_objects_get.
    cbn [Order_save snd orders_tbl set_orders_tbl].
    apply find_upsert_ne. cbn. lia.
Qed.

Lemma destroy_outcomes_witness :
  book_wf (book ex_world_one_ask)
  ∧ http_status (destroy 100 ex_world_one_ask).1 = 200
  ∧ book_wf (book (destroy 100 ex_world_one_ask).2).
Proof.
  split; [exact ex_world_one_ask_wf|].
  destruct (destroy_outcomes 100 ex_world_one_ask ex_world_one_ask_wf)
    as (_ & _ & _ & Hwf & _).
  split; [reflexivity|exact Hwf].
Defined.

(* ===================================================================== *)
(** ** Settlement *)
(* ===================================================================== *)

Lemma find_upsert_trade_ne t rows tid :
  trade_id t ≠ tid →
  List.find (λ x, trade_id x =? tid) (upsert_trade t rows)
  = List.find (λ x, trade_id x =? tid) rows.
Proof.
  intros Hne. induction rows as [|x rows IH]; simpl.
  - destruct (trade_id t =? tid) eqn:E; [lia|done].
  - destruct (trade_id x =? trade_id t) eqn:E; simpl.
    + apply Z.eqb_eq in E. rewrite E.
      destruct (trade_id t =? tid) eqn:E'; [lia|done].
    + destruct (trade_id x =? tid); [done|apply IH].
Qed.

Lemma length_upsert_trade t rows x :
  List.find (λ x, trade_id x =? trade_id t) rows = Some x →
  length (upsert_trade t rows) = length rows.
Proof.
  induction rows as [|y rows IH]; simpl; [done|].
  destruct (trade_id y =? trade_id t) eqn:E; simpl; [done|].
  intros H. by rewrite IH.
Qed.

(** The ways through the settlement view. *)
Lemma settle_cases tid st :
  (List.find (λ x, trade_id x =? tid) (trades_tbl st) = None
   ∧ http_status (settle tid st).1 = 404 ∧ (settle tid st).2 = st)
  ∨ (∃ t, List.find (λ x, trade_id x =? tid) (trades_tbl st) = Some t
          ∧ is_settled t = true
          ∧ http_status (settle tid st).1 = 400 ∧ (settle tid st).2 = st)
  ∨ (∃ t, List.find (λ x, trade_id x =? tid) (trades_tbl st) = Some t
          ∧ is_settled t = false
          ∧ http_status (settle tid st).1 = 200
          ∧ (settle tid st).2
            = set_trades_tbl
                (upsert_trade
                   (mkTrade (trade_id t) (trade_price t) (trade_quantity t)
                      (bid_order t) (ask_order t) (execution_timestamp t)
                      (trade_created_at t) true (settlement_timestamp t))
                   (trades_tbl st)) st).
Proof.
  unfold settle, Trade_objects_get.
  destruct (List.find _ (trades_tbl st)) as [t|] eqn:Hf; [|by left].
  right. cbn. destruct (is_settled t) eqn:Hs.
  - left. by exists t.
  - right. by exists t.
Qed.

(** X6.  The settlement view answers 404 exactly when there is no trade
    with the id, 200 exactly when the trade is not settled yet, and 400
    otherwise; unless it answers 200 nothing changes.  After a 200 the
    trade's row has [is_settled] set and every other column as before, the
    [settlement_timestamp] included, and a second request for the same
    trade is answered with 400 and changes nothing.  The view never touches
    an order, another trade, or the number of trades. *)
Theorem settle_at_most_once tid st :
  (http_status (settle tid st).1 = 404
   ↔ List.find (λ x, trade_id x =? tid) (trades_tbl st) = None)
  ∧ (http_status (settle tid st).1 = 200
     ↔ ∃ t, List.find (λ x, trade_id x =? tid) (trades_tbl st) = Some t
            ∧ is_settled t = false)
  ∧ (http_status (settle tid st).1 = 200
     ∨ (http_status (settle tid st).1 = 400
        ∨ http_status (settle tid st).1 = 404)
       ∧ (settle tid st).2 = st)
  ∧ (http_status (settle tid st).1 = 200 →
     http_status (settle tid (settle tid st).2).1 = 400
     ∧ (settle tid (settle tid st).2).2 = (settle tid st).2
     ∧ ∃ t t',
         List.find (λ x, trade_id x =? tid) (trades_tbl st) = Some t
         ∧ List.find (λ x, trade_id x =? tid) (trades_tbl (settle tid st).2)
           = Some t'
         ∧ is_settled t' = true
         ∧ settlement_timestamp t' = settlement_timestamp t
         ∧ trade_price t' = trade_price t
         ∧ trade_quantity t' = trade_quantity t
         ∧ bid_order t' = bid_order t ∧ ask_order t' = ask_order t
         ∧ execution_timestamp t' = execution_timestamp t)
  ∧ orders_tbl (settle tid st).2 = orders_tbl st
  ∧ length (trades_tbl (settle tid st).2) = length (trades_tbl st)
  ∧ (∀ tid', tid' ≠ tid →
       List.find (λ x, trade_id x =? tid') (trades_tbl (settle tid st).2)
       = List.find (λ x, trade_id x =? tid') (trades_tbl st)).
Proof.
  destruct (settle_cases tid st)
    as [(Hf & Hs & Hst)|[(t & Hf & Hset & Hs & Hst)
                        |(t & Hf & Hset & Hs & Hst)]].
  - rewrite Hs, Hst. split; [done|]. split.
    { split; [done|]. intros (t & H & _). congruence. }
    split; [right; auto|]. split; [done|]. done.
  - rewrite Hs, Hst. split; [split; [done|congruence]|]. split.
    { split; [done|]. intros (t' & H & H'). congruence. }
    split; [right; auto|]. split; [done|]. done.
  - pose proof (find_trade_id _ _ _ Hf) as Hid.
    set (t' := mkTrade (trade_id t) (trade_price t) (trade_quantity t)
                 (bid_order t) (ask_order t) (execution_timestamp t)
                 (trade_created_at t) true (settlement_timestamp t)) in *.
    assert (List.find (λ x, trade_id x =? tid)
              (trades_tbl (settle tid st).2) = Some t') as Hf'.
    { rewrite Hst. cbn [trades_tbl set_trades_tbl]. rewrite <- Hid.
      apply (find_upsert_trade t'). }
    rewrite Hs. split; [split; [done|congruence]|].
    split; [split; [eauto|done]|]. split; [by left|].
    split.
    { intros _.
      destruct (settle_cases tid (settle tid st).2)
        as [(Hf2 & _)|[(t2 & Hf2 & Hset2 & Hs2 & Hst2)
                      |(t2 & Hf2 & Hset2 & _)]].
      - congruence.
      - split; [done|]. split; [done|]. exists t, t'. by repeat split.
      - rewrite Hf' in Hf2. injection Hf2 as <-. done. }
    rewrite Hst. cbn [orders_tbl trades_tbl set_trades_tbl].
    split; [done|]. split.
    { apply (length_upsert_trade t' _ t). cbn [trade_id t']. by rewrite Hid. }
    intros tid' Hne. apply find_upsert_trade_ne. cbn. lia.
Qed.

(** X7.  [Trade.mark_as_settled] sets [is_settled] and stores the current
    time as [settlement_timestamp]; the row read back is the instance, the
    other columns and the orders are as before, and the settlement view
    answers 400 for the trade afterwards. *)
Theorem mark_as_settled_persists t st :
  is_settled (fields (mark_as_settled t st).1) = true
  ∧ settlement_timestamp (fields (mark_as_settled t st).1)
    = Some (clock st)
  ∧ List.find (λ x, trade_id x =? trade_id (fields t))
      (trades_tbl (mark_as_settled t st).2)
    = Some (fields (mark_as_settled t st).1)
  ∧ trade_id (fields (mark_as_settled t st).1) = trade_id (fields t)
  ∧ trade_price (fields (mark_as_settled t st).1) = trade_price (fields t)
  ∧ trade_quantity (fields (mark_as_settled t st).1)
    = trade_quantity (fields t)
  ∧ bid_order (fields (mark_as_settled t st).1) = bid_order (fields t)
  ∧ ask_order (fields (mark_as_settled t st).1) = ask_order (fields t)
  ∧ orders_tbl (mark_as_settled t st).2 = orders_tbl st
  ∧ (∀ tid', tid' ≠ trade_id (fields t) →
       List.find (λ x, trade_id x =? tid')
         (trades_tbl (mark_as_settled t st).2)
       = List.find (λ x, trade_id x =? tid') (trades_tbl st))
  ∧ http_status
      (settle (trade_id (fields t)) (mark_as_settled t st).2).1 = 400
  ∧ (settle (trade_id (fields t)) (mark_as_settled t st).2).2
    = (mark_as_settled t st).2.
Proof.
  destruct t as [f a]. unfold mark_as_settled, Trade_save.
  cbn [fst snd fields set_is_settled set_settlement_timestamp
       is_settled settlement_timestamp trade_id trade_price trade_quantity
       bid_order ask_order trades_tbl orders_tbl set_trades_tbl
       attr_settled_at].
  set (f' := mkTrade (trade_id f) (trade_price f) (trade_quantity f)
               (bid_order f) (ask_order f) (execution_timestamp f)
               (trade_created_at f) true (Some (clock st))).
  assert (List.find (λ x, trade_id x =? trade_id f)
            (upsert_trade f' (trades_tbl st)) = Some f') as Hf
    by apply (find_upsert_trade f').
  do 2 (split; [done|]). split; [exact Hf|]. do 6 (split; [done|]).
  split; [intros tid' Hne; apply find_upsert_trade_ne; cbn; lia|].
  destruct (settle_cases (trade_id f)
              (set_trades_tbl (upsert_trade f' (trades_tbl st)) st))
    as [(Hf2 & _)|[(t2 & Hf2 & Hset2 & Hs2 & Hst2)
                  |(t2 & Hf2 & Hset2 & _)]].
  - cbn [trades_tbl set_trades_tbl] in Hf2. congruence.
  - done.
  - cbn [trades_tbl set_trades_tbl] in Hf2. rewrite Hf in Hf2.
    injection Hf2 as <-. done.
Qed.

(* ===================================================================== *)
(** ** Invariants of a match in a well-formed book *)
(* ===================================================================== *)

(** A property of the incoming order, the book, the store and the trades so
    far that every trading iteration keeps holds when the match is over;
    in a well-formed book the match is over after finitely many iterations,
    none of which raises. *)
Lemma match_buy_order_inv X b st
    (J : Order → OrderBook → Store → list Trade → Prop) :
  book_wf b → J X b st [] →
  (∀ X1 b1 st1 ts pa Y rest,
     book_wf b1 → J X1 b1 st1 ts →
     best_ask b1 = Some pa → buy_crosses X1 pa →
     asks b1 !! pa = Some (Y :: rest) →
     price Y = pa → 0 < remaining_quantity Y →
     (∀ p, p ∈ dom (asks b1) → pa <= p) →
     let '(t, X', b', st') := after_buy_trade X1 b1 st1 pa Y rest in
     J X' b' st' (ts ++ [t])) →
  ∃ trades X' b' st',
    _match_buy_order X b st = Some (Ok trades, X', b', st')
    ∧ book_wf b' ∧ J X' b' st' trades
    ∧ (∀ pa, best_ask b' = Some pa → ¬ buy_crosses X' pa).
Proof.
  intros Hwf HJ Hstep.
  destruct (match_buy_order_wf X b st Hwf)
    as (ts & X' & b' & st' & Hm & Hwf' & Hexit & _).
  exists ts, X', b', st'. split; [done|]. split; [done|]. split; [|done].
  unfold _match_buy_order in Hm.
  pose proof (match_loop_inv _match_buy_step
                (λ X1 b1 st1 ts1, book_wf b1 ∧ J X1 b1 st1 ts1)) as H.
  specialize (H ltac:(
    clear -Hstep; intros X1 b1 st1 ts1 [Hwf1 HJ1];
    destruct (match_buy_step_wf X1 b1 st1 Hwf1)
      as [[-> _]|(pa & Y & rest & Hb & Hc & Has & ->)]; [done|];
    destruct (buy_trade_result_wf X1 b1 st1 pa Y rest Hwf1 Hb Hc Has)
      as (Hq & -> & Hwf');
    destruct (book_wf_best_ask b1 pa Hwf1 Hb)
      as (Y0 & rest0 & Has0 & _ & HpY & HRY & _ & Hmin);
    rewrite Has in Has0; injection Has0 as <- <-;
    split; [done|];
    exact (Hstep X1 b1 st1 ts1 pa Y rest Hwf1 HJ1 Hb Hc Has HpY HRY Hmin))).
  specialize (H _ _ _ _ _ _ _ _ _ (conj Hwf HJ) Hm). by destruct H.
Qed.

Lemma match_sell_order_inv X b st
    (J : Order → OrderBook → Store → list Trade → Prop) :
  book_wf b → J X b st [] →
  (∀ X1 b1 st1 ts pb Y rest,
     book_wf b1 → J X1 b1 st1 ts →
     best_bid b1 = Some pb → sell_crosses X1 pb →
     bids b1 !! pb = Some (Y :: rest) →
     price Y = pb → 0 < remaining_quantity Y →
     (∀ p, p ∈ dom (bids b1) → p <= pb) →
     let '(t, X', b', st') := after_sell_trade X1 b1 st1 pb Y rest in
     J X' b' st' (ts ++ [t])) →
  ∃ trades X' b' st',
    _match_sell_order X b st = Some (Ok trades, X', b', st')
    ∧ book_wf b' ∧ J X' b' st' trades
    ∧ (∀ pb, best_bid b' = Some pb → ¬ sell_crosses X' pb).
Proof.
  intros Hwf HJ Hstep.
  destruct (match_sell_order_wf X b st Hwf)
    as (ts & X' & b' & st' & Hm & Hwf' & Hexit & _).
  exists ts, X', b', st'. split; [done|]. split; [done|]. split; [|done].
  unfold _match_sell_order in Hm.
  pose proof (match_loop_inv _match_sell_step
                (λ X1 b1 st1 ts1, book_wf b1 ∧ J X1 b1 st1 ts1)) as H.
  specialize (H ltac:(
    clear -Hstep; intros X1 b1 st1 ts1 [Hwf1 HJ1];
    destruct (match_sell_step_wf X1 b1 st1 Hwf1)
      as [[-> _]|(pb & Y & rest & Hb & Hc & Hbs & ->)]; [done|];
    destruct (sell_trade_result_wf X1 b1 st1 pb Y rest Hwf1 Hb Hc Hbs)
      as (Hq & -> & Hwf');
    destruct (book_wf_best_bid b1 pb Hwf1 Hb)
      as (Y0 & rest0 & Hbs0 & _ & HpY & HRY & _ & Hmax);
    rewrite Hbs in Hbs0; injection Hbs0 as <- <-;
    split; [done|];
    exact (Hstep X1 b1 st1 ts1 pb Y rest Hwf1 HJ1 Hb Hc Hbs HpY HRY Hmax))).
  specialize (H _ _ _ _ _ _ _ _ _ (conj Hwf HJ) Hm). by destruct H.
Qed.

(** [add_order] once the match has come to its end. *)
Lemma add_order_after_match X b st trades X' b1 st' :
  side X' = side X →
  (if side X =? 1
   then _match_buy_order X (_load_matching_orders X b st) st
   else _match_sell_order X (_load_matching_orders X b st) st)
  = Some (Ok trades, X', b1, st') →
  add_order X b st = Some (trades, X', book_after_match X' b1 trades, st').
Proof.
  intros Hs Hm. unfold add_order, book_after_match. rewrite Hs.
  destruct (side X =? 1); rewrite Hm; reflexivity.
Qed.

(* ===================================================================== *)
(** ** What a match does to quantities, trades and counters *)
(* ===================================================================== *)

Lemma trades_quantity_app ts t :
  trades_quantity (ts ++ [t]) = trades_quantity ts + trade_quantity t.
Proof.
  unfold trades_quantity. induction ts as [|x ts IH]; simpl; [lia|].
  rewrite IH. lia.
Qed.

Lemma metrics_pop_ask pa Y rest b :
  orders_processed (pop_ask pa Y rest b) = orders_processed b
  ∧ trades_created (pop_ask pa Y rest b) = trades_created b.
Proof. unfold pop_ask. by destruct rest. Qed.

Lemma metrics_pop_bid pb Y rest b :
  orders_processed (pop_bid pb Y rest b) = orders_processed b
  ∧ trades_created (pop_bid pb Y rest b) = trades_created b.
Proof. unfold pop_bid. by destruct rest. Qed.

Lemma metrics_add_buy_order o b :
  orders_processed (_add_buy_order o b) = orders_processed b
  ∧ trades_created (_add_buy_order o b) = trades_created b.
Proof.
  unfold _add_buy_order.
  destruct (bids b !! price o); cbn;
    (destruct (best_bid b) as [bb|] eqn:Hb; [destruct (_ >? _)|]); try split;
    cbn; rewrite ?Hb; reflexivity.
Qed.

Lemma metrics_add_sell_order o b :
  orders_processed (_add_sell_order o b) = orders_processed b
  ∧ trades_created (_add_sell_order o b) = trades_created b.
Proof.
  unfold _add_sell_order.
  destruct (asks b !! price o); cbn;
    (destruct (best_ask b) as [ba|] eqn:Hb; [destruct (_ <? _)|]); try split;
    cbn; rewrite ?Hb; reflexivity.
Qed.

Lemma metrics_load X b st :
  orders_processed (_load_matching_orders X b st) = orders_processed b
  ∧ trades_created (_load_matching_orders X b st) = trades_created b.
Proof.
  unfold _load_matching_orders. generalize (matching_rows X st).
  intros rows. revert b. induction rows as [|r rows IH]; intros b; [done|].
  simpl. destruct (IH (load_one b r)) as [-> ->]. unfold load_one.
  destruct (order_lookup b !! order_id r); [done|].
  destruct (side r =? 1);
    [apply metrics_add_buy_order|apply metrics_add_sell_order].
Qed.

Lemma match_account_init X b st : match_account X b st X b st [].
Proof.
  unfold match_account, trades_quantity. cbn.
  repeat split; try done; try lia. by rewrite app_nil_r.
Qed.

Lemma match_account_trade X b st X1 b1 st1 ts t X' b' st' q p Y :
  match_account X b st X1 b1 st1 ts →
  0 < q <= remaining_quantity X1 →
  t = mkTrade (uuid_supply st1) p q
        (if side X =? 1 then order_id X1 else order_id Y)
        (if side X =? 1 then order_id Y else order_id X1)
        (clock st1) (clock st1) false None →
  X' = fill_fields q p (clock st1) X1 →
  trades_tbl st' = trades_tbl st1 ++ [t] →
  uuid_supply st' = uuid_supply st1 + 1 → clock st' = clock st1 →
  orders_processed b' = orders_processed b1 →
  trades_created b' = trades_created b1 →
  match_account X b st X' b' st' (ts ++ [t]).
Proof.
  intros (Hid & Hs & Hp & Hqty & HR & HT & HR0 & HF & Htbl & Hids & Hu & Hc
          & Hop & Htc & _) Hq -> -> Htbl' Hu' Hc' Hop' Htc'.
  unfold match_account. rewrite trades_quantity_app.
  cbn [fill_fields order_id side price quantity remaining_quantity
       traded_quantity trade_quantity].
  do 4 (split; [done|]). split; [lia|]. split; [lia|]. split; [lia|].
  split.
  { apply Forall_app. split; [done|]. constructor; [|constructor].
    cbn. split; [lia|]. do 2 (split; [done|]). split; [done|].
    by destruct (side X =? 1). }
  split; [by rewrite Htbl', Htbl, app_assoc|].
  split.
  { rewrite fmap_app, length_app, seq_app, fmap_app, Hids. cbn.
    by rewrite Hu. }
  split; [rewrite Hu', Hu, length_app; cbn; lia|].
  split; [congruence|]. split; [congruence|]. split; [congruence|].
  intros H. by destruct ts.
Qed.

(** The account of a buy match and of a sell match in a well-formed
    book. *)
Lemma match_buy_order_account X b st :
  side X = 1 → book_wf b →
  ∃ trades X' b' st',
    _match_buy_order X b st = Some (Ok trades, X', b', st')
    ∧ book_wf b' ∧ match_account X b st X' b' st' trades
    ∧ (∀ pa, best_ask b' = Some pa → ¬ buy_crosses X' pa).
Proof.
  intros Hs Hwf.
  apply (match_buy_order_inv X b st (match_account X b st) Hwf
           (match_account_init X b st)).
  intros X1 b1 st1 ts pa Y rest Hwf1 HJ Hb Hc Has HpY HRY Hmin.
  unfold after_buy_trade. cbv zeta.
  eapply (match_account_trade X b st X1 b1 st1 ts _ _ _ _
            (Z.min (remaining_quantity X1) (remaining_quantity Y)) pa Y HJ).
  - destruct Hc. lia.
  - rewrite Hs. reflexivity.
  - reflexivity.
  - reflexivity.
  - reflexivity.
  - reflexivity.
  - destruct (_ =? 0); [apply metrics_pop_ask|reflexivity].
  - destruct (_ =? 0); [apply metrics_pop_ask|reflexivity].
Qed.

Lemma match_sell_order_account X b st :
  side X ≠ 1 → book_wf b →
  ∃ trades X' b' st',
    _match_sell_order X b st = Some (Ok trades, X', b', st')
    ∧ book_wf b' ∧ match_account X b st X' b' st' trades
    ∧ (∀ pb, best_bid b' = Some pb → ¬ sell_crosses X' pb).
Proof.
  intros Hs Hwf.
  apply (match_sell_order_inv X b st (match_account X b st) Hwf
           (match_account_init X b st)).
  intros X1 b1 st1 ts pb Y rest Hwf1 HJ Hb Hc Hbs HpY HRY Hmax.
  unfold after_sell_trade. cbv zeta.
  eapply (match_account_trade X b st X1 b1 st1 ts _ _ _ _
            (Z.min (remaining_quantity X1) (remaining_quantity Y)) pb Y HJ).
  - destruct Hc. lia.
  - destruct (side X =? 1) eqn:E; [lia|]. reflexivity.
  - reflexivity.
  - reflexivity.
  - reflexivity.
  - reflexivity.
  - destruct (_ =? 0); [apply metrics_pop_bid|reflexivity].
  - destruct (_ =? 0); [apply metrics_pop_bid|reflexivity].
Qed.

(** [add_order] in a well-formed book, with the account of its match. *)
Lemma add_order_account X b st :
  book_wf b → Forall loadable (orders_tbl st) →
  ∃ trades X' b1 st',
    add_order X b st
    = Some (trades, X', book_after_match X' b1 trades, st')
    ∧ book_wf b1
    ∧ match_account X (_load_matching_orders X b st) st X' b1 st' trades
    ∧ (if side X =? 1
       then ∀ pa, best_ask b1 = Some pa → ¬ buy_crosses X' pa
       else ∀ pb, best_bid b1 = Some pb → ¬ sell_crosses X' pb).
Proof.
  intros Hwf Hrows.
  destruct (load_matching_orders_wf X b st Hwf Hrows) as (Hwf1 & _).
  destruct (side X =? 1) eqn:Hs.
  - destruct (match_buy_order_account X (_load_matching_orders X b st) st
                ltac:(lia) Hwf1)
      as (ts & X' & b1 & st' & Hm & Hwf' & Hacc & Hexit).
    exists ts, X', b1, st'. split; [|done].
    apply add_order_after_match; [apply Hacc|by rewrite Hs].
  - destruct (match_sell_order_account X (_load_matching_orders X b st) st
                ltac:(lia) Hwf1)
      as (ts & X' & b1 & st' & Hm & Hwf' & Hacc & Hexit).
    exists ts, X', b1, st'. split; [|done].
    apply add_order_after_match; [apply Hacc|by rewrite Hs].
Qed.

(** X8.  [add_order] in a well-formed book, with a store whose live rows
    can be loaded: the call returns; every trade has a positive quantity;
    the incoming order's remaining quantity went down, and its traded
    quantity up, by the total of the trades; its id, side, price and total
    quantity are as before, and a remaining quantity that was not negative
    is not negative afterwards. *)
Theorem add_order_conserves_quantity X b st :
  book_wf b → Forall loadable (orders_tbl st) →
  ∃ trades X' b' st',
    add_order X b st = Some (trades, X', b', st')
    ∧ Forall (λ t, 0 < trade_quantity t) trades
    ∧ remaining_quantity X'
      = remaining_quantity X - trades_quantity trades
    ∧ traded_quantity X' = traded_quantity X + trades_quantity trades
    ∧ (0 <= remaining_quantity X → 0 <= remaining_quantity X')
    ∧ order_id X' = order_id X ∧ side X' = side X ∧ price X' = price X
    ∧ quantity X' = quantity X.
Proof.
  intros Hwf Hrows.
  destruct (add_order_account X b st Hwf Hrows)
    as (ts & X' & b1 & st' & Hadd
        & _ & (Hid & Hs & Hp & Hq & HR & HT & HR0 & HF & _) & _).
  exists ts, X', (book_after_match X' b1 ts), st'.
  split; [done|]. split.
  { eapply Forall_impl; [exact HF|]. by intros t (H & _). }
  by repeat split.
Qed.

Lemma add_order_conserves_quantity_witness :
  book_wf (book ex_world_one_ask)
  ∧ Forall loadable (orders_tbl (store ex_world_one_ask))
  ∧ ∃ trades X' b' st',
      add_order ex_buy (book ex_world_one_ask) (store ex_world_one_ask)
      = Some (trades, X', b', st')
      ∧ remaining_quantity X'
        = remaining_quantity ex_buy - trades_quantity trades.
Proof.
  assert (Forall loadable (orders_tbl (store ex_world_one_ask))) as Hrows.
  { constructor; [|constructor]. intros _ _.
    split; [discriminate|reflexivity]. }
  split; [exact ex_world_one_ask_wf|]. split; [exact Hrows|].
  destruct (add_order_conserves_quantity ex_buy (book ex_world_one_ask)
              (store ex_world_one_ask) ex_world_one_ask_wf Hrows)
    as (ts & X' & b' & st' & Hadd & _ & HR & _).
  by exists ts, X', b', st'.
Defined.

Lemma metrics_book_after_match X' b1 ts :
  orders_processed (book_after_match X' b1 ts) = orders_processed b1 + 1
  ∧ trades_created (book_after_match X' b1 ts)
    = trades_created b1 + Z.of_nat (length ts).
Proof.
  unfold book_after_match. cbn [orders_processed trades_created set_metrics].
  destruct (remaining_quantity X' >? 0); [|done].
  destruct (side X' =? 1).
  - by destruct (metrics_add_buy_order X' b1) as [-> ->].
  - by destruct (metrics_add_sell_order X' b1) as [-> ->].
Qed.

(** X9.  [add_order] in a well-formed book, for persisted orders (the
    incoming order and the orders of the book have their rows, so that a
    trade can refer to them): the trades returned are the rows appended to
    the trades table, in that order, with consecutive fresh ids; each is
    unsettled, without a settlement time, and has the incoming order on its
    own side; [orders_processed] goes up by one and [trades_created] by the
    number of trades.  An order that does not trade is not written: the
    store and the order are as they were. *)
Theorem add_order_records_trades X b st :
  book_wf b → Forall loadable (orders_tbl st) → rows_present X b st →
  ∃ trades X' b' st',
    add_order X b st = Some (trades, X', b', st')
    ∧ trades_tbl st' = trades_tbl st ++ trades
    ∧ trade_id <$> trades
      = (λ i, uuid_supply st + Z.of_nat i) <$> seq 0 (length trades)
    ∧ uuid_supply st' = uuid_supply st + Z.of_nat (length trades)
    ∧ Forall (λ t, is_settled t = false ∧ settlement_timestamp t = None
                   ∧ (if side X =? 1 then bid_order t = order_id X
                      else ask_order t = order_id X)) trades
    ∧ orders_processed b' = orders_processed b + 1
    ∧ trades_created b' = trades_created b + Z.of_nat (length trades)
    ∧ (trades = [] → st' = st ∧ X' = X).
Proof.
  intros Hwf Hrows _.
  destruct (add_order_account X b st Hwf Hrows)
    as (ts & X' & b1 & st' & Hadd
        & _ & (_ & _ & _ & _ & _ & _ & _ & HF & Htbl & Hids & Hu & _
               & Hop & Htc & Hnil) & _).
  exists ts, X', (book_after_match X' b1 ts), st'.
  destruct (metrics_book_after_match X' b1 ts) as [-> ->].
  destruct (metrics_load X b st) as [Hop' Htc'].
  split; [done|]. do 3 (split; [done|]). split.
  { eapply Forall_impl; [exact HF|]. by intros t (_ & ? & ? & _ & ?). }
  split; [congruence|]. split; [congruence|done].
Qed.

Lemma ex_world_buy_placed_book :
  book ex_world_buy_placed = book ex_world_one_ask.
Proof. reflexivity. Qed.

Lemma ex_world_buy_placed_loadable :
  Forall loadable (orders_tbl (store ex_world_buy_placed)).
Proof.
  constructor; [|constructor; [|constructor]]; intros _ _;
    (split; [discriminate|reflexivity]).
Qed.

(** Both orders have their rows once the buy order was accepted. *)
Lemma ex_world_buy_placed_rows :
  rows_present ex_buy (book ex_world_buy_placed) (store ex_world_buy_placed).
Proof.
  split; [by eexists|]. split; [storable_by_compute|].
  split.
  - unfold book_persisted.
    rewrite ex_world_buy_placed_book. unfold ex_world_one_ask. cbn [book].
    split.
    + rewrite bids_add_sell_order. apply levels_sat_empty.
    + rewrite asks_add_sell_order.
      apply levels_sat_append; [apply levels_sat_empty|].
      split; [by eexists|storable_by_compute].
  - constructor; [storable_by_compute|].
    constructor; [storable_by_compute|]. constructor.
Qed.

Lemma add_order_records_trades_witness :
  book_wf (book ex_world_buy_placed)
  ∧ Forall loadable (orders_tbl (store ex_world_buy_placed))
  ∧ rows_present ex_buy (book ex_world_buy_placed)
      (store ex_world_buy_placed)
  ∧ ∃ trades X' b' st',
      add_order ex_buy (book ex_world_buy_placed) (store ex_world_buy_placed)
      = Some (trades, X', b', st')
      ∧ trades_tbl st'
        = trades_tbl (store ex_world_buy_placed) ++ trades
      ∧ orders_processed b'
        = orders_processed (book ex_world_buy_placed) + 1.
Proof.
  assert (book_wf (book ex_world_buy_placed)) as Hwf.
  { rewrite ex_world_buy_placed_book. exact ex_world_one_ask_wf. }
  split; [exact Hwf|]. split; [exact ex_world_buy_placed_loadable|].
  split; [exact ex_world_buy_placed_rows|].
  destruct (add_order_records_trades ex_buy (book ex_world_buy_placed)
              (store ex_world_buy_placed) Hwf ex_world_buy_placed_loadable
              ex_world_buy_placed_rows)
    as (ts & X' & b' & st' & Hadd & Htbl & _ & _ & _ & Hop & _).
  by exists ts, X', b', st'.
Defined.

(* ===================================================================== *)
(** ** The matching algorithm, from [add_order] to the loop and back *)
(* ===================================================================== *)




(** What the witness comes to: one trade of 5 at 101.00, the resting
    order's price, and both orders filled and out of the book. *)
Lemma buy_placed_match_example :
  ∃ t X' b' st',
    add_order ex_buy (book ex_world_buy_placed) (store ex_world_buy_placed)
    = Some ([t], X', b', st')
    ∧ trade_quantity t = 5 ∧ trade_price t = 10100
    ∧ bid_order t = 101 ∧ ask_order t = 100
    ∧ remaining_quantity X' = 0 ∧ status X' = FILLED
    ∧ asks b' = ∅ ∧ bids b' = ∅ ∧ order_lookup b' = ∅.
Proof.
  eexists _, _, _, _. split; [vm_compute; reflexivity|].
  repeat split.
Qed.


(* ===================================================================== *)
(** ** The book stays uncrossed *)
(* ===================================================================== *)

Lemma load_noop X b st :
  live_rows_in_book X b st → _load_matching_orders X b st = b.
Proof.
  intros Hin. unfold _load_matching_orders.
  assert (Forall (λ r, is_Some (order_lookup b !! order_id r))
            (matching_rows X st)) as HF.
  { apply Forall_forall. intros r Hr.
    apply matching_rows_spec in Hr as (H1 & H2 & H3 & H4 & _).
    by apply Hin. }
  induction HF as [|r rows [v Hr] _ IH]; [done|].
  simpl. unfold load_one at 2. by rewrite Hr.
Qed.

Lemma best_ask_lower_bound b p :
  book_wf b → p ∈ dom (asks b) → ∃ pa, best_ask b = Some pa ∧ pa <= p.
Proof.
  intros (_ & _ & _ & Hap & _ & Hba & _) Hp. rewrite <- Hap in Hp.
  destruct (set_min (ask_prices b)) as [m|] eqn:E.
  - exists m. split; [done|]. apply set_min_Some in E as [_ E]. by apply E.
  - apply set_min_None in E. set_solver.
Qed.

Lemma best_bid_upper_bound b p :
  book_wf b → p ∈ dom (bids b) → ∃ pb, best_bid b = Some pb ∧ p <= pb.
Proof.
  intros (_ & _ & Hbp & _ & Hbb & _ & _) Hp. rewrite <- Hbp in Hp.
  destruct (set_max (bid_prices b)) as [m|] eqn:E.
  - exists m. split; [done|]. apply set_max_Some in E as [_ E]. by apply E.
  - apply set_max_None in E. set_solver.
Qed.

Lemma book_wf_best_bid_eq b b1 :
  book_wf b → book_wf b1 → bids b1 = bids b → best_bid b1 = best_bid b.
Proof.
  intros (_ & _ & Hbp & _ & Hbb & _ & _) (_ & _ & Hbp1 & _ & Hbb1 & _ & _) E.
  by rewrite Hbb1, Hbp1, E, <- Hbp, <- Hbb.
Qed.

Lemma book_wf_best_ask_eq b b1 :
  book_wf b → book_wf b1 → asks b1 = asks b → best_ask b1 = best_ask b.
Proof.
  intros (_ & _ & _ & Hap & _ & Hba & _) (_ & _ & _ & Hap1 & _ & Hba1 & _) E.
  by rewrite Hba1, Hap1, E, <- Hap, <- Hba.
Qed.

(** A buy match takes from the asks only: the bids are as before and no
    ask level appears. *)
Lemma match_buy_order_sides X b st :
  book_wf b →
  ∃ trades X' b' st',
    _match_buy_order X b st = Some (Ok trades, X', b', st')
    ∧ bids b' = bids b ∧ (dom (asks b') : gset Z) ⊆ dom (asks b).
Proof.
  intros Hwf.
  destruct (match_buy_order_inv X b st
              (λ _ b1 _ _, bids b1 = bids b
                           ∧ (dom (asks b1) : gset Z) ⊆ dom (asks b))
              Hwf (conj eq_refl (reflexivity _)))
    as (ts & X' & b' & st' & Hm & _ & HJ & _).
  - intros X1 b1 st1 ts pa Y rest _ [Hb Hd] _ _ Has _ _ _.
    unfold after_buy_trade. cbv zeta.
    apply elem_of_dom_2 in Has.
    destruct (_ =? 0).
    + rewrite bids_pop_ask, asks_pop_ask. split; [done|].
      destruct rest; [rewrite dom_delete_L|rewrite dom_insert_L];
        apply elem_of_subseteq; intros x Hx;
        apply (proj1 (elem_of_subseteq _ _) Hd).
      * by apply elem_of_difference in Hx as [Hx _].
      * apply elem_of_union in Hx as [Hx|Hx]; [|done].
        by apply elem_of_singleton in Hx as ->.
    + cbn [bids asks set_asks]. split; [done|].
      rewrite dom_insert_L. apply elem_of_subseteq. intros x Hx.
      apply (proj1 (elem_of_subseteq _ _) Hd).
      apply elem_of_union in Hx as [Hx|Hx]; [|done].
      by apply elem_of_singleton in Hx as ->.
  - by exists ts, X', b', st'.
Qed.

Lemma match_sell_order_sides X b st :
  book_wf b →
  ∃ trades X' b' st',
    _match_sell_order X b st = Some (Ok trades, X', b', st')
    ∧ asks b' = asks b ∧ (dom (bids b') : gset Z) ⊆ dom (bids b).
Proof.
  intros Hwf.
  destruct (match_sell_order_inv X b st
              (λ _ b1 _ _, asks b1 = asks b
                           ∧ (dom (bids b1) : gset Z) ⊆ dom (bids b))
              Hwf (conj eq_refl (reflexivity _)))
    as (ts & X' & b' & st' & Hm & _ & HJ & _).
  - intros X1 b1 st1 ts pb Y rest _ [Ha Hd] _ _ Hbs _ _ _.
    unfold after_sell_trade. cbv zeta.
    apply elem_of_dom_2 in Hbs.
    destruct (_ =? 0).
    + rewrite asks_pop_bid, bids_pop_bid. split; [done|].
      destruct rest; [rewrite dom_delete_L|rewrite dom_insert_L];
        apply elem_of_subseteq; intros x Hx;
        apply (proj1 (elem_of_subseteq _ _) Hd).
      * by apply elem_of_difference in Hx as [Hx _].
      * apply elem_of_union in Hx as [Hx|Hx]; [|done].
        by apply elem_of_singleton in Hx as ->.
    + cbn [bids asks set_bids]. split; [done|].
      rewrite dom_insert_L. apply elem_of_subseteq. intros x Hx.
      apply (proj1 (elem_of_subseteq _ _) Hd).
      apply elem_of_union in Hx as [Hx|Hx]; [|done].
      by apply elem_of_singleton in Hx as ->.
  - by exists ts, X', b', st'.
Qed.

Lemma best_prices_book_after_match X' b1 ts :
  best_bid (book_after_match X' b1 ts)
  = (if remaining_quantity X' >? 0
     then if side X' =? 1
          then match best_bid b1 with
               | None => Some (price X')
               | Some bb =>
                   if price X' >? bb then Some (price X') else Some bb
               end
          else best_bid b1
     else best_bid b1)
  ∧ best_ask (book_after_match X' b1 ts)
    = (if remaining_quantity X' >? 0
       then if side X' =? 1 then best_ask b1
            else match best_ask b1 with
                 | None => Some (price X')
                 | Some ba =>
                     if price X' <? ba then Some (price X') else Some ba
                 end
       else best_ask b1).
Proof.
  unfold book_after_match. cbn [best_bid best_ask set_metrics].
  destruct (remaining_quantity X' >? 0); [|done].
  destruct (side X' =? 1).
  - rewrite best_bid_add_buy_order.
    by destruct (ask_side_add_buy_order X' b1) as [_ ->].
  - rewrite best_ask_add_sell_order.
    by destruct (bid_side_add_sell_order X' b1) as [_ ->].
Qed.

(** [add_order] leaves an uncrossed book uncrossed, with the book it
    leaves. *)
Lemma add_order_uncrossed_aux X b st :
  book_wf b → uncrossed b → live_rows_in_book X b st →
  ∃ trades X' b1 st',
    add_order X b st
    = Some (trades, X', book_after_match X' b1 trades, st')
    ∧ uncrossed (book_after_match X' b1 trades).
Proof.
  intros Hwf Hun Hlive.
  pose proof (load_noop X b st Hlive) as Hload.
  destruct (side X =? 1) eqn:Hs.
  - destruct (match_buy_order_account X b st ltac:(lia) Hwf)
      as (ts & X' & b1 & st' & Hm & Hwf1 & Hacc & Hexit).
    destruct (match_buy_order_sides X b st Hwf)
      as (ts2 & X2 & b2 & st2 & Hm2 & Hbids & Hdom).
    rewrite Hm in Hm2. injection Hm2 as <- <- <- <-.
    destruct Hacc as (_ & HsX & _).
    exists ts, X', b1, st'. split.
    { apply add_order_after_match; [done|]. by rewrite Hs, Hload. }
    intros pb pa.
    destruct (best_prices_book_after_match X' b1 ts) as [-> ->].
    rewrite HsX, Hs, (book_wf_best_bid_eq b b1 Hwf Hwf1 Hbids).
    assert (∀ pa, best_ask b1 = Some pa →
              ∃ pa0, best_ask b = Some pa0 ∧ pa0 <= pa) as Hlow.
    { intros pa1 H1.
      destruct (book_wf_best_ask b1 pa1 Hwf1 H1) as (Y & rest & Has & _).
      apply best_ask_lower_bound; [done|].
      apply Hdom. by apply elem_of_dom_2 in Has. }
    assert (∀ pb0 pa1, best_bid b = Some pb0 → best_ask b1 = Some pa1 →
              pb0 < pa1) as Hold.
    { intros pb0 pa1 H0 H1. destruct (Hlow pa1 H1) as (pa0 & H2 & H3).
      specialize (Hun pb0 pa0 H0 H2). lia. }
    destruct (remaining_quantity X' >? 0) eqn:ER; [|by apply Hold].
    intros Hpb Hpa.
    assert (price X' < pa) as Hlt.
    { destruct (book_wf_best_ask b1 pa Hwf1 Hpa) as (_ & _ & _ & Hne & _).
      specialize (Hexit pa Hpa). unfold buy_crosses in Hexit. lia. }
    destruct (best_bid b) as [bb|] eqn:Hbb.
    + specialize (Hold bb pa eq_refl Hpa).
      destruct (price X' >? bb); injection Hpb as <-; lia.
    + injection Hpb as <-. lia.
  - destruct (match_sell_order_account X b st ltac:(lia) Hwf)
      as (ts & X' & b1 & st' & Hm & Hwf1 & Hacc & Hexit).
    destruct (match_sell_order_sides X b st Hwf)
      as (ts2 & X2 & b2 & st2 & Hm2 & Hasks & Hdom).
    rewrite Hm in Hm2. injection Hm2 as <- <- <- <-.
    destruct Hacc as (_ & HsX & _).
    exists ts, X', b1, st'. split.
    { apply add_order_after_match; [done|]. by rewrite Hs, Hload. }
    intros pb pa.
    destruct (best_prices_book_after_match X' b1 ts) as [-> ->].
    rewrite HsX, Hs, (book_wf_best_ask_eq b b1 Hwf Hwf1 Hasks).
    assert (∀ pb1, best_bid b1 = Some pb1 →
              ∃ pb0, best_bid b = Some pb0 ∧ pb1 <= pb0) as Hup.
    { intros pb1 H1.
      destruct (book_wf_best_bid b1 pb1 Hwf1 H1) as (Y & rest & Hbs & _).
      apply best_bid_upper_bound; [done|].
      apply Hdom. by apply elem_of_dom_2 in Hbs. }
    assert (∀ pb1 pa0, best_bid b1 = Some pb1 → best_ask b = Some pa0 →
              pb1 < pa0) as Hold.
    { intros pb1 pa0 H1 H0. destruct (Hup pb1 H1) as (pb0 & H2 & H3).
      specialize (Hun pb0 pa0 H2 H0). lia. }
    destruct (remaining_quantity X' >? 0) eqn:ER; [|by apply Hold].
    intros Hpb Hpa.
    assert (pb < price X') as Hlt.
    { destruct (book_wf_best_bid b1 pb Hwf1 Hpb) as (_ & _ & _ & Hne & _).
      specialize (Hexit pb Hpb). unfold sell_crosses in Hexit. lia. }
    destruct (best_ask b) as [ba|] eqn:Hba.
    + specialize (Hold pb ba Hpb eq_refl).
      destruct (price X' <? ba); injection Hpa as <-; lia.
    + injection Hpa as <-. lia.
Qed.

(** X10.  [add_order] leaves an uncrossed book uncrossed: when the book is
    well formed, its best bid is below its best ask, and the store holds no
    live order that is missing from the book, the call returns and the best
    bid of the book it leaves is again below the best ask, whether the
    incoming order was filled, rests, or both. *)
Theorem add_order_keeps_uncrossed X b st :
  book_wf b → uncrossed b → live_rows_in_book X b st →
  ∃ trades X' b' st',
    add_order X b st = Some (trades, X', b', st') ∧ uncrossed b'.
Proof.
  intros Hwf Hun Hlive.
  destruct (add_order_uncrossed_aux X b st Hwf Hun Hlive)
    as (ts & X' & b1 & st' & Hadd & Hun').
  by exists ts, X', (book_after_match X' b1 ts), st'.
Qed.

Lemma add_order_keeps_uncrossed_witness :
  book_wf (book ex_world_one_ask)
  ∧ uncrossed (book ex_world_one_ask)
  ∧ live_rows_in_book ex_buy (book ex_world_one_ask)
      (store ex_world_one_ask)
  ∧ ∃ trades X' b' st',
      add_order ex_buy (book ex_world_one_ask) (store ex_world_one_ask)
      = Some (trades, X', b', st')
      ∧ uncrossed b'.
Proof.
  assert (uncrossed (book ex_world_one_ask)) as Hun
    by (intros pb pa H; discriminate H).
  assert (live_rows_in_book ex_buy (book ex_world_one_ask)
            (store ex_world_one_ask)) as Hlive.
  { intros r Hr _ _ _. apply list_elem_of_singleton in Hr as ->.
    vm_compute. eauto. }
  split; [exact ex_world_one_ask_wf|]. split; [exact Hun|].
  split; [exact Hlive|].
  exact (add_order_keeps_uncrossed ex_buy (book ex_world_one_ask)
           (store ex_world_one_ask) ex_world_one_ask_wf Hun Hlive).
Defined.

(* ===================================================================== *)
(** ** A modified order that does not trade *)
(* ===================================================================== *)

Lemma upsert_trades_tbl r st :
  trades_tbl (set_orders_tbl (upsert r (orders_tbl st)) st) = trades_tbl st.
Proof. reflexivity. Qed.

(** X11.  An order that rests in the book is modified, and its worker runs
    before anything else.  The worker takes the old instance out of the
    book and saves it as cancelled, over the row [update] has just written,
    then matches the re-priced instance.  If that makes no trade the
    re-priced order rests in the book at the new price, and nothing writes
    its row again: the row stays CANCELLED, inactive and at the old price,
    so that [destroy] answers 400 for an order that is in the book. *)
Theorem modify_leaves_row_cancelled pk req w row p s c :
  book_wf (book w) → Forall loadable (orders_tbl (store w)) →
  pending w = [] →
  Order_objects_get pk (store w) = Some row →
  is_active row = true →
  status row = ACTIVE ∨ status row = PARTIALLY_FILLED →
  order_lookup (book w) !! pk = Some (p, s) →
  ModifyOrderSerializer req = inl c →
  ∃ w2,
    http_status (update pk req w).1 = 200
    ∧ run_worker (update pk req w).2 = Some w2
    ∧ (trades_tbl (store w2) = trades_tbl (store w) →
       ∃ row2,
         Order_objects_get pk (store w2) = Some row2
         ∧ status row2 = CANCELLED ∧ is_active row2 = false
         ∧ price row2 = p
         ∧ order_lookup (book w2) !! pk
           = Some (c, if side row =? 1 then 1 else -1)
         ∧ http_status (destroy pk w2).1 = 400
         ∧ (destroy pk w2).2 = w2).
Proof.
  intros Hwf Hrows Hpend Hget Hact Hlive Hlk Hser.
  pose proof (Order_objects_get_In _ _ _ Hget) as [Hin Hid].
  assert (modifiable row) as Hm
    by (split; [done|]; destruct Hlive as [-> | ->]; by split).
  rewrite Forall_forall in Hrows.
  destruct (Hrows row Hin Hact Hlive) as [Hprice HR].
  destruct (update_cases pk req w)
    as [(Hget' & _)
       |[(row1 & Hget' & Hm' & _)
        |[(row1 & errs & _ & _ & Hser' & _)
         |(row1 & c1 & Hget' & _ & Hser' & Hs & Hw)]]];
    [congruence| |congruence|].
  { rewrite Hget in Hget'. injection Hget' as <-. done. }
  rewrite Hget in Hget'. injection Hget' as <-.
  rewrite Hser in Hser'. injection Hser' as <-.
  rewrite Hs, Hw. cbv zeta. rewrite Hpend. cbn [app].
  set (o := set_updated_at (clock (store w))
              (set_is_active true (set_status ACTIVE (set_price c row)))).
  set (st1 := set_orders_tbl (upsert (to_row o) (orders_tbl (store w)))
                (store w)).
  destruct (cancel_order_resting pk (book w) st1 p s Hwf Hlk)
    as (o0 & b' & Hc & Hid0 & Hp0 & HR0 & _ & Hwf' & Hnot).
  set (st2 := (Order_save (cancelled o0) st1).2) in *.
  assert (1 <= c) as Hc1.
  { apply ModifyOrderSerializer_inv in Hser as (i & pq & _ & _ & Hpq).
    apply serializer_price_range in Hpq. lia. }
  assert (Forall loadable (orders_tbl st2)) as Hrows2.
  { unfold st2, st1. cbn [Order_save snd orders_tbl set_orders_tbl].
    apply upsert_Forall; [intros H; done|].
    apply upsert_Forall.
    - intros _ _. cbn. split; [lia|exact HR].
    - by apply Forall_forall. }
  destruct (add_order_account o b' st2 Hwf' Hrows2)
    as (ts & X' & b1 & st3 & Hadd & Hwf1 & Hacc & _).
  exists (mkWorld (book_after_match X' b1 ts) st3 []).
  split; [done|]. split.
  { unfold run_worker, run_job. cbn [pending book store].
    assert (order_id o = pk) as -> by exact Hid.
    rewrite Hc. fold st2. by rewrite Hadd. }
  cbn [store book]. intros Htr.
  destruct Hacc as (_ & _ & _ & _ & _ & _ & _ & _ & Htbl & _ & _ & _ & _
                    & _ & Hnil).
  assert (ts = []) as ->.
  { rewrite Htr in Htbl. change (trades_tbl st2) with (trades_tbl (store w))
      in Htbl.
    rewrite <- (app_nil_r (trades_tbl (store w))) in Htbl at 1.
    by apply app_inv_head in Htbl. }
  destruct (Hnil eq_refl) as [-> ->].
  set (row2 := to_row (set_updated_at (clock st1) (cancelled o0))).
  assert (Order_objects_get pk st2 = Some row2) as Hget2.
  { unfold st2. cbn [Order_save snd]. rewrite <- Hid0.
    apply (Order_objects_get_upsert row2). }
  exists row2. split; [done|]. do 2 (split; [done|]). split; [exact Hp0|].
  split.
  { unfold book_after_match. cbn [order_lookup set_metrics].
    assert ((remaining_quantity o >? 0) = true) as -> by (cbn; lia).
    change (side o) with (side row). destruct (side row =? 1).
    - rewrite order_lookup_add_buy_order. cbn. rewrite Hid.
      apply lookup_insert_eq.
    - rewrite order_lookup_add_sell_order. cbn. rewrite Hid.
      apply lookup_insert_eq. }
  assert (¬ modifiable row2) as Hnm by (intros (H & _); done).
  destruct (destroy_cases pk (mkWorld (book_after_match o b1 []) st2 []))
    as [(Hg & _)
       |[(r1 & _ & _ & H400 & Hsame)
        |[(r1 & e & b2 & st4 & Hg & Hm1 & _)
         |(r1 & r & b2 & st4 & o1 & Hg & Hm1 & _)]]];
    [cbn [store] in Hg; congruence|done| |];
    cbn [store] in Hg; rewrite Hget2 in Hg; injection Hg as <-; done.
Qed.

Lemma modify_leaves_row_cancelled_witness :
  book_wf (book ex_world_one_ask)
  ∧ Forall loadable (orders_tbl (store ex_world_one_ask))
  ∧ ∃ w2,
      http_status (update 100 ex_modify ex_world_one_ask).1 = 200
      ∧ run_worker (update 100 ex_modify ex_world_one_ask).2 = Some w2
      ∧ (trades_tbl (store w2) = trades_tbl (store ex_world_one_ask) →
         ∃ row2,
           Order_objects_get 100 (store w2) = Some row2
           ∧ status row2 = CANCELLED ∧ is_active row2 = false
           ∧ price row2 = 10100
           ∧ order_lookup (book w2) !! 100
             = Some (10200, if side ex_ask =? 1 then 1 else -1)
           ∧ http_status (destroy 100 w2).1 = 400
           ∧ (destroy 100 w2).2 = w2).
Proof.
  assert (Forall loadable (orders_tbl (store ex_world_one_ask))) as Hrows.
  { constructor; [|constructor]. intros _ _.
    split; [discriminate|reflexivity]. }
  split; [exact ex_world_one_ask_wf|]. split; [exact Hrows|].
  apply (modify_leaves_row_cancelled 100 ex_modify ex_world_one_ask ex_ask
           10100 (-1) 10200 ex_world_one_ask_wf Hrows).
  - reflexivity.
  - reflexivity.
  - reflexivity.
  - left. reflexivity.
  - vm_compute. reflexivity.
  - vm_compute. reflexivity.
Defined.

(* ===================================================================== *)
(** ** _load_matching_orders *)
(* ===================================================================== *)

Lemma levels_extend_refl levels : levels_extend levels levels.
Proof. intros p l H. exists []. by rewrite app_nil_r. Qed.

Lemma levels_extend_trans l1 l2 l3 :
  levels_extend l1 l2 → levels_extend l2 l3 → levels_extend l1 l3.
Proof.
  intros H12 H23 p l H. destruct (H12 p l H) as [l' H'].
  destruct (H23 p _ H') as [l'' H'']. exists (l' ++ l'').
  by rewrite app_assoc.
Qed.

Lemma levels_extend_append (levels : gmap Z (list Order)) o p :
  levels_extend levels (<[p := default [] (levels !! p) ++ [o]]> levels).
Proof.
  intros p' l H. destruct (decide (p' = p)) as [->|Hne].
  - rewrite lookup_insert_eq, H. by exists [o].
  - rewrite lookup_insert_ne by done. exists []. by rewrite app_nil_r.
Qed.

Lemma load_one_props b r :
  is_Some (order_lookup (load_one b r) !! order_id r)
  ∧ (∀ oid v, order_lookup b !! oid = Some v →
              order_lookup (load_one b r) !! oid = Some v)
  ∧ (∀ oid, is_Some (order_lookup (load_one b r) !! oid) →
            is_Some (order_lookup b !! oid) ∨ oid = order_id r)
  ∧ levels_extend (bids b) (bids (load_one b r))
  ∧ levels_extend (asks b) (asks (load_one b r)).
Proof.
  unfold load_one.
  destruct (order_lookup b !! order_id r) as [v|] eqn:E.
  - split; [by rewrite E|]. split; [done|]. split; [by left|].
    split; apply levels_extend_refl.
  - destruct (side r =? 1).
    + rewrite order_lookup_add_buy_order, bids_add_buy_order,
        asks_add_buy_order.
      split; [by rewrite lookup_insert_eq|]. split.
      { intros oid v H. rewrite lookup_insert_ne; [done|congruence]. }
      split.
      { intros oid H. destruct (decide (oid = order_id r)) as [->|Hne];
          [by right|]. left. by rewrite lookup_insert_ne in H. }
      split; [apply levels_extend_append|apply levels_extend_refl].
    + rewrite order_lookup_add_sell_order, bids_add_sell_order,
        asks_add_sell_order.
      split; [by rewrite lookup_insert_eq|]. split.
      { intros oid v H. rewrite lookup_insert_ne; [done|congruence]. }
      split.
      { intros oid H. destruct (decide (oid = order_id r)) as [->|Hne];
          [by right|]. left. by rewrite lookup_insert_ne in H. }
      split; [apply levels_extend_refl|apply levels_extend_append].
Qed.

Lemma foldl_load_one_props rows : ∀ b,
  (∀ r, r ∈ rows → is_Some (order_lookup (foldl load_one b rows)
                              !! order_id r))
  ∧ (∀ oid v, order_lookup b !! oid = Some v →
              order_lookup (foldl load_one b rows) !! oid = Some v)
  ∧ (∀ oid, is_Some (order_lookup (foldl load_one b rows) !! oid) →
            is_Some (order_lookup b !! oid)
            ∨ ∃ r, r ∈ rows ∧ order_id r = oid)
  ∧ levels_extend (bids b) (bids (foldl load_one b rows))
  ∧ levels_extend (asks b) (asks (foldl load_one b rows)).
Proof.
  induction rows as [|r rows IH]; intros b; simpl.
  - split; [intros r Hr; by apply elem_of_nil in Hr|].
    split; [done|]. split; [by left|]. split; apply levels_extend_refl.
  - destruct (IH (load_one b r)) as (H1 & H2 & H3 & H4 & H5).
    destruct (load_one_props b r) as (G1 & G2 & G3 & G4 & G5).
    split.
    { intros r' Hr'. apply elem_of_cons in Hr' as [->|Hr']; [|by apply H1].
      destruct G1 as [v Hv]. exists v. by apply H2. }
    split; [intros oid v H; by apply H2, G2|].
    split.
    { intros oid H. destruct (H3 oid H) as [H'|(r' & Hr' & Hid)].
      - destruct (G3 oid H') as [?| ->]; [by left|].
        right. exists r. split; [by left|done].
      - right. exists r'. split; [by right|done]. }
    split; eapply levels_extend_trans; eauto.
Qed.

Lemma foldl_load_one_noop rows : ∀ b,
  (∀ r, r ∈ rows → is_Some (order_lookup b !! order_id r)) →
  foldl load_one b rows = b.
Proof.
  induction rows as [|r rows IH]; intros b H; simpl; [done|].
  destruct (H r ltac:(by left)) as [v Hv].
  unfold load_one at 2. rewrite Hv. apply IH.
  intros r' Hr'. apply H. by right.
Qed.

(** X12.  [_load_matching_orders] brings every row of its query into the
    book and nothing else: afterwards each matching row has an entry in
    [order_lookup]; an entry that was there is unchanged, and a new entry
    is the id of a matching row, never the incoming order's.  Orders that
    rest keep their places: each level keeps its orders in front, loaded
    rows queue behind them whatever their creation time, and the incoming
    order's own side is as before.  Loading a second time changes
    nothing. *)
Theorem load_matching_orders_spec X b st :
  (∀ r, r ∈ matching_rows X st →
        is_Some (order_lookup (_load_matching_orders X b st) !! order_id r))
  ∧ (∀ oid v, order_lookup b !! oid = Some v →
              order_lookup (_load_matching_orders X b st) !! oid = Some v)
  ∧ (∀ oid, is_Some (order_lookup (_load_matching_orders X b st) !! oid) →
            is_Some (order_lookup b !! oid)
            ∨ ∃ r, r ∈ matching_rows X st ∧ order_id r = oid
                   ∧ oid ≠ order_id X)
  ∧ levels_extend (bids b) (bids (_load_matching_orders X b st))
  ∧ levels_extend (asks b) (asks (_load_matching_orders X b st))
  ∧ (if side X =? 1 then bids (_load_matching_orders X b st) = bids b
     else asks (_load_matching_orders X b st) = asks b)
  ∧ _load_matching_orders X (_load_matching_orders X b st) st
    = _load_matching_orders X b st.
Proof.
  unfold _load_matching_orders.
  destruct (foldl_load_one_props (matching_rows X st) b)
    as (H1 & H2 & H3 & H4 & H5).
  split; [done|]. split; [done|]. split.
  { intros oid H. destruct (H3 oid H) as [?|(r & Hr & Hid)]; [by left|].
    right. exists r. split; [done|]. split; [done|].
    apply matching_rows_spec in Hr as (_ & _ & _ & Hne & _). congruence. }
  split; [done|]. split; [done|]. split.
  - assert (Forall (λ r, if side X =? 1 then side r ≠ 1 else side r = 1)
              (matching_rows X st)) as HF.
    { apply Forall_forall. intros r Hr.
      apply matching_rows_spec in Hr as (_ & _ & _ & _ & Hs).
      destruct (side X =? 1); [lia|tauto]. }
    clear H1 H2 H3 H4 H5. revert b.
    induction HF as [|r rows Hr _ IH]; intros b; simpl.
    + by destruct (side X =? 1).
    + specialize (IH (load_one b r)). destruct (side X =? 1).
      * rewrite IH. by apply load_one_sell_side.
      * rewrite IH. by apply load_one_buy_side.
  - by apply foldl_load_one_noop.
Qed.

(* ===================================================================== *)
(** ** cancel_order in a well-formed book *)
(* ===================================================================== *)

Lemma cancel_order_true_lookup oid b st b' st' :
  cancel_order oid b st = (Ok true, b', st') →
  order_lookup b' = delete oid (order_lookup b).
Proof.
  unfold cancel_order.
  destruct (order_lookup b !! oid) as [[p s]|]; [|by intros [= <- <-]].
  destruct (s =? 1).
  - destruct (bids b !! p) as [l|]; [|by intros [= <- <-]].
    destruct (list_remove_pk oid l) as [[o l']|]; [|by intros [= <- <-]].
    intros [= <- _]. destruct l'; cbn; [|done].
    by destruct (decide _).
  - destruct (asks b !! p) as [l|]; [|by intros [= <- <-]].
    destruct (list_remove_pk oid l) as [[o l']|]; [|by intros [= <- <-]].
    intros [= <- _]. destruct l'; cbn; [|done].
    by destruct (decide _).
Qed.

(** X13.  [cancel_order] on a well-formed book of persisted orders never
    raises.  It returns
    [False] exactly when the id has no entry in [order_lookup], and then
    changes nothing.  Otherwise it returns [True]: the instance [o] that
    rests under this id, in the level that [order_lookup] names, is in the
    book no more, and the row of the order is that instance with status
    CANCELLED, [is_active] false and the time of the call as [updated_at]:
    its remaining quantity, which is positive, and every other field are
    as the resting instance had them.  Nothing else is touched: the other
    entries of [order_lookup], the other rows and the trades are as before.
    The book stays well formed either way. *)
Theorem cancel_order_spec oid b st :
  book_wf b → book_persisted b st →
  ∃ r b' st',
    cancel_order oid b st = (Ok r, b', st')
    ∧ (r = true ↔ is_Some (order_lookup b !! oid))
    ∧ (r = false → b' = b ∧ st' = st)
    ∧ (r = true →
       ∃ p s l o,
         order_lookup b !! oid = Some (p, s)
         ∧ (if s =? 1 then bids b else asks b) !! p = Some l
         ∧ o ∈ l ∧ order_id o = oid ∧ 0 < remaining_quantity o
         ∧ Order_objects_get oid st'
           = Some (to_row (set_updated_at (clock st) (cancelled o))))
    ∧ (∀ p s l o row,
         order_lookup b !! oid = Some (p, s) →
         (if s =? 1 then bids b else asks b) !! p = Some l →
         o ∈ l → order_id o = oid →
         Order_objects_get oid st' = Some row →
         status row = CANCELLED ∧ is_active row = false
         ∧ remaining_quantity row = remaining_quantity o
         ∧ traded_quantity row = traded_quantity o
         ∧ quantity row = quantity o ∧ price row = price o
         ∧ side row = side o)
    ∧ book_wf b' ∧ not_in_book oid b'
    ∧ (∀ oid', oid' ≠ oid →
         order_lookup b' !! oid' = order_lookup b !! oid')
    ∧ (∀ pk, pk ≠ oid →
         Order_objects_get pk st' = Order_objects_get pk st)
    ∧ trades_tbl st' = trades_tbl st.
Proof.
  intros Hwf _. destruct (order_lookup b !! oid) as [[p s]|] eqn:Hlk.
  - pose proof Hwf as (_ & _ & _ & _ & _ & _ & Hlwf).
    assert (∃ l o, (if s =? 1 then bids b else asks b) !! p = Some l
                   ∧ o ∈ l ∧ order_id o = oid) as (l & o & Hl & Ho & Hid).
    { destruct (Hlwf oid p s Hlk) as [[-> (l & o & Hl & Ho & Hid & _)]
                                     |[-> (l & o & Hl & Ho & Hid & _)]];
        by exists l, o. }
    destruct (cancel_order_instance oid b st p s l o Hwf Hlk Hl Ho Hid)
      as (b' & Hc & Hp & HR & Hwf' & Hnot).
    assert (Order_objects_get oid (Order_save (cancelled o) st).2
            = Some (to_row (set_updated_at (clock st) (cancelled o))))
      as Hrow.
    { cbn [Order_save snd]. rewrite <- Hid.
      apply (Order_objects_get_upsert
               (to_row (set_updated_at (clock st) (cancelled o)))). }
    exists true, b', (Order_save (cancelled o) st).2.
    split; [done|]. split; [split; [eauto|done]|]. split; [done|].
    split.
    { intros _. exists p, s, l, o. by do 5 (split; [done|]). }
    split.
    { intros p2 s2 l2 o2 row [= <- <-] Hl2 Ho2 Hid2 Hget.
      rewrite Hl in Hl2. injection Hl2 as <-.
      destruct (cancel_order_instance oid b st p s l o2 Hwf Hlk Hl Ho2 Hid2)
        as (b2 & Hc2 & _).
      assert ((Order_save (cancelled o) st).2
              = (Order_save (cancelled o2) st).2) as Hst by congruence.
      rewrite Hst in Hget.
      assert (Order_objects_get oid (Order_save (cancelled o2) st).2
              = Some (to_row (set_updated_at (clock st) (cancelled o2))))
        as Hrow2.
      { cbn [Order_save snd]. rewrite <- Hid2.
        apply (Order_objects_get_upsert
                 (to_row (set_updated_at (clock st) (cancelled o2)))). }
      rewrite Hrow2 in Hget. injection Hget as <-. by repeat split. }
    split; [done|]. split; [done|]. split.
    { intros oid' Hne. rewrite (cancel_order_true_lookup _ _ _ _ _ Hc).
      by rewrite lookup_delete_ne. }
    split; [|done].
    intros pk Hne. unfold Order_objects_get.
    cbn [Order_save snd orders_tbl set_orders_tbl].
    apply find_upsert_ne. cbn. lia.
  - exists false, b, st. rewrite cancel_order_unknown by done.
    split; [done|]. split.
    { split; [done|]. intros [v Hv]. congruence. }
    split; [done|]. split; [done|]. split; [done|]. split; [done|].
    split; [by apply book_wf_not_in_book|]. done.
Qed.

Lemma cancel_order_spec_witness :
  book_wf (book ex_world_one_ask)
  ∧ book_persisted (book ex_world_one_ask) (store ex_world_one_ask)
  ∧ ∃ r b' st',
      cancel_order 100 (book ex_world_one_ask) (store ex_world_one_ask)
      = (Ok r, b', st')
      ∧ (r = true
         ↔ is_Some (order_lookup (book ex_world_one_ask) !! 100))
      ∧ (∀ row, Order_objects_get 100 st' = Some row →
           status row = CANCELLED
           ∧ remaining_quantity row = remaining_quantity ex_ask)
      ∧ book_wf b' ∧ not_in_book 100 b'.
Proof.
  split; [exact ex_world_one_ask_wf|].
  split; [exact ex_world_one_ask_persisted|].
  destruct (cancel_order_spec 100 (book ex_world_one_ask)
              (store ex_world_one_ask) ex_world_one_ask_wf
              ex_world_one_ask_persisted)
    as (r & b' & st' & Hc & Hr & _ & _ & Hrow & Hwf & Hnot & _).
  exists r, b', st'. do 2 (split; [done|]). split; [|done].
  intros row Hget.
  destruct (Hrow 10100 (-1) [ex_ask] ex_ask row) as (H1 & _ & H2 & _);
    [vm_compute; reflexivity|vm_compute; reflexivity|by left|reflexivity
    |done|done].
Defined.

(* ===================================================================== *)
(** ** The price levels and the cached best prices *)
(* ===================================================================== *)

(** X14.  [_add_sell_order] puts the order at the tail of the level at its
    price (a new level if there was none), leaves every other level and
    the bid side alone, and registers the order's id with its price and
    side; if the cached [best_ask] was the least ask price before, it is
    the least ask price afterwards, so that [_update_best_ask] would not
    change it.  [_add_buy_order] does the same on the bid side, with the
    greatest bid price. *)
Theorem add_order_to_level o b :
  (asks (_add_sell_order o b) !! price o
     = Some (default [] (asks b !! price o) ++ [o])
   ∧ (∀ p, p ≠ price o → asks (_add_sell_order o b) !! p = asks b !! p)
   ∧ bids (_add_sell_order o b) = bids b
   ∧ best_bid (_add_sell_order o b) = best_bid b
   ∧ order_lookup (_add_sell_order o b)
     = <[order_id o := (price o, -1)]> (order_lookup b)
   ∧ (ask_prices b = dom (asks b) →
      ask_prices (_add_sell_order o b) = dom (asks (_add_sell_order o b)))
   ∧ (ask_prices b = dom (asks b) → best_ask b = set_min (ask_prices b) →
      _update_best_ask (_add_sell_order o b) = _add_sell_order o b))
  ∧ (bids (_add_buy_order o b) !! price o
       = Some (default [] (bids b !! price o) ++ [o])
     ∧ (∀ p, p ≠ price o → bids (_add_buy_order o b) !! p = bids b !! p)
     ∧ asks (_add_buy_order o b) = asks b
     ∧ best_ask (_add_buy_order o b) = best_ask b
     ∧ order_lookup (_add_buy_order o b)
       = <[order_id o := (price o, 1)]> (order_lookup b)
     ∧ (bid_prices b = dom (bids b) →
        bid_prices (_add_buy_order o b) = dom (bids (_add_buy_order o b)))
     ∧ (bid_prices b = dom (bids b) → best_bid b = set_max (bid_prices b) →
        _update_best_bid (_add_buy_order o b) = _add_buy_order o b)).
Proof.
  assert (∀ (levels : gmap Z (list Order)) (s : gset Z) p l,
            s = dom levels →
            match levels !! p with
            | None => {[p]} ∪ s
            | Some _ => s
            end = dom (<[p := l]> levels)) as Hdom.
  { intros levels s p l ->. rewrite dom_insert_L.
    destruct (levels !! p) eqn:E; [|done].
    apply elem_of_dom_2 in E. set_solver. }
  split.
  - rewrite asks_add_sell_order, bids_add_sell_order,
      order_lookup_add_sell_order.
    destruct (bid_side_add_sell_order o b) as [_ ->].
    split; [by rewrite lookup_insert_eq|].
    split; [intros p Hne; by rewrite lookup_insert_ne|].
    do 3 (split; [done|]).
    assert (ask_prices b = dom (asks b) →
            ask_prices (_add_sell_order o b)
            = dom (<[price o := default [] (asks b !! price o) ++ [o]]>
                     (asks b))) as Hp.
    { intros H. rewrite ask_prices_add_sell_order. by apply Hdom. }
    split; [done|]. intros Hd Hbest.
    assert (best_ask (_add_sell_order o b)
            = set_min (ask_prices (_add_sell_order o b))) as Hb.
    { rewrite best_ask_add_sell_order, Hbest, set_min_insert.
      rewrite ask_prices_add_sell_order.
      destruct (asks b !! price o) eqn:E; [|done].
      apply elem_of_dom_2 in E. rewrite <- Hd in E.
      f_equal. set_solver. }
    unfold _update_best_ask. rewrite <- Hb.
    by destruct (_add_sell_order o b).
  - rewrite bids_add_buy_order, asks_add_buy_order,
      order_lookup_add_buy_order.
    destruct (ask_side_add_buy_order o b) as [_ ->].
    split; [by rewrite lookup_insert_eq|].
    split; [intros p Hne; by rewrite lookup_insert_ne|].
    do 3 (split; [done|]).
    assert (bid_prices b = dom (bids b) →
            bid_prices (_add_buy_order o b)
            = dom (<[price o := default [] (bids b !! price o) ++ [o]]>
                     (bids b))) as Hp.
    { intros H. rewrite bid_prices_add_buy_order. by apply Hdom. }
    split; [done|]. intros Hd Hbest.
    assert (best_bid (_add_buy_order o b)
            = set_max (bid_prices (_add_buy_order o b))) as Hb.
    { rewrite best_bid_add_buy_order, Hbest, set_max_insert.
      rewrite bid_prices_add_buy_order.
      destruct (bids b !! price o) eqn:E; [|done].
      apply elem_of_dom_2 in E. rewrite <- Hd in E.
      f_equal. set_solver. }
    unfold _update_best_bid. rewrite <- Hb.
    by destruct (_add_buy_order o b).
Qed.

(** X15.  [_update_best_ask] sets [best_ask] to the least of [ask_prices],
    and to [None] exactly when there is none; [_update_best_bid] sets
    [best_bid] to the greatest of [bid_prices]; neither touches a level, a
    price set or [order_lookup]. *)
Theorem update_best_prices_spec b :
  (∀ m, best_ask (_update_best_ask b) = Some m
        ↔ m ∈ ask_prices b ∧ ∀ x, x ∈ ask_prices b → m <= x)
  ∧ (best_ask (_update_best_ask b) = None ↔ ask_prices b = ∅)
  ∧ (∀ m, best_bid (_update_best_bid b) = Some m
          ↔ m ∈ bid_prices b ∧ ∀ x, x ∈ bid_prices b → x <= m)
  ∧ (best_bid (_update_best_bid b) = None ↔ bid_prices b = ∅)
  ∧ best_bid (_update_best_ask b) = best_bid b
  ∧ best_ask (_update_best_bid b) = best_ask b
  ∧ asks (_update_best_ask b) = asks b ∧ bids (_update_best_ask b) = bids b
  ∧ asks (_update_best_bid b) = asks b ∧ bids (_update_best_bid b) = bids b
  ∧ order_lookup (_update_best_ask b) = order_lookup b
  ∧ order_lookup (_update_best_bid b) = order_lookup b
  ∧ ask_prices (_update_best_ask b) = ask_prices b
  ∧ bid_prices (_update_best_bid b) = bid_prices b.
Proof.
  unfold _update_best_ask, _update_best_bid.
  cbn [best_ask best_bid set_best_ask set_best_bid asks bids order_lookup
       ask_prices bid_prices].
  split; [intros m; apply set_min_Some|].
  split; [apply set_min_None|].
  split; [intros m; apply set_max_Some|].
  split; [apply set_max_None|]. by repeat split.
Qed.

(* ===================================================================== *)
(** ** update_trade and the row it writes *)
(* ===================================================================== *)

(** X16.  Take an order that has its row and holds values its columns
    accept, a trade quantity that is not negative and within the remaining
    quantity, and a trade price as the price column holds it.  The call of
    [update_trade] succeeds: the remaining quantity goes down and the
    traded quantity up by the trade quantity, and neither is negative; the
    order is FILLED and inactive exactly when nothing remains,
    PARTIALLY_FILLED when something remains and something is traded; the
    row read back afterwards is the instance, with the average at two
    decimal places; no other row and no trade is touched. *)
Theorem update_trade_persists q p o st :
  has_row o st → storable o →
  0 <= q → q <= remaining_quantity o → 0 < p < 10 ^ 10 →
  ∃ o' st',
    update_trade q p o st = (Ok tt, o', st')
    ∧ remaining_quantity o' = remaining_quantity o - q
    ∧ traded_quantity o' = traded_quantity o + q
    ∧ 0 <= remaining_quantity o' ∧ 0 <= traded_quantity o'
    ∧ order_id o' = order_id o ∧ side o' = side o ∧ price o' = price o
    ∧ quantity o' = quantity o ∧ created_at o' = created_at o
    ∧ updated_at o' = clock st
    ∧ (remaining_quantity o' = 0 →
       status o' = FILLED ∧ is_active o' = false)
    ∧ (remaining_quantity o' ≠ 0 →
       is_active o' = is_active o
       ∧ (0 < traded_quantity o' → status o' = PARTIALLY_FILLED)
       ∧ (traded_quantity o' <= 0 → status o' = status o))
    ∧ Order_objects_get (order_id o) st' = Some (to_row o')
    ∧ (∀ pk, pk ≠ order_id o →
         Order_objects_get pk st' = Order_objects_get pk st)
    ∧ trades_tbl st' = trades_tbl st ∧ clock st' = clock st.
Proof.
  intros _ (_ & HR0 & HT0 & _) Hq0 Hq _.
  rewrite (update_trade_success q p o st Hq).
  eexists _, _. split; [reflexivity|].
  cbn [fill_fields remaining_quantity traded_quantity order_id side price
       quantity created_at updated_at status is_active].
  do 2 (split; [reflexivity|]). do 2 (split; [lia|]).
  do 6 (split; [reflexivity|]).
  split.
  { intros H. apply Z.eqb_eq in H. by rewrite H. }
  split.
  { intros H. apply Z.eqb_neq in H. rewrite H. split; [done|].
    split; intros Ht.
    - assert ((traded_quantity o + q >? 0) = true) as -> by lia. done.
    - assert ((traded_quantity o + q >? 0) = false) as -> by lia. done. }
  split.
  { apply (Order_objects_get_upsert
             (to_row (fill_fields q p (clock st) o))). }
  split; [|done].
  intros pk Hne. unfold Order_objects_get. cbn [orders_tbl set_orders_tbl].
  apply find_upsert_ne. cbn. lia.
Qed.

Lemma update_trade_persists_witness :
  3 <= remaining_quantity ex_bid_10
  ∧ ∃ o' st',
      update_trade 3 10000 ex_bid_10 ex_store_two_bids = (Ok tt, o', st')
      ∧ remaining_quantity o' = remaining_quantity ex_bid_10 - 3
      ∧ created_at o' = created_at ex_bid_10
      ∧ Order_objects_get (order_id ex_bid_10) st' = Some (to_row o').
Proof.
  assert (3 <= remaining_quantity ex_bid_10) as H by (cbn; lia).
  split; [exact H|].
  destruct (update_trade_persists 3 10000 ex_bid_10 ex_store_two_bids)
    as (o' & st' & Hu & HR & _ & _ & _ & _ & _ & _ & _ & Hca & _ & _ & _
        & Hg & _).
  - by eexists.
  - apply storable_untraded; lia.
  - lia.
  - exact H.
  - lia.
  - by exists o', st'.
Defined.

(* ===================================================================== *)
(** ** The trade list and its pages *)
(* ===================================================================== *)

Lemma insert_trade_perm x l : insert_trade x l ≡ₚ x :: l.
Proof.
  induction l as [|y l IH]; simpl; [done|].
  destruct (_ <=? _); [done|]. rewrite IH. apply Permutation_swap.
Qed.

Lemma trades_newest_first_perm l : trades_newest_first l ≡ₚ l.
Proof.
  induction l as [|x l IH]; simpl; [done|].
  rewrite insert_trade_perm. by rewrite IH.
Qed.

Lemma insert_trade_sorted x l :
  StronglySorted (λ a b, trade_created_at b <= trade_created_at a) l →
  StronglySorted (λ a b, trade_created_at b <= trade_created_at a)
    (insert_trade x l).
Proof.
  induction 1 as [|y l Hl IH Hy]; simpl.
  - repeat constructor.
  - destruct (trade_created_at y <=? trade_created_at x) eqn:E.
    + constructor; [by constructor|].
      constructor; [lia|]. eapply Forall_impl; [exact Hy|].
      intros z Hz. cbn in Hz. lia.
    + constructor; [done|].
      rewrite insert_trade_perm. constructor; [lia|done].
Qed.

Lemma trades_newest_first_sorted l :
  StronglySorted (λ a b, trade_created_at b <= trade_created_at a)
    (trades_newest_first l).
Proof.
  induction l as [|x l IH]; simpl; [constructor|].
  by apply insert_trade_sorted.
Qed.

Lemma num_pages_bounds count per_page :
  0 <= count → 1 <= per_page →
  1 <= num_pages count per_page
  ∧ count <= num_pages count per_page * per_page
  ∧ (num_pages count per_page - 1) * per_page < Z.max 1 count.
Proof.
  intros Hc Hp. unfold num_pages.
  pose proof (Z.div_mod (Z.max 1 count + per_page - 1) per_page
                ltac:(lia)) as Hdm.
  pose proof (Z.mod_pos_bound (Z.max 1 count + per_page - 1) per_page
                ltac:(lia)) as Hmod.
  set (n := (Z.max 1 count + per_page - 1) / per_page) in *.
  assert (1 <= n) by nia. split; [done|]. split; nia.
Qed.

(** A page that exists is the slice of its [per_page] objects. *)
Lemma Paginator_page_Some {A} (l : list A) per_page number :
  1 <= per_page →
  1 <= number <= num_pages (Z.of_nat (length l)) per_page →
  Paginator_page l per_page number
  = Some (take (Z.to_nat per_page)
            (drop (Z.to_nat ((number - 1) * per_page)) l)).
Proof.
  intros Hp Hn. unfold Paginator_page.
  destruct ((number <? 1)
            || (number >? num_pages (Z.of_nat (length l)) per_page))
    eqn:E; [lia|].
  f_equal.
  destruct ((number - 1) * per_page + per_page >=? Z.of_nat (length l))
    eqn:Et.
  - rewrite !take_ge; [done| |]; rewrite length_drop; nia.
  - f_equal. lia.
Qed.

Lemma Paginator_page_None {A} (l : list A) per_page number :
  Paginator_page l per_page number = None
  ↔ number < 1 ∨ num_pages (Z.of_nat (length l)) per_page < number.
Proof.
  unfold Paginator_page.
  destruct ((number <? 1)
            || (number >? num_pages (Z.of_nat (length l)) per_page))
    eqn:E; split; try done; try lia.
Qed.

(** The slices of [k] objects, one after the other, are the list. *)
Lemma concat_slices {A} (k : nat) : ∀ (n : nat) (l : list A),
  (0 < k)%nat → (length l <= n * k)%nat →
  concat ((λ i, take k (drop (i * k) l)) <$> seq 0 n) = l.
Proof.
  induction n as [|n IH]; intros l Hk Hl.
  - destruct l; [done|]. simpl in Hl. lia.
  - rewrite <- cons_seq, fmap_cons. cbn [concat].
    change (0 * k)%nat with 0%nat. rewrite drop_0.
    rewrite <- fmap_S_seq, <- list_fmap_compose.
    transitivity (take k l ++ drop k l); [|apply take_drop]. f_equal.
    etransitivity; [|apply (IH (drop k l) Hk); rewrite length_drop; lia].
    apply (f_equal (@concat A)). apply list_fmap_ext. intros i x _. cbn.
    rewrite drop_drop. repeat (f_equal; try lia).
Qed.

(** X17.  [TradeListView.get] answers 200 with the trades of one page,
    newest first, and the page data.  The page size is the one asked for
    if it is between 1 and 100, and 20 otherwise; no more trades than that
    are listed.  The trades listed are those of the page asked for (pages
    below 1 count as page 1) if there is such a page; beyond the last page
    the first page is listed, and [has_next] and [has_previous] are those
    of the first page, while the [page] field still echoes the number asked
    for.  The pages, one after the other, are the trades table sorted:
    every trade is on exactly one page. *)
Theorem trade_list_pagination page page_size st :
  let pg := if default 1 page <? 1 then 1 else default 1 page in
  let ps := if (default 20 page_size <? 1) || (default 20 page_size >? 100)
            then 20 else default 20 page_size in
  let trades := trades_newest_first (trades_tbl st) in
  let count := Z.of_nat (length (trades_tbl st)) in
  let number := listed_page pg count ps in
  let shown :=
    take (Z.to_nat ps) (drop (Z.to_nat ((number - 1) * ps)) trades) in
  TradeListView_get page page_size st
  = mkResponse 200
      [("trades",
        JList (map (λ t, JDict (TradeSerializer (mkTradeObj t None)))
                 shown));
       ("pagination",
        JDict
          [("page", JInt pg);
           ("page_size", JInt ps);
           ("total_pages", JInt (num_pages count ps));
           ("total_count", JInt count);
           ("has_next", JBool (number <? num_pages count ps));
           ("has_previous", JBool (number >? 1))])]
  ∧ 1 <= ps <= 100 ∧ 1 <= pg ∧ 1 <= number <= num_pages count ps
  ∧ (length shown <= Z.to_nat ps)%nat
  ∧ trades ≡ₚ trades_tbl st
  ∧ StronglySorted (λ a b, trade_created_at b <= trade_created_at a) trades
  ∧ concat ((λ i, default [] (Paginator_page trades ps (Z.of_nat i)))
              <$> seq 1 (Z.to_nat (num_pages count ps)))
    = trades.
Proof.
  intros pg ps trades count number shown.
  assert (1 <= ps <= 100) as Hps.
  { unfold ps. destruct ((default 20 page_size <? 1)
                         || (default 20 page_size >? 100)) eqn:E; lia. }
  assert (1 <= pg) as Hpg.
  { unfold pg. destruct (default 1 page <? 1) eqn:E; lia. }
  assert (length trades = length (trades_tbl st)) as Hlen
    by (unfold trades; by rewrite trades_newest_first_perm).
  assert (Z.of_nat (length trades) = count) as Hcount
    by (unfold count; by rewrite Hlen).
  destruct (num_pages_bounds count ps ltac:(lia) ltac:(lia))
    as (Hn1 & Hn2 & Hn3).
  assert (1 <= number <= num_pages count ps) as Hnum.
  { unfold number, listed_page.
    destruct (pg <=? num_pages count ps) eqn:E; lia. }
  split.
  { unfold TradeListView_get. fold pg. fold ps. fold trades.
    rewrite Hcount. unfold shown, number, listed_page in *.
    destruct (pg <=? num_pages count ps) eqn:E.
    - rewrite Paginator_page_Some by (rewrite ?Hcount; lia). reflexivity.
    - assert (Paginator_page trades ps pg = None) as ->
        by (apply Paginator_page_None; rewrite Hcount; lia).
      rewrite Paginator_page_Some by (rewrite ?Hcount; lia). reflexivity. }
  split; [done|]. split; [done|]. split; [done|].
  split; [unfold shown; rewrite length_take; lia|].
  split; [apply trades_newest_first_perm|].
  split; [apply trades_newest_first_sorted|].
  etransitivity;
    [|apply (concat_slices (Z.to_nat ps) (Z.to_nat (num_pages count ps))
               trades); [lia|rewrite Hlen; unfold count in *; nia]].
  apply (f_equal (@concat Trade)).
  rewrite <- fmap_S_seq, <- list_fmap_compose.
  apply list_fmap_ext. intros i x Hx. cbn.
  apply lookup_seq in Hx as [-> Hx].
  rewrite Paginator_page_Some by (rewrite ?Hcount; lia). cbn.
  repeat (f_equal; try nia).
Qed.

(* ===================================================================== *)
(** ** Requests handled one at a time *)
(* ===================================================================== *)

Lemma upsert_ids o rows :
  order_id <$> upsert o rows
  = if decide (order_id o ∈ order_id <$> rows) then order_id <$> rows
    else (order_id <$> rows) ++ [order_id o].
Proof.
  induction rows as [|x rows IH]; cbn [upsert].
  - case_decide as Hd; [by apply elem_of_nil in Hd|done].
  - rewrite !fmap_cons.
    destruct (decide (order_id o ∈ order_id x :: (order_id <$> rows)))
      as [Hd'|Hd'];
      destruct (order_id x =? order_id o) eqn:E; rewrite fmap_cons.
    + apply Z.eqb_eq in E. by rewrite E.
    + apply Z.eqb_neq in E. rewrite IH.
      apply elem_of_cons in Hd' as [?|Hd']; [congruence|].
      by rewrite decide_True.
    + apply Z.eqb_eq in E. exfalso. apply Hd'. rewrite E. by left.
    + rewrite IH. rewrite decide_False; [done|].
      intros ?. apply Hd'. by right.
Qed.

Lemma upsert_NoDup o rows :
  NoDup (order_id <$> rows) → NoDup (order_id <$> upsert o rows).
Proof.
  intros H. rewrite upsert_ids. case_decide as Hin; [done|].
  apply NoDup_app. split; [done|]. split.
  - intros x Hx Hx'. apply list_elem_of_singleton in Hx' as ->. done.
  - apply NoDup_singleton.
Qed.

Lemma elem_of_upsert o rows r :
  NoDup (order_id <$> rows) → r ∈ upsert o rows →
  r = o ∨ (r ∈ rows ∧ order_id r ≠ order_id o).
Proof.
  induction rows as [|x rows IH]; simpl; intros Hnd Hr.
  - apply list_elem_of_singleton in Hr. by left.
  - apply NoDup_cons in Hnd as [Hx Hnd].
    destruct (order_id x =? order_id o) eqn:E.
    + apply Z.eqb_eq in E. apply elem_of_cons in Hr as [->|Hr]; [by left|].
      right. split; [by right|]. intros Heq. apply Hx.
      rewrite E, <- Heq. apply list_elem_of_fmap. by exists r.
    + apply Z.eqb_neq in E. apply elem_of_cons in Hr as [->|Hr].
      * right. split; [by left|done].
      * destruct (IH Hnd Hr) as [->|[Hin Hne]]; [by left|].
        right. split; [by right|done].
Qed.

Lemma fill_fields_active q p now o :
  is_active (to_row (fill_fields q p now o)) = true →
  remaining_quantity o - q ≠ 0 ∧ is_active o = true.
Proof.
  cbn. destruct (remaining_quantity o - q =? 0) eqn:E; [done|].
  intros H. split; [lia|done].
Qed.

Lemma row_ok_fill q p now o :
  price o ≠ 0 → q <= remaining_quantity o →
  row_ok (to_row (fill_fields q p now o)).
Proof.
  intros Hp Hq. split; [exact Hp|]. intros H.
  apply fill_fields_active in H as [H _].
  change (remaining_quantity (to_row (fill_fields q p now o)))
    with (remaining_quantity o - q). lia.
Qed.

Lemma store_ok_upsert o st :
  store_ok st → row_ok o → order_id o < uuid_supply st →
  store_ok (set_orders_tbl (upsert o (orders_tbl st)) st).
Proof.
  intros (Hnd & Hok & Hid) Ho Hlt. split; [by apply upsert_NoDup|].
  split; cbn [orders_tbl set_orders_tbl uuid_supply].
  - by apply upsert_Forall.
  - by apply (upsert_Forall (λ r, order_id r < uuid_supply st)).
Qed.

(** A trading iteration keeps what holds of the store and of
    [order_lookup]. *)
Lemma sync_match_inv_trade X X1 Y b1 b' st1 q p t :
  sync_match_inv X X1 b1 st1 →
  is_Some (order_lookup b1 !! order_id Y) → price Y ≠ 0 →
  0 < q → q <= remaining_quantity X1 → q <= remaining_quantity Y →
  (order_lookup b' = order_lookup b1
   ∨ (remaining_quantity Y - q = 0
      ∧ order_lookup b' = delete (order_id Y) (order_lookup b1))) →
  sync_match_inv X (fill_fields q p (clock st1) X1) b'
    (step_store t (fill_fields q p (clock st1) X1)
       (fill_fields q p (clock st1) Y) st1).
Proof.
  intros ((Hnd & Hok & Hids) & Hlt & Hin & HX & Hid & Hs & Hp & HR & Hnone
          & HidX) HY HpY Hq HqX HqY Hb'.
  set (X' := fill_fields q p (clock st1) X1).
  set (Y' := fill_fields q p (clock st1) Y).
  assert (order_id Y ≠ order_id X) as HneY
    by (intros E; rewrite E, Hnone in HY; by destruct HY).
  assert (∀ oid, is_Some (order_lookup b' !! oid) →
                 is_Some (order_lookup b1 !! oid)) as Hsub.
  { intros oid H. destruct Hb' as [E|[_ E]]; rewrite E in H; [done|].
    destruct (decide (oid = order_id Y)) as [->|Hne]; [done|].
    by rewrite lookup_delete_ne in H. }
  assert (NoDup (order_id <$> upsert (to_row X') (orders_tbl st1))) as Hnd1
    by (by apply upsert_NoDup).
  unfold sync_match_inv, step_store, store_ok.
  cbn [orders_tbl uuid_supply].
  split.
  { split; [by apply upsert_NoDup|]. split.
    - apply upsert_Forall; [by apply row_ok_fill|].
      apply upsert_Forall; [by apply row_ok_fill|done].
    - apply (upsert_Forall (λ r, order_id r < uuid_supply st1 + 1)).
      { cbn. specialize (Hlt _ HY). lia. }
      apply (upsert_Forall (λ r, order_id r < uuid_supply st1 + 1)).
      { cbn. lia. }
      eapply Forall_impl; [exact Hids|]. intros r Hr. cbn in Hr. lia. }
  split; [intros oid H; specialize (Hlt oid (Hsub oid H)); lia|].
  split.
  { intros r Hr Hlive Hne.
    apply (elem_of_upsert _ _ _ Hnd1) in Hr as [->|[Hr HneYr]].
    - destruct Hlive as [Hact _].
      apply fill_fields_active in Hact as [Hact _].
      destruct Hb' as [->|[Hz _]]; [exact HY|done].
    - apply (elem_of_upsert _ _ _ Hnd) in Hr as [->|[Hr HneXr]].
      { exfalso. apply Hne. cbn. exact Hid. }
      specialize (Hin r Hr Hlive Hne).
      destruct Hb' as [->|[_ ->]]; [done|].
      rewrite lookup_delete_ne; [done|]. cbn in HneYr. congruence. }
  split.
  { intros r Hr Hidr Hlive.
    apply (elem_of_upsert _ _ _ Hnd1) in Hr as [->|[Hr HneYr]].
    { exfalso. apply HneY. exact Hidr. }
    apply (elem_of_upsert _ _ _ Hnd) in Hr as [->|[Hr HneXr]].
    - destruct Hlive as [Hact _].
      apply fill_fields_active in Hact as [Hact _].
      change (remaining_quantity X') with (remaining_quantity X1 - q). lia.
    - exfalso. apply HneXr. cbn. congruence. }
  split; [exact Hid|]. split; [exact Hs|]. split; [exact Hp|].
  split; [change (remaining_quantity X') with (remaining_quantity X1 - q);
          lia|].
  split; [|lia].
  destruct Hb' as [->|[_ ->]]; [done|].
  rewrite lookup_delete_ne; [done|congruence].
Qed.

Lemma match_buy_order_sync X b st :
  book_wf b → sync_match_inv X X b st →
  ∃ trades X' b' st',
    _match_buy_order X b st = Some (Ok trades, X', b', st')
    ∧ sync_match_inv X X' b' st'.
Proof.
  intros Hwf HJ.
  destruct (match_buy_order_inv X b st (λ X1 b1 st1 _, sync_match_inv X X1 b1 st1)
              Hwf HJ)
    as (ts & X' & b' & st' & Hm & _ & HJ' & _).
  - intros X1 b1 st1 ts pa Y rest Hwf1 HJ1 Hb Hc Has HpY HRY _.
    unfold after_buy_trade. cbv zeta.
    destruct (book_wf_best_ask b1 pa Hwf1 Hb)
      as (Y0 & rest0 & Has0 & Hne & _ & _ & HlY & _).
    rewrite Has in Has0. injection Has0 as <- <-.
    destruct Hc as (HRX & _).
    apply (sync_match_inv_trade X X1 Y b1 _ st1 _ _ _ HJ1);
      [by rewrite HlY|congruence|lia|lia|lia|].
    destruct (_ =? 0) eqn:E.
    + right. split; [lia|apply order_lookup_pop_ask].
    + by left.
  - by exists ts, X', b', st'.
Qed.

Lemma match_sell_order_sync X b st :
  book_wf b → sync_match_inv X X b st →
  ∃ trades X' b' st',
    _match_sell_order X b st = Some (Ok trades, X', b', st')
    ∧ sync_match_inv X X' b' st'.
Proof.
  intros Hwf HJ.
  destruct (match_sell_order_inv X b st (λ X1 b1 st1 _, sync_match_inv X X1 b1 st1)
              Hwf HJ)
    as (ts & X' & b' & st' & Hm & _ & HJ' & _).
  - intros X1 b1 st1 ts pb Y rest Hwf1 HJ1 Hb Hc Hbs HpY HRY _.
    unfold after_sell_trade. cbv zeta.
    destruct (book_wf_best_bid b1 pb Hwf1 Hb)
      as (Y0 & rest0 & Hbs0 & Hne & _ & _ & HlY & _).
    rewrite Hbs in Hbs0. injection Hbs0 as <- <-.
    destruct Hc as (HRX & _).
    apply (sync_match_inv_trade X X1 Y b1 _ st1 _ _ _ HJ1);
      [by rewrite HlY|congruence|lia|lia|lia|].
    destruct (_ =? 0) eqn:E.
    + right. split; [lia|apply order_lookup_pop_bid].
    + by left.
  - by exists ts, X', b', st'.
Qed.

Lemma order_lookup_book_after_match X' b1 ts :
  order_lookup (book_after_match X' b1 ts)
  = if remaining_quantity X' >? 0
    then <[order_id X' := (price X', if side X' =? 1 then 1 else -1)]>
           (order_lookup b1)
    else order_lookup b1.
Proof.
  unfold book_after_match. cbn [order_lookup set_metrics].
  destruct (remaining_quantity X' >? 0); [|done].
  destruct (side X' =? 1).
  - apply order_lookup_add_buy_order.
  - apply order_lookup_add_sell_order.
Qed.

Lemma row_ok_loadable o : row_ok o → loadable o.
Proof. intros [Hp HR] Hact _. split; [done|by apply HR]. Qed.

(** [add_order] for an order that is not in the book, when every other live
    row is: the call returns, and what held of the book, the store and
    [order_lookup] holds again, the incoming order included. *)
Lemma add_order_sync X b st :
  book_wf b → uncrossed b → sync_match_inv X X b st →
  0 < remaining_quantity X →
  ∃ trades X' b' st',
    add_order X b st = Some (trades, X', b', st')
    ∧ book_wf b' ∧ uncrossed b' ∧ store_ok st'
    ∧ (∀ oid, is_Some (order_lookup b' !! oid) → oid < uuid_supply st')
    ∧ (∀ r, r ∈ orders_tbl st' → live r →
            is_Some (order_lookup b' !! order_id r)).
Proof.
  intros Hwf Hun HJ HR.
  pose proof HJ as ((Hnd & Hok & Hids) & Hlt & Hin & HX & _ & _ & Hp & _
                    & Hnone & HidX).
  assert (live_rows_in_book X b st) as Hlive.
  { intros r Hr Hact Hst Hne. apply Hin; [done|by split|done]. }
  assert (Forall loadable (orders_tbl st)) as Hload.
  { eapply Forall_impl; [exact Hok|]. apply row_ok_loadable. }
  pose proof (load_noop X b st Hlive) as Hnoop.
  destruct (add_order_uncrossed_aux X b st Hwf Hun Hlive)
    as (ts & X' & b1 & st' & Hadd & Hun').
  assert (book_wf (book_after_match X' b1 ts)) as Hwf'.
  { destruct (decide (side X = 1)) as [Hs|Hs].
    - destruct (add_order_buy_wf X b st Hs Hwf Hload Hp Hnone)
        as (ts2 & X2 & b2 & st2 & Hadd2 & Hwf2 & _).
      rewrite Hadd in Hadd2. by injection Hadd2 as _ _ -> _.
    - destruct (add_order_sell_wf X b st Hs Hwf Hload Hp Hnone)
        as (ts2 & X2 & b2 & st2 & Hadd2 & Hwf2 & _).
      rewrite Hadd in Hadd2. by injection Hadd2 as _ _ -> _. }
  assert (∃ b3, sync_match_inv X X' b3 st'
                ∧ book_after_match X' b1 ts = book_after_match X' b3 ts)
    as (b3 & HJ' & Hb3).
  { destruct (side X =? 1) eqn:Hs.
    - destruct (match_buy_order_sync X b st Hwf HJ)
        as (ts3 & X3 & b3 & st3 & Hm & HJ3).
      pose proof HJ3 as (_ & _ & _ & _ & _ & Hs3 & _).
      pose proof (add_order_after_match X b st ts3 X3 b3 st3 Hs3) as Hadd3.
      rewrite Hs, Hnoop in Hadd3. specialize (Hadd3 Hm).
      remember (book_after_match X' b1 ts) as B1 eqn:HB1.
      remember (book_after_match X3 b3 ts3) as B3 eqn:HB3.
      rewrite Hadd in Hadd3. injection Hadd3 as -> -> -> ->.
      exists b3. split; [done|congruence].
    - destruct (match_sell_order_sync X b st Hwf HJ)
        as (ts3 & X3 & b3 & st3 & Hm & HJ3).
      pose proof HJ3 as (_ & _ & _ & _ & _ & Hs3 & _).
      pose proof (add_order_after_match X b st ts3 X3 b3 st3 Hs3) as Hadd3.
      rewrite Hs, Hnoop in Hadd3. specialize (Hadd3 Hm).
      remember (book_after_match X' b1 ts) as B1 eqn:HB1.
      remember (book_after_match X3 b3 ts3) as B3 eqn:HB3.
      rewrite Hadd in Hadd3. injection Hadd3 as -> -> -> ->.
      exists b3. split; [done|congruence]. }
  destruct HJ' as (Hst' & Hlt' & Hin' & HX' & Hid' & _ & _ & HR' & _ & HidX').
  exists ts, X', (book_after_match X' b1 ts), st'.
  split; [done|]. split; [done|]. split; [done|]. split; [done|].
  rewrite Hb3, order_lookup_book_after_match. split.
  - intros oid H. destruct (remaining_quantity X' >? 0); [|by apply Hlt'].
    destruct (decide (oid = order_id X')) as [->|Hne]; [by rewrite Hid'|].
    rewrite lookup_insert_ne in H by done. by apply Hlt'.
  - intros r Hr Hl. destruct (decide (order_id r = order_id X)) as [E|Hne].
    + specialize (HX' r Hr E Hl).
      destruct (remaining_quantity X' >? 0) eqn:ER; [|lia].
      rewrite E, <- Hid', lookup_insert_eq. eauto.
    + specialize (Hin' r Hr Hl Hne).
      destruct (remaining_quantity X' >? 0); [|done].
      rewrite lookup_insert_ne; [done|congruence].
Qed.

Lemma create_accepted req w s q p :
  PlaceOrderSerializer req = inl (s, q, p) → p <= 99999999 →
  (create req w).2
  = let X := mkOrder (uuid_supply (store w)) s q p q 0 0 ACTIVE true
               (clock (store w)) (clock (store w)) None in
    mkWorld (book w)
      (mkStore (upsert X (orders_tbl (store w))) (trades_tbl (store w))
         (clock (store w)) (uuid_supply (store w) + 1))
      (pending w ++ [ProcessOrder X]).
Proof.
  intros Hser Hp.
  destruct (PlaceOrderSerializer_valid _ _ _ _ Hser) as (Hs & Hq & Hp' & _).
  destruct (validate_order_data_spec s q p Hs Hq ltac:(lia))
    as [[_ Hv]|[Hgt _]]; [|lia].
  unfold create. rewrite Hser, Hv, Order_objects_create_spec. reflexivity.
Qed.

Lemma destroy_accepted pk w row r b st :
  Order_objects_get pk (store w) = Some row → modifiable row →
  cancel_order pk (book w) (store w) = (Ok r, b, st) →
  (destroy pk w).2
  = mkWorld b (if r then st else (Order_save (cancelled row) st).2)
      (pending w).
Proof.
  intros Hget Hm Hc. unfold destroy. rewrite Hget.
  pose proof (Order_objects_get_In _ _ _ Hget) as [_ Hid].
  apply modifiable_spec in Hm. rewrite Hm, Hid, Hc. by destruct r.
Qed.

Lemma cancel_order_doms oid b st r b' st' :
  cancel_order oid b st = (r, b', st') →
  (dom (bids b') : gset Z) ⊆ dom (bids b)
  ∧ (dom (asks b') : gset Z) ⊆ dom (asks b).
Proof.
  unfold cancel_order.
  destruct (order_lookup b !! oid) as [[p s]|]; [|by intros [= <- <- <-]].
  destruct (s =? 1).
  - destruct (bids b !! p) as [l|] eqn:Hl; [|by intros [= <- <- <-]].
    destruct (list_remove_pk oid l) as [[o l']|]; [|by intros [= <- <- <-]].
    apply elem_of_dom_2 in Hl.
    intros [= _ <- _]. destruct l'; cbn.
    + rewrite delete_insert_eq. destruct (decide _); cbn;
        (split; [|done]); rewrite dom_delete_L; set_solver.
    + split; [|done]. rewrite dom_insert_L. set_solver.
  - destruct (asks b !! p) as [l|] eqn:Hl; [|by intros [= <- <- <-]].
    destruct (list_remove_pk oid l) as [[o l']|]; [|by intros [= <- <- <-]].
    apply elem_of_dom_2 in Hl.
    intros [= _ <- _]. destruct l'; cbn.
    + rewrite delete_insert_eq. destruct (decide _); cbn;
        (split; [done|]); rewrite dom_delete_L; set_solver.
    + split; [done|]. rewrite dom_insert_L. set_solver.
Qed.

Lemma uncrossed_shrink b b' :
  book_wf b → book_wf b' →
  (dom (bids b') : gset Z) ⊆ dom (bids b) →
  (dom (asks b') : gset Z) ⊆ dom (asks b) →
  uncrossed b → uncrossed b'.
Proof.
  intros Hwf Hwf' Hb Ha Hun pb pa Hpb Hpa.
  destruct (book_wf_best_bid b' pb Hwf' Hpb) as (Y & rest & Hbs & _).
  destruct (book_wf_best_ask b' pa Hwf' Hpa) as (Y' & rest' & Has & _).
  apply elem_of_dom_2 in Hbs. apply elem_of_dom_2 in Has.
  destruct (best_bid_upper_bound b pb Hwf (Hb _ Hbs)) as (pb0 & H1 & H2).
  destruct (best_ask_lower_bound b pa Hwf (Ha _ Has)) as (pa0 & H3 & H4).
  specialize (Hun pb0 pa0 H1 H3). lia.
Qed.

(** [cancel_order] under the same conditions. *)
Lemma cancel_order_sync oid b st :
  book_wf b → uncrossed b → store_ok st →
  (∀ o, is_Some (order_lookup b !! o) → o < uuid_supply st) →
  (∀ r, r ∈ orders_tbl st → live r → order_id r ≠ oid →
        is_Some (order_lookup b !! order_id r)) →
  (is_Some (order_lookup b !! oid) → oid < uuid_supply st) →
  ∃ ok b' st',
    cancel_order oid b st = (Ok ok, b', st')
    ∧ book_wf b' ∧ uncrossed b' ∧ store_ok st'
    ∧ uuid_supply st' = uuid_supply st
    ∧ order_lookup b' !! oid = None
    ∧ (∀ o, is_Some (order_lookup b' !! o) → o < uuid_supply st')
    ∧ (∀ r, r ∈ orders_tbl st' → live r → order_id r ≠ oid →
            is_Some (order_lookup b' !! order_id r))
    ∧ (∀ r, r ∈ orders_tbl st' → order_id r = oid →
            if ok then ¬ live r else r ∈ orders_tbl st)
    ∧ (ok = false → b' = b ∧ st' = st).
Proof.
  intros Hwf Hun Hst Hlt Hin HltO.
  destruct (order_lookup b !! oid) as [[p s]|] eqn:Hlk.
  - destruct (cancel_order_resting oid b st p s Hwf Hlk)
      as (o & b' & Hc & Hid & Hp & HR & Hrest & Hwf' & Hnot).
    destruct (cancel_order_doms _ _ _ _ _ _ Hc) as [Hdb Hda].
    pose proof (cancel_order_true_lookup _ _ _ _ _ Hc) as Hlk'.
    assert (p ≠ 0) as Hp0.
    { pose proof Hwf as (Hb & Ha & _).
      destruct Hrest as [[_ (l & x & Hl & _)]|[_ (l & x & Hl & _)]].
      - by destruct (Hb p l Hl) as (_ & ? & _).
      - by destruct (Ha p l Hl) as (_ & ? & _). }
    set (row := to_row (set_updated_at (clock st) (cancelled o))).
    assert (¬ live row) as Hnl by (intros [H _]; done).
    exists true, b', (Order_save (cancelled o) st).2.
    split; [done|]. split; [done|].
    split; [by apply (uncrossed_shrink b b')|].
    cbn [Order_save snd].
    split.
    { apply store_ok_upsert; [done| |].
      - split; [cbn; congruence|done].
      - cbn. rewrite Hid. apply HltO. eauto. }
    split; [done|]. split; [apply Hnot|].
    cbn [orders_tbl set_orders_tbl uuid_supply].
    split.
    { intros x Hx. rewrite Hlk' in Hx.
      destruct (decide (x = oid)) as [->|Hne];
        [by rewrite lookup_delete_eq in Hx; destruct Hx|].
      rewrite lookup_delete_ne in Hx by done. by apply Hlt. }
    split.
    { intros r Hr Hl Hne. destruct Hst as (Hnd & _).
      apply (elem_of_upsert _ _ _ Hnd) in Hr as [->|[Hr _]]; [done|].
      rewrite Hlk', lookup_delete_ne by done. by apply Hin. }
    split; [|done].
    intros r Hr Hidr. destruct Hst as (Hnd & _).
    apply (elem_of_upsert _ _ _ Hnd) in Hr as [->|[Hr Hne]]; [done|].
    exfalso. apply Hne. cbn. congruence.
  - exists false, b, st. rewrite cancel_order_unknown by done.
    split; [done|]. do 4 (split; [done|]). split; [done|].
    split; [done|]. split; [done|]. split; [|done]. by intros r Hr _.
Qed.

Lemma exec_all_app cs1 cs2 w :
  exec_all (cs1 ++ cs2) w = exec_all cs1 w ≫= exec_all cs2.
Proof.
  revert w. induction cs1 as [|c cs1 IH]; intros w; [done|].
  cbn [app exec_all]. destruct (exec c w) as [w1|]; [|done]. apply IH.
Qed.

Lemma exec_place_run req w :
  exec_all [Place req; RunWorker] w = run_worker (create req w).2.
Proof.
  cbn [exec_all exec mbind option_bind].
  by destruct (run_worker _).
Qed.

Lemma exec_modify_run pk req w :
  exec_all [Modify pk req; RunWorker] w = run_worker (update pk req w).2.
Proof.
  cbn [exec_all exec mbind option_bind].
  by destruct (run_worker _).
Qed.

Lemma run_worker_idle w : pending w = [] → run_worker w = Some w.
Proof. intros H. unfold run_worker. by rewrite H. Qed.

Lemma sync_place req w :
  sync_inv w →
  ∃ w', exec_all [Place req; RunWorker] w = Some w' ∧ sync_inv w'.
Proof.
  intros Hinv. pose proof Hinv as (Hpend & Hwf & Hun & Hst & Hlt & Hin).
  rewrite exec_place_run.
  destruct (create_cases req w)
    as [(errs & _ & _ & Hw)
       |[(s & q & p & _ & _ & _ & Hw)|(s & q & p & Hser & Hle & _)]].
  - rewrite Hw. exists w. split; [by apply run_worker_idle|done].
  - rewrite Hw. exists w. split; [by apply run_worker_idle|done].
  - rewrite (create_accepted req w s q p Hser Hle). cbv zeta.
    destruct (PlaceOrderSerializer_valid _ _ _ _ Hser) as (Hs & Hq & Hp & _).
    set (X := mkOrder (uuid_supply (store w)) s q p q 0 0 ACTIVE true
                (clock (store w)) (clock (store w)) None).
    set (st1 := mkStore (upsert X (orders_tbl (store w)))
                  (trades_tbl (store w)) (clock (store w))
                  (uuid_supply (store w) + 1)).
    assert (order_lookup (book w) !! order_id X = None) as Hnone.
    { destruct (order_lookup (book w) !! order_id X) eqn:E; [|done].
      specialize (Hlt (order_id X) ltac:(by rewrite E)). cbn in Hlt. lia. }
    assert (sync_match_inv X X (book w) st1) as HJ.
    { pose proof Hst as (Hnd & Hok & Hids).
      split.
      { split; [by apply upsert_NoDup|]. split.
        - apply upsert_Forall; [|done]. split; cbn; lia.
        - apply (upsert_Forall (λ r, order_id r < uuid_supply st1)).
          + cbn. lia.
          + eapply Forall_impl; [exact Hids|]. intros r Hr. cbn in *. lia. }
      split; [intros oid H; specialize (Hlt oid H); cbn; lia|].
      split.
      { intros r Hr Hl Hne.
        apply (elem_of_upsert _ _ _ Hnd) in Hr as [->|[Hr _]]; [done|].
        by apply Hin. }
      split; [intros; cbn; lia|].
      do 2 (split; [done|]). split; [cbn; lia|]. split; [cbn; lia|].
      split; [done|]. cbn. lia. }
    destruct (add_order_sync X (book w) st1 Hwf Hun HJ ltac:(cbn; lia))
      as (ts & X' & b' & st' & Hadd & Hwf' & Hun' & Hst' & Hlt' & Hin').
    exists (mkWorld b' st' []). split.
    + unfold run_worker, run_job. cbn [pending book store].
      rewrite Hpend. cbn [app]. by rewrite Hadd.
    + exact (conj eq_refl (conj Hwf' (conj Hun' (conj Hst'
               (conj Hlt' Hin'))))).
Qed.

Lemma sync_cancel pk w :
  sync_inv w →
  ∃ w', exec_all [Cancel pk] w = Some w' ∧ sync_inv w'.
Proof.
  intros Hinv. pose proof Hinv as (Hpend & Hwf & Hun & Hst & Hlt & Hin).
  exists (destroy pk w).2. split; [done|].
  destruct (Order_objects_get pk (store w)) as [row|] eqn:Hget.
  2: { destruct (destroy_cases pk w)
         as [(_ & _ & ->)
            |[(row & Hg & _)|[(row & e & b & st & Hg & _)
                             |(row & r & b & st & o & Hg & _)]]];
         [done|congruence..]. }
  destruct (modifiable_dec row) as [Hm|Hm].
  2: { destruct (destroy_cases pk w)
         as [(Hg & _)
            |[(row1 & Hg & _ & _ & ->)
             |[(row1 & e & b & st & Hg & Hm1 & _)
              |(row1 & r & b & st & o & Hg & Hm1 & _)]]];
         [congruence|done| |]; rewrite Hget in Hg; by injection Hg as <-. }
  pose proof (Order_objects_get_In _ _ _ Hget) as [Hrow Hid].
  pose proof Hst as (Hnd & Hok & Hids).
  assert (pk < uuid_supply (store w)) as Hpk.
  { rewrite Forall_forall in Hids. rewrite <- Hid. by apply Hids. }
  destruct (cancel_order_sync pk (book w) (store w) Hwf Hun Hst Hlt
              ltac:(intros r Hr Hl _; by apply Hin) ltac:(done))
    as (ok & b' & st' & Hc & Hwf' & Hun' & Hst' & Hu' & Hnone' & Hlt' & Hin'
        & Hrow' & Hfalse).
  rewrite (destroy_accepted pk w row ok b' st' Hget Hm Hc).
  destruct ok.
  - split; [done|]. do 3 (split; [done|]). split; [done|].
    cbn [store book]. intros r Hr Hl.
    destruct (decide (order_id r = pk)) as [E|Hne];
      [by destruct (Hrow' r Hr E)|by apply Hin'].
  - destruct (Hfalse eq_refl) as [-> ->].
    cbn [Order_save snd].
    set (row' := to_row (set_updated_at (clock (store w)) (cancelled row))).
    split; [done|]. do 2 (split; [done|]). cbn [store book].
    split.
    { apply store_ok_upsert; [done| |cbn; lia].
      rewrite Forall_forall in Hok. destruct (Hok row Hrow) as [Hp _].
      split; [exact Hp|done]. }
    split; [done|].
    intros r Hr Hl. cbn [orders_tbl set_orders_tbl] in Hr.
    apply (elem_of_upsert _ _ _ Hnd) in Hr as [->|[Hr _]];
      [by destruct Hl|by apply Hin].
Qed.

Lemma sync_modify pk req w :
  sync_inv w →
  ∃ w', exec_all [Modify pk req; RunWorker] w = Some w' ∧ sync_inv w'.
Proof.
  intros Hinv. pose proof Hinv as (Hpend & Hwf & Hun & Hst & Hlt & Hin).
  rewrite exec_modify_run.
  destruct (update_cases pk req w)
    as [(_ & _ & Hw)
       |[(row & _ & _ & _ & Hw)
        |[(row & errs & _ & _ & _ & _ & Hw)
         |(row & c & Hget & Hm & Hser & _ & Hw)]]];
    try (rewrite Hw; exists w; split; [by apply run_worker_idle|done]).
  rewrite Hw. cbv zeta. rewrite Hpend. cbn [app].
  pose proof (Order_objects_get_In _ _ _ Hget) as [Hrow Hid].
  pose proof Hst as (Hnd & Hok & Hids).
  assert (pk < uuid_supply (store w)) as Hpk.
  { rewrite Forall_forall in Hids. rewrite <- Hid. by apply Hids. }
  assert (row_ok row) as [Hprow HRrow]
    by (rewrite Forall_forall in Hok; by apply Hok).
  destruct Hm as (Hact & _).
  assert (1 <= c) as Hc1.
  { apply ModifyOrderSerializer_inv in Hser as (i & pq & _ & _ & Hpq).
    apply serializer_price_range in Hpq. lia. }
  set (o := set_updated_at (clock (store w))
              (set_is_active true (set_status ACTIVE (set_price c row)))).
  set (st1 := set_orders_tbl (upsert (to_row o) (orders_tbl (store w)))
                (store w)).
  assert (store_ok st1) as Hst1.
  { apply store_ok_upsert; [done| |cbn; lia].
    split; [cbn; lia|]. intros _. cbn. by apply HRrow. }
  destruct (cancel_order_sync pk (book w) st1 Hwf Hun Hst1 Hlt)
    as (ok & b' & st2 & Hc & Hwf' & Hun' & Hst2 & Hu2 & Hnone2 & Hlt2 & Hin2
        & _).
  { intros r Hr Hl Hne. cbn [st1 orders_tbl set_orders_tbl] in Hr.
    apply (elem_of_upsert _ _ _ Hnd) in Hr as [->|[Hr _]];
      [exfalso; apply Hne; cbn; exact Hid|by apply Hin]. }
  { intros _. exact Hpk. }
  assert (sync_match_inv o o b' st2) as HJ.
  { split; [done|]. split; [done|].
    split; [intros r Hr Hl Hne; apply Hin2; try done; cbn in Hne; congruence|].
    split; [intros; cbn; by apply HRrow|].
    do 2 (split; [done|]). split; [cbn; lia|].
    split; [cbn; specialize (HRrow Hact); lia|].
    split; [cbn; by rewrite Hid|]. cbn. rewrite Hid, Hu2. exact Hpk. }
  destruct (add_order_sync o b' st2 Hwf' Hun' HJ
              ltac:(cbn; by apply HRrow))
    as (ts & X' & b'' & st' & Hadd & Hwf'' & Hun'' & Hst' & Hlt' & Hin').
  exists (mkWorld b'' st' []). split.
  - unfold run_worker, run_job. cbn [pending book store].
    assert (order_id o = pk) as -> by exact Hid.
    fold st1. rewrite Hc. by rewrite Hadd.
  - exact (conj eq_refl (conj Hwf'' (conj Hun'' (conj Hst'
             (conj Hlt' Hin'))))).
Qed.

Lemma sync_tick w :
  sync_inv w → ∃ w', exec_all [Tick] w = Some w' ∧ sync_inv w'.
Proof.
  intros (Hpend & Hwf & Hun & Hst & Hlt & Hin).
  eexists. split; [reflexivity|].
  exact (conj Hpend (conj Hwf (conj Hun (conj Hst (conj Hlt Hin))))).
Qed.

(** X18.  When the requests are handled one at a time, each worker running
    to its end before the next request (place, modify and cancel requests
    with any data, valid or not, and the clock moving), the process never
    fails to go on, and between two requests: no worker is left; the book
    is well formed (no empty level, every resting order at its level's
    price with a positive remaining quantity, one entry in [order_lookup]
    per resting order, the cached best prices the greatest bid and the
    least ask); the best bid is below the best ask; every id is taken from
    the supply and has one row; and every active row with status ACTIVE or
    PARTIALLY_FILLED is an order of the book. *)
Theorem synchronous_operation_invariant cs w :
  sync_inv w →
  ∃ w', exec_all (cs ≫= sync_commands) w = Some w' ∧ sync_inv w'.
Proof.
  revert w. induction cs as [|c cs IH]; intros w Hinv.
  - exists w. by split.
  - assert (∃ w1, exec_all (sync_commands c) w = Some w1 ∧ sync_inv w1)
      as (w1 & He & Hinv1).
    { destruct c as [req|pk req|pk|]; cbn [sync_commands].
      - by apply sync_place.
      - by apply sync_modify.
      - by apply sync_cancel.
      - by apply sync_tick. }
    destruct (IH w1 Hinv1) as (w' & He' & Hinv').
    exists w'. split; [|done].
    change ((c :: cs) ≫= sync_commands)
      with (sync_commands c ++ (cs ≫= sync_commands)).
    rewrite exec_all_app, He. exact He'.
Qed.

Lemma sync_inv_fresh : sync_inv ex_world0.
Proof.
  split; [done|]. split; [apply book_wf_empty|].
  split; [intros pb pa H; discriminate H|].
  split; [repeat split; constructor|].
  split; [intros oid H; cbn in H; rewrite lookup_empty in H; by destruct H|].
  intros r Hr. by apply elem_of_nil in Hr.
Qed.

Lemma synchronous_operation_invariant_witness :
  sync_inv ex_world0
  ∧ ∃ w', exec_all
            ([SyncPlace (place_request "sell" 3 (PyDecimal.mkDecimal 100 0));
              SyncPlace (place_request "buy" 5 (PyDecimal.mkDecimal 100 0));
              SyncCancel 101] ≫= sync_commands) ex_world0
          = Some w'
          ∧ sync_inv w'.
Proof.
  split; [exact sync_inv_fresh|].
  exact (synchronous_operation_invariant _ ex_world0 sync_inv_fresh).
Defined.

(* ===================================================================== *)
(** ** The terminal marks and the status helper *)
(* ===================================================================== *)

(** X19.  [Order.mark_as_filled] and [Order.mark_as_cancelled] set the
    status (FILLED, CANCELLED), clear [is_active], set the remaining
    quantity to 0 whatever it was, leave the traded and the total quantity
    alone, and write the row.  So they keep [quantity = remaining + traded]
    exactly when nothing remained: [update_trade] calls [mark_as_filled]
    only then, and nothing calls [mark_as_cancelled]. *)
Theorem terminal_marks_zero_remaining o st :
  (status (mark_as_filled o st).1 = FILLED
   ∧ is_active (mark_as_filled o st).1 = false
   ∧ remaining_quantity (mark_as_filled o st).1 = 0
   ∧ traded_quantity (mark_as_filled o st).1 = traded_quantity o
   ∧ quantity (mark_as_filled o st).1 = quantity o
   ∧ Order_objects_get (order_id o) (mark_as_filled o st).2
     = Some (to_row (mark_as_filled o st).1)
   ∧ (qty_inv o →
      (qty_inv (mark_as_filled o st).1 ↔ remaining_quantity o = 0)))
  ∧ (status (mark_as_cancelled o st).1 = CANCELLED
     ∧ is_active (mark_as_cancelled o st).1 = false
     ∧ remaining_quantity (mark_as_cancelled o st).1 = 0
     ∧ traded_quantity (mark_as_cancelled o st).1 = traded_quantity o
     ∧ quantity (mark_as_cancelled o st).1 = quantity o
     ∧ Order_objects_get (order_id o) (mark_as_cancelled o st).2
       = Some (to_row (mark_as_cancelled o st).1)
     ∧ (qty_inv o →
        (qty_inv (mark_as_cancelled o st).1 ↔ remaining_quantity o = 0))).
Proof.
  destruct o as [oid sd qty pr R T avg s a ca ua uid],
           st as [rows trs now sup].
  unfold mark_as_filled, mark_as_cancelled, Order_save, qty_inv.
  cbn [fst snd status is_active remaining_quantity traded_quantity quantity
       order_id set_status set_is_active set_remaining_quantity
       set_updated_at clock].
  split.
  - do 5 (split; [reflexivity|]). split.
    + apply (Order_objects_get_upsert
               (to_row (mkOrder oid sd qty pr 0 T avg FILLED false ca now
                          uid))).
    + intros H. lia.
  - do 5 (split; [reflexivity|]). split.
    + apply (Order_objects_get_upsert
               (to_row (mkOrder oid sd qty pr 0 T avg CANCELLED false ca now
                          uid))).
    + intros H. lia.
Qed.

(** X20.  [OrderBook._update_order_status], which nothing calls, gives an
    order the status [update_trade] has given it: applied to an active
    order after a fill of a positive quantity it changes nothing.  It looks
    at the remaining quantity only, touches no quantity, and a second
    application changes nothing. *)
Theorem update_order_status_agrees q p now o :
  0 < q → 0 <= traded_quantity o → is_active o = true →
  _update_order_status (fill_fields q p now o) = fill_fields q p now o
  ∧ _update_order_status (_update_order_status o) = _update_order_status o
  ∧ remaining_quantity (_update_order_status o) = remaining_quantity o
  ∧ traded_quantity (_update_order_status o) = traded_quantity o
  ∧ quantity (_update_order_status o) = quantity o
  ∧ (status (_update_order_status o) = FILLED
     ↔ remaining_quantity o = 0).
Proof.
  intros Hq HT Hact. unfold _update_order_status. split.
  - cbn [fill_fields remaining_quantity].
    destruct (remaining_quantity o - q =? 0) eqn:E.
    + unfold fill_fields. rewrite E. reflexivity.
    + unfold fill_fields. rewrite E.
      assert ((traded_quantity o + q >? 0) = true) as -> by lia.
      cbn. by rewrite Hact.
  - destruct (remaining_quantity o =? 0) eqn:E; cbn; rewrite E;
      split; try reflexivity; repeat split; try done; lia.
Qed.

Lemma update_order_status_agrees_witness :
  0 < 3 ∧ 0 <= traded_quantity ex_bid_10 ∧ is_active ex_bid_10 = true
  ∧ _update_order_status (fill_fields 3 10000 5 ex_bid_10)
    = fill_fields 3 10000 5 ex_bid_10.
Proof.
  assert (0 < 3) as H1 by lia.
  assert (0 <= traded_quantity ex_bid_10) as H2 by (cbn; lia).
  assert (is_active ex_bid_10 = true) as H3 by reflexivity.
  do 3 (split; [done|]).
  exact (proj1 (update_order_status_agrees 3 10000 5 ex_bid_10 H1 H2 H3)).
Defined.

(* ===================================================================== *)
(** ** Price priority *)
(* ===================================================================== *)

Lemma StronglySorted_snoc {A} (R : A → A → Prop) l x :
  StronglySorted R l → Forall (λ a, R a x) l → StronglySorted R (l ++ [x]).
Proof.
  induction 1 as [|y l Hl IH Hy]; intros HF; simpl.
  - repeat constructor.
  - apply Forall_cons in HF as [Hyx HF]. constructor; [by apply IH|].
    apply Forall_app. split; [done|]. by constructor.
Qed.

Lemma after_buy_trade_dom X1 b1 st1 pa Y rest :
  asks b1 !! pa = Some (Y :: rest) →
  (dom (asks (after_buy_trade X1 b1 st1 pa Y rest).1.2) : gset Z)
  ⊆ dom (asks b1).
Proof.
  intros Has. apply elem_of_dom_2 in Has.
  unfold after_buy_trade. cbn [fst snd]. destruct (_ =? 0).
  - rewrite asks_pop_ask.
    destruct rest; [rewrite dom_delete_L|rewrite dom_insert_L]; set_solver.
  - cbn [asks set_asks]. rewrite dom_insert_L. set_solver.
Qed.

Lemma after_sell_trade_dom X1 b1 st1 pb Y rest :
  bids b1 !! pb = Some (Y :: rest) →
  (dom (bids (after_sell_trade X1 b1 st1 pb Y rest).1.2) : gset Z)
  ⊆ dom (bids b1).
Proof.
  intros Hbs. apply elem_of_dom_2 in Hbs.
  unfold after_sell_trade. cbn [fst snd]. destruct (_ =? 0).
  - rewrite bids_pop_bid.
    destruct rest; [rewrite dom_delete_L|rewrite dom_insert_L]; set_solver.
  - cbn [bids set_bids]. rewrite dom_insert_L. set_solver.
Qed.

Lemma match_buy_order_prices X b st :
  book_wf b →
  ∃ trades X' b' st',
    _match_buy_order X b st = Some (Ok trades, X', b', st')
    ∧ Forall (λ t, trade_price t <= price X) trades
    ∧ StronglySorted (λ a c, trade_price a <= trade_price c) trades.
Proof.
  intros Hwf.
  destruct (match_buy_order_inv X b st
              (λ X1 b1 _ ts,
                 price X1 = price X
                 ∧ (∀ t p, t ∈ ts → p ∈ (dom (asks b1) : gset Z) →
                           trade_price t <= p)
                 ∧ Forall (λ t, trade_price t <= price X) ts
                 ∧ StronglySorted (λ a c, trade_price a <= trade_price c) ts)
              Hwf)
    as (ts & X' & b' & st' & Hm & _ & (_ & _ & HF & HS) & _).
  - split; [done|]. split; [intros t p Ht; by apply elem_of_nil in Ht|].
    split; constructor.
  - intros X1 b1 st1 ts pa Y rest _ (Hp & Hlow & HF & HS) Hb Hc Has _ _ Hmin.
    pose proof (after_buy_trade_dom X1 b1 st1 pa Y rest Has) as Hdom.
    pose proof (elem_of_dom_2 _ _ _ Has) as Hpa.
    destruct Hc as (_ & _ & Hle).
    unfold after_buy_trade in *. cbv zeta in *. cbn [fst snd] in Hdom.
    split; [done|]. split.
    { intros t p Ht Hp'. apply Hdom in Hp'.
      apply elem_of_app in Ht as [Ht|Ht]; [by apply Hlow|].
      apply list_elem_of_singleton in Ht as ->. cbn. by apply Hmin. }
    split.
    { apply Forall_app. split; [done|]. constructor; [|constructor].
      cbn. lia. }
    apply StronglySorted_snoc; [done|].
    apply Forall_forall. intros t Ht. cbn. by apply Hlow.
  - by exists ts, X', b', st'.
Qed.

Lemma match_sell_order_prices X b st :
  book_wf b →
  ∃ trades X' b' st',
    _match_sell_order X b st = Some (Ok trades, X', b', st')
    ∧ Forall (λ t, price X <= trade_price t) trades
    ∧ StronglySorted (λ a c, trade_price c <= trade_price a) trades.
Proof.
  intros Hwf.
  destruct (match_sell_order_inv X b st
              (λ X1 b1 _ ts,
                 price X1 = price X
                 ∧ (∀ t p, t ∈ ts → p ∈ (dom (bids b1) : gset Z) →
                           p <= trade_price t)
                 ∧ Forall (λ t, price X <= trade_price t) ts
                 ∧ StronglySorted (λ a c, trade_price c <= trade_price a) ts)
              Hwf)
    as (ts & X' & b' & st' & Hm & _ & (_ & _ & HF & HS) & _).
  - split; [done|]. split; [intros t p Ht; by apply elem_of_nil in Ht|].
    split; constructor.
  - intros X1 b1 st1 ts pb Y rest _ (Hp & Hup & HF & HS) Hb Hc Hbs _ _ Hmax.
    pose proof (after_sell_trade_dom X1 b1 st1 pb Y rest Hbs) as Hdom.
    pose proof (elem_of_dom_2 _ _ _ Hbs) as Hpb.
    destruct Hc as (_ & _ & Hle).
    unfold after_sell_trade in *. cbv zeta in *. cbn [fst snd] in Hdom.
    split; [done|]. split.
    { intros t p Ht Hp'. apply Hdom in Hp'.
      apply elem_of_app in Ht as [Ht|Ht]; [by apply Hup|].
      apply list_elem_of_singleton in Ht as ->. cbn. by apply Hmax. }
    split.
    { apply Forall_app. split; [done|]. constructor; [|constructor].
      cbn. lia. }
    apply StronglySorted_snoc; [done|].
    apply Forall_forall. intros t Ht. cbn. by apply Hup.
  - by exists ts, X', b', st'.
Qed.

(** X21.  [add_order] in a well-formed book trades best price first and
    never beyond the order's limit: for a buy order every trade is at a
    price at most the order's price and the trade prices go up along the
    list of trades; for a sell order every trade is at a price at least the
    order's price and the trade prices go down. *)
Theorem add_order_price_priority X b st :
  book_wf b → Forall loadable (orders_tbl st) →
  ∃ trades X' b' st',
    add_order X b st = Some (trades, X', b', st')
    ∧ (side X = 1 →
       Forall (λ t, trade_price t <= price X) trades
       ∧ StronglySorted (λ a c, trade_price a <= trade_price c) trades)
    ∧ (side X ≠ 1 →
       Forall (λ t, price X <= trade_price t) trades
       ∧ StronglySorted (λ a c, trade_price c <= trade_price a) trades).
Proof.
  intros Hwf Hrows.
  destruct (load_matching_orders_wf X b st Hwf Hrows) as (Hwf1 & _).
  destruct (add_order_account X b st Hwf Hrows)
    as (ts & X' & b1 & st' & Hadd & _ & (_ & Hs' & _) & _).
  exists ts, X', (book_after_match X' b1 ts), st'. split; [done|].
  destruct (side X =? 1) eqn:Hs.
  - destruct (match_buy_order_prices X (_load_matching_orders X b st) st
                Hwf1) as (ts2 & X2 & b2 & st2 & Hm & HF & HS).
    assert (ts2 = ts) as ->.
    { unfold add_order in Hadd. rewrite Hs, Hm in Hadd. congruence. }
    split; [done|]. intros Hne. lia.
  - destruct (match_sell_order_prices X (_load_matching_orders X b st) st
                Hwf1) as (ts2 & X2 & b2 & st2 & Hm & HF & HS).
    assert (ts2 = ts) as ->.
    { unfold add_order in Hadd. rewrite Hs, Hm in Hadd. congruence. }
    split; [|done]. intros Heq. lia.
Qed.

Lemma add_order_price_priority_witness :
  book_wf (book ex_world_one_ask)
  ∧ Forall loadable (orders_tbl (store ex_world_one_ask))
  ∧ ∃ trades X' b' st',
      add_order ex_buy (book ex_world_one_ask) (store ex_world_one_ask)
      = Some (trades, X', b', st')
      ∧ Forall (λ t, trade_price t <= price ex_buy) trades.
Proof.
  assert (Forall loadable (orders_tbl (store ex_world_one_ask))) as Hrows.
  { constructor; [|constructor]. intros _ _.
    split; [discriminate|reflexivity]. }
  split; [exact ex_world_one_ask_wf|]. split; [exact Hrows|].
  destruct (add_order_price_priority ex_buy (book ex_world_one_ask)
              (store ex_world_one_ask) ex_world_one_ask_wf Hrows)
    as (ts & X' & b' & st' & Hadd & Hbuy & _).
  exists ts, X', b', st'. split; [done|]. by apply Hbuy.
Defined.
